(** * ax-agent-studio: the inbound message pipeline, the liveness registry,
      the MCP server manager and the deployment groups

    A shallow embedding of
      - [src/ax_agent_studio/monitoring/liveness.py] (LivenessRecord,
        LivenessRegistry),
      - [src/ax_agent_studio/queue_manager.py] (QueueManager: the mention
        parser, the error classifier, the startup sweep, the poller and
        the processor),
      - [src/ax_agent_studio/mcp_manager.py] (MCPServerManager: the
        configuration, connecting and reconnecting, operations with
        retry) and
      - [src/ax_agent_studio/dashboard/backend/deployment_loader.py]
        (DeploymentLoader)
    together with the properties the specification states about them and
    further properties that the code shows.

    Conventions.
      - A Python [str] is a list of Unicode code points ([pystr]).
      - A Python [int] is a [Z]; a [float] is a binary64 [float].
      - [datetime] values are microseconds since the epoch and [timedelta]
        values are microseconds, both in [Z] (the resolution Python keeps).
      - The asynchronous tasks are modelled one loop iteration at a time,
        as functions on an explicit world (message store, session, kill
        switch, trace of the calls made so far). *)
From Stdlib Require Import ZArith NArith List String Ascii Bool Lia PrimFloat Sorted.
From Stdlib Require SpecFloat FloatOps.
From stdpp Require Import gmap strings list.

Local Open Scope Z_scope.

(** ** Python strings *)

Module PyStr.

Definition pystr := list N.

(** An ASCII literal as a Python string. *)
Definition py (s : string) : pystr :=
  List.map N_of_ascii (list_ascii_of_string s).

(** An ASCII literal in which each apostrophe stands for a double
    quote, for texts that carry JSON. *)
Definition dq (s : string) : pystr :=
  List.map (fun c => if (c =? 39)%N then 34%N else c) (py s).

(** [prefix] at the head of [s]: [s.startswith(prefix)]. *)
Fixpoint startswith (prefix s : pystr) : bool :=
  match prefix, s with
  | [], _ => true
  | _ :: _, [] => false
  | a :: p', b :: s' => (a =? b)%N && startswith p' s'
  end.

(** [sub in s]. *)
Fixpoint contains (sub s : pystr) : bool :=
  startswith sub s ||
  match s with
  | [] => false
  | _ :: s' => contains sub s'
  end.

(** [s.find(sub)], counting from offset [i]. *)
Fixpoint find_from (sub s : pystr) (i : Z) : Z :=
  if startswith sub s then i
  else match s with
       | [] => -1
       | _ :: s' => find_from sub s' (i + 1)
       end.

Definition find (sub s : pystr) : Z := find_from sub s 0.

(** [s.rfind(sub)], counting from offset [i]. *)
Fixpoint rfind_from (sub s : pystr) (i : Z) : Z :=
  match s with
  | [] => if startswith sub [] then i else -1
  | _ :: s' =>
      let r := rfind_from sub s' (i + 1) in
      if 0 <=? r then r
      else if startswith sub s then i else -1
  end.

Definition rfind (sub s : pystr) : Z := rfind_from sub s 0.

Definition clamp_index (len i : Z) : Z :=
  if i <? 0 then Z.max 0 (i + len) else Z.min i len.

(** [s[a:b]]. *)
Definition slice (s : pystr) (a b : Z) : pystr :=
  let n := Z.of_nat (List.length s) in
  let a' := clamp_index n a in
  let b' := clamp_index n b in
  firstn (Z.to_nat (b' - a')) (skipn (Z.to_nat a') s).

(** [str.isspace] on one code point (CPython's [Py_UNICODE_ISSPACE]),
    which is also the class [\s] of [re] on [str] patterns. *)
Definition isspace (c : N) : bool :=
  ((9 <=? c) && (c <=? 13) || (28 <=? c) && (c <=? 32)
   || (c =? 133) || (c =? 160) || (c =? 5760)
   || (8192 <=? c) && (c <=? 8202)
   || (c =? 8232) || (c =? 8233) || (c =? 8239) || (c =? 8287)
   || (c =? 12288))%N.

Fixpoint lstrip (s : pystr) : pystr :=
  match s with
  | c :: s' => if isspace c then lstrip s' else s
  | [] => []
  end.

Definition rstrip (s : pystr) : pystr := rev (lstrip (rev s)).

(** [s.strip()]. *)
Definition strip (s : pystr) : pystr := rstrip (lstrip s).

(** Truth value of a [str]: non-empty. *)
Definition truthy (s : pystr) : bool :=
  match s with [] => false | _ :: _ => true end.

(** [str.lower] on the letters [A-Z]. Code points outside ASCII are
    kept; the only caller searches the lowered text for the ASCII word
    [rate_limited], whose letters no other code point lowers to in a way
    that would complete the word. *)
Definition lower_char (c : N) : N :=
  if ((65 <=? c) && (c <=? 90))%N then (c + 32)%N else c.

Definition lower (s : pystr) : pystr := List.map lower_char s.

End PyStr.
Export PyStr.

(** ** Python values that cross the interfaces of the pipeline *)

#[local] Set Warnings "-register-all,-inexact-float".

Inductive pyval :=
| PNone
| PBool (b : bool)
| PInt (z : Z)
| PFloat (f : float)
| PStr (s : pystr)
| PList (l : list pyval)
| PDict (items : list (pystr * pyval)).

(** [d.get(key, default)] on the items of a dict (keys are unique). *)
Fixpoint dict_get (key : pystr) (items : list (pystr * pyval)) (default : pyval) : pyval :=
  match items with
  | [] => default
  | (k, v) :: rest => if decide (k = key) then v else dict_get key rest default
  end.

(** [type(v).__name__] *)
Definition type_name (v : pyval) : string :=
  match v with
  | PNone => "NoneType"
  | PBool _ => "bool"
  | PInt _ => "int"
  | PFloat _ => "float"
  | PStr _ => "str"
  | PList _ => "list"
  | PDict _ => "dict"
  end.

(** [float(z)]: the nearest binary64 value, ties to even; [None] when
    it raises [OverflowError]. *)
Definition float_of_int (z : Z) : option float :=
  let f := FloatOps.SF2Prim
             (SpecFloat.binary_normalize FloatOps.prec FloatOps.emax z 0 false) in
  if PrimFloat.is_infinity f then None else Some f.

(** ** Liveness records (monitoring/liveness.py) *)

Module Liveness.

Record LivenessRecord := mkLivenessRecord {
  name : pystr;
  timeout : Z;
  metadata : list (pystr * pyval);
  last_heartbeat : option Z;
  consecutive_misses : Z
}.

(** [LivenessRecord.beat], [now] being [datetime.now(UTC)]. *)
Definition beat (now : Z) (r : LivenessRecord) : LivenessRecord :=
  {| name := name r; timeout := timeout r; metadata := metadata r;
     last_heartbeat := Some now; consecutive_misses := 0 |}.

Definition mark_miss (r : LivenessRecord) : LivenessRecord :=
  {| name := name r; timeout := timeout r; metadata := metadata r;
     last_heartbeat := last_heartbeat r;
     consecutive_misses := consecutive_misses r + 1 |}.

Definition is_alive (now : Z) (r : LivenessRecord) : bool :=
  match last_heartbeat r with
  | None => false
  | Some t => now - t <=? timeout r
  end.

(** The registry's table [_records]; [register] overwrites. *)
Definition register (nm : pystr) (tmo : Z) (md : list (pystr * pyval))
    (records : gmap pystr LivenessRecord) : gmap pystr LivenessRecord * LivenessRecord :=
  let record := mkLivenessRecord nm tmo md None 0 in
  (<[nm := record]> records, record).

(** [LivenessRegistry.beat]: unknown names are ignored. *)
Definition registry_beat (now : Z) (nm : pystr)
    (records : gmap pystr LivenessRecord) : gmap pystr LivenessRecord :=
  match records !! nm with
  | None => records
  | Some record => <[nm := beat now record]> records
  end.

Definition registry_miss (nm : pystr)
    (records : gmap pystr LivenessRecord) : gmap pystr LivenessRecord :=
  match records !! nm with
  | None => records
  | Some record => <[nm := mark_miss record]> records
  end.

End Liveness.

(** ** Regular expressions ([re]) *)

(** The patterns of the queue manager use literals, character classes,
    the anchors, alternation inside a non-capturing group, capturing
    groups, and [+] on a single character class. [rmatch] is the
    backtracking matcher of [re]: alternatives are tried left to right and
    [+] is greedy. *)

Module Re.

Inductive cls :=
| CChar (c : N)
| CRange (lo hi : N)
| CSpace
| CUnion (a b : cls)
| CNot (a : cls).

Fixpoint cls_matches (k : cls) (c : N) : bool :=
  match k with
  | CChar x => (x =? c)%N
  | CRange lo hi => ((lo <=? c) && (c <=? hi))%N
  | CSpace => isspace c
  | CUnion a b => cls_matches a c || cls_matches b c
  | CNot a => negb (cls_matches a c)
  end.

(** [.] without DOTALL: anything but a newline. *)
Definition CDot : cls := CNot (CChar 10).

Inductive regex :=
| REps
| RItem (k : cls)
| RPlus (k : cls)
| RBol
| REol
| RSeq (r1 r2 : regex)
| RAlt (r1 r2 : regex)
| RGroup (n : nat) (r : regex).

Definition captures := list (nat * pystr).

Fixpoint group (n : nat) (cs : captures) : option pystr :=
  match cs with
  | [] => None
  | (m, t) :: rest => if (m =? n)%nat then Some t else group n rest
  end.

(** [k+] at the head of [s], longest run first. *)
Fixpoint plus_loop {A} (k : cls) (pos : nat) (s : pystr)
    (cont : nat -> pystr -> option A) : option A :=
  match s with
  | [] => None
  | c :: s' =>
      if cls_matches k c then
        match plus_loop k (S pos) s' cont with
        | Some a => Some a
        | None => cont (S pos) s'
        end
      else None
  end.

(** Match [r] at offset [pos], where [s] is the text from [pos] on. *)
Fixpoint rmatch {A} (r : regex) (pos : nat) (s : pystr) (cs : captures)
    (cont : nat -> pystr -> captures -> option A) : option A :=
  match r with
  | REps => cont pos s cs
  | RItem k =>
      match s with
      | c :: s' => if cls_matches k c then cont (S pos) s' cs else None
      | [] => None
      end
  | RPlus k => plus_loop k pos s (fun p s' => cont p s' cs)
  | RBol => if (pos =? 0)%nat then cont pos s cs else None
  | REol =>
      match s with
      | [] => cont pos s cs
      | [c] => if (c =? 10)%N then cont pos s cs else None
      | _ => None
      end
  | RSeq r1 r2 =>
      rmatch r1 pos s cs (fun p s' cs' => rmatch r2 p s' cs' cont)
  | RAlt r1 r2 =>
      match rmatch r1 pos s cs cont with
      | Some a => Some a
      | None => rmatch r2 pos s cs cont
      end
  | RGroup n r1 =>
      rmatch r1 pos s cs
        (fun p s' cs' => cont p s' ((n, firstn (p - pos) s) :: cs'))
  end.

Record rmatch_result := mkMatch {
  m_start : nat;
  m_end : nat;
  m_groups : captures
}.

(** [re.search]: the leftmost start offset at which the pattern matches. *)
Fixpoint search_from (r : regex) (pos : nat) (s : pystr) : option rmatch_result :=
  match rmatch r pos s [] (fun p _ cs => Some (mkMatch pos p cs)) with
  | Some m => Some m
  | None =>
      match s with
      | [] => None
      | _ :: s' => search_from r (S pos) s'
      end
  end.

Definition search (r : regex) (s : pystr) : option rmatch_result :=
  search_from r 0 s.

(** A continuation that accepts wherever the match has got to, as the
    one of [search_from] does. *)
Definition always {A} (k : nat -> pystr -> captures -> option A) : Prop :=
  forall p s cs, is_Some (k p s cs).

(** A literal text, as [re.escape] makes of it. *)
Fixpoint lits (t : pystr) : regex :=
  match t with
  | [] => REps
  | c :: t' => RSeq (RItem (CChar c)) (lits t')
  end.

End Re.
Export Re.

(** ** The queue manager (queue_manager.py) *)

Module QM.

(** *** Tool results and the mention parser *)

(** A message or event of a tool result all of whose values are strings.
    The code checks no such thing: an entry that is no dict, a content that
    is no string or an id that cannot be sliced makes a line of the parser
    raise, and the [except Exception] of lines 205-207 answers [None] for
    the whole result. [RawParse] follows the structured formats on values
    of any shape and agrees with this model on dicts of strings. *)
Abbreviation pydict := (gmap pystr pystr).

(** [d.get(key, default)]. *)
Definition get (d : pydict) (key default : string) : pystr :=
  match d !! py key with
  | Some v => v
  | None => py default
  end.

(** What [_parse_message] reads of the result of the [messages] tool:
    the structured [messages] and [events] lists (empty when the
    attribute is missing or falsy) and the text that lines 150-159
    extract from [result.content] ([None] when the content is missing or
    falsy, or carries no text, in which case the parser answers [None]
    whether by its own test or by the exception it catches). *)
Record tool_result := mkResult {
  messages : list pydict;
  events : list pydict;
  content_text : option pystr
}.

(** The class [[\s\n]]. *)
Definition boundary : cls := CUnion CSpace (CChar 10).

(** [@{re.escape(self.agent_name)}(?:[\s\n]|$)] *)
Definition mention_tail (agent_name : pystr) : regex :=
  RSeq (RItem (CChar 64))
    (RSeq (lits agent_name) (RAlt (RItem boundary) REol)).

(** [rf"(?:^|[\s\n])@{re.escape(self.agent_name)}(?:[\s\n]|$)"] *)
Definition mention_pattern (agent_name : pystr) : regex :=
  RSeq (RAlt RBol (RItem boundary)) (mention_tail agent_name).

(** [r"\[id:([a-f0-9-]+)\]"] *)
Definition id_pattern : regex :=
  RSeq (lits (py "[id:"))
    (RSeq (RGroup 1 (RPlus (CUnion (CRange 97 102) (CUnion (CRange 48 57) (CChar 45)))))
       (lits (py "]"))).

(** [r"• ([^:]+): (@\S+)\s+(.+)"]; the bullet is U+2022. *)
Definition bullet_pattern : regex :=
  RSeq (lits [8226%N; 32%N])
    (RSeq (RGroup 1 (RPlus (CNot (CChar 58))))
       (RSeq (lits (py ": "))
          (RSeq (RGroup 2 (RSeq (RItem (CChar 64)) (RPlus (CNot CSpace))))
             (RSeq (RPlus CSpace) (RGroup 3 (RPlus CDot)))))).

Definition is_match (r : regex) (s : pystr) : bool :=
  match search r s with Some _ => true | None => false end.

Definition group1 (m : rmatch_result) : pystr :=
  match group 1 (m_groups m) with Some t => t | None => [] end.

(** The loop over [result.messages] (lines 117-137). *)
Fixpoint scan_messages (agent_name : pystr) (msgs : list pydict)
    : option (pystr * pystr * pystr) :=
  match msgs with
  | [] => None
  | msg :: rest =>
      let content := get msg "content" "" in
      if is_match (mention_pattern agent_name) content then
        let msg_id := get msg "id" "unknown" in
        let sender := get msg "sender_name" "unknown" in
        if bool_decide (sender = agent_name) then scan_messages agent_name rest
        else Some (msg_id, sender, content)
      else scan_messages agent_name rest
  end.

(** The text format (lines 149-203). *)
Definition parse_text (agent_name : pystr) (content : option pystr)
    : option (pystr * pystr * pystr) :=
  match content with
  | None => None
  | Some messages_data =>
      if negb (truthy messages_data) then None
      else if contains (py "WAIT SUCCESS") messages_data
              || contains (py "No mentions") messages_data then None
      else
        match search id_pattern messages_data with
        | None => None
        | Some message_id_match =>
            let message_id := group1 message_id_match in
            match search bullet_pattern messages_data with
            | None => None
            | Some mention_match =>
                if negb (contains (64%N :: agent_name) messages_data) then None
                else
                  let sender := group1 mention_match in
                  if bool_decide (sender = agent_name) then None
                  else Some (message_id, sender, messages_data)
            end
        end
  end.

(** [QueueManager._parse_message]: [(message_id, sender, content)], or
    [None] for no relevant mention. *)
Definition _parse_message (agent_name : pystr) (result : tool_result)
    : option (pystr * pystr * pystr) :=
  match messages result with
  | _ :: _ => scan_messages agent_name (messages result)
  | [] =>
      match events result with
      | event :: _ =>
          Some (get event "id" "unknown",
                get event "sender_name" "unknown",
                get event "content" "")
      | [] => parse_text agent_name (content_text result)
      end
  end.

(** *** Exceptions *)

(** Which [except] clauses an exception reaches: [Exception] and its
    subclasses, [asyncio.CancelledError] (a [BaseException] since Python
    3.8), or another [BaseException]. *)
Inductive exc_kind := IsException | IsCancelled | IsBaseException.

Record pyexc := mkExc {
  exc_kind_of : exc_kind;
  exc_class : string;      (* error.__class__.__name__ *)
  exc_str : pystr          (* str(error) *)
}.

Definition is_exception (e : pyexc) : bool :=
  match exc_kind_of e with IsException => true | _ => false end.

Definition is_cancelled (e : pyexc) : bool :=
  match exc_kind_of e with IsCancelled => true | _ => false end.

Definition TypeError (msg : string) : pyexc := mkExc IsException "TypeError" (py msg).

(** *** Messages, handler input and handler outcome *)

(** A row that [get_pending_messages] returns (attributes [id],
    [sender], [content], [timestamp]). *)
Record message := mkMessage {
  id : pystr;
  sender : pystr;
  content : pystr;
  timestamp : Z
}.

(** The dict [{"id", "sender", "content", "timestamp"}] built from a row. *)
Record msg_dict := mkDict {
  d_id : pystr;
  d_sender : pystr;
  d_content : pystr;
  d_timestamp : Z
}.

Definition as_dict (m : message) : msg_dict :=
  mkDict (id m) (sender m) (content m) (timestamp m).

(** The dict handed to the handler; [batch_size] and [history_messages]
    are absent in single mode. *)
Record handler_input := mkInput {
  h_content : pystr;
  h_sender : pystr;
  h_id : pystr;
  h_timestamp : Z;
  batch_mode : bool;
  batch_size : option Z;
  history_messages : option (list msg_dict);
  queue_status_backlog_count : Z;
  queue_status_pending_messages : list msg_dict;
  queue_messages : list msg_dict
}.

(** What the handler returns: a [str], or another object, of which the
    processor only uses the text [str()] gives. *)
Inductive response_value :=
| RespStr (s : pystr)
| RespOther (str_of : pystr).

Inductive handler_outcome :=
| HReturns (v : response_value)
| HRaises (e : pyexc).

(** *** The queue manager's own state *)

Record QueueManager := mkQM {
  agent_name : pystr;
  handler : handler_input -> handler_outcome;
  mark_read : bool;
  poll_interval : pyval;
  startup_sweep : bool;
  startup_sweep_limit : Z;
  heartbeat_interval : Z;
  _running : bool;
  _poll_backoff : Z;
  _poll_backoff_max : Z;
  _poll_consecutive_errors : Z
}.

(** [QueueManager.__init__] with the default arguments. *)
Definition init (agent : pystr) (h : handler_input -> handler_outcome) : QueueManager :=
  {| agent_name := agent; handler := h; mark_read := false;
     poll_interval := PFloat 1%float; startup_sweep := true;
     startup_sweep_limit := 10; heartbeat_interval := 240;
     _running := false;
     _poll_backoff := 5; _poll_backoff_max := 60;
     _poll_consecutive_errors := 0 |}.

(** [self._running = b] ([run] sets it before it starts the tasks). *)
Definition set_running (b : bool) (q : QueueManager) : QueueManager :=
  {| agent_name := agent_name q; handler := handler q; mark_read := mark_read q;
     poll_interval := poll_interval q; startup_sweep := startup_sweep q;
     startup_sweep_limit := startup_sweep_limit q;
     heartbeat_interval := heartbeat_interval q; _running := b;
     _poll_backoff := _poll_backoff q; _poll_backoff_max := _poll_backoff_max q;
     _poll_consecutive_errors := _poll_consecutive_errors q |}.

Definition set_backoff (b : Z) (q : QueueManager) : QueueManager :=
  {| agent_name := agent_name q; handler := handler q; mark_read := mark_read q;
     poll_interval := poll_interval q; startup_sweep := startup_sweep q;
     startup_sweep_limit := startup_sweep_limit q;
     heartbeat_interval := heartbeat_interval q; _running := _running q;
     _poll_backoff := b; _poll_backoff_max := _poll_backoff_max q;
     _poll_consecutive_errors := _poll_consecutive_errors q |}.

Definition set_consecutive_errors (n : Z) (q : QueueManager) : QueueManager :=
  {| agent_name := agent_name q; handler := handler q; mark_read := mark_read q;
     poll_interval := poll_interval q; startup_sweep := startup_sweep q;
     startup_sweep_limit := startup_sweep_limit q;
     heartbeat_interval := heartbeat_interval q; _running := _running q;
     _poll_backoff := _poll_backoff q; _poll_backoff_max := _poll_backoff_max q;
     _poll_consecutive_errors := n |}.

(** *** The error classifier *)

Inductive error_type := rate_limit | connection_timeout | connection_error | unknown.

(** [json.loads] of the standard library: the decoded value, or [None]
    when it raises. *)
Class JsonDecoder := json_loads : pystr -> option pyval.

Definition is_rate_limit (error_str : pystr) : bool :=
  contains (py "HTTP 429") error_str || contains (py "rate_limited") (lower error_str).

Definition is_timeout (error_str : pystr) : bool :=
  contains (py "ConnectTimeoutError") error_str
  || contains (py "Connection timeout") error_str
  || contains (py "TimeoutError") error_str.

Definition is_connection_error (error_str : pystr) : bool :=
  contains (py "ECONNRESET") error_str
  || contains (py "ConnectionResetError") error_str
  || contains (py "ConnectionRefusedError") error_str
  || contains (py "OSError") error_str.

(** Lines 225-237: the [retry_after] of the JSON object embedded in the
    error text; [None] when the [try] block falls through or raises. *)
Definition extract_retry_after `{JsonDecoder} (error_str : pystr) : option pyval :=
  if contains (py "{") error_str then
    let json_start := find (py "{") error_str in
    let json_end := rfind (py "}") error_str + 1 in
    match json_loads (slice error_str json_start json_end) with
    | Some (PDict items) => Some (dict_get (py "retry_after") items (PInt 30))
    | Some _ => None      (* no [get] on the value: AttributeError, caught *)
    | None => None        (* [json.loads] raised, caught *)
    end
  else None.

(** [QueueManager._parse_error_and_get_wait_time] *)
Definition _parse_error_and_get_wait_time `{JsonDecoder} (self : QueueManager) (error : pyexc)
    : error_type * pyval :=
  let error_str := exc_str error in
  if is_rate_limit error_str then
    match extract_retry_after error_str with
    | Some retry_after => (rate_limit, retry_after)
    | None => (rate_limit, PInt 30)
    end
  else if is_timeout error_str then
    (connection_timeout, PInt (Z.min (_poll_backoff self) (_poll_backoff_max self)))
  else if is_connection_error error_str then
    (connection_error, PInt (Z.min (_poll_backoff self) (_poll_backoff_max self)))
  else
    (unknown, PInt (Z.min (_poll_backoff self) (_poll_backoff_max self))).

(** *** The collaborators: message store and session *)

Inductive order := asc | desc.

(** The interface of [MessageStore] that the queue manager calls. The
    store is an external collaborator; its operations are taken to
    return normally. *)
Class MessageStore (S : Type) := {
  store_message : pystr -> pystr -> pystr -> pystr -> S -> bool * S;
  get_pending_messages : pystr -> Z -> order -> S -> list message;
  get_backlog_count : pystr -> S -> Z;
  mark_processing_started : pystr -> pystr -> S -> S;
  mark_processed : pystr -> pystr -> S -> S;
  is_agent_paused : pystr -> S -> bool;
  check_auto_resume : pystr -> S -> bool * S
}.

Inductive tool_response :=
| Returned (r : tool_result)
| Failed (e : pyexc).

(** [ClientSession.call_tool(name, arguments)]. *)
Class ClientSession (C : Type) := {
  call_tool : pystr -> list (pystr * pyval) -> C -> tool_response * C
}.

(** *** Calls made, in the order they are made *)

Inductive event :=
| EvSleep (delay : pyval)
    (* [asyncio.sleep(delay)] is awaited and sleeps *)
| EvCallTool (tool : pystr) (arguments : list (pystr * pyval))
| EvStoreMessage (msg_id agent sender content : pystr) (success : bool)
| EvGetBacklogCount (agent : pystr) (backlog : Z)
| EvGetPendingMessages (agent : pystr) (limit : Z) (o : order) (fetched : list message)
| EvMarkProcessingStarted (msg_id agent : pystr)
| EvMarkProcessed (msg_id agent : pystr)
| EvHandler (input : handler_input) (out : handler_outcome).

(** A computation returns, or raises. *)
Inductive outcome (A : Type) :=
| Ok (a : A)
| Raised (e : pyexc).
Arguments Ok {A} a.
Arguments Raised {A} e.

(** How a loop body ends: the loop goes on to its next iteration
    ([continue] or the end of the body), or stops ([break]). *)
Inductive control := Continue | Break.

Section Tasks.

Context {Store Session : Type} `{MessageStore Store} `{ClientSession Session}
        `{JsonDecoder}.

Record world := mkWorld {
  self : QueueManager;
  store : Store;
  session : Session;
  kill_switch : bool;      (* does data/KILL_SWITCH exist *)
  trace : list event
}.

(** Computations on the world that return or raise. *)
Definition M (A : Type) : Type := world -> outcome A * world.

#[export] Instance M_ret : MRet M := fun A a w => (Ok a, w).

#[export] Instance M_bind : MBind M := fun A B f m w =>
  match m w with
  | (Ok a, w') => f a w'
  | (Raised e, w') => (Raised e, w')
  end.

Definition raise {A} (e : pyexc) : M A := fun w => (Raised e, w).

(** [try: body / except Exception as e: on_error e]; state changes made
    before the exception stay. *)
Definition try_except {A} (body : M A) (on_error : pyexc -> M A) : M A := fun w =>
  match body w with
  | (Ok a, w') => (Ok a, w')
  | (Raised e, w') => if is_exception e then on_error e w' else (Raised e, w')
  end.

Definition get_self : M QueueManager := fun w => (Ok (self w), w).

Definition modify_self (f : QueueManager -> QueueManager) : M unit := fun w =>
  (Ok tt, mkWorld (f (self w)) (store w) (session w) (kill_switch w) (trace w)).

Definition kill_switch_exists : M bool := fun w => (Ok (kill_switch w), w).

Definition emit (ev : event) : M unit := fun w =>
  (Ok tt, mkWorld (self w) (store w) (session w) (kill_switch w) (trace w ++ [ev])).

(** A query of the store. *)
Definition ask_store {A} (f : Store -> A) : M A := fun w => (Ok (f (store w)), w).

(** An operation of the store that changes it. *)
Definition on_store {A} (f : Store -> A * Store) : M A := fun w =>
  let (a, s') := f (store w) in
  (Ok a, mkWorld (self w) s' (session w) (kill_switch w) (trace w)).

Definition is_number (v : pyval) : bool :=
  match v with
  | PInt _ | PFloat _ | PBool _ => true
  | _ => false
  end.

(** The [TypeError] of [delay <= 0], the first thing that
    [asyncio.sleep] does, on a delay that is no number. *)
Definition sleep_type_error (delay : pyval) : pyexc :=
  TypeError (String.append "'<=' not supported between instances of '"
               (String.append (type_name delay) "' and 'int'")).

(** [await asyncio.sleep(delay)]. On a delay that is no number the call
    raises [TypeError] before anything is slept. Every number is taken
    to be slept: an [int] too large for a [float], on which
    [asyncio.sleep] raises [OverflowError], and a NaN are outside of the
    model. The waits that the queue manager makes up itself are
    constants or the backoff capped at its ceiling; where a wait comes
    from outside (the [retry_after] of a rate limit) the properties say
    which delays they speak of ([accepted_delay]). *)
Definition sleep (delay : pyval) : M unit :=
  if is_number delay then emit (EvSleep delay)
  else raise (sleep_type_error delay).

(** The session answers a call: a result, or an exception. *)
Definition on_session (f : Session -> tool_response * Session) : M tool_result := fun w =>
  let (resp, c') := f (session w) in
  let w' := mkWorld (self w) (store w) c' (kill_switch w) (trace w) in
  match resp with
  | Returned r => (Ok r, w')
  | Failed e => (Raised e, w')
  end.

(** [await self.session.call_tool(name, arguments)] *)
Definition session_call_tool (tool : pystr) (arguments : list (pystr * pyval))
    : M tool_result :=
  emit (EvCallTool tool arguments);;
  on_session (call_tool tool arguments).

(** [self.store.store_message(msg_id=..., agent=..., sender=..., content=...)] *)
Definition do_store_message (msg_id agent sender content : pystr) : M bool :=
  success ← on_store (store_message msg_id agent sender content);
  emit (EvStoreMessage msg_id agent sender content success);;
  mret success.

Definition do_get_backlog_count (agent : pystr) : M Z :=
  backlog ← ask_store (get_backlog_count agent);
  emit (EvGetBacklogCount agent backlog);;
  mret backlog.

Definition do_get_pending_messages (agent : pystr) (limit : Z) (o : order)
    : M (list message) :=
  fetched ← ask_store (get_pending_messages agent limit o);
  emit (EvGetPendingMessages agent limit o fetched);;
  mret fetched.

Definition do_mark_processing_started (msg_id agent : pystr) : M unit :=
  on_store (fun s => (tt, mark_processing_started msg_id agent s));;
  emit (EvMarkProcessingStarted msg_id agent).

Definition do_mark_processed (msg_id agent : pystr) : M unit :=
  on_store (fun s => (tt, mark_processed msg_id agent s));;
  emit (EvMarkProcessed msg_id agent).

(** [for x in l: body x] *)
Fixpoint for_each {A} (body : A -> M unit) (l : list A) : M unit :=
  match l with
  | [] => mret tt
  | x :: l' => body x;; for_each body l'
  end.

(** [try: body / except asyncio.CancelledError: break /
     except Exception as e: on_error e], the frame of both loops. A
    body that ends normally goes on to the next iteration. *)
Definition guarded (body : M control) (on_error : pyexc -> M control) : M control :=
  fun w =>
    match body w with
    | (Ok c, w') => (Ok c, w')
    | (Raised e, w') =>
        if is_cancelled e then (Ok Break, w')
        else if is_exception e then on_error e w'
        else (Raised e, w')
    end.

(** *** Startup sweep (lines 270-348) *)

Definition sweep_arguments (q : QueueManager) : list (pystr * pyval) :=
  [ (py "action", PStr (py "check"));
    (py "filter_agent", PStr (agent_name q));
    (py "mode", PStr (py "unread"));
    (py "wait", PBool false);
    (py "limit", PInt 1);
    (py "mark_read", PBool true) ].

(** The local variables of the sweep. *)
Record sweep_vars := mkSweep {
  fetched : Z;
  last_id : option pystr;
  iteration : Z
}.

(** How the sweep ends, after the log line of each exit. *)
Inductive sweep_exit :=
| SweepDisabled                          (* "Startup sweep disabled" *)
| SweepLimitReached (v : sweep_vars)     (* "Sweep limit reached" *)
| SweepComplete (v : sweep_vars)         (* "Sweep complete" *)
| SweepMaxIterations (v : sweep_vars)    (* "Hit max iterations" *)
| SweepError (e : pyexc).                (* "Startup sweep error" *)

Definition max_iterations : Z := 200.

(** The [while iteration < max_iterations] loop; [None] when [fuel]
    runs out before the loop has ended. *)
Fixpoint sweep_loop (fuel : nat) (v : sweep_vars) : M (option sweep_exit) :=
  match fuel with
  | O => mret None
  | S fuel' =>
      if iteration v <? max_iterations then
        q ← get_self;
        if (0 <? startup_sweep_limit q) && (startup_sweep_limit q <=? fetched v) then
          mret (Some (SweepLimitReached v))
        else
          result ← session_call_tool (py "messages") (sweep_arguments q);
          match _parse_message (agent_name q) result with
          | None => mret (Some (SweepComplete v))
          | Some (msg_id, sender, content) =>
              success ← do_store_message msg_id (agent_name q) sender content;
              let v1 := if success : bool
                        then mkSweep (fetched v + 1) (Some msg_id) (iteration v)
                        else v in
              let v2 := mkSweep (fetched v1) (last_id v1) (iteration v1 + 1) in
              sleep (PFloat 0.7%float);;
              sweep_loop fuel' v2
          end
      else mret (Some (SweepMaxIterations v))
  end.

(** [QueueManager._startup_sweep] *)
Definition _startup_sweep (fuel : nat) : M (option sweep_exit) :=
  q ← get_self;
  if negb (startup_sweep q) then mret (Some SweepDisabled)
  else
    try_except (sweep_loop fuel (mkSweep 0 None 0))
               (fun e => mret (Some (SweepError e))).

(** *** Poller (lines 350-459) *)

Definition poll_arguments (q : QueueManager) : list (pystr * pyval) :=
  [ (py "action", PStr (py "check"));
    (py "filter_agent", PStr (agent_name q));
    (py "wait", PBool false);
    (py "mark_read", PBool (mark_read q)) ].

(** Lines 390-395 and 414-419. *)
Definition reset_backoff_if_needed : M unit :=
  q ← get_self;
  if 0 <? _poll_consecutive_errors q then
    modify_self (set_consecutive_errors 0);;
    modify_self (set_backoff 5)
  else mret tt.

(** The [try] block of one iteration (lines 364-421). *)
Definition poll_try : M control :=
  q ← get_self;
  paused ← ask_store (is_agent_paused (agent_name q));
  if paused : bool then
    on_store (check_auto_resume (agent_name q));;
    sleep (PInt 1);;
    mret Continue
  else
    result ← session_call_tool (py "messages") (poll_arguments q);
    match _parse_message (agent_name q) result with
    | None =>
        reset_backoff_if_needed;;
        sleep (PInt 5);;
        mret Continue
    | Some (msg_id, sender, content) =>
        success ← do_store_message msg_id (agent_name q) sender content;
        if success : bool then
          do_get_backlog_count (agent_name q);;
          reset_backoff_if_needed;;
          mret Continue
        else mret Continue
    end.

Definition double_backoff (q : QueueManager) : QueueManager :=
  set_backoff (Z.min (_poll_backoff q * 2) (_poll_backoff_max q)) q.

(** The [except Exception as e] block (lines 426-459). *)
Definition poll_except (e : pyexc) : M control :=
  q ← get_self;
  let '(kind, wait_seconds) := _parse_error_and_get_wait_time q e in
  modify_self (set_consecutive_errors (_poll_consecutive_errors q + 1));;
  match kind with
  | rate_limit =>
      sleep wait_seconds;;
      mret Continue
  | connection_timeout | connection_error =>
      sleep wait_seconds;;
      modify_self double_backoff;;
      mret Continue
  | unknown =>
      sleep wait_seconds;;
      modify_self double_backoff;;
      mret Continue
  end.

(** One iteration of the [while self._running] loop of [poll_and_store]. *)
Definition poll_iteration : M control := guarded poll_try poll_except.

(** [QueueManager.poll_and_store]; [None] when [fuel] iterations have
    been made and the loop has not ended. *)
Fixpoint poll_and_store (fuel : nat) : M (option unit) :=
  match fuel with
  | O => mret None
  | S fuel' =>
      q ← get_self;
      if _running q then
        c ← poll_iteration;
        match c with
        | Continue => poll_and_store fuel'
        | Break => mret (Some tt)
        end
      else mret (Some tt)
  end.

(** *** Processor (lines 461-678) *)

Definition send_arguments (send_content parent_message_id : pystr)
    : list (pystr * pyval) :=
  [ (py "action", PStr (py "send"));
    (py "content", PStr send_content);
    (py "parent_message_id", PStr parent_message_id) ].

(** Lines 501-507. *)
Definition processing_order_for (backlog : Z) : order :=
  if 100 <? backlog then asc else desc.

(** Lines 550-606: the dict handed to the handler. *)
Definition handler_input_for (all_pending : list message) (first : message)
    (backlog : Z) (processing_order : order) : handler_input :=
  let batch_size := Z.of_nat (List.length all_pending) in
  let queue_snapshot := List.map as_dict all_pending in
  if 1 <? batch_size then
    let current_msg := first in
    let history_msgs := List.tl all_pending in
    let history_msgs :=
      match processing_order with
      | desc => List.rev history_msgs
      | asc => history_msgs
      end in
    let history_dicts := List.map as_dict history_msgs in
    {| h_content := content current_msg; h_sender := sender current_msg;
       h_id := id current_msg; h_timestamp := timestamp current_msg;
       batch_mode := true; batch_size := Some batch_size;
       history_messages := Some history_dicts;
       queue_status_backlog_count := backlog;
       queue_status_pending_messages := queue_snapshot;
       queue_messages := queue_snapshot |}
  else
    let msg := first in
    {| h_content := content msg; h_sender := sender msg;
       h_id := id msg; h_timestamp := timestamp msg;
       batch_mode := false; batch_size := None;
       history_messages := None;
       queue_status_backlog_count := backlog;
       queue_status_pending_messages := queue_snapshot;
       queue_messages := queue_snapshot |}.

(** [await self.handler(input)] *)
Definition call_handler (input : handler_input) : M response_value :=
  q ← get_self;
  let out := handler q input in
  emit (EvHandler input out);;
  match out with
  | HReturns v => mret v
  | HRaises e => raise e
  end.

(** Lines 609-610. *)
Definition coerce_response (v : response_value) : pystr :=
  match v with
  | RespStr s => s
  | RespOther str_of => str_of
  end.

(** The inner [try] block (lines 549-652); [first] is [all_pending[0]]. *)
Definition process_try (all_pending : list message) (first : message)
    (backlog : Z) (processing_order : order) : M unit :=
  q ← get_self;
  v ← call_handler (handler_input_for all_pending first backlog processing_order);
  let response := coerce_response v in
  (if truthy response && truthy (strip response) then
     let send_content := response in
     let reply_to_msg := first in
     session_call_tool (py "messages") (send_arguments send_content (id reply_to_msg));;
     mret tt
   else mret tt);;
  for_each (fun msg => do_mark_processed (id msg) (agent_name q)) all_pending.

(** The inner [except Exception] block (lines 654-671). *)
Definition process_except (all_pending : list message) (e : pyexc) : M unit :=
  q ← get_self;
  for_each (fun msg => do_mark_processed (id msg) (agent_name q)) all_pending.

(** The pause gate (lines 484-494): does the iteration go on. A paused
    agent that is not resumed makes it wait five seconds. (The status
    read of line 490 only feeds a log line.) *)
Definition pause_gate : M bool :=
  q ← get_self;
  paused ← ask_store (is_agent_paused (agent_name q));
  if paused : bool then
    resumed ← on_store (check_auto_resume (agent_name q));
    if resumed : bool then mret true
    else sleep (PInt 5);; mret false
  else mret true.

(** The work on the pending messages (lines 496-671). *)
Definition process_pending : M control :=
  q ← get_self;
  backlog ← do_get_backlog_count (agent_name q);
  let processing_order := processing_order_for backlog in
  all_pending ← do_get_pending_messages (agent_name q) 100 processing_order;
  match all_pending with
  | [] =>
      sleep (poll_interval q);;
      mret Continue
  | first :: _ =>
      for_each (fun msg => do_mark_processing_started (id msg) (agent_name q))
               all_pending;;
      try_except (process_try all_pending first backlog processing_order)
                 (process_except all_pending);;
      mret Continue
  end.

(** The outer [try] block of one iteration (lines 478-671). *)
Definition process_body : M control :=
  kill ← kill_switch_exists;
  if kill : bool then
    sleep (PInt 5);;
    mret Continue
  else
    go_on ← pause_gate;
    if go_on : bool then process_pending else mret Continue.

(** The outer [except Exception] block (lines 676-678). *)
Definition on_processor_error (e : pyexc) : M control :=
  sleep (PInt 5);;
  mret Continue.

(** One iteration of the [while self._running] loop of [process_queue]. *)
Definition process_iteration : M control :=
  guarded process_body on_processor_error.

(** [QueueManager.process_queue]; [None] when [fuel] iterations have
    been made and the loop has not ended. *)
Fixpoint process_queue (fuel : nat) : M (option unit) :=
  match fuel with
  | O => mret None
  | S fuel' =>
      q ← get_self;
      if _running q then
        c ← process_iteration;
        match c with
        | Continue => process_queue fuel'
        | Break => mret (Some tt)
        end
      else mret (Some tt)
  end.

End Tasks.

End QM.

Export QM.

(** ** A message store, for running the tasks on concrete worlds *)

(** Modelled from the spec: the class [MessageStore] of
    [ax_agent_studio/message_store.py] is not among the sources. The model
    follows sections 3, 6 and 8 of the specification: rows keyed by message
    id with a status that only moves forward, [store_message] refusing an
    id it already holds, [get_pending_messages] giving the pending rows of
    an agent ordered by timestamp, and the backlog being their number. *)
Module ListStore.

Inductive status := pending | processing | processed | failed.

Record row := mkRow {
  row_msg : message;
  row_agent : pystr;
  row_status : status
}.

Record t := mkStore {
  rows : list row;
  clock : Z;                   (* timestamp given to the next row *)
  paused_agents : list pystr
}.

Definition empty : t := mkStore [] 1 [].

Definition has_id (msg_id : pystr) (s : t) : bool :=
  existsb (fun r => bool_decide (id (row_msg r) = msg_id)) (rows s).

Definition store_message (msg_id agent sender content : pystr) (s : t) : bool * t :=
  if has_id msg_id s then (false, s)
  else (true,
        mkStore (rows s ++ [mkRow (mkMessage msg_id sender content (clock s)) agent pending])
                (clock s + 1) (paused_agents s)).

Definition is_pending (agent : pystr) (r : row) : bool :=
  bool_decide (row_agent r = agent) &&
  match row_status r with pending => true | _ => false end.

Definition pending_of (agent : pystr) (s : t) : list message :=
  List.map row_msg (List.filter (is_pending agent) (rows s)).

Definition before (o : order) (a b : message) : bool :=
  match o with
  | asc => timestamp a <=? timestamp b
  | desc => timestamp b <=? timestamp a
  end.

Fixpoint insert_sorted (o : order) (m : message) (l : list message) : list message :=
  match l with
  | [] => [m]
  | x :: l' => if before o m x then m :: l else x :: insert_sorted o m l'
  end.

Definition sort_by (o : order) (l : list message) : list message :=
  List.fold_right (insert_sorted o) [] l.

Definition get_pending_messages (agent : pystr) (limit : Z) (o : order) (s : t)
    : list message :=
  firstn (Z.to_nat limit) (sort_by o (pending_of agent s)).

Definition get_backlog_count (agent : pystr) (s : t) : Z :=
  Z.of_nat (List.length (pending_of agent s)).

Definition advance (from : status -> bool) (to : status) (msg_id agent : pystr) (s : t) : t :=
  mkStore
    (List.map (fun r =>
       if bool_decide (id (row_msg r) = msg_id) && bool_decide (row_agent r = agent)
          && from (row_status r)
       then mkRow (row_msg r) (row_agent r) to else r) (rows s))
    (clock s) (paused_agents s).

Definition mark_processing_started : pystr -> pystr -> t -> t :=
  advance (fun st => match st with pending => true | _ => false end) processing.

Definition mark_processed : pystr -> pystr -> t -> t :=
  advance (fun st => match st with pending | processing => true | _ => false end) processed.

Definition is_agent_paused (agent : pystr) (s : t) : bool :=
  bool_decide (agent ∈ paused_agents s).

(** No resume timers are kept: a paused agent stays paused. *)
Definition check_auto_resume (agent : pystr) (s : t) : bool * t := (false, s).

#[global] Instance list_store : MessageStore t := {|
  QM.store_message := store_message;
  QM.get_pending_messages := get_pending_messages;
  QM.get_backlog_count := get_backlog_count;
  QM.mark_processing_started := mark_processing_started;
  QM.mark_processed := mark_processed;
  QM.is_agent_paused := is_agent_paused;
  QM.check_auto_resume := check_auto_resume
|}.

Definition status_of (msg_id : pystr) (s : t) : option status :=
  match List.find (fun r => bool_decide (id (row_msg r) = msg_id)) (rows s) with
  | Some r => Some (row_status r)
  | None => None
  end.

End ListStore.

(** ** A session that answers from a script *)

(** The remote service as a list of the answers it will give, one per
    call; once the script is used up every call returns an empty result. *)
Module ScriptedSession.

Definition t := list tool_response.

Definition no_messages : tool_result := mkResult [] [] None.

Definition call_tool (tool : pystr) (arguments : list (pystr * pyval)) (c : t)
    : tool_response * t :=
  match c with
  | [] => (Returned no_messages, [])
  | resp :: rest => (resp, rest)
  end.

#[global] Instance scripted : ClientSession t := {| QM.call_tool := call_tool |}.

End ScriptedSession.

(** ** A JSON decoder, for running the classifier on concrete errors *)

(** [json.loads] belongs to Python's standard library and is a parameter
    of the model ([JsonDecoder]). This decoder follows the scanner of the
    [json] module of CPython 3.11 on a text: objects (of a key given twice
    the last value is kept, at the place of the first), arrays, strings
    with their escapes (a [\u] escape has four hexadecimal digits; a high
    surrogate followed by a low one is one character), integers, numbers
    with a fraction or an exponent (the nearest [float], ties to even), the
    literals [true], [false] and [null] and the constants [NaN], [Infinity]
    and [-Infinity]. It answers [None] where [json.loads] raises, also on an
    integer of more than 4300 digits ([ValueError] of [int]). The
    [RecursionError] of a text nested deeper than the interpreter allows is
    outside of the model. *)
Module MiniJson.

Definition is_ws (c : N) : bool :=
  ((c =? 32) || (c =? 9) || (c =? 10) || (c =? 13))%N.

Fixpoint skip_ws (s : pystr) : pystr :=
  match s with
  | c :: s' => if is_ws c then skip_ws s' else s
  | [] => []
  end.

Definition unescape (c : N) : option N :=
  if (c =? 34)%N then Some 34%N            (* quote *)
  else if (c =? 92)%N then Some 92%N       (* backslash *)
  else if (c =? 47)%N then Some 47%N       (* slash *)
  else if (c =? 98)%N then Some 8%N        (* backspace *)
  else if (c =? 102)%N then Some 12%N      (* form feed *)
  else if (c =? 110)%N then Some 10%N      (* newline *)
  else if (c =? 114)%N then Some 13%N      (* carriage return *)
  else if (c =? 116)%N then Some 9%N       (* tab *)
  else None.

Definition is_digit (c : N) : bool := ((48 <=? c) && (c <=? 57))%N.

Definition hex_digit (c : N) : option N :=
  if is_digit c then Some (c - 48)%N
  else if ((97 <=? c) && (c <=? 102))%N then Some (c - 87)%N
  else if ((65 <=? c) && (c <=? 70))%N then Some (c - 55)%N
  else None.

(** Four hexadecimal digits and what follows them. *)
Definition hex4 (s : pystr) : option (N * pystr) :=
  match s with
  | a :: b :: c :: d :: rest =>
      match hex_digit a, hex_digit b, hex_digit c, hex_digit d with
      | Some a, Some b, Some c, Some d =>
          Some ((((a * 16 + b) * 16 + c) * 16 + d)%N, rest)
      | _, _, _, _ => None
      end
  | _ => None
  end.

Definition is_high_surrogate (c : N) : bool := ((55296 <=? c) && (c <=? 56319))%N.
Definition is_low_surrogate (c : N) : bool := ((56320 <=? c) && (c <=? 57343))%N.

(** The text after [\u]: the character and what follows it. A high
    surrogate takes the [\u] escape after it when that is a low surrogate;
    a surrogate alone stays as it is. *)
Definition unicode_escape (s : pystr) : option (N * pystr) :=
  match hex4 s with
  | Some (c, rest) =>
      if is_high_surrogate c then
        match rest with
        | backslash :: u :: rest1 =>
            if ((backslash =? 92) && (u =? 117))%N then
              match hex4 rest1 with
              | Some (c2, rest2) =>
                  if is_low_surrogate c2
                  then Some ((65536 + (c - 55296) * 1024 + (c2 - 56320))%N, rest2)
                  else Some (c, rest)
              | None => None
              end
            else Some (c, rest)
        | _ => Some (c, rest)
        end
      else Some (c, rest)
  | None => None
  end.

(** The text after an opening quote: the string and what follows the
    closing quote. *)
Fixpoint string_body (fuel : nat) (s : pystr) : option (pystr * pystr) :=
  match fuel with
  | O => None
  | S fuel' =>
      match s with
      | [] => None
      | c :: rest =>
          if (c =? 34)%N then Some ([], rest)
          else if (c =? 92)%N then
            match rest with
            | e :: rest' =>
                match (if (e =? 117)%N then unicode_escape rest'
                       else match unescape e with
                            | Some x => Some (x, rest')
                            | None => None
                            end) with
                | Some (x, rest1) =>
                    match string_body fuel' rest1 with
                    | Some (t, r) => Some (x :: t, r)
                    | None => None
                    end
                | None => None
                end
            | [] => None
            end
          else if (c <? 32)%N then None
          else
            match string_body fuel' rest with
            | Some (t, r) => Some (c :: t, r)
            | None => None
            end
      end
  end.

(** A run of digits after [acc], [n] digits long: the number, the length
    and what follows. *)
Fixpoint digits (s : pystr) (acc n : Z) : Z * Z * pystr :=
  match s with
  | c :: rest =>
      if is_digit c then digits rest (acc * 10 + Z.of_N (c - 48)) (n + 1)
      else (acc, n, s)
  | [] => (acc, n, [])
  end.

Definition starts_with_digit (s : pystr) : bool :=
  match s with
  | c :: _ => is_digit c
  | [] => false
  end.

(** [\.[0-9]+] after the digits [m]: the digits of both and the length of
    the fraction. *)
Definition fraction (m : Z) (s : pystr) : option (Z * Z * pystr) :=
  match s with
  | c :: rest =>
      if (c =? 46)%N && starts_with_digit rest then Some (digits rest m 0) else None
  | [] => None
  end.

(** [[eE][-+]?[0-9]+]: the exponent. *)
Definition exponent (s : pystr) : option (Z * pystr) :=
  match s with
  | c :: rest =>
      if ((c =? 101) || (c =? 69))%N then
        let '(negative, rest1) :=
          match rest with
          | sign :: r =>
              if (sign =? 45)%N then (true, r)
              else if (sign =? 43)%N then (false, r)
              else (false, rest)
          | [] => (false, rest)
          end in
        if starts_with_digit rest1 then
          let '(e, _, rest2) := digits rest1 0 0 in
          Some (if negative : bool then - e else e, rest2)
        else None
      else None
  | [] => None
  end.

(** [float] of the decimal [m * 10 ^ e] with [0 <= m] and the sign
    [negative]: the nearest binary64 value, ties to even. The quotient
    that is rounded keeps more than 64 bits and a last bit that tells
    whether the division left a remainder. *)
Definition float_of_decimal (negative : bool) (m e : Z) : float :=
  let round (mantissa ex : Z) :=
    FloatOps.SF2Prim
      (SpecFloat.binary_normalize FloatOps.prec FloatOps.emax
         (if negative then - mantissa else mantissa) ex negative) in
  if m =? 0 then round 0 0
  else if 400 <? e then round 1 2000            (* 10 ^ 400 and more: infinite *)
  else if e <? - 402 - (Z.log2 m + 1) / 3 then round 0 0    (* under 10 ^ -400 *)
  else if 0 <=? e then round (m * 10 ^ e) 0
  else
    let denominator := 10 ^ (- e) in
    let k := Z.max 0 (64 + Z.log2_up denominator - Z.log2 m) in
    let numerator := m * 2 ^ k in
    let sticky := if numerator mod denominator =? 0 then 0 else 1 in
    round (2 * (numerator / denominator) + sticky) (- k - 1).

(** A number ([NUMBER_RE] of json/scanner.py): an optional minus sign,
    [0] or a digit run that does not start with [0], then an optional
    fraction and an optional exponent. It is an [int] when it has
    neither. *)
Definition number (s : pystr) : option (pyval * pystr) :=
  let '(negative, s1) :=
    match s with
    | c :: r => if (c =? 45)%N then (true, r) else (false, s)
    | [] => (false, s)
    end in
  match s1 with
  | c :: r =>
      if is_digit c then
        let '(m, n, rest) := if (c =? 48)%N then (0, 1, r) else digits s1 0 0 in
        let '(frac, rest1) :=
          match fraction m rest with
          | Some (m', length, rest') => (Some (m', length), rest')
          | None => (None, rest)
          end in
        let '(exp, rest2) :=
          match exponent rest1 with
          | Some (e, rest') => (Some e, rest')
          | None => (None, rest1)
          end in
        match frac, exp with
        | None, None =>
            if 4300 <? n then None
            else Some (PInt (if negative : bool then - m else m), rest)
        | Some (m', length), _ =>
            Some (PFloat (float_of_decimal negative m'
                            (match exp with Some e => e | None => 0 end - length)),
                  rest2)
        | None, Some e => Some (PFloat (float_of_decimal negative m e), rest2)
        end
      else None
  | [] => None
  end.

Fixpoint dict_set (key : pystr) (v : pyval) (items : list (pystr * pyval))
    : list (pystr * pyval) :=
  match items with
  | [] => [(key, v)]
  | (k, x) :: rest =>
      if decide (k = key) then (k, v) :: rest else (k, x) :: dict_set key v rest
  end.

Definition literal (word : string) (v : pyval) (s : pystr) : option (pyval * pystr) :=
  if startswith (py word) s
  then Some (v, skipn (List.length (py word)) s)
  else None.

(** A value, the members of an object after its brace and the elements
    of an array after its bracket; [s] has no leading white space. *)
Fixpoint value (fuel : nat) (s : pystr) : option (pyval * pystr) :=
  match fuel with
  | O => None
  | S fuel' =>
      match s with
      | [] => None
      | c :: rest =>
          if (c =? 123)%N then
            match skip_ws rest with
            | d :: rest' =>
                if (d =? 125)%N then Some (PDict [], rest')
                else members fuel' (d :: rest') []
            | [] => None
            end
          else if (c =? 91)%N then
            match skip_ws rest with
            | d :: rest' =>
                if (d =? 93)%N then Some (PList [], rest')
                else elements fuel' (d :: rest') []
            | [] => None
            end
          else if (c =? 34)%N then
            match string_body (List.length rest) rest with
            | Some (t, r) => Some (PStr t, r)
            | None => None
            end
          else if (c =? 116)%N then literal "true" (PBool true) s
          else if (c =? 102)%N then literal "false" (PBool false) s
          else if (c =? 110)%N then literal "null" PNone s
          else
            match number s with
            | Some found => Some found
            | None =>
                if (c =? 78)%N then literal "NaN" (PFloat PrimFloat.nan) s
                else if (c =? 73)%N then literal "Infinity" (PFloat PrimFloat.infinity) s
                else if (c =? 45)%N
                then literal "-Infinity" (PFloat PrimFloat.neg_infinity) s
                else None
            end
      end
  end

with members (fuel : nat) (s : pystr) (acc : list (pystr * pyval))
    : option (pyval * pystr) :=
  match fuel with
  | O => None
  | S fuel' =>
      match s with
      | c :: rest =>
          if (c =? 34)%N then
            match string_body (List.length rest) rest with
            | Some (key, r) =>
                match skip_ws r with
                | colon :: r1 =>
                    if (colon =? 58)%N then
                      match value fuel' (skip_ws r1) with
                      | Some (v, r2) =>
                          let acc' := dict_set key v acc in
                          match skip_ws r2 with
                          | d :: r3 =>
                              if (d =? 125)%N then Some (PDict acc', r3)
                              else if (d =? 44)%N then members fuel' (skip_ws r3) acc'
                              else None
                          | [] => None
                          end
                      | None => None
                      end
                    else None
                | [] => None
                end
            | None => None
            end
          else None
      | [] => None
      end
  end

with elements (fuel : nat) (s : pystr) (acc : list pyval) : option (pyval * pystr) :=
  match fuel with
  | O => None
  | S fuel' =>
      match value fuel' s with
      | Some (v, r) =>
          match skip_ws r with
          | d :: r1 =>
              if (d =? 93)%N then Some (PList (acc ++ [v]), r1)
              else if (d =? 44)%N then elements fuel' (skip_ws r1) (acc ++ [v])
              else None
          | [] => None
          end
      | None => None
      end
  end.

Definition loads (s : pystr) : option pyval :=
  match value (2 * List.length s + 2) (skip_ws s) with
  | Some (v, rest) =>
      match skip_ws rest with
      | [] => Some v
      | _ :: _ => None
      end
  | None => None
  end.

#[global] Instance decoder : JsonDecoder := loads.

End MiniJson.

(** ** Vocabulary of the mention parser's properties *)

Module MentionSpec.

(** The text [@AGENT]. *)
Definition mention (agent : pystr) : pystr := 64%N :: agent.

(** What precedes an occurrence: the start of the content, or white space. *)
Definition at_start_or_after_space (pre : pystr) : Prop :=
  pre = [] \/ exists pre' c, pre = pre' ++ [c] /\ isspace c = true.

(** What follows an occurrence: white space, or the end of the content. *)
Definition before_space_or_end (post : pystr) : Prop :=
  post = [] \/ exists c post', post = c :: post' /\ isspace c = true.

(** [(^|whitespace)@AGENT(whitespace|$)] matches somewhere in [content]. *)
Definition direct_mention (agent content : pystr) : Prop :=
  exists pre post,
    content = pre ++ mention agent ++ post
    /\ at_start_or_after_space pre /\ before_space_or_end post.

(** [@AGENT] occurs in [content]. *)
Definition occurs (agent content : pystr) : Prop :=
  exists pre post, content = pre ++ mention agent ++ post.

(** Every occurrence of [@AGENT] in [content] is embedded in other text:
    neither at the start or after white space, nor before white space or
    the end. *)
Definition embedded_only (agent content : pystr) : Prop :=
  forall pre post,
    content = pre ++ mention agent ++ post ->
    ~ at_start_or_after_space pre /\ ~ before_space_or_end post.

(** The occurrences of [m] in [s], each as the text before it, reversed
    and put in front of [pre_rev], and the text after it. *)
Fixpoint occurrences (m pre_rev s : pystr) : list (pystr * pystr) :=
  (if startswith m s then [(pre_rev, skipn (List.length m) s)] else []) ++
  match s with
  | [] => []
  | c :: s' => occurrences m (c :: pre_rev) s'
  end.

Definition embedded_occurrence (o : pystr * pystr) : bool :=
  match o with
  | (c :: _, d :: _) => negb (isspace c) && negb (isspace d)
  | _ => false
  end.

(** [embedded_only], decided. *)
Definition embedded_onlyb (agent content : pystr) : bool :=
  forallb embedded_occurrence (occurrences (mention agent) [] content).

(** The contents a parser input carries: of each structured message, of
    each event, and the text. *)
Definition contents_of (result : tool_result) : list pystr :=
  List.map (fun msg => get msg "content" "") (messages result)
  ++ List.map (fun ev => get ev "content" "") (events result)
  ++ match content_text result with Some t => [t] | None => [] end.

(** A parser input in which [@AGENT] occurs, and occurs only embedded in
    other text. *)
Definition input_embedded_only (agent : pystr) (result : tool_result) : Prop :=
  Forall (embedded_only agent) (contents_of result)
  /\ Exists (occurs agent) (contents_of result).

End MentionSpec.
Import MentionSpec.

(** ** Vocabulary of the poller's properties *)

Module PollSpec.

(** The value under [key], when the dict has one. *)
Fixpoint dict_lookup (key : pystr) (items : list (pystr * pyval)) : option pyval :=
  match items with
  | [] => None
  | (k, v) :: rest => if decide (k = key) then Some v else dict_lookup key rest
  end.

(** The structured [retry_after] of an error: the entry of that name in
    the JSON object that the error text carries between its first
    opening and its last closing brace. *)
Definition structured_retry_after `{JsonDecoder} (error_str : pystr) : option pyval :=
  if contains (py "{") error_str then
    match json_loads (slice error_str (find (py "{") error_str)
                                      (rfind (py "}") error_str + 1)) with
    | Some (PDict items) => dict_lookup (py "retry_after") items
    | _ => None
    end
  else None.

(** The delays that [asyncio.sleep] takes, sleeps and returns from: a
    [bool]; a [float] that is neither a NaN nor plus infinity; an [int]
    that is at most 0 (the call returns at once) or not too large for a
    [float]. *)
Definition accepted_delay (delay : pyval) : bool :=
  match delay with
  | PBool _ => true
  | PFloat f => negb (PrimFloat.is_nan f) && negb (PrimFloat.eqb f PrimFloat.infinity)
  | PInt z =>
      (z <=? 0) || match float_of_int z with Some _ => true | None => false end
  | _ => false
  end.

(** The poll fails with an error of the rate-limit class. *)
Definition rate_limit_class (e : pyexc) : Prop :=
  is_exception e = true /\ is_rate_limit (exc_str e) = true.

(** The poll fails with an error of a connection class (timeout, or
    reset, refused and the like). *)
Definition connection_class (e : pyexc) : Prop :=
  is_exception e = true
  /\ is_rate_limit (exc_str e) = false
  /\ (is_timeout (exc_str e) = true \/ is_connection_error (exc_str e) = true).

(** The delays of the [asyncio.sleep] calls of a trace, in order. *)
Fixpoint sleeps (tr : list event) : list pyval :=
  match tr with
  | [] => []
  | EvSleep d :: tr' => d :: sleeps tr'
  | _ :: tr' => sleeps tr'
  end.

(** The ladder 5, 10, 20, 40, 60, 60, ...: its first [n] steps. *)
Definition ladder_step (i : nat) : Z := Z.min (5 * 2 ^ Z.of_nat i) 60.

Definition ladder (n : nat) : list Z := List.map ladder_step (seq 0 n).

(** The waits of [n] consecutive failures that double the backoff,
    the first of them met with backoff [b]. *)
Fixpoint ladder_from (b : Z) (n : nat) : list Z :=
  match n with
  | O => []
  | S n' => Z.min b 60 :: ladder_from (Z.min (b * 2) 60) n'
  end.

(** The backoff that [n] such failures leave. *)
Fixpoint backoff_after (b : Z) (n : nat) : Z :=
  match n with
  | O => b
  | S n' => backoff_after (Z.min (b * 2) 60) n'
  end.

(** The session answers the next calls of the [messages] tool with
    [arguments] by [resps], in order, and is then [c_end]. *)
Fixpoint answers {C} `{ClientSession C} (arguments : list (pystr * pyval)) (c : C)
    (resps : list tool_response) (c_end : C) : Prop :=
  match resps with
  | [] => c_end = c
  | r :: rs =>
      exists c1, call_tool (py "messages") arguments c = (r, c1)
                 /\ answers arguments c1 rs c_end
  end.

(** The queue manager after the [except] block has handled an error of
    class [kind] whose wait is [wait]: one more consecutive error, and
    the backoff doubled, up to its ceiling, unless the class is
    rate-limit (or the sleep itself raised). *)
Definition after_error (kind : error_type) (wait : pyval) (q : QueueManager)
    : QueueManager :=
  let q1 := set_consecutive_errors (_poll_consecutive_errors q + 1) q in
  if is_number wait then
    match kind with rate_limit => q1 | _ => double_backoff q1 end
  else q1.

(** The queue manager after a poll that counts as recovered: the count
    of consecutive errors and the backoff are reset when there were
    errors. *)
Definition after_success (q : QueueManager) : QueueManager :=
  if 0 <? _poll_consecutive_errors q
  then set_backoff 5 (set_consecutive_errors 0 q)
  else q.

End PollSpec.
Import PollSpec.

(** ** Vocabulary of the processor's properties *)

Module ProcSpec.

Definition marks_processing (agent : pystr) (l : list message) : list event :=
  List.map (fun m => EvMarkProcessingStarted (id m) agent) l.

Definition marks_processed (agent : pystr) (l : list message) : list event :=
  List.map (fun m => EvMarkProcessed (id m) agent) l.

(** Empty or white space only. *)
Definition blank (s : pystr) : bool := forallb isspace s.

Section WithCollaborators.
Context {Store Session : Type} `{MessageStore Store} `{ClientSession Session}
        `{JsonDecoder}.
Implicit Types (w : world (Store:=Store) (Session:=Session)).

(** The gates of an iteration (kill switch, pause): the store with
    which the iteration goes on to read the backlog, or [None] when a
    gate holds it back. *)
Definition gate w : option Store :=
  if kill_switch w then None
  else if is_agent_paused (agent_name (self w)) (store w) then
    let (resumed, s') := check_auto_resume (agent_name (self w)) (store w) in
    if resumed : bool then Some s' else None
  else Some (store w).

(** The store after [mark] has been called on each message of [l]. *)
Definition marked (mark : pystr -> pystr -> Store -> Store) (agent : pystr)
    (l : list message) (s : Store) : Store :=
  List.fold_left (fun s m => mark (id m) agent s) l s.

(** How the work on a fetched batch ends, after the handler has
    answered [out] and with the session being [c]: the calls made
    after the handler's, how the inner [try] statement ends, whether
    the batch has been marked processed, and the session left. *)
Inductive batch_ending (agent : pystr) (fetched : list message) (first : message)
    (c : Session)
    : handler_outcome -> list event -> outcome unit -> bool -> Session -> Prop :=
| ending_suppressed v :
    blank (coerce_response v) = true ->
    batch_ending agent fetched first c (HReturns v)
      (marks_processed agent fetched) (Ok tt) true c
| ending_sent v r c' :
    blank (coerce_response v) = false ->
    call_tool (py "messages") (send_arguments (coerce_response v) (id first)) c
      = (Returned r, c') ->
    batch_ending agent fetched first c (HReturns v)
      (EvCallTool (py "messages") (send_arguments (coerce_response v) (id first))
         :: marks_processed agent fetched)
      (Ok tt) true c'
| ending_send_failed v e c' :
    blank (coerce_response v) = false ->
    call_tool (py "messages") (send_arguments (coerce_response v) (id first)) c
      = (Failed e, c') ->
    is_exception e = true ->
    batch_ending agent fetched first c (HReturns v)
      (EvCallTool (py "messages") (send_arguments (coerce_response v) (id first))
         :: marks_processed agent fetched)
      (Ok tt) true c'
| ending_send_interrupted v e c' :
    blank (coerce_response v) = false ->
    call_tool (py "messages") (send_arguments (coerce_response v) (id first)) c
      = (Failed e, c') ->
    is_exception e = false ->
    batch_ending agent fetched first c (HReturns v)
      [EvCallTool (py "messages") (send_arguments (coerce_response v) (id first))]
      (Raised e) false c'
| ending_handler_failed e :
    is_exception e = true ->
    batch_ending agent fetched first c (HRaises e)
      (marks_processed agent fetched) (Ok tt) true c
| ending_handler_interrupted e :
    is_exception e = false ->
    batch_ending agent fetched first c (HRaises e)
      [] (Raised e) false c.

End WithCollaborators.

(** What the frame of the loop makes of the way the inner [try]
    statement ends: the next iteration, or, for an exception that the
    inner [except Exception] does not catch, the end of the loop. *)
Definition iteration_end (inner : outcome unit) : outcome control :=
  match inner with
  | Ok _ => Ok Continue
  | Raised e => if is_cancelled e then Ok Break else Raised e
  end.

(** The calls of tools in a trace, in order. *)
Fixpoint tool_calls (tr : list event) : list (pystr * list (pystr * pyval)) :=
  match tr with
  | [] => []
  | EvCallTool tool arguments :: tr' => (tool, arguments) :: tool_calls tr'
  | _ :: tr' => tool_calls tr'
  end.

(** The handler invocations of a trace, in order. *)
Fixpoint handler_calls (tr : list event) : list (handler_input * handler_outcome) :=
  match tr with
  | [] => []
  | EvHandler input out :: tr' => (input, out) :: handler_calls tr'
  | _ :: tr' => handler_calls tr'
  end.

(** Oldest first. *)
Definition chronological (l : list msg_dict) : Prop :=
  StronglySorted (fun a b => d_timestamp a <= d_timestamp b) l.

(** [a] may come before [b] in a fetch with order [o]: by timestamp,
    ascending or descending. *)
Definition in_order (o : order) (a b : message) : Prop :=
  match o with
  | asc => timestamp a <= timestamp b
  | desc => timestamp b <= timestamp a
  end.

(** The order in which a fetch with [o] lists the messages. *)
Definition fetch_ordered (o : order) (l : list message) : Prop :=
  StronglySorted (in_order o) l.

(** The contract of [get_pending_messages(agent, limit, order)]
    (section 6 of the specification): the messages come in the order
    asked for. *)
Definition ordered_fetches (Store : Type) `{MessageStore Store} : Prop :=
  forall agent limit o (s : Store),
    fetch_ordered o (get_pending_messages agent limit o s).

End ProcSpec.
Import ProcSpec.

(** ** Vocabulary of the startup sweep's properties *)

Module SweepSpec.

(** The messages that a trace shows as stored (fetched, in the words of
    the sweep). *)
Fixpoint stored (tr : list event) : Z :=
  match tr with
  | [] => 0
  | EvStoreMessage _ _ _ _ true :: tr' => 1 + stored tr'
  | _ :: tr' => stored tr'
  end.

(** The mentions that a trace shows as fetched: brought by the tool
    and handed to the store, whether the store took them or not. *)
Fixpoint handed (tr : list event) : Z :=
  match tr with
  | [] => 0
  | EvStoreMessage _ _ _ _ _ :: tr' => 1 + handed tr'
  | _ :: tr' => handed tr'
  end.

End SweepSpec.
Import SweepSpec.

(** ** Concrete worlds *)

Module Examples.

Import ListStore ScriptedSession MiniJson.

Definition lunar : pystr := py "lunar_craft_128".

(** A structured message whose content names the agent inside a task
    description. *)
Definition task_message : pydict :=
  {[ py "id" := py "bbbb-2222";
     py "sender_name" := py "bob";
     py "content" := py "run task:sync_with@lunar_craft_128/today please" ]}.

(** The same content in the text format of the tool. *)
Definition task_text : pystr :=
  py "[id:bbbb-2222] " ++ [8226%N] ++
  py " bob: @alice run task:sync_with@lunar_craft_128/today please".

(** The same content as an event. *)
Definition task_event : pydict := task_message.

(** A structured message that mentions the agent directly. *)
Definition hello_message : pydict :=
  {[ py "id" := py "aaaa-1111";
     py "sender_name" := py "bob";
     py "content" := py "@lunar_craft_128 hello" ]}.

Definition hello_result : tool_result := mkResult [hello_message] [] None.

(** A handler that answers every mention with [hi], and one that fails. *)
Definition greeter : handler_input -> handler_outcome :=
  fun _ => HReturns (RespStr (py "hi")).

Definition failing : handler_input -> handler_outcome :=
  fun _ => HRaises (mkExc IsException "ValueError" (py "no model available")).

(** The queue manager of [lunar], with its tasks running. *)
Definition manager (h : handler_input -> handler_outcome) : QueueManager :=
  set_running true (init lunar h).

Definition world_of (q : QueueManager) (s : ListStore.t) (script : ScriptedSession.t)
    : world :=
  mkWorld q s script false [].

(** The errors of scenarios 3 and 4 of the specification. *)
Definition rate_limited : pyexc :=
  mkExc IsException "McpError" (dq "{'error':'rate_limited','retry_after':27}").


Definition rate_limited_trailing : pyexc :=
  mkExc IsException "McpError"
    (dq "{'error':'rate_limited','retry_after':27} (request {42})").

(** An error that the classifier does not know. *)
Definition unknown_failure : pyexc := mkExc IsException "ValueError" (py "boom").

Definition connection_reset : pyexc :=
  mkExc IsException "ConnectionResetError"
    (py "ConnectionResetError: [Errno 104] ECONNRESET").

(** The [n]-th of the mentions of [lunar] by [bob] that seed a store:
    its id is the letter [m] and the code point 48 + [n] (the digit [n],
    for [n] below ten), its timestamp is [n]. *)
Definition seed_message (n : nat) : message :=
  mkMessage (py "m" ++ [N.of_nat (48 + n)]) (py "bob")
            (py "@lunar_craft_128 ping") (Z.of_nat n).

(** The store after the first [n] of them have been stored. *)
Fixpoint seeded (n : nat) : ListStore.t :=
  match n with
  | O => ListStore.empty
  | S n' =>
      snd (ListStore.store_message (id (seed_message n)) lunar
             (sender (seed_message n)) (content (seed_message n)) (seeded n'))
  end.

(** The store that already holds the message of [hello_result]. *)
Definition holding_hello : ListStore.t :=
  snd (ListStore.store_message (py "aaaa-1111") lunar (py "bob")
         (py "@lunar_craft_128 hello") ListStore.empty).

(** The world after two connection resets, with a poll that brings
    [hello_result] to come. *)
Definition after_two_resets (s : ListStore.t) : world :=
  snd (poll_and_store 2
         (world_of (manager greeter) s
            [Failed connection_reset; Failed connection_reset; Returned hello_result])).

Definition six_resets : list pyexc := List.repeat connection_reset 6.

(** The world after an error of the unknown class, with two connection
    resets to come. *)
Definition after_unknown_failure : world :=
  snd (poll_and_store 1
         (world_of (manager greeter) ListStore.empty
            [Failed unknown_failure; Failed connection_reset; Failed connection_reset])).

(** A message in which the agent mentions itself. *)
Definition self_mention : pydict :=
  {[ py "id" := py "cccc-3333";
     py "sender_name" := lunar;
     py "content" := py "@lunar_craft_128 note to self" ]}.

(** [q] with another [startup_sweep_limit]. *)
Definition with_sweep_limit (limit : Z) (q : QueueManager) : QueueManager :=
  {| agent_name := agent_name q; handler := handler q; mark_read := mark_read q;
     poll_interval := poll_interval q; startup_sweep := startup_sweep q;
     startup_sweep_limit := limit;
     heartbeat_interval := heartbeat_interval q; _running := _running q;
     _poll_backoff := _poll_backoff q; _poll_backoff_max := _poll_backoff_max q;
     _poll_consecutive_errors := _poll_consecutive_errors q |}.

(** The orders of the fetches of a trace. *)
Fixpoint fetch_orders (tr : list event) : list (Z * order) :=
  match tr with
  | [] => []
  | EvGetBacklogCount _ backlog :: EvGetPendingMessages _ _ o _ :: tr' =>
      (backlog, o) :: fetch_orders tr'
  | _ :: tr' => fetch_orders tr'
  end.

End Examples.

(** ** A session that never runs out of unread mentions *)

(** Each call brings one more unread mention of [lunar_craft_128], the
    [n]-th with an id of its own. *)
Module EndlessSession.

Definition t := nat.

Definition unread (n : nat) : pydict :=
  {[ py "id" := py "u" ++ [N.of_nat (256 + n)];
     py "sender_name" := py "bob";
     py "content" := py "@lunar_craft_128 ping" ]}.

Definition call_tool (tool : pystr) (arguments : list (pystr * pyval)) (c : t)
    : tool_response * t :=
  (Returned (mkResult [unread c] [] None), S c).

#[global] Instance endless : ClientSession t := {| QM.call_tool := call_tool |}.

End EndlessSession.

(** ** A session that brings the same mention again and again *)

(** Every call answers with the same result: the state of the session
    is that result. *)
Module RepeatingSession.

Definition t := tool_result.

Definition call_tool (tool : pystr) (arguments : list (pystr * pyval)) (c : t)
    : tool_response * t :=
  (Returned c, c).

#[global] Instance repeating : ClientSession t := {| QM.call_tool := call_tool |}.

End RepeatingSession.

(** ** Python dicts with string keys *)

(** A [dict] as the list of its items in insertion order; the keys are
    distinct. *)
Module PyDict.

Section Dict.
Context {V : Type}.

(** [d.get(key)], [None] standing for a missing key. *)
Fixpoint lookup (key : pystr) (d : list (pystr * V)) : option V :=
  match d with
  | [] => None
  | (k, v) :: rest => if decide (k = key) then Some v else lookup key rest
  end.

(** [d[key] = v]: an old key keeps its place, a new one goes last. *)
Fixpoint setitem (key : pystr) (v : V) (d : list (pystr * V)) : list (pystr * V) :=
  match d with
  | [] => [(key, v)]
  | (k, x) :: rest =>
      if decide (k = key) then (k, v) :: rest else (k, x) :: setitem key v rest
  end.

(** [{**d, **extra}] *)
Definition update (d extra : list (pystr * V)) : list (pystr * V) :=
  List.fold_left (fun acc kv => setitem (fst kv) (snd kv) acc) extra d.

(** [d.pop(key)] as far as [d] goes: the dict without [key]. *)
Fixpoint remove (key : pystr) (d : list (pystr * V)) : list (pystr * V) :=
  match d with
  | [] => []
  | (k, x) :: rest =>
      if decide (k = key) then rest else (k, x) :: remove key rest
  end.

Definition keys (d : list (pystr * V)) : list pystr := List.map fst d.

Definition values (d : list (pystr * V)) : list V := List.map snd d.

End Dict.

End PyDict.

(** ** Python values: truth, and the errors of a missing method *)

Module PyValue.

(** Truth value of a Python value. *)
Definition truth (v : pyval) : bool :=
  match v with
  | PNone => false
  | PBool b => b
  | PInt z => negb (z =? 0)
  | PFloat f => negb (PrimFloat.eqb f 0%float)
  | PStr s => truthy s
  | PList l => match l with [] => false | _ :: _ => true end
  | PDict items => match items with [] => false | _ :: _ => true end
  end.

(** [a or b] *)
Definition por (a b : pyval) : pyval := if truth a then a else b.

(** The [AttributeError] of [v.attribute] on a value without it. *)
Definition no_attribute (v : pyval) (attribute : string) : pyexc :=
  mkExc IsException "AttributeError"
    (py "'" ++ py (type_name v) ++ py "' object has no attribute '"
     ++ py attribute ++ py "'").

(** The error of [v.get] on a value that is no dict. *)
Definition no_get (v : pyval) : pyexc := no_attribute v "get".

End PyValue.

(** ** Deployment groups (dashboard/backend/deployment_loader.py) *)

(** What [yaml.safe_load] gives is a [pyval]; mappings are taken to have
    string keys. [print] calls are left out: they change nothing of what
    the functions return. *)
Module Deploy.

Import PyValue.

(** [str.title] of the standard library. *)
Class StrTitle := str_title : pystr -> pystr.

(** [s.replace("_", " ")] *)
Definition replace_underscores (s : pystr) : pystr :=
  List.map (fun c => if (c =? 95)%N then 32%N else c) s.

Record DeploymentAgent := mkAgent {
  da_id : pystr;
  role : pyval;
  monitor : pyval;
  provider : pyval;
  model : pyval;
  system_prompt : pyval;
  start_delay_ms : pyval;
  process_backlog : pyval
}.

Record DeploymentGroup := mkGroup {
  dg_id : pystr;
  name : pyval;
  description : pyval;
  defaults : pyval;
  agents : list DeploymentAgent;
  tags : pyval;
  environment : pyval;
  delegation_pattern : option pystr;
  collaboration_pattern : option pystr;
  mcp_servers : list pystr;
  execution_preset : option pystr;
  delegation_pattern_details : option (list (pystr * pyval));
  collaboration_pattern_details : option (list (pystr * pyval));
  mcp_server_details : list (list (pystr * pyval));
  execution_preset_details : option (list (pystr * pyval))
}.

(** The attributes of a [DeploymentLoader] that [reload] sets. *)
Record DeploymentLoader := mkLoader {
  _groups : list (pystr * DeploymentGroup);
  _delegation_patterns : list (pystr * pyval);
  _collaboration_patterns : list (pystr * pyval);
  _mcp_servers : list (pystr * pyval);
  _mcp_server_groups : list (pystr * pyval);
  _execution_presets : list (pystr * pyval)
}.

(** [DeploymentLoader._normalize_string] *)
Definition _normalize_string (value : pyval) : option pystr :=
  match value with
  | PStr s =>
      let stripped := strip s in
      if truthy stripped then Some stripped else None
  | _ => None
  end.

(** The loop of [_normalize_list] over a list (lines 286-292). *)
Fixpoint normalize_items (value : list pyval) : list pystr :=
  match value with
  | [] => []
  | item :: rest =>
      match item with
      | PStr s =>
          let stripped := strip s in
          if truthy stripped then stripped :: normalize_items rest
          else normalize_items rest
      | _ => normalize_items rest
      end
  end.

(** [DeploymentLoader._normalize_list] *)
Definition _normalize_list (value : pyval) : list pystr :=
  match value with
  | PNone => []
  | PStr s =>
      let stripped := strip s in
      if truthy stripped then [stripped] else []
  | PList l => normalize_items l
  | _ => []
  end.

(** [DeploymentLoader._get_mapping_entry]; the label only feeds a
    [print]. *)
Definition _get_mapping_entry (mapping : list (pystr * pyval)) (key : option pystr)
    : option (list (pystr * pyval)) :=
  match key with
  | None => None
  | Some k =>
      if negb (truthy k) then None
      else
        match dict_get k mapping PNone with
        | PDict entry => Some (PyDict.setitem (py "id") (PStr k) entry)
        | _ => None
        end
  end.

(** [DeploymentLoader._resolve_mcp_servers] *)
Fixpoint _resolve_mcp_servers (self : DeploymentLoader) (references : list pystr)
    : list (list (pystr * pyval)) :=
  match references with
  | [] => []
  | ref :: rest =>
      let entry := por (dict_get ref (_mcp_server_groups self) PNone)
                       (dict_get ref (_mcp_servers self) PNone) in
      match entry with
      | PDict e => PyDict.setitem (py "id") (PStr ref) e :: _resolve_mcp_servers self rest
      | _ => _resolve_mcp_servers self rest
      end
  end.

(** [DeploymentLoader._agent_exists] with the set of agents given. *)
Definition _agent_exists (agent_id : pystr) (existing_agents : list pystr) : bool :=
  bool_decide (agent_id ∈ existing_agents).

(** One pass of the loop over [group_info["agents"]] (lines 190-231):
    the agent appended, or [None] when the entry is skipped. An id that
    is no string is in no set of agent names, and the entry is skipped,
    whether by the test of line 206 or by the exception that line 206 or
    207 raises on it and line 229 catches. *)
Definition parse_agent (raw_agent : pyval) (existing_agents : list pystr)
    : option DeploymentAgent :=
  let entry :=
    match raw_agent with
    | PStr agent_id => Some (PStr agent_id, [])
    | PDict d =>
        match PyDict.lookup (py "id") d with
        | None => None
        | Some agent_id =>
            Some (agent_id, List.filter (fun kv => negb (bool_decide (fst kv = py "id"))) d)
        end
    | _ => None
    end in
  match entry with
  | None => None
  | Some (PStr agent_id, agent_data) =>
      if negb (_agent_exists agent_id existing_agents) then None
      else
        Some {| da_id := agent_id;
                role := dict_get (py "role") agent_data PNone;
                monitor := dict_get (py "monitor") agent_data PNone;
                provider := dict_get (py "provider") agent_data PNone;
                model := dict_get (py "model") agent_data PNone;
                system_prompt := dict_get (py "system_prompt") agent_data PNone;
                start_delay_ms := dict_get (py "start_delay_ms") agent_data PNone;
                process_backlog := dict_get (py "process_backlog") agent_data PNone |}
  | Some (_, _) => None
  end.

Fixpoint parse_agents (raw_agents : list pyval) (existing_agents : list pystr)
    : list DeploymentAgent :=
  match raw_agents with
  | [] => []
  | raw_agent :: rest =>
      match parse_agent raw_agent existing_agents with
      | Some agent => agent :: parse_agents rest existing_agents
      | None => parse_agents rest existing_agents
      end
  end.

Definition ValueError (msg : string) : pyexc := mkExc IsException "ValueError" (py msg).

Section WithTitle.
Context `{StrTitle}.

(** [DeploymentLoader._parse_group]: the group, [None] for a group
    without a valid agent, or the [ValueError] raised. *)
Definition _parse_group (self : DeploymentLoader) (group_id : pystr) (group_info : pyval)
    (existing_agents : list pystr) : outcome (option DeploymentGroup) :=
  match group_info with
  | PDict info =>
      let name := dict_get (py "name") info
                    (PStr (str_title (replace_underscores group_id))) in
      let description := dict_get (py "description") info (PStr []) in
      let defaults := por (dict_get (py "defaults") info (PDict [])) (PDict []) in
      let tags := por (dict_get (py "tags") info (PList [])) (PList []) in
      let environment :=
        por (dict_get (py "environment") info (PStr (py "any"))) (PStr (py "any")) in
      let delegation_pattern :=
        _normalize_string (dict_get (py "delegation_pattern") info PNone) in
      let collaboration_pattern :=
        _normalize_string (dict_get (py "collaboration_pattern") info PNone) in
      let execution_preset :=
        _normalize_string (dict_get (py "execution_preset") info PNone) in
      let mcp_servers := _normalize_list (dict_get (py "mcp_servers") info PNone) in
      let delegation_pattern_details :=
        _get_mapping_entry (_delegation_patterns self) delegation_pattern in
      let collaboration_pattern_details :=
        _get_mapping_entry (_collaboration_patterns self) collaboration_pattern in
      let execution_preset_details :=
        _get_mapping_entry (_execution_presets self) execution_preset in
      let mcp_server_details := _resolve_mcp_servers self mcp_servers in
      match PyDict.lookup (py "agents") info with
      | Some (PList raw_agents) =>
          let agents := parse_agents raw_agents existing_agents in
          match agents with
          | [] => Ok None
          | _ :: _ =>
              Ok (Some
                {| dg_id := group_id; name := name; description := description;
                   defaults := defaults; agents := agents; tags := tags;
                   environment := environment;
                   delegation_pattern := delegation_pattern;
                   collaboration_pattern := collaboration_pattern;
                   mcp_servers := mcp_servers;
                   execution_preset := execution_preset;
                   delegation_pattern_details := delegation_pattern_details;
                   collaboration_pattern_details := collaboration_pattern_details;
                   mcp_server_details := mcp_server_details;
                   execution_preset_details := execution_preset_details |})
          end
      | _ => Raised (ValueError "Group must define an 'agents' list")
      end
  | _ => Raised (ValueError "Group definition must be a mapping")
  end.

(** The loop of [reload] over the groups (lines 98-104): a group that
    parses to [None] or raises is left out. *)
Fixpoint load_groups (self : DeploymentLoader) (groups_data : list (pystr * pyval))
    (existing_agents : list pystr) (acc : list (pystr * DeploymentGroup))
    : list (pystr * DeploymentGroup) :=
  match groups_data with
  | [] => acc
  | (group_id, group_info) :: rest =>
      let acc' :=
        match _parse_group self group_id group_info existing_agents with
        | Ok (Some group) => PyDict.setitem group_id group acc
        | Ok None => acc
        | Raised _ => acc
        end in
      load_groups self rest existing_agents acc'
  end.

End WithTitle.

(** What the loader finds at a path: no file, a file that
    [yaml.safe_load] reads, or a file on which opening or reading
    raises. *)
Inductive yaml_source :=
| Missing
| Parsed (data : pyval)
| Unreadable (e : pyexc).

(** The files under [base_dir] and the agent names of
    [ConfigLoader.list_configs()]. *)
Record project := mkProject {
  deployment_groups_yaml : yaml_source;
  delegation_patterns_yaml : yaml_source;
  collaboration_patterns_yaml : yaml_source;
  mcp_servers_yaml : yaml_source;
  execution_presets_yaml : yaml_source;
  agent_names : list pystr
}.

#[export] Instance outcome_ret : MRet outcome := fun A a => Ok a.

#[export] Instance outcome_bind : MBind outcome := fun A B f m =>
  match m with
  | Ok a => f a
  | Raised e => Raised e
  end.

(** [DeploymentLoader._load_yaml_file] *)
Definition _load_yaml_file (source : yaml_source) : outcome (list (pystr * pyval)) :=
  match source with
  | Missing => Ok []
  | Parsed loaded =>
      match por loaded (PDict []) with
      | PDict data => Ok data
      | _ => Ok []
      end
  | Unreadable exc => if is_exception exc then Ok [] else Raised exc
  end.

(** [DeploymentLoader._load_yaml_section] *)
Definition _load_yaml_section (source : yaml_source) (section_key : pystr)
    : outcome (list (pystr * pyval)) :=
  data ← _load_yaml_file source;
  match dict_get section_key data (PDict []) with
  | PDict section => mret section
  | _ => mret []
  end.

Section WithTitle.
Context `{StrTitle}.

(** [DeploymentLoader.reload], as state passing: how the call ends, and
    the loader it leaves. *)
Definition reload (files : project) (self : DeploymentLoader)
    : outcome unit * DeploymentLoader :=
  let self0 := mkLoader [] (_delegation_patterns self) (_collaboration_patterns self)
                 (_mcp_servers self) (_mcp_server_groups self) (_execution_presets self) in
  (* _load_orchestration_configs *)
  match _load_yaml_section (delegation_patterns_yaml files) (py "delegation_patterns") with
  | Raised e => (Raised e, self0)
  | Ok delegation =>
  let self1 := mkLoader [] delegation (_collaboration_patterns self)
                 (_mcp_servers self) (_mcp_server_groups self) (_execution_presets self) in
  match _load_yaml_section (collaboration_patterns_yaml files) (py "collaboration_patterns") with
  | Raised e => (Raised e, self1)
  | Ok collaboration =>
  let self2 := mkLoader [] delegation collaboration
                 (_mcp_servers self) (_mcp_server_groups self) (_execution_presets self) in
  match _load_yaml_file (mcp_servers_yaml files) with
  | Raised e => (Raised e, self2)
  | Ok mcp_data =>
  let mcp_servers :=
    match dict_get (py "mcp_servers") mcp_data (PDict []) with
    | PDict d => d
    | _ => []
    end in
  let server_groups :=
    match dict_get (py "server_groups") mcp_data (PDict []) with
    | PDict d => d
    | _ => []
    end in
  let self3 := mkLoader [] delegation collaboration mcp_servers server_groups
                 (_execution_presets self) in
  match _load_yaml_section (execution_presets_yaml files) (py "execution_presets") with
  | Raised e => (Raised e, self3)
  | Ok presets =>
  let self4 := mkLoader [] delegation collaboration mcp_servers server_groups presets in
  (* the groups *)
  match deployment_groups_yaml files with
  | Missing => (Ok tt, self4)
  | Unreadable e => if is_exception e then (Ok tt, self4) else (Raised e, self4)
  | Parsed loaded =>
      match por loaded (PDict []) with
      | PDict raw_config =>
          match dict_get (py "deployment_groups") raw_config (PDict []) with
          | PDict groups_data =>
              (Ok tt,
               mkLoader (load_groups self4 groups_data (agent_names files) [])
                 delegation collaboration mcp_servers server_groups presets)
          | _ => (Ok tt, self4)
          end
      | raw_config => (Raised (no_get raw_config), self4)
      end
  end end end end end.

End WithTitle.

(** The agent id that an entry of [agents] names: the entry itself when
    it is a string, its [id] when it is a mapping with a string [id]. *)
Definition raw_agent_id (raw_agent : pyval) : option pystr :=
  match raw_agent with
  | PStr agent_id => Some agent_id
  | PDict d =>
      match PyDict.lookup (py "id") d with
      | Some (PStr agent_id) => Some agent_id
      | _ => None
      end
  | _ => None
  end.

(** What [_resolve_mcp_servers] looks up for a reference:
    [self._mcp_server_groups.get(ref) or self._mcp_servers.get(ref)]. *)
Definition server_entry (self : DeploymentLoader) (ref : pystr) : pyval :=
  por (dict_get ref (_mcp_server_groups self) PNone)
      (dict_get ref (_mcp_servers self) PNone).

Definition is_dict (v : pyval) : bool :=
  match v with PDict _ => true | _ => false end.

(** [g.environment in ("any", environment)] *)
Definition environment_in (g : DeploymentGroup) (env : pystr) : bool :=
  match environment g with
  | PStr e => bool_decide (e = py "any") || bool_decide (e = env)
  | _ => false
  end.

(** [DeploymentLoader.list_groups] *)
Definition list_groups (self : DeploymentLoader) (env : option pystr)
    : list DeploymentGroup :=
  let groups := PyDict.values (_groups self) in
  match env with
  | Some e =>
      if truthy e && negb (bool_decide (e = py "any"))
      then List.filter (fun g => environment_in g e) groups
      else groups
  | None => groups
  end.

(** [DeploymentLoader.get_group] *)
Definition get_group (self : DeploymentLoader) (group_id : pystr)
    : option DeploymentGroup :=
  PyDict.lookup group_id (_groups self).

End Deploy.

(** ** The liveness registry (monitoring/liveness.py) *)

(** The methods of [LivenessRegistry] hold its lock from start to end and
    call nothing that gives up control, so each one is modelled as one
    step on the registry. The clock ([datetime.now(UTC)]) is an input of
    the steps that read it. *)
Module Registry.

Import Liveness.

(** A value of a payload: a [datetime], or any other value. *)
Inductive field :=
| FTime (t : Z)
| FVal (v : pyval).

Definition payload := list (pystr * field).

(** [record.last_heartbeat] as a value. *)
Definition heartbeat_field (t : option Z) : field :=
  match t with
  | Some t => FTime t
  | None => FVal PNone
  end.

(** The items of [**record.metadata]. *)
Definition metadata_items (r : LivenessRecord) : payload :=
  List.map (fun kv => (fst kv, FVal (snd kv))) (metadata r).

(** The callback [on_state_change(name, payload)]: it returns
    ([None]), or raises. *)
Definition HeartbeatCallback := pystr -> payload -> option pyexc.

(** [_order] lists the keys of the dict [_records] in the order of
    their insertion; [calls] lists the calls of the callback made so
    far. *)
Record LivenessRegistry := mkRegistry {
  domain : pystr;
  _records : gmap pystr LivenessRecord;
  _order : list pystr;
  _state_callback : option HeartbeatCallback;
  calls : list (pystr * payload)
}.

(** [LivenessRegistry.__init__] *)
Definition init (domain : pystr) (on_state_change : option HeartbeatCallback)
    : LivenessRegistry :=
  mkRegistry domain ∅ [] on_state_change [].

Definition set_records (records : gmap pystr LivenessRecord) (order : list pystr)
    (reg : LivenessRegistry) : LivenessRegistry :=
  mkRegistry (domain reg) records order (_state_callback reg) (calls reg).

(** [LivenessRegistry.register]; [tmo] is [timedelta(seconds=timeout)]
    and [md] is the [metadata] argument, [None] included. *)
Definition register (nm : pystr) (tmo : Z) (md : option (list (pystr * pyval)))
    (reg : LivenessRegistry) : LivenessRegistry * LivenessRecord :=
  let md' := match md with
             | Some ((_ :: _) as items) => items
             | _ => []
             end in
  let '(records, record) := Liveness.register nm tmo md' (_records reg) in
  (set_records records
     (if bool_decide (nm ∈ _order reg) then _order reg else _order reg ++ [nm]) reg,
   record).

(** The payload of [_emit_state]. *)
Definition state_payload (reg : LivenessRegistry) (nm state : pystr) (record : LivenessRecord)
    : payload :=
  PyDict.update
    [ (py "domain", FVal (PStr (domain reg)));
      (py "name", FVal (PStr nm));
      (py "state", FVal (PStr state));
      (py "last_heartbeat", heartbeat_field (last_heartbeat record));
      (py "consecutive_misses", FVal (PInt (consecutive_misses record))) ]
    (metadata_items record).

(** [LivenessRegistry._emit_state] *)
Definition _emit_state (nm state : pystr) (record : LivenessRecord) (reg : LivenessRegistry)
    : outcome unit * LivenessRegistry :=
  match _state_callback reg with
  | None => (Ok tt, reg)
  | Some callback =>
      let payload := state_payload reg nm state record in
      let reg' := mkRegistry (domain reg) (_records reg) (_order reg) (_state_callback reg)
                    (calls reg ++ [(nm, payload)]) in
      match callback nm payload with
      | None => (Ok tt, reg')
      | Some e => if is_exception e then (Ok tt, reg') else (Raised e, reg')
      end
  end.

(** [LivenessRegistry.beat] *)
Definition beat (now : Z) (nm : pystr) (reg : LivenessRegistry)
    : outcome unit * LivenessRegistry :=
  match _records reg !! nm with
  | None => (Ok tt, reg)
  | Some record =>
      _emit_state nm (py "alive") (Liveness.beat now record)
        (set_records (registry_beat now nm (_records reg)) (_order reg) reg)
  end.

(** [LivenessRegistry.miss] *)
Definition miss (nm : pystr) (reg : LivenessRegistry)
    : outcome unit * LivenessRegistry :=
  match _records reg !! nm with
  | None => (Ok tt, reg)
  | Some record =>
      _emit_state nm (py "miss") (mark_miss record)
        (set_records (registry_miss nm (_records reg)) (_order reg) reg)
  end.

(** [LivenessRegistry.mark_dead] *)
Definition mark_dead (nm : pystr) (reg : LivenessRegistry)
    : outcome unit * LivenessRegistry :=
  match _records reg !! nm with
  | None => (Ok tt, reg)
  | Some record => _emit_state nm (py "dead") record reg
  end.

(** One item of [summary]; [now] is the clock as [record.is_alive()]
    reads it. *)
Definition summary_item (now : Z) (record : LivenessRecord) : payload :=
  PyDict.update
    [ (py "name", FVal (PStr (name record)));
      (py "alive", FVal (PBool (is_alive now record)));
      (py "last_heartbeat", heartbeat_field (last_heartbeat record));
      (py "consecutive_misses", FVal (PInt (consecutive_misses record))) ]
    (metadata_items record).

(** [self._records.values()] *)
Definition records_in_order (reg : LivenessRegistry) : list LivenessRecord :=
  omap (fun nm => _records reg !! nm) (_order reg).

(** [LivenessRegistry.summary]; [now i] is the clock as the [i]-th
    record reads it. *)
Definition summary (now : nat -> Z) (reg : LivenessRegistry) : list payload :=
  imap (fun i record => summary_item (now i) record) (records_in_order reg).

(** A registry as the methods keep it: [_order] lists the keys of
    [_records], each once. *)
Definition well_formed (reg : LivenessRegistry) : Prop :=
  NoDup (_order reg) /\ forall nm, nm ∈ _order reg <-> is_Some (_records reg !! nm).

End Registry.

(** ** The MCP server manager (mcp_manager.py) *)

(** The manager is modelled one task at a time: between two [await]s of
    a method no other task changes the manager. The servers, the
    heartbeat manager, the exit stack and the file of the configuration
    are an environment that answers each call with a value or with an
    exception. [print] and [logger] calls are left out. *)
Module MCP.

Import PyValue.

(** A [ClientSession] object, by its identity. Sessions are true
    values. *)
Definition Session := nat.

(** *** Numbers *)

(** An [int] or a [float], as [reconnect_backoff] may be. *)
Inductive number :=
| NInt (z : Z)
| NFloat (f : float).

Definition number_value (n : number) : pyval :=
  match n with
  | NInt z => PInt z
  | NFloat f => PFloat f
  end.

(** *** Exceptions *)

(** An exception, with what the [except] clauses of the manager ask of
    it: whether it is an [asyncio.TimeoutError], a [KeyError], or neither
    of them. The first two are [Exception]s. *)
Inductive exc_sort := IsTimeoutError | IsKeyError | NeitherOfThem.

Record raised := mkRaised {
  sort : exc_sort;
  exc : pyexc
}.

(** [isinstance(exc, Exception)] *)
Definition is_Exception (r : raised) : bool :=
  match sort r with
  | NeitherOfThem => is_exception (exc r)
  | _ => true
  end.

Definition is_TimeoutError (r : raised) : bool :=
  match sort r with IsTimeoutError => true | _ => false end.

Definition is_KeyError (r : raised) : bool :=
  match sort r with IsKeyError => true | _ => false end.

(** An [Exception] of class [cls] that is neither of the two. *)
Definition error (cls : string) (msg : pystr) : raised :=
  mkRaised NeitherOfThem (mkExc IsException cls msg).

(** How a call ends. *)
Inductive result (A : Type) :=
| Done (a : A)
| Thrown (r : raised).
Arguments Done {A} a.
Arguments Thrown {A} r.

(** [b * n] for an [int] [n]. *)
Definition times (b : number) (n : Z) : result number :=
  match b with
  | NInt z => Done (NInt (z * n))
  | NFloat f =>
      match float_of_int n with
      | Some g => Done (NFloat (PrimFloat.mul f g))
      | None => Thrown (error "OverflowError" (py "int too large to convert to float"))
      end
  end.

(** The decimal digits of [n] in front of [acc]; [fuel] bounds their
    number. *)
Fixpoint decimal (fuel : nat) (n : N) (acc : pystr) : pystr :=
  match fuel with
  | O => acc
  | S fuel' =>
      let acc' := (48 + n mod 10)%N :: acc in
      if (n / 10 =? 0)%N then acc' else decimal fuel' (n / 10)%N acc'
  end.

(** [str(z)] *)
Definition str_of_int (z : Z) : pystr :=
  match z with
  | Z0 => py "0"
  | Zpos p => decimal (N.size_nat (Npos p)) (Npos p) []
  | Zneg p => 45%N :: decimal (N.size_nat (Npos p)) (Npos p) []
  end.

(** *** The state of the manager *)

(** [heartbeat_task] is left out: nothing in the module assigns it. *)
Record ServerConnectionState := mkState {
  name : pystr;
  config : pyval;
  session : option Session;
  reconnect_attempts : Z;
  last_error : option pystr;
  metadata : list (pystr * pyval)
}.

(** [ServerConnectionState(name=..., config=...)] *)
Definition new_state (server_name : pystr) (server_config : pyval)
    : ServerConnectionState :=
  mkState server_name server_config None 0 None [].

Record MCPServerManager := mkManager {
  agent_name : pystr;
  config_path : pystr;
  sessions : list (pystr * Session);
  server_states : list (pystr * ServerConnectionState);
  exit_stack : bool;           (* is [self.exit_stack] set *)
  mcp_config : pyval;          (* [self.config] *)
  operation_timeout : Z;
  max_operation_retries : Z;
  reconnect_backoff : number;
  liveness : Registry.LivenessRegistry
}.

(** The callback that [__init__] gives the registry:
    [log_metric("mcp_liveness", **payload)], which raises [TypeError]
    when the payload has a key [event] of its own. The registry keeps
    the calls of the callback ([Registry.calls]); they are not repeated
    in the trace of the manager. *)
Definition liveness_callback : Registry.HeartbeatCallback :=
  fun _ payload =>
    if bool_decide (py "event" ∈ PyDict.keys payload)
    then Some (TypeError "log_metric() got multiple values for argument 'event'")
    else None.

(** [MCPServerManager.__init__] *)
Definition init (agent : pystr) (path : pystr) (timeout retries : Z) (backoff : number)
    : MCPServerManager :=
  {| agent_name := agent; config_path := path;
     sessions := []; server_states := [];
     exit_stack := false; mcp_config := PNone;
     operation_timeout := timeout; max_operation_retries := retries;
     reconnect_backoff := backoff;
     liveness := Registry.init (py "mcp") (Some liveness_callback) |}.

Definition set_sessions (s : list (pystr * Session)) (m : MCPServerManager)
    : MCPServerManager :=
  {| agent_name := agent_name m; config_path := config_path m;
     sessions := s; server_states := server_states m;
     exit_stack := exit_stack m; mcp_config := mcp_config m;
     operation_timeout := operation_timeout m;
     max_operation_retries := max_operation_retries m;
     reconnect_backoff := reconnect_backoff m; liveness := liveness m |}.

Definition set_server_states (s : list (pystr * ServerConnectionState))
    (m : MCPServerManager) : MCPServerManager :=
  {| agent_name := agent_name m; config_path := config_path m;
     sessions := sessions m; server_states := s;
     exit_stack := exit_stack m; mcp_config := mcp_config m;
     operation_timeout := operation_timeout m;
     max_operation_retries := max_operation_retries m;
     reconnect_backoff := reconnect_backoff m; liveness := liveness m |}.

Definition set_exit_stack (b : bool) (m : MCPServerManager) : MCPServerManager :=
  {| agent_name := agent_name m; config_path := config_path m;
     sessions := sessions m; server_states := server_states m;
     exit_stack := b; mcp_config := mcp_config m;
     operation_timeout := operation_timeout m;
     max_operation_retries := max_operation_retries m;
     reconnect_backoff := reconnect_backoff m; liveness := liveness m |}.

Definition set_config (c : pyval) (m : MCPServerManager) : MCPServerManager :=
  {| agent_name := agent_name m; config_path := config_path m;
     sessions := sessions m; server_states := server_states m;
     exit_stack := exit_stack m; mcp_config := c;
     operation_timeout := operation_timeout m;
     max_operation_retries := max_operation_retries m;
     reconnect_backoff := reconnect_backoff m; liveness := liveness m |}.

Definition set_liveness (l : Registry.LivenessRegistry) (m : MCPServerManager)
    : MCPServerManager :=
  {| agent_name := agent_name m; config_path := config_path m;
     sessions := sessions m; server_states := server_states m;
     exit_stack := exit_stack m; mcp_config := mcp_config m;
     operation_timeout := operation_timeout m;
     max_operation_retries := max_operation_retries m;
     reconnect_backoff := reconnect_backoff m; liveness := l |}.

(** The state object kept under [key], changed in place. *)
Definition update_state (key : pystr) (f : ServerConnectionState -> ServerConnectionState)
    (m : MCPServerManager) : MCPServerManager :=
  set_server_states
    (List.map (fun kv => if decide (fst kv = key) then (fst kv, f (snd kv)) else kv)
       (server_states m)) m.

Definition connected (s : Session) (st : ServerConnectionState) : ServerConnectionState :=
  mkState (name st) (config st) (Some s) 0 None (metadata st).

Definition with_reconnect_attempts (n : Z) (st : ServerConnectionState)
    : ServerConnectionState :=
  mkState (name st) (config st) (session st) n (last_error st) (metadata st).

Definition with_last_error (e : pystr) (st : ServerConnectionState)
    : ServerConnectionState :=
  mkState (name st) (config st) (session st) (reconnect_attempts st) (Some e) (metadata st).

Definition with_tool_count (n : Z) (st : ServerConnectionState) : ServerConnectionState :=
  mkState (name st) (config st) (session st) (reconnect_attempts st) (last_error st)
    (PyDict.setitem (py "tool_count") (PInt n) (metadata st)).

(** *** The environment *)

(** [str] of the standard library, on the values of a configuration. *)
Class PyRepr := py_str : pyval -> pystr.

(** What the manager calls outside of itself. Each call answers with a
    value or with an exception, and may change the environment.
    - [read_config path]: [path.exists()], and [json.load] of the file
      ([null] read as [PNone]); [None] for no file.
    - [server_parameters command args env]: the constructor
      [StdioServerParameters].
    - [connect command args env timeout]: lines 152-154, the transport of
      [stdio_client] and the [ClientSession] entered on the exit stack,
      and [session.initialize()] awaited within [timeout].
    - [heartbeat_start session name]: [heartbeat_manager.start].
    - [heartbeat_stop_all]: [heartbeat_manager.stop_all()].
    - [list_tools session]: [session.list_tools()], answering with the
      [tools] attribute of the response, [None] for a response without.
    - [session_call_tool session tool arguments]: [session.call_tool].
    - [close session]: [session.close()].
    - [exit_stack_close]: [exit_stack.__aexit__(None, None, None)].
    - [now]: [datetime.now(UTC)]. *)
Class Servers (E : Type) := {
  read_config : pystr -> E -> result (option pyval) * E;
  server_parameters : pyval -> pyval -> pyval -> E -> result unit * E;
  connect : pyval -> pyval -> pyval -> Z -> E -> result Session * E;
  heartbeat_start : Session -> pystr -> E -> result unit * E;
  heartbeat_stop_all : E -> result unit * E;
  list_tools : Session -> E -> result (option (list pyval)) * E;
  session_call_tool : Session -> pystr -> pyval -> E -> result pyval * E;
  close : Session -> E -> result unit * E;
  exit_stack_close : E -> result unit * E;
  now : E -> Z
}.

(** What a run leaves to be seen, in order. *)
Inductive event :=
| EvSleep (delay : pyval)
    (* [asyncio.sleep(delay)] is awaited *)
| EvMetric (name : pystr) (fields : list (pystr * pyval))
    (* [log_metric(name, **fields)] *)
| EvConnect (server_name : pystr)
    (* [connect] is called for the server *)
| EvOperation (opname : pystr) (session : Session)
    (* the operation of [_execute_with_retry] is called on the session *)
| EvClose (session : Session).
    (* [session.close()] is called *)

Section Manager.
Context {E : Type} `{Servers E} `{PyRepr}.

Record world := mkWorld {
  self : MCPServerManager;
  env : E;
  trace : list event
}.

Definition M (A : Type) : Type := world -> result A * world.

#[export] Instance M_ret : MRet M := fun A a w => (Done a, w).

#[export] Instance M_bind : MBind M := fun A B f m w =>
  match m w with
  | (Done a, w') => f a w'
  | (Thrown r, w') => (Thrown r, w')
  end.

Definition raise {A} (r : raised) : M A := fun w => (Thrown r, w).

Definition lift {A} (r : result A) : M A := fun w => (r, w).

(** [try: body / except Exception as exc: on_error exc] *)
Definition try_except {A} (body : M A) (on_error : raised -> M A) : M A := fun w =>
  match body w with
  | (Done a, w') => (Done a, w')
  | (Thrown r, w') => if is_Exception r then on_error r w' else (Thrown r, w')
  end.

Definition get_self : M MCPServerManager := fun w => (Done (self w), w).

Definition modify_self (f : MCPServerManager -> MCPServerManager) : M unit := fun w =>
  (Done tt, mkWorld (f (self w)) (env w) (trace w)).

Definition emit (ev : event) : M unit := fun w =>
  (Done tt, mkWorld (self w) (env w) (trace w ++ [ev])).

(** A call of the environment. *)
Definition on_env {A} (f : E -> result A * E) : M A := fun w =>
  let (r, e') := f (env w) in
  (r, mkWorld (self w) e' (trace w)).

(** [await asyncio.sleep(delay)], which is taken to end: a delay that
    is no finite number is outside of the model. *)
Definition sleep (delay : number) : M unit := emit (EvSleep (number_value delay)).

(** [log_metric(name, **fields)]; it raises nothing. *)
Definition log_metric (name : string) (fields : list (string * pyval)) : M unit :=
  emit (EvMetric (py name) (List.map (fun kv => (py (fst kv), snd kv)) fields)).

(** A method of the registry [self.liveness]. *)
Definition on_liveness
    (f : Registry.LivenessRegistry -> outcome unit * Registry.LivenessRegistry)
    : M unit := fun w =>
  let (r, reg') := f (liveness (self w)) in
  let w' := mkWorld (set_liveness reg' (self w)) (env w) (trace w) in
  match r with
  | Ok _ => (Done tt, w')
  | QM.Raised e => (Thrown (mkRaised NeitherOfThem e), w')
  end.

Definition liveness_beat (server_name : pystr) : M unit := fun w =>
  on_liveness (Registry.beat (now (env w)) server_name) w.

Definition liveness_miss (server_name : pystr) : M unit :=
  on_liveness (Registry.miss server_name).

Definition liveness_mark_dead (server_name : pystr) : M unit :=
  on_liveness (Registry.mark_dead server_name).

(** *** Configuration *)

Definition FileNotFoundError (path : pystr) : raised :=
  error "FileNotFoundError"
    (py "Agent config not found: " ++ path ++ [10%N]
     ++ py "The config file does not exist at the specified path.").

(** ["mcpServers" not in self.config], or the [TypeError] of a value
    that holds nothing. *)
Definition lacks_servers (config : pyval) : result bool :=
  match config with
  | PDict items =>
      Done (negb (bool_decide (py "mcpServers" ∈ PyDict.keys items)))
  | PList l =>
      Done (negb (existsb (fun v => match v with
                                    | PStr s => bool_decide (s = py "mcpServers")
                                    | _ => false
                                    end) l))
  | PStr s => Done (negb (contains (py "mcpServers") s))
  | v =>
      Thrown (error "TypeError"
                (py "argument of type '" ++ py (type_name v) ++ py "' is not iterable"))
  end.

(** [MCPServerManager.load_config] *)
Definition load_config : M pyval :=
  m ← get_self;
  found ← on_env (read_config (config_path m));
  match found with
  | None => raise (FileNotFoundError (config_path m))
  | Some config =>
      modify_self (set_config config);;
      lacking ← lift (lacks_servers config);
      if lacking : bool then
        raise (error "ValueError"
                 (py "Invalid config format. Expected 'mcpServers' key in "
                  ++ config_path m))
      else mret config
  end.

(** [MCPServerManager._build_server_params]: the arguments of
    [StdioServerParameters], which the environment then makes. *)
Definition _build_server_params (server_config : pyval) : M (pyval * pyval * pyval) :=
  match server_config with
  | PDict items =>
      let command := dict_get (py "command") items (PStr (py "npx")) in
      let args := dict_get (py "args") items (PList []) in
      let env := dict_get (py "env") items PNone in
      on_env (server_parameters command args env);;
      mret (command, args, env)
  | v => raise (mkRaised NeitherOfThem (no_get v))
  end.

(** [MCPServerManager._maybe_start_heartbeat] *)
Definition _maybe_start_heartbeat (server_name : pystr) (s : Session)
    (server_config : pyval) : M unit :=
  m ← get_self;
  requires_heartbeat ←
    (if startswith (py "ax-") server_name then mret true
     else match server_config with
          | PDict items =>
              mret (contains (py "mcp-remote")
                      (py_str (dict_get (py "args") items (PList []))))
          | v => raise (mkRaised NeitherOfThem (no_get v))
          end);
  if negb requires_heartbeat then mret tt
  else on_env (heartbeat_start s (agent_name m ++ py "/" ++ server_name)).

(** *** Connecting *)

(** The [try] block of [_connect_single_server] (lines 151-168);
    [key] is where [server_states] keeps the state object. *)
Definition connect_try (key : pystr) (state : ServerConnectionState) : M bool :=
  let server_name := name state in
  let server_config := config state in
  m ← get_self;
  '(command, args, env) ← _build_server_params server_config;
  (if exit_stack m then mret tt
   else raise (mkRaised NeitherOfThem (no_attribute PNone "enter_async_context")));;
  emit (EvConnect server_name);;
  s ← on_env (connect command args env (operation_timeout m));
  modify_self (fun m => set_sessions (PyDict.setitem server_name s (sessions m)) m);;
  modify_self (update_state key (connected s));;
  _maybe_start_heartbeat server_name s server_config;;
  liveness_beat server_name;;
  tools ← on_env (list_tools s);
  let tool_count :=
    match tools with
    | Some l => Z.of_nat (List.length l)
    | None => 0
    end in
  modify_self (update_state key (with_tool_count tool_count));;
  log_metric "mcp_connected"
    [("server", PStr server_name); ("tool_count", PInt tool_count)];;
  mret true.

(** [MCPServerManager._connect_single_server] *)
Definition _connect_single_server (key : pystr) (state : ServerConnectionState)
    : M bool :=
  try_except (connect_try key state)
    (fun r =>
       let error_text := exc_str (exc r) in
       modify_self (update_state key (with_last_error error_text));;
       log_metric "mcp_connection_failed"
         [("server", PStr (name state)); ("error", PStr error_text)];;
       mret false).

(** [len(mcp_servers)] and [mcp_servers.items()] (lines 185 and 187). *)
Definition server_items (mcp_servers : pyval) : result (list (pystr * pyval)) :=
  match mcp_servers with
  | PDict items => Done items
  | PStr _ | PList _ => Thrown (mkRaised NeitherOfThem (no_attribute mcp_servers "items"))
  | v =>
      Thrown (error "TypeError"
                (py "object of type '" ++ py (type_name v) ++ py "' has no len()"))
  end.

(** The loop of [connect_all] (lines 187-197). *)
Fixpoint connect_each (servers : list (pystr * pyval)) : M unit :=
  match servers with
  | [] => mret tt
  | (server_name, server_config) :: rest =>
      let state := new_state server_name server_config in
      modify_self (fun m =>
        set_server_states (PyDict.setitem server_name state (server_states m)) m);;
      _connect_single_server server_name state;;
      connect_each rest
  end.

(** [MCPServerManager.connect_all] *)
Definition connect_all : M unit :=
  m ← get_self;
  config ← match mcp_config m with
           | PNone => load_config
           | config => mret config
           end;
  modify_self (set_exit_stack true);;
  mcp_servers ← match config with
                | PDict items => mret (dict_get (py "mcpServers") items (PDict []))
                | v => raise (mkRaised NeitherOfThem (no_get v))
                end;
  servers ← lift (server_items mcp_servers);
  connect_each servers.

(** [MCPServerManager.disconnect_all] *)
Definition disconnect_all : M unit :=
  on_env heartbeat_stop_all;;
  m ← get_self;
  if exit_stack m then
    on_env exit_stack_close;;
    modify_self (set_sessions []);;
    modify_self (set_server_states [])
  else mret tt.

(** [MCPServerManager.get_session] *)
Definition get_session (m : MCPServerManager) (server_name : pystr) : option Session :=
  PyDict.lookup server_name (sessions m).

(** [MCPServerManager.get_primary_session] *)
Definition get_primary_session (m : MCPServerManager) : result Session :=
  match PyDict.lookup (py "ax-gcp") (sessions m) with
  | Some s => Done s
  | None =>
      match sessions m with
      | (_, s) :: _ => Done s
      | [] => Thrown (error "RuntimeError" (py "No MCP sessions available"))
      end
  end.

(** *** Reconnecting *)

(** [range(1, n + 1)] *)
Definition attempts (n : Z) : list Z :=
  List.map Z.of_nat (seq 1 (Z.to_nat n)).

(** The loop of [_attempt_reconnect] over the attempts left. *)
Fixpoint reconnect_loop (key : pystr) (state : ServerConnectionState)
    (max_attempts : Z) (left : list Z) : M bool :=
  match left with
  | [] =>
      log_metric "mcp_reconnect_failed"
        [("server", PStr (name state)); ("attempts", PInt max_attempts)];;
      mret false
  | attempt :: rest =>
      m ← get_self;
      backoff ← lift (times (reconnect_backoff m) (2 ^ (attempt - 1)));
      sleep backoff;;
      modify_self (update_state key (with_reconnect_attempts attempt));;
      success ← _connect_single_server key state;
      if success : bool then
        log_metric "mcp_reconnected"
          [("server", PStr (name state)); ("attempt", PInt attempt)];;
        mret true
      else reconnect_loop key state max_attempts rest
  end.

(** [MCPServerManager._attempt_reconnect] *)
Definition _attempt_reconnect (key : pystr) (state : ServerConnectionState) : M bool :=
  m ← get_self;
  let max_attempts := max_operation_retries m in
  reconnect_loop key state max_attempts (attempts max_attempts).

(** [MCPServerManager._ensure_session] *)
Definition _ensure_session (server_name : pystr) : M Session :=
  m ← get_self;
  match PyDict.lookup server_name (sessions m) with
  | Some s => mret s
  | None =>
      match PyDict.lookup server_name (server_states m) with
      | None =>
          raise (error "ValueError" (py "Unknown server '" ++ server_name ++ py "'"))
      | Some state =>
          reconnected ← _attempt_reconnect server_name state;
          m' ← get_self;
          let state_session :=
            match PyDict.lookup server_name (server_states m') with
            | Some state' => session state'
            | None => None
            end in
          match (if reconnected : bool then state_session else None) with
          | Some s => mret s
          | None =>
              raise (error "RuntimeError"
                       (py "Unable to reconnect to server '" ++ server_name ++ py "'"))
          end
      end
  end.

(** *** Operations with retry *)

Section Retry.
Context {R : Type}.

(** [operation(session)] awaited within [operation_timeout]. *)
Variable operation : Session -> E -> result R * E.

(** Lines 326-329: the session is dropped and closed. *)
Definition drop_session (server_name : pystr) : M unit := fun w =>
  match PyDict.lookup server_name (sessions (self w)) with
  | None => (Done tt, w)                      (* [KeyError], suppressed *)
  | Some s =>
      match (modify_self (fun m => set_sessions (PyDict.remove server_name (sessions m)) m);;
             emit (EvClose s);;
             on_env (close s)) w with
      | (Done _, w') => (Done tt, w')
      | (Thrown r, w') => if is_KeyError r then (Done tt, w') else (Thrown r, w')
      end
  end.

(** The [except asyncio.TimeoutError] clause (lines 306-314). *)
Definition on_timeout (server_name opname : pystr) (attempt : Z) : M unit :=
  log_metric "mcp_operation_timeout"
    [("server", PStr server_name); ("op", PStr opname); ("attempt", PInt attempt)];;
  liveness_miss server_name.

(** The [except Exception] clause (lines 315-329). *)
Definition on_failure (server_name opname : pystr) (attempt : Z) (r : raised) : M unit :=
  log_metric "mcp_operation_failure"
    [("server", PStr server_name); ("op", PStr opname); ("attempt", PInt attempt);
     ("error", PStr (exc_str (exc r)))];;
  liveness_miss server_name;;
  drop_session server_name.

(** The [try] block of an attempt (lines 300-305). *)
Definition attempt_try (server_name opname : pystr) (attempt : Z) : M R :=
  s ← _ensure_session server_name;
  emit (EvOperation opname s);;
  outcome ← on_env (operation s);
  liveness_beat server_name;;
  (if 1 <? attempt then
     log_metric "mcp_retry_success"
       [("server", PStr server_name); ("op", PStr opname); ("attempt", PInt attempt)]
   else mret tt);;
  mret outcome.

(** The [try] statement of an attempt: the value returned, or [None]
    when an [except] clause has handled the failure. *)
Definition attempt_once (server_name opname : pystr) (attempt : Z) : M (option R) :=
  fun w =>
    match attempt_try server_name opname attempt w with
    | (Done v, w') => (Done (Some v), w')
    | (Thrown r, w') =>
        if is_TimeoutError r then
          (on_timeout server_name opname attempt;; mret None) w'
        else if is_Exception r then
          (on_failure server_name opname attempt r;; mret None) w'
        else (Thrown r, w')
    end.

Definition operation_failed (server_name opname : pystr) (retries : Z) : raised :=
  error "RuntimeError"
    (py "Operation '" ++ opname ++ py "' failed for server '" ++ server_name
     ++ py "' after " ++ str_of_int retries ++ py " attempts").

(** The loop of [_execute_with_retry] over the attempts left. *)
Fixpoint retry_loop (server_name opname : pystr) (left : list Z) : M R :=
  match left with
  | [] =>
      liveness_mark_dead server_name;;
      m ← get_self;
      raise (operation_failed server_name opname (max_operation_retries m))
  | attempt :: rest =>
      returned ← attempt_once server_name opname attempt;
      match returned with
      | Some v => mret v
      | None =>
          m ← get_self;
          delay ← lift (times (reconnect_backoff m) attempt);
          sleep delay;;
          retry_loop server_name opname rest
      end
  end.

(** [MCPServerManager._execute_with_retry] *)
Definition _execute_with_retry (server_name opname : pystr) : M R :=
  m ← get_self;
  retry_loop server_name opname (attempts (max_operation_retries m)).

End Retry.

(** The closure [_list] of [list_all_tools]. *)
Definition _list (s : Session) (e : E) : result (list pyval) * E :=
  match list_tools s e with
  | (Done (Some tools), e') => (Done tools, e')
  | (Done None, e') => (Done [], e')
  | (Thrown r, e') => (Thrown r, e')
  end.

(** The loop of [list_all_tools] over the names of the servers. *)
Fixpoint list_each (names : list pystr) (results : list (pystr * list pyval))
    : M (list (pystr * list pyval)) :=
  match names with
  | [] => mret results
  | server_name :: rest =>
      results' ← try_except
                   (tools ← _execute_with_retry _list server_name (py "list_tools");
                    mret (PyDict.setitem server_name tools results))
                   (fun _ => mret (PyDict.setitem server_name [] results));
      list_each rest results'
  end.

(** [MCPServerManager.list_all_tools]. The loop runs over the keys that
    [server_states] has when it starts: nothing that the loop calls adds
    or removes a key. *)
Definition list_all_tools : M (list (pystr * list pyval)) :=
  m ← get_self;
  list_each (PyDict.keys (server_states m)) [].

(** [MCPServerManager.call_tool] *)
Definition call_tool (server_name tool_name : pystr) (arguments : pyval) : M pyval :=
  _execute_with_retry (fun s => session_call_tool s tool_name arguments)
    server_name (py "call_tool:" ++ tool_name).

End Manager.

(** [create_langchain_tools], lines 366-367: the name a tool of
    [server_name] is given. *)
Definition prefixed_name (server_name tool_name : pystr) : pystr :=
  if startswith (server_name ++ py "_") tool_name then tool_name
  else server_name ++ py "_" ++ tool_name.

End MCP.

(** ** Vocabulary of the manager's properties *)

Module MCPSpec.

Import MCP.

(** The delays of the sleeps of a trace, in order. *)
Fixpoint sleeps (tr : list event) : list pyval :=
  match tr with
  | [] => []
  | EvSleep d :: tr' => d :: sleeps tr'
  | _ :: tr' => sleeps tr'
  end.

(** How often a trace calls the operation, and how often it connects. *)
Fixpoint operations (tr : list event) : nat :=
  match tr with
  | [] => O
  | EvOperation _ _ :: tr' => S (operations tr')
  | _ :: tr' => operations tr'
  end.

Fixpoint connects (tr : list event) : nat :=
  match tr with
  | [] => O
  | EvConnect _ :: tr' => S (connects tr')
  | _ :: tr' => connects tr'
  end.

(** The waits between the attempts of an operation: [b * 1], [b * 2],
    ... *)
Definition linear_delays (b : number) (attempts : list Z) (delays : list number) : Prop :=
  Forall2 (fun attempt delay => times b attempt = Done delay) attempts delays.

(** The waits before the attempts to reconnect: [b * 2 ** 0],
    [b * 2 ** 1], ... *)
Definition doubling_delays (b : number) (attempts : list Z) (delays : list number) : Prop :=
  Forall2 (fun attempt delay => times b (2 ^ (attempt - 1)) = Done delay) attempts delays.

(** The operation, called again and again on session [s], answers with
    [answers], in order, and leaves the environment [e']. *)
Fixpoint operation_answers {E R : Type} (operation : Session -> E -> result R * E)
    (s : Session) (e : E) (answers : list (result R)) (e' : E) : Prop :=
  match answers with
  | [] => e' = e
  | a :: rest =>
      exists e1, operation s e = (a, e1) /\ operation_answers operation s e1 rest e'
  end.

(** What the retries go by: the number of attempts and the backoff. *)
Definition policy (m : MCPServerManager) : Z * number :=
  (max_operation_retries m, reconnect_backoff m).

(** A trace without sleeps and without calls of the operation, which
    connects at most [n] times. *)
Definition calm (n : nat) (tr : list event) : Prop :=
  sleeps tr = [] /\ operations tr = O /\ (connects tr <= n)%nat.

(** A trace with at most [ops] calls of the operation and at most
    [conns] connections. *)
Definition busy (ops conns : nat) (tr : list event) : Prop :=
  (operations tr <= ops)%nat /\ (connects tr <= conns)%nat.

(** The manager keeps no liveness record of a server: as it is after
    [__init__], which registers none. *)
Definition unregistered (m : MCPServerManager) (server_name : pystr) : Prop :=
  Registry._records (liveness m) !! server_name = None.

(** The metric and the sleep that end a failed attempt on an unknown
    server. *)
Definition unknown_attempt (server_name opname : pystr) (attempt : Z) (delay : number)
    : list event :=
  [ EvMetric (py "mcp_operation_failure")
      [ (py "server", PStr server_name); (py "op", PStr opname);
        (py "attempt", PInt attempt);
        (py "error", PStr (py "Unknown server '" ++ server_name ++ py "'")) ];
    EvSleep (number_value delay) ].

(** The servers that the manager keeps a state for, in order: the key
    of each state with the name and the configuration that the state
    holds. *)
Definition registered (states : list (pystr * ServerConnectionState))
    : list (pystr * (pystr * pyval)) :=
  List.map (fun kv => (fst kv, (name (snd kv), config (snd kv)))) states.

(** A state that has a session or the text of an error. *)
Definition settled (state : ServerConnectionState) : Prop :=
  is_Some (session state) \/ is_Some (last_error state).

(** The state kept under [key], if there is one, is settled. *)
Definition settled_at (key : pystr) (states : list (pystr * ServerConnectionState)) : Prop :=
  forall state, PyDict.lookup key states = Some state -> settled state.

(** A change of a state that keeps its name and its configuration, and
    keeps it settled. *)
Definition gentle (f : ServerConnectionState -> ServerConnectionState) : Prop :=
  forall state,
    name (f state) = name state /\ config (f state) = config state
    /\ (settled state -> settled (f state)).

(** A property of the states that gentle changes keep. *)
Definition stable (J : list (pystr * ServerConnectionState) -> Prop) : Prop :=
  forall key f m,
    gentle f -> J (server_states m) -> J (server_states (update_state key f m)).

Section WithServers.
Context {E : Type} `{Servers E} `{PyRepr}.

(** Whatever the environment answers, the computation adds a trace that
    satisfies [P] and leaves the policy of the retries as it was. *)
Definition frame {A} (P : list event -> Prop) (c : M (E:=E) A) : Prop :=
  forall w : world (E:=E), exists tr,
    trace (snd (c w)) = trace w ++ tr
    /\ P tr
    /\ policy (self (snd (c w))) = policy (self w).

(** The computation keeps a property of the states of the servers. *)
Definition preserves {A} (J : list (pystr * ServerConnectionState) -> Prop)
    (c : M (E:=E) A) : Prop :=
  forall w : world (E:=E),
    J (server_states (self w)) -> J (server_states (self (snd (c w)))).

(** When the computation returns, the states of the servers have the
    property. *)
Definition ensures {A} (J : list (pystr * ServerConnectionState) -> Prop)
    (c : M (E:=E) A) : Prop :=
  forall (w : world (E:=E)) a w', c w = (Done a, w') -> J (server_states (self w')).

End WithServers.

End MCPSpec.

(** ** The structured formats on values of any shape (lines 113-147) *)

Module RawParse.
Import PyValue.

(** The attributes of the result as [json.loads] or the client library
    leaves them: [PNone] for a missing attribute. *)
Record raw_result := mkRaw {
  raw_messages : pyval;
  raw_events : pyval;
  raw_content_text : option pystr
}.

(** [msg.get(key, default)]; [None] when [msg] has no method [get]
    ([AttributeError]). *)
Definition raw_get (msg : pyval) (key default : string) : option pyval :=
  match msg with
  | PDict items => Some (dict_get (py key) items (PStr (py default)))
  | _ => None
  end.

(** [msg_id[:8]] has a value: on a string and on a list. On every other
    value the slice raises [TypeError]. *)
Definition sliceable (msg_id : pyval) : bool :=
  match msg_id with
  | PStr _ | PList _ => true
  | _ => false
  end.

(** [sender == self.agent_name] *)
Definition is_agent (agent_name : pystr) (sender : pyval) : bool :=
  match sender with
  | PStr s => bool_decide (s = agent_name)
  | _ => false
  end.

(** The loop over [result.messages] (lines 117-137), with the [None] of
    lines 205-207 where a line raises: [msg.get] on an entry that is no
    dict, [re.search] on a content that is no string, [msg_id[:8]] on an
    id that cannot be sliced. *)
Fixpoint scan_messages (agent_name : pystr) (msgs : list pyval)
    : option (pyval * pyval * pystr) :=
  match msgs with
  | [] => None
  | msg :: rest =>
      match raw_get msg "content" "" with
      | Some (PStr content) =>
          if is_match (mention_pattern agent_name) content then
            match raw_get msg "id" "unknown", raw_get msg "sender_name" "unknown" with
            | Some msg_id, Some sender =>
                if is_agent agent_name sender then scan_messages agent_name rest
                else if sliceable msg_id then Some (msg_id, sender, content)
                else None
            | _, _ => None
            end
          else scan_messages agent_name rest
      | _ => None
      end
  end.

(** Lines 140-147 on [event = result.events[0]]. *)
Definition first_event (event : pyval) : option (pyval * pyval * pyval) :=
  match raw_get event "id" "unknown",
        raw_get event "sender_name" "unknown",
        raw_get event "content" "" with
  | Some msg_id, Some sender, Some content =>
      if sliceable msg_id then Some (msg_id, sender, content) else None
  | _, _, _ => None
  end.

(** [QueueManager._parse_message] on a result of any shape. A truthy
    [messages] that is no list gives entries without [get] or cannot be
    iterated; a truthy [events] that is no list has no [events[0]] with a
    method [get]: both end in the [except] clause. *)
Definition _parse_message (agent_name : pystr) (result : raw_result)
    : option (pyval * pyval * pyval) :=
  if truth (raw_messages result) then
    match raw_messages result with
    | PList msgs =>
        match scan_messages agent_name msgs with
        | Some (msg_id, sender, content) => Some (msg_id, sender, PStr content)
        | None => None
        end
    | _ => None
    end
  else if truth (raw_events result) then
    match raw_events result with
    | PList (event :: _) => first_event event
    | _ => None
    end
  else
    match parse_text agent_name (raw_content_text result) with
    | Some (msg_id, sender, content) => Some (PStr msg_id, PStr sender, PStr content)
    | None => None
    end.

(** A dict of strings as a value. *)
Definition of_pydict (d : pydict) : pyval :=
  PDict (map_to_list (PStr <$> d)).

(** A result of [QM] as a result of any shape. *)
Definition of_result (result : tool_result) : raw_result :=
  mkRaw (PList (of_pydict <$> messages result))
        (PList (of_pydict <$> events result))
        (content_text result).

(** A triple of strings as a triple of values. *)
Definition of_triple (t : pystr * pystr * pystr) : pyval * pyval * pyval :=
  let '(msg_id, sender, content) := t in (PStr msg_id, PStr sender, PStr content).

End RawParse.

(** ** Vocabulary of the parser's further properties *)

Module ParseSpec.

(** A structured message that the parser accepts for [agent]: its
    content mentions the agent directly and its sender is another. *)
Definition relevant (agent : pystr) (msg : pydict) : Prop :=
  direct_mention agent (get msg "content" "")
  /\ get msg "sender_name" "unknown" <> agent.

(** The content of an entry that the parser can read: the entry is a
    dict and what it holds as content (the empty string when it holds
    none) is a string. *)
Definition content_of (msg : pyval) : option pystr :=
  match RawParse.raw_get msg "content" "" with
  | Some (PStr content) => Some content
  | _ => None
  end.

(** An entry of any shape that the parser accepts for [agent]: it can be
    read, its content mentions the agent directly and its sender is
    another. *)
Definition relevant_entry (agent : pystr) (msg : pyval) : Prop :=
  exists content,
    content_of msg = Some content
    /\ direct_mention agent content
    /\ RawParse.raw_get msg "sender_name" "unknown" <> Some (PStr agent).

(** An entry that the parser passes over: it can be read, and its content
    does not mention the agent directly or the agent sent it. *)
Definition passed_over (agent : pystr) (msg : pyval) : Prop :=
  exists content,
    content_of msg = Some content
    /\ (~ direct_mention agent content
        \/ RawParse.raw_get msg "sender_name" "unknown" = Some (PStr agent)).

(** An entry at which the parser gives up: it cannot be read, or it is
    relevant and its id cannot be sliced for the log line. *)
Definition gives_up_at (agent : pystr) (msg : pyval) : Prop :=
  content_of msg = None
  \/ (relevant_entry agent msg
      /\ exists msg_id,
           RawParse.raw_get msg "id" "unknown" = Some msg_id
           /\ RawParse.sliceable msg_id = false).

(** A character of the class [[a-f0-9-]]. *)
Definition id_char (c : N) : Prop :=
  (97 <= c <= 102)%N \/ (48 <= c <= 57)%N \/ c = 45%N.

End ParseSpec.

(** ** Vocabulary of the further properties of the tasks *)

Module LoopSpec.

(** The bounds within which the poller keeps its backoff. *)
Definition backoff_in_bounds (q : QueueManager) : Prop :=
  5 <= _poll_backoff q <= _poll_backoff_max q
  /\ 0 <= _poll_consecutive_errors q.

Section WithStore.
Context {Store : Type} `{MessageStore Store}.

(** The store after [n] checks of the resume timer of [agent]. *)
Fixpoint after_checks (agent : pystr) (s : Store) (n : nat) : Store :=
  match n with
  | O => s
  | S n' => after_checks agent (snd (check_auto_resume agent s)) n'
  end.

(** The agent is paused in [s] and is still paused at each of the next
    [n] looks at the store, a check of its resume timer following each
    look. *)
Fixpoint stays_paused (agent : pystr) (s : Store) (n : nat) : Prop :=
  match n with
  | O => True
  | S n' =>
      is_agent_paused agent s = true
      /\ stays_paused agent (snd (check_auto_resume agent s)) n'
  end.

End WithStore.

Section WithCollaborators.
Context {Store Session : Type} `{MessageStore Store} `{ClientSession Session}.

(** The calls of a sweep of [q] that paces its requests, from the store
    [s] and the session [c] to the store [s'] and the session [c']. The
    sweep may stop before a call. A call of the tool that brings no
    mention (it fails, or its result parses to no relevant mention) is
    the last. A call that brings a mention is followed by the store of
    that very mention for the agent, with the answer of the store, and
    by a sleep of 0.7 seconds; the sweep then goes on from the store and
    the session as the two calls left them. *)
Inductive paced (q : QueueManager)
    : Store -> Session -> list event -> Store -> Session -> Prop :=
| paced_stop s c : paced q s c [] s c
| paced_last s c response c' :
    call_tool (py "messages") (sweep_arguments q) c = (response, c') ->
    match response with
    | Returned result => _parse_message (agent_name q) result = None
    | Failed _ => True
    end ->
    paced q s c [EvCallTool (py "messages") (sweep_arguments q)] s c'
| paced_round s c result c1 msg_id sender content success s1 tr s' c' :
    call_tool (py "messages") (sweep_arguments q) c = (Returned result, c1) ->
    _parse_message (agent_name q) result = Some (msg_id, sender, content) ->
    store_message msg_id (agent_name q) sender content s = (success, s1) ->
    paced q s1 c1 tr s' c' ->
    paced q s c
      (EvCallTool (py "messages") (sweep_arguments q)
       :: EvStoreMessage msg_id (agent_name q) sender content success
       :: EvSleep (PFloat 0.7%float) :: tr)
      s' c'.

End WithCollaborators.

End LoopSpec.

(** ** Data for the examples of the further properties *)

(** The servers as the answers that the calls of tools will get, one per
    call; once they are used up a call returns [None]. No server can be
    connected to, a session lists no tools, and the clock stands
    still. *)
Module ScriptedServers.

Import MCP.

Definition t := list (result pyval).

Definition refused : raised := error "ConnectionError" (py "connection refused").

Definition session_call_tool (s : Session) (tool_name : pystr) (arguments : pyval) (e : t)
    : result pyval * t :=
  match e with
  | [] => (Done PNone, [])
  | answer :: rest => (answer, rest)
  end.

#[export] Instance scripted_servers : Servers t := {|
  MCP.read_config := fun _ e => (Done None, e);
  MCP.server_parameters := fun _ _ _ e => (Done tt, e);
  MCP.connect := fun _ _ _ _ e => (Thrown refused, e);
  MCP.heartbeat_start := fun _ _ e => (Done tt, e);
  MCP.heartbeat_stop_all := fun e => (Done tt, e);
  MCP.list_tools := fun _ e => (Done (Some []), e);
  MCP.session_call_tool := session_call_tool;
  MCP.close := fun _ e => (Done tt, e);
  MCP.exit_stack_close := fun e => (Done tt, e);
  MCP.now := fun _ => 0
|}.

(** A stand-in for [str] of the standard library: the strings that a
    value holds, one after the other. *)
Fixpoint strings_of (v : pyval) : pystr :=
  match v with
  | PStr s => s
  | PList l =>
      (fix go (l : list pyval) : pystr :=
         match l with
         | [] => []
         | x :: l' => strings_of x ++ go l'
         end) l
  | _ => []
  end.

#[export] Instance strings_repr : PyRepr := strings_of.

End ScriptedServers.

Module MoreExamples.

Import ListStore ScriptedSession Examples.

(** A store in which [lunar] is paused. *)
Definition paused_store : ListStore.t := ListStore.mkStore [] 1 [lunar].

(** [hello_message] as a value of any shape, and an entry whose content is
    [null]. *)
Definition hello_entry : pyval :=
  PDict [(py "id", PStr (py "aaaa-1111"));
         (py "sender_name", PStr (py "bob"));
         (py "content", PStr (py "@lunar_craft_128 hello"))].

Definition null_content : pyval :=
  PDict [(py "id", PStr (py "cccc-3333")); (py "content", PNone)].

(** A relevant entry whose id is a number. *)
Definition numbered_entry : pyval :=
  PDict [(py "id", PInt 7);
         (py "sender_name", PStr (py "bob"));
         (py "content", PStr (py "@lunar_craft_128 hello"))].

(** The cancellation of a task. *)
Definition cancellation : pyexc := mkExc IsCancelled "CancelledError" [].

(** An error that the classifier does not know. *)
Definition boom : pyexc := mkExc IsException "ValueError" (py "boom").

(** A handler that is cancelled while it runs. *)
Definition interrupted : handler_input -> handler_outcome :=
  fun _ => HRaises cancellation.

(** A callback of the registry that always fails. *)
Definition failing_callback : Registry.HeartbeatCallback :=
  fun _ _ => Some (mkExc IsException "RuntimeError" (py "callback failed")).

Definition ax_gcp : pystr := py "ax-gcp".

(** A registry that watches [ax-gcp] with a timeout of 30 seconds; the
    metadata of the record has a [state] of its own. *)
Definition watching (callback : Registry.HeartbeatCallback) : Registry.LivenessRegistry :=
  fst (Registry.register ax_gcp 30000000
         (Some [(py "state", PStr (py "custom")); (py "region", PStr (py "eu"))])
         (Registry.init (py "mcp") (Some callback))).

Definition ax_gcp_record : Liveness.LivenessRecord :=
  Liveness.mkLivenessRecord ax_gcp 30000000
    [(py "state", PStr (py "custom")); (py "region", PStr (py "eu"))] None 0.

(** The manager of [lunar] after [__init__], with the defaults of the
    policy: a timeout of 30 seconds, 3 retries, a backoff of 2.0. *)
Definition fresh_manager : MCP.MCPServerManager :=
  MCP.init lunar (py "configs/agents/lunar_craft_128.json") 30 3 (MCP.NFloat 2%float).

(** The same manager with a session for [ax-gcp]. *)
Definition connected_manager : MCP.MCPServerManager :=
  MCP.set_sessions [(ax_gcp, 1%nat)] fresh_manager.

(** The same manager with a state for [ax-gcp], and no session. *)
Definition disconnected_manager : MCP.MCPServerManager :=
  MCP.set_exit_stack true
    (MCP.set_server_states [(ax_gcp, MCP.new_state ax_gcp (PDict []))] fresh_manager).

(** A configuration of two servers, and the manager that has read it. *)
Definition two_servers : list (pystr * pyval) :=
  [ (ax_gcp, PDict [(py "command", PStr (py "npx"))]);
    (py "filesystem", PDict []) ].

Definition configured_manager : MCP.MCPServerManager :=
  MCP.set_config (PDict [(py "mcpServers", PDict two_servers)]) fresh_manager.

Definition timed_out : MCP.raised :=
  MCP.mkRaised MCP.IsTimeoutError (mkExc IsException "TimeoutError" []).

End MoreExamples.


(** * Properties *)

(** ** Liveness records *)

Import Liveness.

(** C10. For every liveness record and every moment [now], [is_alive] is
    false exactly when [last_heartbeat] is absent or the time elapsed since
    it exceeds [timeout]; and [beat] sets [last_heartbeat] to the current
    time and resets [consecutive_misses] to 0. *)
Theorem liveness_is_alive_and_beat (r : LivenessRecord) (now : Z) :
  (is_alive now r = false <->
     last_heartbeat r = None \/
     exists t, last_heartbeat r = Some t /\ timeout r < now - t)
  /\ last_heartbeat (beat now r) = Some now
  /\ consecutive_misses (beat now r) = 0.
Proof.
  split; [| split; reflexivity].
  unfold is_alive. destruct (last_heartbeat r) as [t|].
  - rewrite Z.leb_gt. split.
    + intros Hlt. right. exists t. split; [reflexivity | exact Hlt].
    + intros [Hnone | (t' & Ht' & Hlt)]; [discriminate |].
      injection Ht' as <-. exact Hlt.
  - split; [intros _; left; reflexivity | reflexivity].
Qed.

(** ** The mention parser *)

Section ReLemmas.
Context {A : Type}.
Implicit Types (k : nat -> pystr -> captures -> option A).

Lemma startswith_app (p post : pystr) : startswith p (p ++ post) = true.
Proof.
  induction p as [|c p IH]; simpl; [reflexivity |].
  rewrite N.eqb_refl. exact IH.
Qed.

Lemma startswith_split (p s : pystr) :
  startswith p s = true -> s = p ++ skipn (length p) s.
Proof.
  revert s. induction p as [|c p IH]; intros s Hs; simpl in *; [reflexivity |].
  destruct s as [|x s]; [discriminate |].
  apply andb_true_iff in Hs as [Hc Hp]. apply N.eqb_eq in Hc. subst x.
  f_equal. apply IH. exact Hp.
Qed.

Lemma skipn_length_app (p post : pystr) : skipn (length p) (p ++ post) = post.
Proof. induction p; simpl; auto. Qed.

Lemma rmatch_lits (t : pystr) pos s cs k :
  rmatch (lits t) pos s cs k =
  if startswith t s then k (pos + length t)%nat (skipn (length t) s) cs else None.
Proof.
  revert pos s. induction t as [|c t IH]; intros pos s; simpl.
  - rewrite Nat.add_0_r. reflexivity.
  - destruct s as [|x s]; [reflexivity |].
    destruct (c =? x)%N; simpl; [| reflexivity].
    rewrite IH. rewrite Nat.add_succ_r. reflexivity.
Qed.

Lemma boundary_isspace c : cls_matches boundary c = isspace c.
Proof.
  unfold boundary. cbn [cls_matches].
  destruct (N.eqb_spec 10 c) as [<- | _].
  - reflexivity.
  - apply orb_false_r.
Qed.

Lemma mention_tail_sound agent pos s cs k a :
  rmatch (mention_tail agent) pos s cs k = Some a ->
  exists post, s = mention agent ++ post /\ before_space_or_end post.
Proof.
  unfold mention_tail. cbn [rmatch].
  destruct s as [|x s]; [discriminate |].
  cbn [cls_matches]. destruct (N.eqb_spec 64 x) as [<- | _]; [| discriminate].
  rewrite rmatch_lits.
  destruct (startswith agent s) eqn:Hpre; [| discriminate].
  apply startswith_split in Hpre.
  set (post := skipn (length agent) s) in *.
  intros Hm. exists post. split.
  { unfold mention. simpl. f_equal. exact Hpre. }
  cbn [rmatch] in Hm.
  destruct post as [|c post']; [left; reflexivity |].
  right. exists c, post'. split; [reflexivity |].
  rewrite boundary_isspace in Hm.
  destruct (isspace c) eqn:Hc; [reflexivity |].
  destruct post' as [|? ?]; [| discriminate].
  destruct (N.eqb_spec c 10) as [-> | _]; [| discriminate].
  discriminate Hc.
Qed.

Lemma mention_tail_complete agent pos post cs k :
  always k ->
  before_space_or_end post ->
  is_Some (rmatch (mention_tail agent) pos (mention agent ++ post) cs k).
Proof.
  intros Hk Hpost. unfold mention_tail, mention. cbn [rmatch app cls_matches].
  rewrite N.eqb_refl, rmatch_lits, startswith_app, skipn_length_app.
  cbn [rmatch].
  destruct Hpost as [-> | (c & post' & -> & Hc)].
  - apply Hk.
  - rewrite boundary_isspace, Hc.
    destruct (k _ post' cs) eqn:E; [eauto |].
    specialize (Hk (S (S pos + length agent)) post' cs). rewrite E in Hk.
    destruct Hk as [? ?]. discriminate.
Qed.


Lemma mention_at_sound agent pos s k a :
  rmatch (mention_pattern agent) pos s [] k = Some a ->
  (pos = 0%nat /\ exists post, s = mention agent ++ post /\ before_space_or_end post)
  \/ (exists c post, s = c :: mention agent ++ post /\ isspace c = true
                     /\ before_space_or_end post).
Proof.
  unfold mention_pattern. cbn [rmatch]. intros Hm.
  destruct (Nat.eqb_spec pos 0) as [-> | _].
  - destruct (rmatch (mention_tail agent) 0 s [] k) eqn:Htail.
    + left. split; [reflexivity |]. eapply mention_tail_sound. exact Htail.
    + right. destruct s as [|c s]; [discriminate |].
      rewrite boundary_isspace in Hm.
      destruct (isspace c) eqn:Hc; [| discriminate].
      apply mention_tail_sound in Hm as (post & -> & Hpost).
      exists c, post. auto.
  - right. destruct s as [|c s]; [discriminate |].
    rewrite boundary_isspace in Hm.
    destruct (isspace c) eqn:Hc; [| discriminate].
    apply mention_tail_sound in Hm as (post & -> & Hpost).
    exists c, post. auto.
Qed.

Lemma mention_at_complete agent pos s k :
  always k ->
  (pos = 0%nat /\ exists post, s = mention agent ++ post /\ before_space_or_end post)
  \/ (exists c post, s = c :: mention agent ++ post /\ isspace c = true
                     /\ before_space_or_end post) ->
  is_Some (rmatch (mention_pattern agent) pos s [] k).
Proof.
  intros Hk Hcase. unfold mention_pattern. cbn [rmatch].
  destruct Hcase as [(-> & post & -> & Hpost) | (c & post & -> & Hc & Hpost)].
  - cbn [Nat.eqb].
    destruct (mention_tail_complete agent 0 post [] k Hk Hpost) as [a ->]. eauto.
  - destruct (if (pos =? 0)%nat then _ else None) as [a|]; [eauto |].
    rewrite boundary_isspace, Hc.
    apply mention_tail_complete; assumption.
Qed.

End ReLemmas.

Lemma search_from_mention_sound agent s pre m :
  search_from (mention_pattern agent) (length pre) s = Some m ->
  direct_mention agent (pre ++ s).
Proof.
  revert pre. induction s as [|x s IH]; intros pre; cbn [search_from].
  - destruct (rmatch _ _ _ _ _) eqn:Hm; [| discriminate]. intros _.
    apply mention_at_sound in Hm as [(Hpos & post & Hs & Hpost) | (c & post & Hs & _)].
    + destruct post; discriminate Hs.
    + discriminate Hs.
  - destruct (rmatch _ _ _ _ _) eqn:Hm.
    + intros _.
      apply mention_at_sound in Hm as [(Hpos & post & Hs & Hpost) | (c & post & Hs & Hc & Hpost)].
      * destruct pre; [| discriminate Hpos].
        exists [], post. rewrite Hs. split; [reflexivity |]. split; [left; reflexivity | exact Hpost].
      * injection Hs as -> ->.
        exists (pre ++ [c]), post. split; [rewrite <- app_assoc; reflexivity |].
        split; [right; eauto | exact Hpost].
    + intros Hrest.
      replace (pre ++ x :: s) with ((pre ++ [x]) ++ s) by (rewrite <- app_assoc; reflexivity).
      apply IH. rewrite length_app. cbn [length]. rewrite Nat.add_1_r. exact Hrest.
Qed.

Lemma search_from_reach r pre0 pos s :
  is_Some (rmatch r (pos + length pre0) s []
             (fun p _ cs => Some (mkMatch (pos + length pre0) p cs))) ->
  is_Some (search_from r pos (pre0 ++ s)).
Proof.
  revert pos. induction pre0 as [|x pre0 IH]; intros pos Hm.
  - cbn [length app] in *. rewrite Nat.add_0_r in Hm.
    destruct s; cbn [search_from]; destruct Hm as [a ->]; eauto.
  - cbn [app search_from].
    destruct (rmatch r pos _ _ _); [eauto |].
    apply IH. cbn [length] in Hm. rewrite Nat.add_succ_r in Hm. exact Hm.
Qed.

(** [re.search] finds the mention pattern exactly in the contents that
    hold a direct mention. *)
Lemma is_match_mention agent content :
  is_match (mention_pattern agent) content = true <-> direct_mention agent content.
Proof.
  unfold is_match, search. split.
  - destruct (search_from _ _ _) eqn:Hs; [| discriminate]. intros _.
    apply (search_from_mention_sound agent content []) in Hs. exact Hs.
  - intros (pre & post & -> & Hpre & Hpost).
    assert (is_Some (search_from (mention_pattern agent) 0 (pre ++ mention agent ++ post))) as [m ->];
      [| reflexivity].
    destruct Hpre as [-> | (pre' & c & -> & Hc)].
    + apply (search_from_reach _ [] 0). apply mention_at_complete.
      * intros ? ? ?. eauto.
      * left. eauto.
    + rewrite <- app_assoc. apply search_from_reach. apply mention_at_complete.
      * intros ? ? ?. eauto.
      * right. exists c, post. auto.
Qed.

Lemma scan_messages_no_direct_mention agent msgs :
  Forall (fun msg => ~ direct_mention agent (get msg "content" "")) msgs ->
  scan_messages agent msgs = None.
Proof.
  induction 1 as [|msg msgs Hmsg _ IH]; cbn [scan_messages]; [reflexivity |].
  destruct (is_match _ _) eqn:Hm; [| exact IH].
  apply is_match_mention in Hm. contradiction.
Qed.

Lemma occurrences_complete m pre post pre_rev :
  In (rev pre ++ pre_rev, post) (occurrences m pre_rev (pre ++ m ++ post)).
Proof.
  revert pre_rev. induction pre as [|c pre IH]; intros pre_rev.
  - cbn [rev app]. destruct m as [|x m].
    + destruct post; cbn; left; reflexivity.
    + cbn [occurrences app]. 
      change (x :: m ++ post) with ((x :: m) ++ post).
      rewrite startswith_app, skipn_length_app. left. reflexivity.
  - cbn [rev app occurrences]. apply in_or_app. right.
    rewrite <- app_assoc. apply IH.
Qed.

Lemma embedded_onlyb_sound agent content :
  embedded_onlyb agent content = true -> embedded_only agent content.
Proof.
  unfold embedded_onlyb. rewrite forallb_forall. intros Hall pre post ->.
  specialize (Hall _ (occurrences_complete (mention agent) pre post [])).
  rewrite app_nil_r in Hall. unfold embedded_occurrence in Hall.
  destruct (rev pre) as [|c pr] eqn:Hrev; [discriminate |].
  destruct post as [|d post']; [discriminate |].
  apply andb_true_iff in Hall as [Hc Hd].
  apply negb_true_iff in Hc, Hd. split.
  - intros [-> | (pre' & c' & -> & Hc')]; [discriminate |].
    rewrite rev_app_distr in Hrev. injection Hrev as -> _. congruence.
  - intros [? | (d' & ? & [= <- _] & Hd')]; [discriminate | congruence].
Qed.

Lemma embedded_only_no_direct_mention agent content :
  embedded_only agent content -> ~ direct_mention agent content.
Proof.
  intros Hemb (pre & post & Hsplit & Hpre & _).
  destruct (Hemb pre post Hsplit) as [Hno _]. contradiction.
Qed.

(** C9, as amended. For every parser input that exposes a non-empty
    structured [messages] list: if in every entry no occurrence of [@AGENT]
    is a direct mention (each occurrence lacks the start of the content or
    white space before it, or white space or the end of the content after
    it; so in particular when every occurrence is embedded in other text),
    the parser returns "no relevant mention". The events format and the
    text format make no such test. *)
Theorem parse_structured_embedded_mention (agent : pystr) (result : tool_result) :
  messages result <> [] ->
  Forall (fun msg => ~ direct_mention agent (get msg "content" "")) (messages result) ->
  _parse_message agent result = None.
Proof.
  intros Hne Hall. unfold _parse_message.
  destruct (messages result) as [|msg msgs]; [contradiction |].
  apply scan_messages_no_direct_mention. exact Hall.
Qed.

(** ** Running the tasks *)

(** Unfolds the operations of the monad of the tasks. *)
Ltac run_m :=
  cbv [mbind mret M_bind M_ret get_self ask_store on_store session_call_tool emit
       on_session modify_self sleep raise kill_switch_exists on_processor_error
       do_store_message do_get_backlog_count do_get_pending_messages];
  cbn [self store session kill_switch trace is_number].

Section PollLemmas.
Context {Store Session : Type} `{MessageStore Store} `{ClientSession Session}
        `{JsonDecoder}.
Implicit Types (w : world (Store:=Store) (Session:=Session)).



(** What the classifier hands back for an error of a connection class. *)
Lemma classify_connection q e :
  connection_class e ->
  exists kind,
    _parse_error_and_get_wait_time q e =
    (kind, PInt (Z.min (_poll_backoff q) (_poll_backoff_max q)))
    /\ kind <> rate_limit.
Proof.
  intros (_ & Hr & Hc). unfold _parse_error_and_get_wait_time. rewrite Hr.
  destruct (is_timeout _); [eexists; split; [reflexivity | discriminate] |].
  destruct Hc as [Hc | Hc]; [discriminate |]. rewrite Hc.
  eexists; split; [reflexivity | discriminate].
Qed.

(** A poll that the session answers with an exception goes to the
    [except] block. *)
Lemma poll_iteration_failed w e c' :
  is_agent_paused (agent_name (self w)) (store w) = false ->
  call_tool (py "messages") (poll_arguments (self w)) (session w) = (Failed e, c') ->
  is_exception e = true ->
  poll_iteration w =
  poll_except e
    (mkWorld (self w) (store w) c' (kill_switch w)
       (trace w ++ [EvCallTool (py "messages") (poll_arguments (self w))])).
Proof.
  intros Hp Hc He. unfold poll_iteration, guarded, poll_try. run_m.
  rewrite Hp, Hc, He. unfold is_cancelled. unfold is_exception in He.
  destruct (exc_kind_of e); try discriminate. reflexivity.
Qed.

(** The [except] block: the wait of the classifier is slept, and the
    queue manager is left as [after_error] says. *)
Lemma poll_except_run w e :
  poll_except e w =
  let '(kind, wait) := _parse_error_and_get_wait_time (self w) e in
  (if is_number wait then Ok Continue else Raised (sleep_type_error wait),
   mkWorld (after_error kind wait (self w)) (store w) (session w) (kill_switch w)
     (trace w ++ (if is_number wait then [EvSleep wait] else []))).
Proof.
  unfold poll_except, after_error. run_m.
  destruct (_parse_error_and_get_wait_time (self w) e) as [kind wait].
  destruct kind; run_m; destruct (is_number wait); run_m; rewrite ?app_nil_r; reflexivity.
Qed.



(** One failure of a connection class: the wait is the backoff, and
    the backoff doubles up to its ceiling. *)
Lemma poll_iteration_connection_failure w e c' :
  is_agent_paused (agent_name (self w)) (store w) = false ->
  call_tool (py "messages") (poll_arguments (self w)) (session w) = (Failed e, c') ->
  connection_class e ->
  poll_iteration w =
  (Ok Continue,
   mkWorld (double_backoff
              (set_consecutive_errors (_poll_consecutive_errors (self w) + 1) (self w)))
     (store w) c' (kill_switch w)
     (trace w ++ [EvCallTool (py "messages") (poll_arguments (self w));
                  EvSleep (PInt (Z.min (_poll_backoff (self w))
                                       (_poll_backoff_max (self w))))])).
Proof.
  intros Hp Hc Hcls.
  rewrite (poll_iteration_failed w e c' Hp Hc (proj1 Hcls)), poll_except_run.
  cbn [self store session kill_switch trace].
  destruct (classify_connection (self w) e Hcls) as (kind & -> & Hkind).
  unfold after_error. cbn [is_number]. rewrite <- app_assoc.
  destruct kind; [contradiction | reflexivity ..].
Qed.

Lemma sleeps_app tr1 tr2 : sleeps (tr1 ++ tr2) = sleeps tr1 ++ sleeps tr2.
Proof.
  induction tr1 as [|ev tr1 IH]; [reflexivity |].
  destruct ev; cbn [app sleeps]; rewrite IH; reflexivity.
Qed.

(** Consecutive failures of a connection class, from any backoff. *)
Lemma poll_connection_streak es : forall w arguments c_end,
  _running (self w) = true ->
  is_agent_paused (agent_name (self w)) (store w) = false ->
  poll_arguments (self w) = arguments ->
  _poll_backoff_max (self w) = 60 ->
  answers arguments (session w) (List.map Failed es) c_end ->
  Forall connection_class es ->
  exists w' tr,
    poll_and_store (length es) w = (Ok None, w')
    /\ trace w' = trace w ++ tr
    /\ sleeps tr = List.map PInt (ladder_from (_poll_backoff (self w)) (length es))
    /\ _poll_backoff (self w') = backoff_after (_poll_backoff (self w)) (length es).
Proof.
  induction es as [|e es IH]; intros w arguments c_end Hrun Hp Hargs Hmax Hans Hall.
  - exists w, []. cbn. rewrite app_nil_r. auto.
  - destruct Hans as (c1 & Hcall & Hans). inversion Hall as [|? ? Hcls Hall']; subst.
    cbn [length poll_and_store]. run_m. rewrite Hrun.
    rewrite (poll_iteration_connection_failure w e c1 Hp Hcall Hcls).
    set (w1 := mkWorld _ _ _ _ _).
    destruct (IH w1 (poll_arguments (self w)) c_end) as (w' & tr & Hrun' & Htr & Hsl & Hb);
      try assumption; try reflexivity.
    exists w', ([EvCallTool (py "messages") (poll_arguments (self w));
                 EvSleep (PInt (Z.min (_poll_backoff (self w)) (_poll_backoff_max (self w))))]
                ++ tr).
    split; [exact Hrun' |].
    split; [rewrite Htr; subst w1; cbn [trace]; rewrite <- app_assoc; reflexivity |].
    subst w1. cbn [self double_backoff set_backoff set_consecutive_errors _poll_backoff
                   _poll_backoff_max] in Hsl, Hb.
    rewrite Hmax in *.
    split.
    + cbn [app sleeps ladder_from List.map]. rewrite Hsl. reflexivity.
    + rewrite Hb. reflexivity.
Qed.

Lemma ladder_step_succ i : Z.min (ladder_step i * 2) 60 = ladder_step (S i).
Proof.
  unfold ladder_step. rewrite Nat2Z.inj_succ, Z.pow_succ_r by lia.
  assert (0 < 2 ^ Z.of_nat i) by (apply Z.pow_pos_nonneg; lia). lia.
Qed.

Lemma ladder_step_le i : Z.min (ladder_step i) 60 = ladder_step i.
Proof. unfold ladder_step. lia. Qed.

Lemma ladder_from_step i n :
  ladder_from (ladder_step i) n = List.map ladder_step (seq i n).
Proof.
  revert i. induction n as [|n IH]; intros i; [reflexivity |].
  cbn [ladder_from seq List.map]. rewrite ladder_step_le, ladder_step_succ, IH.
  reflexivity.
Qed.

Lemma backoff_after_step i n : backoff_after (ladder_step i) n = ladder_step (i + n).
Proof.
  revert i. induction n as [|n IH]; intros i; cbn [backoff_after].
  - rewrite Nat.add_0_r. reflexivity.
  - rewrite ladder_step_succ, IH. f_equal. lia.
Qed.

Lemma ladder_from_closed n : forall b i,
  ladder_from (Z.min (b * 2 ^ Z.of_nat i) 60) n
  = List.map (fun k => Z.min (b * 2 ^ Z.of_nat k) 60) (seq i n).
Proof.
  induction n as [|n IH]; intros b i; [reflexivity |].
  cbn [ladder_from seq List.map]. f_equal; [lia |].
  rewrite <- IH. f_equal.
  rewrite Nat2Z.inj_succ, Z.pow_succ_r by lia. lia.
Qed.

Lemma ladder_from_min b n : ladder_from (Z.min b 60) n = ladder_from b n.
Proof.
  destruct n as [|n]; [reflexivity |]. cbn [ladder_from]. f_equal; [lia |].
  f_equal. lia.
Qed.

Lemma ladder_from_le b n : Forall (fun wait => wait <= 60) (ladder_from b n).
Proof.
  revert b. induction n as [|n IH]; intros b; cbn [ladder_from]; constructor;
    [lia | apply IH].
Qed.

(** C6. For every run of consecutive poll failures of a connection
    class, the waits slept are [min(b, 60)], [min(2 * b, 60)],
    [min(4 * b, 60)], ..., where [b] is the backoff with which the run
    starts: the backoff doubles after each failure, and no wait exceeds
    60 seconds. The waits are the ladder 5, 10, 20, 40, 60, 60, ... when
    the run starts at the base backoff of 5 seconds (as at start-up, or
    after a poll that reset the backoff), and only then. *)
Theorem connection_backoff_ladder w (es : list pyexc) c_end :
  _running (self w) = true ->
  is_agent_paused (agent_name (self w)) (store w) = false ->
  _poll_backoff_max (self w) = 60 ->
  answers (poll_arguments (self w)) (session w) (List.map Failed es) c_end ->
  Forall connection_class es ->
  let b := _poll_backoff (self w) in
  let n := length es in
  exists w' tr,
    poll_and_store n w = (Ok None, w')
    /\ trace w' = trace w ++ tr
    /\ sleeps tr = List.map PInt (ladder_from b n)
    /\ ladder_from b n = List.map (fun k => Z.min (b * 2 ^ Z.of_nat k) 60) (seq 0 n)
    /\ Forall (fun wait => wait <= 60) (ladder_from b n)
    /\ _poll_backoff (self w') = backoff_after b n
    /\ (b = 5 -> ladder_from b n = ladder n /\ backoff_after b n = ladder_step n)
    /\ (es <> [] -> ladder_from b n = ladder n -> b = 5)
    /\ ladder 6 = [5; 10; 20; 40; 60; 60].
Proof.
  intros Hrun Hp Hmax Hans Hall b n.
  destruct (poll_connection_streak es w _ c_end Hrun Hp eq_refl Hmax Hans Hall)
    as (w' & tr & Hrun' & Htr & Hsl & Hb').
  fold b n in Hsl, Hb'.
  exists w', tr. split; [exact Hrun' |]. split; [exact Htr |]. split; [exact Hsl |].
  split.
  { rewrite <- ladder_from_min, <- ladder_from_closed. do 2 f_equal.
    change (Z.of_nat 0) with 0. lia. }
  split; [apply ladder_from_le |]. split; [exact Hb' |]. split; [| split; [| reflexivity]].
  - intros ->. change 5 with (ladder_step 0).
    rewrite ladder_from_step, backoff_after_step. split; reflexivity.
  - intros Hne Hladder. subst n. destruct es as [|e es']; [contradiction |].
    cbn [length ladder_from ladder seq List.map] in Hladder.
    injection Hladder as Hfirst _. unfold ladder_step in Hfirst.
    change (Z.of_nat 0) with 0 in Hfirst. lia.
Qed.
End PollLemmas.

Section PollSuccess.
Context {Store Session : Type} `{MessageStore Store} `{ClientSession Session}
        `{JsonDecoder}.
Implicit Types (w : world (Store:=Store) (Session:=Session)).

(** A poll that the session answers with a result. *)
Lemma poll_iteration_returned w r c' :
  let q := self w in
  let agent := agent_name q in
  is_agent_paused agent (store w) = false ->
  call_tool (py "messages") (poll_arguments q) (session w) = (Returned r, c') ->
  poll_iteration w =
  match _parse_message agent r with
  | None =>
      (Ok Continue,
       mkWorld (after_success q) (store w) c' (kill_switch w)
         (trace w ++ [EvCallTool (py "messages") (poll_arguments q); EvSleep (PInt 5)]))
  | Some (msg_id, sender, content) =>
      let (success, s') := store_message msg_id agent sender content (store w) in
      if success : bool then
        (Ok Continue,
         mkWorld (after_success q) s' c' (kill_switch w)
           (trace w ++ [EvCallTool (py "messages") (poll_arguments q);
                        EvStoreMessage msg_id agent sender content true;
                        EvGetBacklogCount agent (get_backlog_count agent s')]))
      else
        (Ok Continue,
         mkWorld q s' c' (kill_switch w)
           (trace w ++ [EvCallTool (py "messages") (poll_arguments q);
                        EvStoreMessage msg_id agent sender content false]))
  end.
Proof.
  intros q agent Hp Hcall. subst q agent.
  unfold poll_iteration, guarded, poll_try. run_m.
  rewrite Hp, Hcall.
  destruct (_parse_message (agent_name (self w)) r) as [[[msg_id sender] content] |].
  - unfold reset_backoff_if_needed. run_m.
    destruct (store_message msg_id _ sender content (store w)) as [[|] s'].
    + unfold after_success. run_m.
      destruct (0 <? _poll_consecutive_errors (self w)); run_m;
        repeat rewrite <- app_assoc; reflexivity.
    + run_m. repeat rewrite <- app_assoc. reflexivity.
  - unfold reset_backoff_if_needed, after_success. run_m.
    destruct (0 <? _poll_consecutive_errors (self w)); run_m;
      repeat rewrite <- app_assoc; reflexivity.
Qed.

(** C7, as amended. After an error streak (the count of consecutive errors
    is positive, as one or more failed polls leave it:
    [failed_poll_counts]), the first successful poll resets the backoff to
    5 seconds and the count to 0 when it comes back empty or when it
    brings a mention that the store accepts. *)
Theorem successful_poll_resets_backoff w r c' :
  let q := self w in
  let agent := agent_name q in
  0 < _poll_consecutive_errors q ->
  is_agent_paused agent (store w) = false ->
  call_tool (py "messages") (poll_arguments q) (session w) = (Returned r, c') ->
  (forall msg_id sender content,
      _parse_message agent r = Some (msg_id, sender, content) ->
      fst (store_message msg_id agent sender content (store w)) = true) ->
  exists w',
    poll_iteration w = (Ok Continue, w')
    /\ _poll_backoff (self w') = 5
    /\ _poll_consecutive_errors (self w') = 0.
Proof.
  intros q agent Herr Hp Hcall Hstored.
  rewrite (poll_iteration_returned w r c' Hp Hcall). fold q agent.
  assert (Hreset : _poll_backoff (after_success q) = 5
                   /\ _poll_consecutive_errors (after_success q) = 0).
  { unfold after_success. apply Z.ltb_lt in Herr. rewrite Herr. split; reflexivity. }
  destruct (_parse_message agent r) as [[[msg_id sender] content] |].
  - specialize (Hstored msg_id sender content eq_refl).
    destruct (store_message msg_id agent sender content (store w)) as [success s'].
    cbn [fst] in Hstored. subst success. eexists. split; [reflexivity |]. exact Hreset.
  - eexists. split; [reflexivity |]. exact Hreset.
Qed.

(** Each failed poll that the loop survives adds one to the count of
    consecutive errors. *)
Lemma failed_poll_counts w e c' r w' :
  is_agent_paused (agent_name (self w)) (store w) = false ->
  call_tool (py "messages") (poll_arguments (self w)) (session w) = (Failed e, c') ->
  is_exception e = true ->
  poll_iteration w = (r, w') ->
  _poll_consecutive_errors (self w') = _poll_consecutive_errors (self w) + 1.
Proof.
  intros Hp Hcall He. rewrite (poll_iteration_failed w e c' Hp Hcall He), poll_except_run.
  destruct (_parse_error_and_get_wait_time _ e) as [kind wait].
  intros [= _ <-]. cbn [self]. unfold after_error.
  destruct (is_number wait), kind; reflexivity.
Qed.
End PollSuccess.

(** ** The startup sweep *)

Section SweepLemmas.
Context {Store Session : Type} `{MessageStore Store} `{ClientSession Session}
        `{JsonDecoder}.
Implicit Types (w : world (Store:=Store) (Session:=Session)).

Lemma stored_app tr1 tr2 : stored (tr1 ++ tr2) = stored tr1 + stored tr2.
Proof.
  induction tr1 as [|ev tr1 IH]; [reflexivity |].
  destruct ev as [| | ? ? ? ? [|] | | | | |]; cbn [app stored]; rewrite IH; lia.
Qed.

(** The loop stops at once when the limit has been reached. *)
Lemma sweep_loop_limit_reached fuel v w :
  iteration v < max_iterations ->
  0 < startup_sweep_limit (self w) ->
  startup_sweep_limit (self w) <= fetched v ->
  sweep_loop (S fuel) v w = (Ok (Some (SweepLimitReached v)), w).
Proof.
  intros Hit Hpos Hlim. cbn [sweep_loop]. run_m.
  apply Z.ltb_lt in Hit, Hpos. apply Z.leb_le in Hlim.
  rewrite Hit, Hpos, Hlim. reflexivity.
Qed.

(** The loop stops at once when a parse yields no relevant mention. *)
Lemma sweep_loop_no_mention fuel v w r c' :
  iteration v < max_iterations ->
  (0 < startup_sweep_limit (self w) -> fetched v < startup_sweep_limit (self w)) ->
  call_tool (py "messages") (sweep_arguments (self w)) (session w) = (Returned r, c') ->
  _parse_message (agent_name (self w)) r = None ->
  sweep_loop (S fuel) v w =
  (Ok (Some (SweepComplete v)),
   mkWorld (self w) (store w) c' (kill_switch w)
     (trace w ++ [EvCallTool (py "messages") (sweep_arguments (self w))])).
Proof.
  intros Hit Hlim Hcall Hparse. cbn [sweep_loop]. run_m.
  apply Z.ltb_lt in Hit. rewrite Hit.
  replace (_ && _) with false.
  2:{ symmetry. apply andb_false_iff.
      destruct (Z.ltb_spec 0 (startup_sweep_limit (self w))); [right | left; reflexivity].
      apply Z.leb_gt. auto. }
  rewrite Hcall, Hparse. reflexivity.
Qed.

(** The loop ends within the iterations left to it. *)
Lemma sweep_loop_run (n : nat) : forall fuel v w,
  0 <= iteration v <= max_iterations ->
  n = Z.to_nat (max_iterations - iteration v) ->
  (n < fuel)%nat ->
  exists out w' tr,
    sweep_loop fuel v w = (out, w')
    /\ trace w' = trace w ++ tr
    /\ self w' = self w
    /\ (length (tool_calls tr) <= n)%nat
    /\ (0 < startup_sweep_limit (self w) ->
        fetched v <= startup_sweep_limit (self w) ->
        fetched v + stored tr <= startup_sweep_limit (self w))
    /\ match out with
       | Ok (Some (SweepLimitReached v')) =>
           0 < startup_sweep_limit (self w)
           /\ startup_sweep_limit (self w) <= fetched v'
           /\ fetched v' = fetched v + stored tr
       | Ok (Some (SweepComplete v')) =>
           fetched v' = fetched v + stored tr
           /\ exists tr', tr = tr' ++ [EvCallTool (py "messages") (sweep_arguments (self w))]
       | Ok (Some (SweepMaxIterations v')) =>
           iteration v' = max_iterations /\ fetched v' = fetched v + stored tr
       | Ok (Some _) | Ok None => False
       | Raised e => True
       end.
Proof.
  induction n as [|n IH]; intros fuel v w Hbound Hn Hfuel;
    (destruct fuel as [|fuel]; [lia |]); cbn [sweep_loop].
  - assert (iteration v = max_iterations) by (unfold max_iterations in *; lia).
    replace (iteration v <? max_iterations) with false by (symmetry; apply Z.ltb_ge; lia).
    exists (Ok (Some (SweepMaxIterations v))), w, []. cbn. rewrite app_nil_r.
    repeat split; auto; try lia.
  - assert (Hit : iteration v < max_iterations) by (unfold max_iterations in *; lia).
    replace (iteration v <? max_iterations) with true by (symmetry; apply Z.ltb_lt; lia).
    run_m.
    destruct ((0 <? startup_sweep_limit (self w))
              && (startup_sweep_limit (self w) <=? fetched v)) eqn:Hlim.
    { apply andb_true_iff in Hlim as [Hpos Hle].
      apply Z.ltb_lt in Hpos. apply Z.leb_le in Hle.
      exists (Ok (Some (SweepLimitReached v))), w, []. cbn. rewrite app_nil_r.
      repeat split; auto; try lia. }
    destruct (call_tool _ _ (session w)) as [[r | e] c'] eqn:Hcall.
    2:{ eexists (Raised e), _, [_]. split; [reflexivity |].
        split; [reflexivity |]. cbn.
        repeat split; auto; try lia. }
    run_m.
    destruct (_parse_message (agent_name (self w)) r)
      as [[[msg_id sender] content] |] eqn:Hparse.
    2:{ eexists (Ok (Some (SweepComplete v))), _, [_]. split; [reflexivity |].
        split; [reflexivity |]. cbn.
        repeat split; auto; try lia. exists []. reflexivity. }
    run_m.
    destruct (store_message _ _ _ _ (store w)) as [success s'] eqn:Hstore.
    cbn [is_number self store session kill_switch trace].
    match goal with |- context [sweep_loop fuel ?v2 ?w2] =>
      destruct (IH fuel v2 w2) as (out & w' & tr & Hrun & Htr & Hself & Hcalls & Hstored & Hout)
    end.
    { destruct success; cbn [iteration]; unfold max_iterations in *; lia. }
    { destruct success; cbn [iteration]; unfold max_iterations in *; lia. }
    { lia. }
    cbn [self trace] in Htr, Hself, Hstored, Hout.
    rewrite Hrun.
    eexists out, w', (_ :: _ :: _ :: tr).
    split; [reflexivity |].
    split; [rewrite Htr; repeat rewrite <- app_assoc; reflexivity |].
    split; [exact Hself |].
    cbn [tool_calls length stored].
    assert (Hnolim : 0 < startup_sweep_limit (self w) ->
                     fetched v < startup_sweep_limit (self w)).
    { intros Hpos. apply andb_false_iff in Hlim as [Hlim | Hlim].
      - apply Z.ltb_ge in Hlim. lia.
      - apply Z.leb_gt in Hlim. exact Hlim. }
    split; [lia |].
    split.
    { intros Hpos Hle. specialize (Hnolim Hpos).
      destruct success; cbn [fetched] in Hstored |- *; specialize (Hstored Hpos); lia. }
    destruct out as [[[] |] | e']; try exact Hout;
      destruct success; cbn [fetched] in Hout |- *;
        repeat match goal with
               | Hx : _ /\ _ |- _ => destruct Hx
               | Hx : exists _, _ |- _ => destruct Hx
               end; subst; repeat split; try lia; try assumption.
    all: eexists (_ :: _ :: _ :: _); reflexivity.
Qed.
End SweepLemmas.

Section SweepTheorem.
Context {Store Session : Type} `{MessageStore Store} `{ClientSession Session}
        `{JsonDecoder}.
Implicit Types (w : world (Store:=Store) (Session:=Session)).

(** C8. Every startup sweep ends (with enough fuel the loop returns: fuel
    201 is enough), after at most 200 calls of the tool, whatever the
    limit; with a positive limit it never stores more messages than
    the limit and stops at once when that many have been stored (the
    counter [fetched] of the code counts the mentions that the store
    took, not the mentions that the tool brought); it stops at once when
    a parse yields no relevant mention; and a sweep that ends through the
    iteration cap has made exactly 200 iterations (the only bound when
    the limit is 0, and the bound of a positive limit that the stored
    mentions do not reach). *)
Theorem startup_sweep_terminates w (fuel : nat) :
  (200 < fuel)%nat ->
  let limit := startup_sweep_limit (self w) in
  let check := EvCallTool (py "messages") (sweep_arguments (self w)) in
  (exists out w' tr,
    _startup_sweep fuel w = (out, w')
    /\ out <> Ok None
    /\ trace w' = trace w ++ tr
    /\ (length (tool_calls tr) <= 200)%nat
    /\ (0 < limit -> stored tr <= limit)
    /\ match out with
       | Ok (Some (SweepLimitReached v)) =>
           0 < limit /\ limit <= fetched v /\ fetched v = stored tr
       | Ok (Some (SweepComplete v)) =>
           fetched v = stored tr /\ exists tr', tr = tr' ++ [check]
       | Ok (Some (SweepMaxIterations v)) =>
           iteration v = 200 /\ fetched v = stored tr
       | _ => True
       end)
  /\ (forall fuel' v,
        iteration v < 200 -> 0 < limit -> limit <= fetched v ->
        sweep_loop (S fuel') v w = (Ok (Some (SweepLimitReached v)), w))
  /\ (forall fuel' v r c',
        iteration v < 200 -> (0 < limit -> fetched v < limit) ->
        call_tool (py "messages") (sweep_arguments (self w)) (session w) = (Returned r, c') ->
        _parse_message (agent_name (self w)) r = None ->
        sweep_loop (S fuel') v w =
        (Ok (Some (SweepComplete v)),
         mkWorld (self w) (store w) c' (kill_switch w) (trace w ++ [check]))).
Proof.
  intros Hfuel limit check. split; [| split].
  - unfold _startup_sweep, try_except. run_m.
    destruct (startup_sweep (self w)); cbn [negb].
    + destruct (sweep_loop_run 200 fuel (mkSweep 0 None 0) w)
        as (out & w' & tr & Hrun & Htr & Hself & Hcalls & Hstored & Hout);
        [cbn; unfold max_iterations; lia | reflexivity | exact Hfuel |].
      cbn [fetched] in Hstored, Hout. fold limit check in Hstored, Hout.
      rewrite Hrun. destruct out as [[x |] | e]; [| contradiction |].
      * exists (Ok (Some x)), w', tr. split; [reflexivity |]. split; [discriminate |].
        split; [exact Htr |]. split; [exact Hcalls |]. split; [intros; lia |].
        destruct x; try exact I; try contradiction; cbn [Z.add] in Hout; exact Hout.
      * destruct (is_exception e).
        -- exists (Ok (Some (SweepError e))), w', tr. split; [reflexivity |].
           split; [discriminate |].
           split; [exact Htr |]. split; [exact Hcalls |]. split; [intros; lia | exact I].
        -- exists (Raised e), w', tr. split; [reflexivity |]. split; [discriminate |].
           split; [exact Htr |]. split; [exact Hcalls |]. split; [intros; lia | exact I].
    + exists (Ok (Some SweepDisabled)), w, []. split; [reflexivity |].
      split; [discriminate |]. rewrite app_nil_r. cbn.
      repeat split; auto; lia.
  - intros fuel' v Hit Hpos Hle. apply sweep_loop_limit_reached; assumption.
  - intros fuel' v r c' Hit Hlim Hcall Hparse.
    eapply sweep_loop_no_mention; eassumption.
Qed.
End SweepTheorem.

(** ** The processor *)

Section ProcLemmas.
Context {Store Session : Type} `{MessageStore Store} `{ClientSession Session}
        `{JsonDecoder}.
Implicit Types (w : world (Store:=Store) (Session:=Session)).

Lemma do_mark_processing_started_run msg_id agent w :
  do_mark_processing_started msg_id agent w =
  (Ok tt,
   mkWorld (self w) (mark_processing_started msg_id agent (store w))
     (session w) (kill_switch w) (trace w ++ [EvMarkProcessingStarted msg_id agent])).
Proof. reflexivity. Qed.

Lemma do_mark_processed_run msg_id agent w :
  do_mark_processed msg_id agent w =
  (Ok tt,
   mkWorld (self w) (mark_processed msg_id agent (store w))
     (session w) (kill_switch w) (trace w ++ [EvMarkProcessed msg_id agent])).
Proof. reflexivity. Qed.

Lemma for_each_mark_processing_started agent (l : list message) : forall w,
  for_each (fun msg => do_mark_processing_started (id msg) agent) l w =
  (Ok tt,
   mkWorld (self w) (marked mark_processing_started agent l (store w))
     (session w) (kill_switch w) (trace w ++ marks_processing agent l)).
Proof.
  induction l as [|m l IH]; intros w; cbn [for_each].
  - cbn. rewrite app_nil_r. destruct w; reflexivity.
  - unfold mbind, M_bind. rewrite do_mark_processing_started_run, IH.
    cbn [self store session kill_switch trace].
    unfold marked, marks_processing. cbn [List.fold_left List.map].
    rewrite <- app_assoc. reflexivity.
Qed.

Lemma for_each_mark_processed agent (l : list message) : forall w,
  for_each (fun msg => do_mark_processed (id msg) agent) l w =
  (Ok tt,
   mkWorld (self w) (marked mark_processed agent l (store w))
     (session w) (kill_switch w) (trace w ++ marks_processed agent l)).
Proof.
  induction l as [|m l IH]; intros w; cbn [for_each].
  - cbn. rewrite app_nil_r. destruct w; reflexivity.
  - unfold mbind, M_bind. rewrite do_mark_processed_run, IH.
    cbn [self store session kill_switch trace].
    unfold marked, marks_processed. cbn [List.fold_left List.map].
    rewrite <- app_assoc. reflexivity.
Qed.

Lemma lstrip_nil_iff s : lstrip s = [] <-> forallb isspace s = true.
Proof.
  induction s as [|c s IH]; cbn [lstrip forallb]; [tauto |].
  destruct (isspace c); cbn [andb]; [exact IH |]. split; discriminate.
Qed.

Lemma lstrip_head s c t : lstrip s = c :: t -> isspace c = false.
Proof.
  induction s as [|x s IH]; cbn [lstrip]; [discriminate |].
  destruct (isspace x) eqn:Hx; [exact IH |]. intros [= <- _]. exact Hx.
Qed.

Lemma forallb_rev (p : N -> bool) l : forallb p (rev l) = forallb p l.
Proof.
  induction l as [|x l IH]; [reflexivity |].
  cbn [rev forallb]. rewrite forallb_app, IH. cbn [forallb].
  rewrite andb_true_r. apply andb_comm.
Qed.

Lemma strip_nil_iff s : strip s = [] <-> blank s = true.
Proof.
  unfold strip, rstrip, blank. split.
  - intros Hs. apply (f_equal (@rev N)) in Hs. rewrite rev_involutive in Hs.
    cbn [rev] in Hs. apply lstrip_nil_iff in Hs. rewrite forallb_rev in Hs.
    destruct (lstrip s) as [|c t] eqn:Hl; [apply lstrip_nil_iff; exact Hl |].
    apply lstrip_head in Hl. cbn [forallb] in Hs. rewrite Hl in Hs. discriminate.
  - intros Hb. apply lstrip_nil_iff in Hb. rewrite Hb. reflexivity.
Qed.

(** [response and response.strip()] is false exactly on the blank
    responses. *)
Lemma truthy_strip s : truthy s && truthy (strip s) = negb (blank s).
Proof.
  destruct (blank s) eqn:Hb.
  - apply strip_nil_iff in Hb. rewrite Hb. apply andb_false_r.
  - destruct s as [|c s]; [discriminate Hb |].
    destruct (strip (c :: s)) eqn:Hs; [| reflexivity].
    apply strip_nil_iff in Hs. congruence.
Qed.

(** The inner [try] statement. *)
Lemma process_batch_run w all_pending first backlog o :
  let q := self w in
  let input := handler_input_for all_pending first backlog o in
  exists tail inner done c',
    batch_ending (agent_name q) all_pending first (session w) (handler q input)
      tail inner done c'
    /\ try_except (process_try all_pending first backlog o)
                  (process_except all_pending) w
       = (inner, mkWorld q
               (if done then marked mark_processed (agent_name q) all_pending (store w)
                else store w)
               c' (kill_switch w)
               (trace w ++ EvHandler input (handler q input) :: tail)).
Proof.
  intros q input. subst q input.
  unfold try_except, process_try, process_except, call_handler. run_m.
  destruct (handler (self w) _) as [v | e] eqn:Hout.
  - rewrite truthy_strip. destruct (blank (coerce_response v)) eqn:Hb; cbn [negb].
    + run_m. rewrite for_each_mark_processed. cbn [self store session kill_switch trace].
      eexists _, _, true, _. split; [apply ending_suppressed; exact Hb |].
      rewrite <- app_assoc. reflexivity.
    + run_m.
      destruct (call_tool _ _ (session w)) as [[r | e] c'] eqn:Hcall.
      * rewrite for_each_mark_processed. cbn [self store session kill_switch trace].
        eexists _, _, true, _. split; [eapply ending_sent; eassumption |].
        repeat rewrite <- app_assoc. reflexivity.
      * destruct (is_exception e) eqn:He.
        -- rewrite for_each_mark_processed. cbn [self store session kill_switch trace].
           eexists _, _, true, _. split; [eapply ending_send_failed; eassumption |].
           repeat rewrite <- app_assoc. reflexivity.
        -- eexists _, _, false, _. split; [eapply ending_send_interrupted; eassumption |].
           repeat rewrite <- app_assoc; reflexivity.
  - destruct (is_exception e) eqn:He.
    + rewrite for_each_mark_processed. cbn [self store session kill_switch trace].
      eexists _, _, true, _. split; [apply ending_handler_failed; exact He |].
      rewrite <- app_assoc. reflexivity.
    + eexists _, _, false, _. split; [apply ending_handler_interrupted; exact He |].
      reflexivity.
Qed.

(** An exception that leaves the inner [try] statement is none of
    [Exception]. *)
Lemma batch_ending_raised agent fetched first c out tail e done c' :
  batch_ending agent fetched first c out tail (Raised e) done c' ->
  is_exception e = false /\ done = false.
Proof. inversion 1; auto. Qed.

(** An iteration that gets to a non-empty batch. *)
Lemma process_pending_batch w first rest :
  let q := self w in
  let agent := agent_name q in
  let backlog := get_backlog_count agent (store w) in
  let o := processing_order_for backlog in
  get_pending_messages agent 100 o (store w) = first :: rest ->
  let fetched := first :: rest in
  let input := handler_input_for fetched first backlog o in
  exists tail inner done c',
    batch_ending agent fetched first (session w) (handler q input) tail inner done c'
    /\ guarded process_pending on_processor_error w
       = (iteration_end inner,
          mkWorld q
            (let s1 := marked mark_processing_started agent fetched (store w) in
             if done then marked mark_processed agent fetched s1 else s1)
            c' (kill_switch w)
            (trace w ++ [EvGetBacklogCount agent backlog;
                         EvGetPendingMessages agent 100 o fetched]
                     ++ marks_processing agent fetched
                     ++ EvHandler input (handler q input) :: tail)).
Proof.
  intros q agent backlog o Hfetch fetched input.
  unfold guarded, process_pending. run_m.
  fold q agent backlog o. rewrite Hfetch. fold fetched.
  unfold mbind, M_bind. rewrite for_each_mark_processing_started.
  cbn [self store session kill_switch trace].
  match goal with |- context [try_except _ _ ?w2] =>
    destruct (process_batch_run w2 fetched first backlog o)
      as (tail & inner & done & c' & Hend & Hrun)
  end.
  cbn [self store session kill_switch trace] in Hend, Hrun.
  fold q agent input in Hend, Hrun. rewrite Hrun.
  exists tail, inner, done, c'. split; [exact Hend |].
  destruct inner as [[] | e]; cbn [iteration_end mret M_ret].
  - repeat rewrite <- app_assoc. reflexivity.
  - apply batch_ending_raised in Hend as [He ->]. rewrite He.
    destruct (is_cancelled e); repeat rewrite <- app_assoc; reflexivity.
Qed.

(** With the gates open, the iteration works on the pending messages of
    the store the gates leave. *)
Lemma process_iteration_gate_open w s0 :
  gate w = Some s0 ->
  process_iteration w =
  guarded process_pending on_processor_error
    (mkWorld (self w) s0 (session w) (kill_switch w) (trace w)).
Proof.
  destruct w as [q s c k tr].
  unfold gate, process_iteration, process_body, pause_gate, guarded. run_m.
  destruct k; [discriminate |].
  destruct (is_agent_paused _ _).
  - destruct (check_auto_resume _ _) as [[|] s']; [| discriminate].
    intros [= <-]. reflexivity.
  - intros [= <-]. reflexivity.
Qed.

(** With a gate closed, the iteration only waits five seconds. *)
Lemma process_iteration_gate_closed w :
  gate w = None ->
  exists s',
    process_iteration w =
    (Ok Continue,
     mkWorld (self w) s' (session w) (kill_switch w) (trace w ++ [EvSleep (PInt 5)])).
Proof.
  destruct w as [q s c k tr].
  unfold gate, process_iteration, process_body, pause_gate, guarded. run_m.
  destruct k; [intros _; eexists; reflexivity |].
  destruct (is_agent_paused _ _); [| discriminate].
  destruct (check_auto_resume _ _) as [[|] s']; [discriminate |].
  intros _. exists s'. reflexivity.
Qed.

(** An iteration that finds nothing pending waits [poll_interval]. *)
Lemma process_iteration_empty w s0 :
  let q := self w in
  let agent := agent_name q in
  let backlog := get_backlog_count agent s0 in
  let o := processing_order_for backlog in
  gate w = Some s0 ->
  get_pending_messages agent 100 o s0 = [] ->
  exists tr,
    process_iteration w =
    (Ok Continue,
     mkWorld q s0 (session w) (kill_switch w)
       (trace w ++ EvGetBacklogCount agent backlog
                :: EvGetPendingMessages agent 100 o [] :: tr))
    /\ handler_calls tr = [] /\ tool_calls tr = [].
Proof.
  intros q agent backlog o Hgate Hfetch.
  rewrite (process_iteration_gate_open w s0 Hgate).
  unfold guarded, process_pending. run_m.
  fold q agent backlog o. rewrite Hfetch.
  destruct (is_number (poll_interval q)).
  - exists [EvSleep (poll_interval q)].
    split; [| split; reflexivity].
    cbn [self store session kill_switch trace]. repeat rewrite <- app_assoc. reflexivity.
  - exists [EvSleep (PInt 5)].
    split; [| split; reflexivity].
    cbn [is_cancelled is_exception sleep_type_error TypeError exc_kind_of].
    run_m. repeat rewrite <- app_assoc. reflexivity.
Qed.

(** An iteration that fetches a non-empty batch. *)
Lemma process_iteration_batch w s0 first rest :
  let q := self w in
  let agent := agent_name q in
  let backlog := get_backlog_count agent s0 in
  let o := processing_order_for backlog in
  gate w = Some s0 ->
  get_pending_messages agent 100 o s0 = first :: rest ->
  let fetched := first :: rest in
  let input := handler_input_for fetched first backlog o in
  exists tail inner done c',
    batch_ending agent fetched first (session w) (handler q input) tail inner done c'
    /\ process_iteration w
       = (iteration_end inner,
          mkWorld q
            (let s1 := marked mark_processing_started agent fetched s0 in
             if done then marked mark_processed agent fetched s1 else s1)
            c' (kill_switch w)
            (trace w ++ [EvGetBacklogCount agent backlog;
                         EvGetPendingMessages agent 100 o fetched]
                     ++ marks_processing agent fetched
                     ++ EvHandler input (handler q input) :: tail)).
Proof.
  intros q agent backlog o Hgate Hfetch fetched input.
  rewrite (process_iteration_gate_open w s0 Hgate).
  apply (process_pending_batch (mkWorld (self w) s0 (session w) (kill_switch w) (trace w))
           first rest Hfetch).
Qed.

Lemma handler_calls_app tr1 tr2 :
  handler_calls (tr1 ++ tr2) = handler_calls tr1 ++ handler_calls tr2.
Proof.
  induction tr1 as [|ev tr1 IH]; [reflexivity |].
  destruct ev; cbn [app handler_calls]; rewrite IH; reflexivity.
Qed.

Lemma tool_calls_app tr1 tr2 :
  tool_calls (tr1 ++ tr2) = tool_calls tr1 ++ tool_calls tr2.
Proof.
  induction tr1 as [|ev tr1 IH]; [reflexivity |].
  destruct ev; cbn [app tool_calls]; rewrite IH; reflexivity.
Qed.

Lemma marks_processing_quiet agent l :
  handler_calls (marks_processing agent l) = []
  /\ tool_calls (marks_processing agent l) = [].
Proof. induction l; cbn; auto. Qed.

Lemma marks_processed_quiet agent l :
  handler_calls (marks_processed agent l) = []
  /\ tool_calls (marks_processed agent l) = [].
Proof. induction l; cbn; auto. Qed.

(** What the calls after the handler's are made of. *)
Lemma batch_ending_tail agent fetched first c out tail inner done c' :
  batch_ending agent fetched first c out tail inner done c' ->
  handler_calls tail = []
  /\ (done = true -> inner = Ok tt
                      /\ exists sends, tail = sends ++ marks_processed agent fetched)
  /\ (done = false -> exists e, inner = Raised e /\ is_exception e = false)
  /\ tool_calls tail =
     match out with
     | HReturns v =>
         if blank (coerce_response v) then []
         else [(py "messages", send_arguments (coerce_response v) (id first))]
     | HRaises _ => []
     end.
Proof.
  destruct (marks_processed_quiet agent fetched) as [Hh Ht].
  intros Hend. destruct Hend as [v Hb | v r c' Hb Hcall | v e c' Hb Hcall He
                                | v e c' Hb Hcall He | e He | e He];
    cbn [handler_calls tool_calls]; rewrite ?Hh, ?Ht, ?Hb.
  - repeat split; try discriminate. exists []. reflexivity.
  - repeat split; try discriminate. eexists [_]. reflexivity.
  - repeat split; try discriminate. eexists [_]. reflexivity.
  - repeat split; try discriminate. intros _. eauto.
  - repeat split; try discriminate. exists []. reflexivity.
  - repeat split; try discriminate. intros _. eauto.
Qed.
End ProcLemmas.

Lemma StronglySorted_snoc {A} (R : A -> A -> Prop) l x :
  StronglySorted R l -> Forall (fun y => R y x) l -> StronglySorted R (l ++ [x]).
Proof.
  induction 1 as [|a l Hl IH Ha]; intros Hx; cbn [app].
  - constructor; constructor.
  - inversion Hx as [|? ? Hax Hlx]; subst. constructor; [apply IH; exact Hlx |].
    apply Forall_app. split; [exact Ha | constructor; [exact Hax | constructor]].
Qed.

Lemma StronglySorted_rev {A} (R : A -> A -> Prop) l :
  StronglySorted R l -> StronglySorted (fun a b => R b a) (rev l).
Proof.
  induction 1 as [|a l Hl IH Ha]; cbn [rev]; [constructor |].
  apply StronglySorted_snoc; [exact IH |].
  apply Forall_rev in Ha. exact Ha.
Qed.

Lemma StronglySorted_tail {A} (R : A -> A -> Prop) a l :
  StronglySorted R (a :: l) -> StronglySorted R l.
Proof. inversion 1; assumption. Qed.

Lemma StronglySorted_head {A} (R : A -> A -> Prop) a l :
  StronglySorted R (a :: l) -> Forall (R a) l.
Proof. inversion 1; assumption. Qed.

Lemma chronological_map_as_dict (l : list message) :
  StronglySorted (fun a b => timestamp a <= timestamp b) l ->
  chronological (List.map as_dict l).
Proof.
  unfold chronological.
  induction 1 as [|a l Hl IH Ha]; cbn [List.map]; constructor; [exact IH |].
  apply Forall_map. exact Ha.
Qed.

Section ProcTheorems.
Context {Store Session : Type} `{MessageStore Store} `{ClientSession Session}
        `{JsonDecoder}.
Implicit Types (w : world (Store:=Store) (Session:=Session)).


(** C2. In every processor iteration that gets past the gates, the pending
    messages are fetched in descending order of timestamp (FILO) when the
    backlog count is at most 100 and in ascending order (FIFO) when it
    exceeds 100: 100 selects FILO and 101 selects FIFO. The order depends
    on nothing but the backlog count read in that iteration. *)
Theorem fetch_order_follows_backlog w s0 :
  let q := self w in
  let agent := agent_name q in
  let backlog := get_backlog_count agent s0 in
  gate w = Some s0 ->
  exists r w' o fetched tr,
    process_iteration w = (r, w')
    /\ trace w' = trace w ++ EvGetBacklogCount agent backlog
                          :: EvGetPendingMessages agent 100 o fetched :: tr
    /\ o = (if backlog <=? 100 then desc else asc)
    /\ fetched = get_pending_messages agent 100 o s0
    /\ (ordered_fetches Store -> fetch_ordered o fetched)
    /\ processing_order_for 100 = desc
    /\ processing_order_for 101 = asc.
Proof.
  intros q agent backlog Hgate.
  set (o := processing_order_for backlog).
  assert (Ho : o = if backlog <=? 100 then desc else asc).
  { subst o. unfold processing_order_for.
    destruct (Z.ltb_spec 100 backlog), (Z.leb_spec backlog 100); try reflexivity; lia. }
  destruct (get_pending_messages agent 100 o s0) as [|first rest] eqn:Hfetch.
  - destruct (process_iteration_empty w s0 Hgate Hfetch) as (tr & Hrun & _).
    eexists _, _, o, [], tr. split; [exact Hrun |]. cbn [trace].
    split; [reflexivity |]. split; [exact Ho |]. split; [symmetry; exact Hfetch |].
    split; [| split; reflexivity].
    intros Hord. rewrite <- Hfetch. apply Hord.
  - destruct (process_iteration_batch w s0 first rest Hgate Hfetch)
      as (tail & inner & done & c' & _ & Hrun).
    eexists _, _, o, (first :: rest), _. split; [exact Hrun |]. cbn [trace].
    split; [reflexivity |]. split; [exact Ho |]. split; [symmetry; exact Hfetch |].
    split; [| split; reflexivity].
    intros Hord. rewrite <- Hfetch. apply Hord.
Qed.

(** C3. For every fetched batch of more than one message, the handler
    input's current message is the first message in fetch order (the
    newest in FILO mode, the oldest in FIFO mode) and its
    [history_messages] are the remaining fetched messages in chronological
    order (the tail reversed in FILO mode, kept as fetched in FIFO mode). *)
Theorem batch_handler_input w s0 first second rest :
  let q := self w in
  let agent := agent_name q in
  let backlog := get_backlog_count agent s0 in
  let o := processing_order_for backlog in
  gate w = Some s0 ->
  get_pending_messages agent 100 o s0 = first :: second :: rest ->
  fetch_ordered o (first :: second :: rest) ->
  exists r w' tr input out,
    process_iteration w = (r, w')
    /\ trace w' = trace w ++ tr
    /\ handler_calls tr = [(input, out)]
    /\ h_id input = id first /\ h_sender input = sender first
    /\ h_content input = content first /\ h_timestamp input = timestamp first
    /\ batch_mode input = true
    /\ history_messages input
       = Some (List.map as_dict
                 match o with
                 | desc => rev (second :: rest)
                 | asc => second :: rest
                 end)
    /\ (forall history, history_messages input = Some history -> chronological history)
    /\ match o with
       | desc => Forall (fun m => timestamp m <= timestamp first) (second :: rest)
       | asc => Forall (fun m => timestamp first <= timestamp m) (second :: rest)
       end.
Proof.
  intros q agent backlog o Hgate Hfetch Hord.
  destruct (process_iteration_batch w s0 first (second :: rest) Hgate Hfetch)
    as (tail & inner & done & c' & Hend & Hrun).
  fold q agent backlog o in Hend, Hrun.
  destruct (batch_ending_tail _ _ _ _ _ _ _ _ _ Hend) as (Hh & _).
  destruct (marks_processing_quiet agent (first :: second :: rest)) as [Hq _].
  set (input := handler_input_for (first :: second :: rest) first backlog o) in *.
  assert (Hin : input =
    {| h_content := content first; h_sender := sender first; h_id := id first;
       h_timestamp := timestamp first; batch_mode := true;
       batch_size := Some (Z.of_nat (length (first :: second :: rest)));
       history_messages :=
         Some (List.map as_dict match o with
                                | desc => rev (second :: rest)
                                | asc => second :: rest
                                end);
       queue_status_backlog_count := backlog;
       queue_status_pending_messages := List.map as_dict (first :: second :: rest);
       queue_messages := List.map as_dict (first :: second :: rest) |}).
  { subst input. unfold handler_input_for.
    replace (1 <? Z.of_nat (length (first :: second :: rest))) with true
      by (symmetry; apply Z.ltb_lt; cbn [length]; lia).
    cbn [List.tl]. destruct o; reflexivity. }
  eexists _, _, _, input, _. split; [exact Hrun |]. cbn [trace].
  split; [reflexivity |].
  split.
  { rewrite !handler_calls_app, Hq. cbn [handler_calls app]. rewrite Hh. reflexivity. }
  rewrite Hin. cbn [h_id h_sender h_content h_timestamp batch_mode history_messages].
  repeat (split; [reflexivity |]).
  split.
  - intros history [= <-]. apply chronological_map_as_dict.
    unfold fetch_ordered in Hord. apply StronglySorted_tail in Hord.
    destruct o; [exact Hord |].
    apply StronglySorted_rev in Hord. exact Hord.
  - unfold fetch_ordered in Hord. apply StronglySorted_head in Hord.
    destruct o; exact Hord.
Qed.

(** C4. In every processor iteration that invokes the handler, if the
    handler's return value coerced to a string is empty or white space
    only, no send is issued; otherwise exactly one call of the [messages]
    tool is made, with action [send], the response as content, and
    [parent_message_id] the id of the first fetched message. *)
Theorem reply_sent_once_or_suppressed w s0 first rest v :
  let q := self w in
  let agent := agent_name q in
  let backlog := get_backlog_count agent s0 in
  let o := processing_order_for backlog in
  gate w = Some s0 ->
  get_pending_messages agent 100 o s0 = first :: rest ->
  handler q (handler_input_for (first :: rest) first backlog o) = HReturns v ->
  let response := coerce_response v in
  exists r w' tr,
    process_iteration w = (r, w')
    /\ trace w' = trace w ++ tr
    /\ tool_calls tr =
       if blank response then []
       else [(py "messages",
              [ (py "action", PStr (py "send"));
                (py "content", PStr response);
                (py "parent_message_id", PStr (id first)) ])].
Proof.
  intros q agent backlog o Hgate Hfetch Hout response.
  destruct (process_iteration_batch w s0 first rest Hgate Hfetch)
    as (tail & inner & done & c' & Hend & Hrun).
  fold q agent backlog o in Hend, Hrun. rewrite Hout in Hend, Hrun.
  destruct (batch_ending_tail _ _ _ _ _ _ _ _ _ Hend) as (_ & _ & _ & Ht).
  destruct (marks_processing_quiet agent (first :: rest)) as [_ Hq].
  eexists _, _, _. split; [exact Hrun |]. cbn [trace].
  split; [reflexivity |].
  rewrite !tool_calls_app, Hq. cbn [tool_calls app]. rewrite Ht. reflexivity.
Qed.
End ProcTheorems.

(** ** The message store of the examples *)

Lemma before_in_order o a b : ListStore.before o a b = true -> in_order o a b.
Proof. destruct o; cbn; lia. Qed.

Lemma not_before_in_order o a b : ListStore.before o a b = false -> in_order o b a.
Proof. destruct o; cbn; lia. Qed.

Lemma in_order_trans o a b c : in_order o a b -> in_order o b c -> in_order o a c.
Proof. destruct o; cbn; lia. Qed.

Lemma insert_sorted_Forall (P : message -> Prop) o m l :
  P m -> Forall P l -> Forall P (ListStore.insert_sorted o m l).
Proof.
  intros Hm. induction 1 as [|x l Hx Hl IH]; cbn [ListStore.insert_sorted].
  - repeat constructor. exact Hm.
  - destruct (ListStore.before o m x); repeat constructor; assumption.
Qed.

Lemma insert_sorted_ordered o m l :
  fetch_ordered o l -> fetch_ordered o (ListStore.insert_sorted o m l).
Proof.
  unfold fetch_ordered.
  induction 1 as [|x l Hl IH Hx]; cbn [ListStore.insert_sorted].
  - repeat constructor.
  - destruct (ListStore.before o m x) eqn:Ht.
    + constructor; [constructor; assumption |].
      constructor; [apply before_in_order; exact Ht |].
      eapply List.Forall_impl; [| exact Hx]. intros y Hy.
      eapply in_order_trans; [apply before_in_order; exact Ht | exact Hy].
    + constructor; [exact IH |].
      apply insert_sorted_Forall; [apply not_before_in_order; exact Ht | exact Hx].
Qed.

Lemma sort_by_ordered o l : fetch_ordered o (ListStore.sort_by o l).
Proof.
  induction l as [|m l IH]; cbn [ListStore.sort_by List.fold_right].
  - constructor.
  - apply insert_sorted_ordered. exact IH.
Qed.

Lemma firstn_ordered o n l : fetch_ordered o l -> fetch_ordered o (firstn n l).
Proof.
  unfold fetch_ordered. intros Hl. revert n.
  induction Hl as [|x l Hl IH Hx]; intros [|n]; cbn [firstn]; try constructor.
  - apply IH.
  - apply Forall_take. exact Hx.
Qed.

(** The store of [ListStore] keeps the contract of [get_pending_messages]. *)
Lemma list_store_ordered_fetches : ordered_fetches ListStore.t.
Proof.
  intros agent limit o s. cbn. unfold ListStore.get_pending_messages.
  apply firstn_ordered, sort_by_ordered.
Qed.

(** ** The properties on concrete worlds *)

Import Examples.

(** C9, as amended, on a structured message that names the agent inside a
    task description. *)
Lemma parse_structured_embedded_mention_witness :
  messages (mkResult [task_message] [] None) <> []
  /\ embedded_only lunar (get task_message "content" "")
  /\ _parse_message lunar (mkResult [task_message] [] None) = None.
Proof.
  assert (He : embedded_only lunar (get task_message "content" "")).
  { apply embedded_onlyb_sound. vm_compute. reflexivity. }
  split; [discriminate |]. split; [exact He |].
  apply parse_structured_embedded_mention; [discriminate |].
  constructor; [| constructor].
  apply embedded_only_no_direct_mention. exact He.
Defined.

(** C9 as stated fails on the text format: the text mentions [@alice]
    directly and carries [@lunar_craft_128] only embedded in a task
    description, yet the parser of [lunar_craft_128] returns the message. *)
Lemma parse_embedded_mention_counterexample :
  input_embedded_only lunar (mkResult [] [] (Some task_text))
  /\ _parse_message lunar (mkResult [] [] (Some task_text))
     = Some (py "bbbb-2222", py "bob", task_text).
Proof.
  split; [split |].
  - constructor; [| constructor]. apply embedded_onlyb_sound. vm_compute. reflexivity.
  - constructor.
    exists (py "[id:bbbb-2222] " ++ [8226%N] ++ py " bob: @alice run task:sync_with"),
           (py "/today please").
    vm_compute. reflexivity.
  - vm_compute. reflexivity.
Qed.

(** The same on the events format, where the first event is returned
    whatever its content. *)
Example parse_embedded_mention_event :
  input_embedded_only lunar (mkResult [] [task_event] None)
  /\ _parse_message lunar (mkResult [] [task_event] None)
     = Some (py "bbbb-2222", py "bob", py "run task:sync_with@lunar_craft_128/today please").
Proof.
  split; [split |].
  - constructor; [| constructor]. apply embedded_onlyb_sound. vm_compute. reflexivity.
  - constructor.
    exists (py "run task:sync_with"), (py "/today please").
    vm_compute. reflexivity.
  - vm_compute. reflexivity.
Qed.


(** C2 on a store of three pending mentions. *)
Lemma fetch_order_follows_backlog_witness :
  exists r w' fetched tr,
    process_iteration (world_of (manager greeter) (seeded 3) []) = (r, w')
    /\ trace w' = EvGetBacklogCount lunar 3
                  :: EvGetPendingMessages lunar 100 desc fetched :: tr
    /\ fetched = [seed_message 3; seed_message 2; seed_message 1].
Proof.
  pose (w := world_of (manager greeter) (seeded 3) []).
  assert (Hgate : gate w = Some (seeded 3)) by (vm_compute; reflexivity).
  destruct (fetch_order_follows_backlog w (seeded 3) Hgate)
    as (r & w' & o & fetched & tr & Hrun & Htrace & Ho & Hfetched & _).
  assert (Hdesc : o = desc) by (rewrite Ho; vm_compute; reflexivity).
  subst o. exists r, w', fetched, tr. split; [exact Hrun |].
  split; [exact Htrace |]. rewrite Hfetched. vm_compute. reflexivity.
Defined.

(** C3 on a store of three pending mentions: the newest is the current
    message, the two older ones are the history, oldest first. *)
Lemma batch_handler_input_witness :
  exists r w' tr input out,
    process_iteration (world_of (manager greeter) (seeded 3) []) = (r, w')
    /\ trace w' = tr
    /\ handler_calls tr = [(input, out)]
    /\ h_id input = py "m3"
    /\ history_messages input
       = Some [as_dict (seed_message 1); as_dict (seed_message 2)].
Proof.
  pose (w := world_of (manager greeter) (seeded 3) []).
  assert (Hgate : gate w = Some (seeded 3)) by (vm_compute; reflexivity).
  assert (Hfetch : get_pending_messages lunar 100 desc (seeded 3)
                   = [seed_message 3; seed_message 2; seed_message 1])
    by (vm_compute; reflexivity).
  assert (Hord : fetch_ordered desc [seed_message 3; seed_message 2; seed_message 1]).
  { unfold fetch_ordered. repeat constructor; vm_compute; discriminate. }
  destruct (batch_handler_input w (seeded 3) (seed_message 3) (seed_message 2)
              [seed_message 1] Hgate Hfetch Hord)
    as (r & w' & tr & input & out & Hrun & Htrace & Hcalls & Hid & _ & _ & _ & _ & Hhist & _).
  exists r, w', tr, input, out. split; [exact Hrun |]. split; [exact Htrace |].
  split; [exact Hcalls |]. split; [exact Hid |]. exact Hhist.
Defined.

(** C4 on a store of three pending mentions and a handler that answers
    [hi]. *)
Lemma reply_sent_once_or_suppressed_witness :
  exists r w' tr,
    process_iteration (world_of (manager greeter) (seeded 3) []) = (r, w')
    /\ trace w' = tr
    /\ tool_calls tr =
       [(py "messages",
         [ (py "action", PStr (py "send"));
           (py "content", PStr (py "hi"));
           (py "parent_message_id", PStr (py "m3")) ])].
Proof.
  pose (w := world_of (manager greeter) (seeded 3) []).
  assert (Hgate : gate w = Some (seeded 3)) by (vm_compute; reflexivity).
  assert (Hfetch : get_pending_messages lunar 100 desc (seeded 3)
                   = [seed_message 3; seed_message 2; seed_message 1])
    by (vm_compute; reflexivity).
  exact (reply_sent_once_or_suppressed w (seeded 3) (seed_message 3)
           [seed_message 2; seed_message 1] (RespStr (py "hi")) Hgate Hfetch eq_refl).
Defined.



(** The window of the extraction: the error text goes on after the JSON
    object with braces of its own, so what lies between the first
    opening and the last closing brace is no JSON text; the error
    carries 27 and the poller sleeps 30. *)
Example rate_limit_trailing_braces :
  let w := world_of (manager greeter) ListStore.empty [Failed rate_limited_trailing] in
  rate_limit_class rate_limited_trailing
  /\ structured_retry_after (exc_str rate_limited_trailing) = None
  /\ sleeps (trace (snd (poll_iteration w))) = [PInt 30].
Proof.
  cbv zeta. split; [split; vm_compute; reflexivity |]. split; vm_compute; reflexivity.
Qed.

(** A [retry_after] with a fraction is handed to the sleep as it is; an
    integer too large for a [float] and an infinite [float] are no delays
    that [asyncio.sleep] accepts; the decoder on numbers with a fraction or
    an exponent, on the constants and on [\u] escapes. *)
Example rate_limit_fraction :
  structured_retry_after (dq "{'error':'rate_limited','retry_after':1.5}")
  = Some (PFloat 1.5%float)
  /\ accepted_delay (PFloat 1.5%float) = true
  /\ accepted_delay (PInt (10 ^ 300)) = true
  /\ accepted_delay (PInt (10 ^ 400)) = false
  /\ accepted_delay (PFloat PrimFloat.infinity) = false
  /\ MiniJson.loads (py "0.1") = Some (PFloat 0x1.999999999999ap-4%float)
  /\ MiniJson.loads (py "2e1") = Some (PFloat 20%float)
  /\ MiniJson.loads (py "1e400") = Some (PFloat PrimFloat.infinity)
  /\ MiniJson.loads (py "-0.0") = Some (PFloat PrimFloat.neg_zero)
  /\ MiniJson.loads (py "NaN") = Some (PFloat PrimFloat.nan)
  /\ MiniJson.loads (py "1.") = None
  /\ MiniJson.loads (dq "'\u00e9\ud83d\ude00'") = Some (PStr [233%N; 128512%N]).
Proof. repeat split; vm_compute; reflexivity. Qed.

(** C6 on scenario 4 of the specification: six connection resets in a
    row. *)
Lemma connection_backoff_ladder_witness :
  exists w' tr,
    poll_and_store 6
      (world_of (manager greeter) ListStore.empty (List.map Failed six_resets))
      = (Ok None, w')
    /\ trace w' = tr
    /\ sleeps tr = [PInt 5; PInt 10; PInt 20; PInt 40; PInt 60; PInt 60]
    /\ _poll_backoff (self w') = 60.
Proof.
  pose (w := world_of (manager greeter) ListStore.empty (List.map Failed six_resets)).
  assert (Hp : is_agent_paused (agent_name (self w)) (store w) = false)
    by (vm_compute; reflexivity).
  assert (Hans : answers (poll_arguments (self w)) (session w)
                   (List.map Failed six_resets) []).
  { unfold six_resets. cbn [List.repeat List.map answers].
    repeat (eexists; split; [reflexivity |]). reflexivity. }
  assert (Hcls : Forall connection_class six_resets).
  { assert (Hone : connection_class connection_reset).
    { split; [reflexivity |]. split; [vm_compute; reflexivity |].
      right. vm_compute. reflexivity. }
    unfold six_resets. cbn [List.repeat].
    repeat (apply List.Forall_cons; [exact Hone |]). apply List.Forall_nil. }
  destruct (connection_backoff_ladder w six_resets [] eq_refl Hp eq_refl Hans Hcls)
    as (w' & tr & Hrun & Htrace & Hsleeps & _ & _ & Hbackoff & _).
  exists w', tr. split; [exact Hrun |]. split; [exact Htrace |].
  split; [exact Hsleeps |]. exact Hbackoff.
Defined.

(** C6 as first stated fails on a run of connection failures that does
    not start at the base backoff. After one error of the unknown class
    the backoff is 10; the two connection resets that follow, a run of
    consecutive failures of a connection class, are slept 10 and 20
    seconds, not 5 and 10. *)
Lemma connection_backoff_ladder_counterexample :
  let w := after_unknown_failure in
  _running (self w) = true
  /\ is_agent_paused (agent_name (self w)) (store w) = false
  /\ answers (poll_arguments (self w)) (session w)
       (List.map Failed [connection_reset; connection_reset]) []
  /\ Forall connection_class [connection_reset; connection_reset]
  /\ exists w' tr,
       poll_and_store 2 w = (Ok None, w')
       /\ trace w' = trace w ++ tr
       /\ sleeps tr = [PInt 10; PInt 20]
       /\ sleeps tr <> List.map PInt (ladder 2).
Proof.
  cbv zeta. split; [reflexivity |]. split; [vm_compute; reflexivity |].
  split.
  { cbn [List.map answers]. eexists. split; [vm_compute; reflexivity |].
    eexists. split; [vm_compute; reflexivity |]. vm_compute. reflexivity. }
  split.
  { assert (Hone : connection_class connection_reset).
    { split; [reflexivity |]. split; [vm_compute; reflexivity |].
      right. vm_compute. reflexivity. }
    repeat (apply List.Forall_cons; [exact Hone |]). apply List.Forall_nil. }
  eexists _, [_; _; _; _]. split; [vm_compute; reflexivity |].
  split; [vm_compute; reflexivity |]. split; [reflexivity |].
  vm_compute. discriminate.
Qed.

(** C7, as amended, after two connection resets, on a poll that brings a
    new mention. *)
Lemma successful_poll_resets_backoff_witness :
  _poll_backoff (self (after_two_resets ListStore.empty)) = 20
  /\ _poll_consecutive_errors (self (after_two_resets ListStore.empty)) = 2
  /\ exists w',
       poll_iteration (after_two_resets ListStore.empty) = (Ok Continue, w')
       /\ _poll_backoff (self w') = 5
       /\ _poll_consecutive_errors (self w') = 0.
Proof.
  split; [vm_compute; reflexivity |]. split; [vm_compute; reflexivity |].
  pose (w := after_two_resets ListStore.empty).
  assert (Herr : 0 < _poll_consecutive_errors (self w)) by (vm_compute; reflexivity).
  assert (Hp : is_agent_paused (agent_name (self w)) (store w) = false)
    by (vm_compute; reflexivity).
  assert (Hcall : call_tool (py "messages") (poll_arguments (self w)) (session w)
                  = (Returned hello_result, [])) by (vm_compute; reflexivity).
  apply (successful_poll_resets_backoff w hello_result [] Herr Hp Hcall).
  intros msg_id sender content Hparse.
  assert (Hparsed : _parse_message (agent_name (self w)) hello_result
                    = Some (py "aaaa-1111", py "bob", py "@lunar_craft_128 hello"))
    by (vm_compute; reflexivity).
  rewrite Hparsed in Hparse. injection Hparse as <- <- <-.
  vm_compute. reflexivity.
Defined.

(** C7 as stated fails: after two connection resets (backoff 20, count 2)
    a successful poll brings a mention that the store already holds;
    [store_message] answers false and the backoff and the count stay as
    they were. *)
Lemma duplicate_poll_keeps_backoff :
  let w := after_two_resets holding_hello in
  0 < _poll_consecutive_errors (self w)
  /\ is_agent_paused (agent_name (self w)) (store w) = false
  /\ call_tool (py "messages") (poll_arguments (self w)) (session w)
     = (Returned hello_result, [])
  /\ _parse_message (agent_name (self w)) hello_result
     = Some (py "aaaa-1111", py "bob", py "@lunar_craft_128 hello")
  /\ exists w',
       poll_iteration w = (Ok Continue, w')
       /\ _poll_backoff (self w') = 20
       /\ _poll_consecutive_errors (self w') = 2.
Proof.
  cbv zeta. repeat split; try (vm_compute; reflexivity).
  eexists. split; [vm_compute; reflexivity |]. split; reflexivity.
Qed.

(** C8, as amended, on a session with one unread mention. *)
Lemma startup_sweep_terminates_witness :
  exists out w' tr,
    _startup_sweep 201 (world_of (manager greeter) ListStore.empty [Returned hello_result])
      = (out, w')
    /\ out <> Ok None
    /\ trace w' = tr
    /\ (length (tool_calls tr) <= 200)%nat
    /\ stored tr <= 10.
Proof.
  pose (w := world_of (manager greeter) ListStore.empty [Returned hello_result]).
  destruct (startup_sweep_terminates w 201 ltac:(lia))
    as ((out & w' & tr & Hrun & Hended & Htrace & Hcalls & Hstored & _) & _).
  exists out, w', tr. split; [exact Hrun |]. split; [exact Hended |].
  split; [exact Htrace |]. split; [exact Hcalls |]. apply Hstored. reflexivity.
Defined.

(** C8 as first stated fails when the tool brings mentions that the
    store does not take. The limit is 2 and the session brings the same
    mention at every call: the store takes the first and refuses the
    others as duplicates, the counter stays at 1, and the sweep fetches
    200 mentions, in 200 calls, before the iteration cap stops it. *)
Lemma startup_sweep_counterexample :
  let w := mkWorld (Session := RepeatingSession.t)
             (with_sweep_limit 2 (manager greeter)) ListStore.empty hello_result
             false [] in
  0 < startup_sweep_limit (self w)
  /\ exists v w',
       _startup_sweep 201 w = (Ok (Some (SweepMaxIterations v)), w')
       /\ length (tool_calls (trace w')) = 200%nat
       /\ handed (trace w') = 200
       /\ stored (trace w') = 1
       /\ fetched v = 1.
Proof.
  cbv zeta. split; [reflexivity |].
  eexists _, _. split; [vm_compute; reflexivity |].
  repeat split; vm_compute; reflexivity.
Qed.

(** ** The scenarios of the specification *)

(** Scenario 1 of the specification (single FILO reply): the poller stores
    the mention, the processor answers [hi] in reply to it and the message
    ends processed, with nothing left pending. *)
Example single_filo_reply :
  let w0 := world_of (manager greeter) ListStore.empty [Returned hello_result] in
  let w1 := snd (poll_iteration w0) in
  let w2 := snd (process_iteration w1) in
  tool_calls (trace w2)
  = [ (py "messages", poll_arguments (manager greeter));
      (py "messages", send_arguments (py "hi") (py "aaaa-1111")) ]
  /\ ListStore.status_of (py "aaaa-1111") (store w2) = Some ListStore.processed
  /\ get_backlog_count lunar (store w2) = 0.
Proof. vm_compute. repeat split. Qed.

(** Scenario 2 (FIFO drain): with 150 pending messages of timestamps 1 to
    150 the first batch has the message of timestamp 1 as current, those of
    timestamps 2 to 100 as history in that order, and the reply goes to the
    message of timestamp 1. *)
Example fifo_drain :
  let w := world_of (manager greeter) (seeded 150) [] in
  let w' := snd (process_iteration w) in
  fetch_orders (trace w') = [(150, asc)]
  /\ List.map (fun c => h_timestamp (fst c)) (handler_calls (trace w')) = [1]
  /\ List.map (fun c => history_messages (fst c)) (handler_calls (trace w'))
     = [Some (List.map (fun n => as_dict (seed_message n)) (seq 2 99))]
  /\ tool_calls (trace w')
     = [(py "messages", send_arguments (py "hi") (id (seed_message 1)))]
  /\ get_backlog_count lunar (store w') = 50.
Proof. vm_compute. repeat split. Qed.

(** The order is chosen anew in each iteration: with 101 pending messages
    the first iteration drains the 100 oldest in FIFO order and the second
    takes the one left in FILO order. *)
Example order_chosen_in_each_iteration :
  let w := world_of (manager greeter) (seeded 101) [] in
  fetch_orders (trace (snd (process_queue 2 w))) = [(101, asc); (1, desc)].
Proof. vm_compute. reflexivity. Qed.

(** A batch whose handler fails ends processed all the same. *)
Example failed_batch_is_processed :
  let w := world_of (manager failing) (seeded 3) [] in
  let w' := snd (process_iteration w) in
  List.map (fun n => ListStore.status_of (id (seed_message n)) (store w')) [1; 2; 3]%nat
  = [Some ListStore.processed; Some ListStore.processed; Some ListStore.processed]
  /\ tool_calls (trace w') = [].
Proof. vm_compute. split; reflexivity. Qed.

(** Scenario 3 (rate-limit honor): the wait is 27 seconds and an error of
    a connection class that follows still starts at 5 seconds. *)
Example rate_limit_then_reset :
  let w := world_of (manager greeter) ListStore.empty
             [Failed rate_limited; Failed connection_reset] in
  sleeps (trace (snd (poll_and_store 2 w))) = [PInt 27; PInt 5].
Proof. vm_compute. reflexivity. Qed.

(** Scenario 4, second half: a successful (empty) poll between connection
    resets, with its idle wait of 5 seconds, resets the ladder. *)
Example reset_between_resets :
  let w := world_of (manager greeter) ListStore.empty
             [Failed connection_reset; Failed connection_reset;
              Returned ScriptedSession.no_messages; Failed connection_reset] in
  let w' := snd (poll_and_store 4 w) in
  sleeps (trace w') = [PInt 5; PInt 10; PInt 5; PInt 5]
  /\ _poll_backoff (self w') = 10
  /\ _poll_consecutive_errors (self w') = 1.
Proof. vm_compute. repeat split. Qed.

(** Scenario 5 (self-mention filter): nothing is stored. *)
Example self_mention_is_dropped :
  let w := world_of (manager greeter) ListStore.empty
             [Returned (mkResult [self_mention] [] None)] in
  _parse_message lunar (mkResult [self_mention] [] None) = None
  /\ store (snd (poll_iteration w)) = ListStore.empty
  /\ stored (trace (snd (poll_iteration w))) = 0.
Proof. vm_compute. repeat split. Qed.

(** With limit 0 and a session that never runs out, the sweep ends at the
    cap of 200 iterations, having stored 200 messages. *)
Example sweep_without_limit_ends_at_cap :
  let w := mkWorld (with_sweep_limit 0 (manager greeter)) ListStore.empty 0%nat false [] in
  match _startup_sweep 201 w with
  | (Ok (Some (SweepMaxIterations v)), w') =>
      iteration v = 200 /\ fetched v = 200
      /\ length (tool_calls (trace w')) = 200%nat
  | _ => False
  end.
Proof. vm_compute. repeat split. Qed.

(** With the default limit of 10 it ends after ten messages. *)
Example sweep_with_limit_ends_at_limit :
  let w := mkWorld (manager greeter) ListStore.empty 0%nat false [] in
  match _startup_sweep 201 w with
  | (Ok (Some (SweepLimitReached v)), w') =>
      iteration v = 10 /\ fetched v = 10
      /\ length (tool_calls (trace w')) = 10%nat
  | _ => False
  end.
Proof. vm_compute. repeat split. Qed.

(** * Further properties of the code *)

(** ** The mention parser: which message it returns *)

Import ParseSpec.

Lemma scan_messages_first agent msgs :
  match scan_messages agent msgs with
  | Some (i, s, c) =>
      exists pre msg post,
        msgs = pre ++ msg :: post
        /\ Forall (fun m => ~ relevant agent m) pre
        /\ relevant agent msg
        /\ i = get msg "id" "unknown"
        /\ s = get msg "sender_name" "unknown"
        /\ c = get msg "content" ""
  | None => Forall (fun m => ~ relevant agent m) msgs
  end.
Proof.
  induction msgs as [|msg msgs IH]; cbn [scan_messages]; [constructor |].
  destruct (is_match _ _) eqn:Hm.
  - apply is_match_mention in Hm.
    destruct (bool_decide _) eqn:Hs.
    + apply bool_decide_eq_true in Hs.
      assert (Hno : ~ relevant agent msg) by (intros [_ Hne]; contradiction).
      destruct (scan_messages agent msgs) as [[[i s] c]|].
      * destruct IH as (pre & m & post & -> & Hpre & Hrest).
        exists (msg :: pre), m, post. split; [reflexivity |].
        split; [constructor; assumption | exact Hrest].
      * constructor; assumption.
    + apply bool_decide_eq_false in Hs.
      exists [], msg, msgs. split; [reflexivity |]. split; [constructor |].
      split; [split; assumption |]. auto.
  - assert (Hno : ~ relevant agent msg).
    { intros [Hd _]. apply is_match_mention in Hd. congruence. }
    destruct (scan_messages agent msgs) as [[[i s] c]|].
    + destruct IH as (pre & m & post & -> & Hpre & Hrest).
      exists (msg :: pre), m, post. split; [reflexivity |].
      split; [constructor; assumption | exact Hrest].
    + constructor; assumption.
Qed.

(** *** The typed model inside the parser on values of any shape *)

Lemma dict_get_in key items default v :
  NoDup items.*1 -> (key, v) ∈ items -> dict_get key items default = v.
Proof.
  induction items as [|[k u] items IH]; intros Hnd Hin.
  - apply elem_of_nil in Hin. contradiction.
  - cbn [dict_get]. cbn in Hnd. apply NoDup_cons in Hnd as [Hk Hnd].
    apply elem_of_cons in Hin as [Heq | Hin].
    + injection Heq as -> ->. destruct (decide (k = k)); [reflexivity | contradiction].
    + destruct (decide (k = key)) as [-> | _]; [| exact (IH Hnd Hin)].
      exfalso. apply Hk. apply list_elem_of_fmap. exists (key, v). split; [reflexivity | exact Hin].
Qed.

Lemma dict_get_not_in key items default :
  key ∉ items.*1 -> dict_get key items default = default.
Proof.
  induction items as [|[k u] items IH]; intros Hk; [reflexivity |].
  cbn [dict_get]. cbn in Hk. apply not_elem_of_cons in Hk as [Hne Hk].
  destruct (decide (k = key)) as [-> | _]; [contradiction |]. exact (IH Hk).
Qed.

Lemma raw_get_of_pydict d key default :
  RawParse.raw_get (RawParse.of_pydict d) key default = Some (PStr (get d key default)).
Proof.
  unfold RawParse.raw_get, RawParse.of_pydict, get. f_equal.
  destruct (d !! py key) as [v|] eqn:Hd.
  - apply dict_get_in; [apply NoDup_fst_map_to_list |].
    apply elem_of_map_to_list. rewrite lookup_fmap, Hd. reflexivity.
  - apply dict_get_not_in. intros Hin.
    apply list_elem_of_fmap in Hin as [[k v] [Hk Hin]]. cbn in Hk. subst k.
    apply elem_of_map_to_list in Hin. rewrite lookup_fmap, Hd in Hin. discriminate.
Qed.

Lemma scan_messages_typed agent msgs :
  RawParse.scan_messages agent (RawParse.of_pydict <$> msgs)
  = match scan_messages agent msgs with
    | Some (msg_id, sender, content) => Some (PStr msg_id, PStr sender, content)
    | None => None
    end.
Proof.
  induction msgs as [|msg msgs IH]; [reflexivity |].
  cbn [fmap list_fmap RawParse.scan_messages scan_messages].
  rewrite !raw_get_of_pydict.
  destruct (is_match _ _); [| exact IH].
  cbn [RawParse.is_agent RawParse.sliceable].
  destruct (bool_decide _); [exact IH | reflexivity].
Qed.

(** On a result whose entries are dicts of strings the parser on values of
    any shape is [QM._parse_message]. *)
Lemma parse_typed agent result :
  RawParse._parse_message agent (RawParse.of_result result)
  = RawParse.of_triple <$> _parse_message agent result.
Proof.
  unfold RawParse._parse_message, _parse_message, RawParse.of_result.
  cbn [RawParse.raw_messages RawParse.raw_events RawParse.raw_content_text].
  destruct (messages result) as [|msg msgs].
  - cbn [fmap list_fmap PyValue.truth].
    destruct (events result) as [|event evs].
    + cbn [fmap list_fmap PyValue.truth].
      destruct (parse_text agent (content_text result)) as [[[i s] c]|]; reflexivity.
    + cbn [fmap list_fmap PyValue.truth]. unfold RawParse.first_event.
      rewrite !raw_get_of_pydict. reflexivity.
  - change (PyValue.truth (PList (RawParse.of_pydict <$> msg :: msgs))) with true.
    cbv iota. rewrite scan_messages_typed.
    destruct (scan_messages agent (msg :: msgs)) as [[[i s] c]|]; reflexivity.
Qed.

(** *** Which entry the parser returns *)

Lemma scan_entries_first agent msgs :
  match RawParse.scan_messages agent msgs with
  | Some (msg_id, sender, content) =>
      exists pre msg post,
        msgs = pre ++ msg :: post
        /\ Forall (passed_over agent) pre
        /\ relevant_entry agent msg
        /\ RawParse.raw_get msg "id" "unknown" = Some msg_id
        /\ RawParse.sliceable msg_id = true
        /\ RawParse.raw_get msg "sender_name" "unknown" = Some sender
        /\ content_of msg = Some content
  | None =>
      Forall (passed_over agent) msgs
      \/ exists pre msg post,
           msgs = pre ++ msg :: post
           /\ Forall (passed_over agent) pre
           /\ gives_up_at agent msg
  end.
Proof.
  induction msgs as [|msg msgs IH]; cbn [RawParse.scan_messages]; [left; constructor |].
  assert (Hnext : passed_over agent msg ->
    match RawParse.scan_messages agent msgs with
    | Some (msg_id, sender, content) =>
        exists pre m post,
          msg :: msgs = pre ++ m :: post
          /\ Forall (passed_over agent) pre
          /\ relevant_entry agent m
          /\ RawParse.raw_get m "id" "unknown" = Some msg_id
          /\ RawParse.sliceable msg_id = true
          /\ RawParse.raw_get m "sender_name" "unknown" = Some sender
          /\ content_of m = Some content
    | None =>
        Forall (passed_over agent) (msg :: msgs)
        \/ exists pre m post,
             msg :: msgs = pre ++ m :: post
             /\ Forall (passed_over agent) pre
             /\ gives_up_at agent m
    end).
  { intros Hover.
    destruct (RawParse.scan_messages agent msgs) as [[[i s] c]|].
    - destruct IH as (pre & m & post & -> & Hpre & Hrest).
      exists (msg :: pre), m, post. split; [reflexivity |].
      split; [constructor; assumption | exact Hrest].
    - destruct IH as [Hall | (pre & m & post & -> & Hpre & Hgive)].
      + left. constructor; assumption.
      + right. exists (msg :: pre), m, post. split; [reflexivity |].
        split; [constructor; assumption | exact Hgive]. }
  assert (Hstop : content_of msg = None ->
    Forall (passed_over agent) (msg :: msgs)
    \/ exists pre m post,
         msg :: msgs = pre ++ m :: post
         /\ Forall (passed_over agent) pre
         /\ gives_up_at agent m).
  { intros Hc. right. exists [], msg, msgs. split; [reflexivity |].
    split; [constructor | left; exact Hc]. }
  destruct (RawParse.raw_get msg "content" "") as [content|] eqn:Hcontent;
    [| apply Hstop; unfold content_of; rewrite Hcontent; reflexivity].
  destruct content as [| | | |content| |];
    try (apply Hstop; unfold content_of; rewrite Hcontent; reflexivity).
  assert (Hc : content_of msg = Some content)
    by (unfold content_of; rewrite Hcontent; reflexivity).
  destruct (is_match _ _) eqn:Hm.
  - apply is_match_mention in Hm.
    destruct (RawParse.raw_get msg "id" "unknown") as [msg_id|] eqn:Hid;
      [| destruct msg; discriminate].
    destruct (RawParse.raw_get msg "sender_name" "unknown") as [sender|] eqn:Hsender;
      [| destruct msg; discriminate].
    destruct (RawParse.is_agent agent sender) eqn:Hs.
    + apply Hnext. exists content. split; [exact Hc |]. right.
      destruct sender; try discriminate. cbn in Hs.
      apply bool_decide_eq_true in Hs. subst. exact Hsender.
    + assert (Hrel : relevant_entry agent msg).
      { exists content. split; [exact Hc |]. split; [exact Hm |].
        intros Heq. rewrite Hsender in Heq. injection Heq as ->. cbn in Hs.
        apply bool_decide_eq_false in Hs. contradiction. }
      destruct (RawParse.sliceable msg_id) eqn:Hslice.
      * exists [], msg, msgs. split; [reflexivity |]. split; [constructor |]. auto.
      * right. exists [], msg, msgs. split; [reflexivity |]. split; [constructor |].
        right. split; [exact Hrel |]. exists msg_id. auto.
  - apply Hnext. exists content. split; [exact Hc |]. left.
    intros Hd. apply is_match_mention in Hd. congruence.
Qed.

(** X1. On the structured format, with entries of any shape, the parser
    goes through [result.messages] in order. It passes over the entries that
    it can read (a dict whose content is a string) and that do not mention
    the agent directly or were sent by the agent itself. It returns the
    first entry that mentions the agent directly and was not sent by the
    agent, with the defaults [unknown] for a missing id or sender, when the
    id of that entry is a string or a list. It returns "no relevant mention"
    when it has passed over every entry, and also when the first entry that
    it does not pass over cannot be read (it is no dict, or its content is
    no string) or is relevant with an id that cannot be sliced: the error of
    that line is caught by the [except Exception] of lines 205-207, whatever
    comes later in the list. *)
Theorem parse_structured_first_relevant
    (agent : pystr) (result : RawParse.raw_result) (msgs : list pyval) :
  RawParse.raw_messages result = PList msgs ->
  msgs <> [] ->
  match RawParse._parse_message agent result with
  | Some (msg_id, sender, content) =>
      exists pre msg post text,
        msgs = pre ++ msg :: post
        /\ Forall (passed_over agent) pre
        /\ relevant_entry agent msg
        /\ RawParse.raw_get msg "id" "unknown" = Some msg_id
        /\ RawParse.sliceable msg_id = true
        /\ RawParse.raw_get msg "sender_name" "unknown" = Some sender
        /\ content_of msg = Some text
        /\ content = PStr text
  | None =>
      Forall (passed_over agent) msgs
      \/ exists pre msg post,
           msgs = pre ++ msg :: post
           /\ Forall (passed_over agent) pre
           /\ gives_up_at agent msg
  end.
Proof.
  intros Hmsgs Hne. unfold RawParse._parse_message. rewrite Hmsgs.
  destruct msgs as [|m msgs]; [contradiction |].
  cbn [PyValue.truth].
  pose proof (scan_entries_first agent (m :: msgs)) as Hscan.
  destruct (RawParse.scan_messages agent (m :: msgs)) as [[[i s] c]|].
  - destruct Hscan as (pre & msg & post & Hsplit & Hpre & Hrel & Hid & Hslice & Hsender & Hc).
    exists pre, msg, post, c. auto 10.
  - exact Hscan.
Qed.

(** An entry whose content is [null] comes before a relevant one: the
    parser returns "no relevant mention". *)
Lemma parse_structured_first_relevant_witness :
  let msgs := [MoreExamples.null_content; MoreExamples.hello_entry] in
  let result := RawParse.mkRaw (PList msgs) PNone None in
  RawParse.raw_messages result = PList msgs
  /\ msgs <> []
  /\ RawParse._parse_message lunar result = None
  /\ match RawParse._parse_message lunar result with
     | Some (msg_id, sender, content) =>
         exists pre msg post text,
           msgs = pre ++ msg :: post
           /\ Forall (passed_over lunar) pre
           /\ relevant_entry lunar msg
           /\ RawParse.raw_get msg "id" "unknown" = Some msg_id
           /\ RawParse.sliceable msg_id = true
           /\ RawParse.raw_get msg "sender_name" "unknown" = Some sender
           /\ content_of msg = Some text
           /\ content = PStr text
     | None =>
         Forall (passed_over lunar) msgs
         \/ exists pre msg post,
              msgs = pre ++ msg :: post
              /\ Forall (passed_over lunar) pre
              /\ gives_up_at lunar msg
     end.
Proof.
  intros msgs result.
  assert (Hmsgs : RawParse.raw_messages result = PList msgs) by reflexivity.
  assert (Hne : msgs <> []) by discriminate.
  split; [exact Hmsgs |]. split; [exact Hne |].
  split; [vm_compute; reflexivity |].
  exact (parse_structured_first_relevant lunar result msgs Hmsgs Hne).
Defined.

(** The same entry alone is returned, and a relevant entry whose id is a
    number is not. *)
Example parse_structured_entries :
  RawParse._parse_message lunar (RawParse.mkRaw (PList [MoreExamples.hello_entry]) PNone None)
  = Some (PStr (py "aaaa-1111"), PStr (py "bob"), PStr (py "@lunar_craft_128 hello"))
  /\ RawParse._parse_message lunar (RawParse.mkRaw (PList [MoreExamples.numbered_entry; MoreExamples.hello_entry]) PNone None)
     = None
  /\ RawParse._parse_message lunar (RawParse.mkRaw (PList [PStr (py "text"); MoreExamples.hello_entry]) PNone None)
     = None.
Proof. repeat split; vm_compute; reflexivity. Qed.

(** ** The mention parser: the text format *)

Section ReGeneral.
Context {A : Type}.

Lemma plus_loop_sound k : forall s pos (cont : nat -> pystr -> option A) a,
  plus_loop k pos s cont = Some a ->
  exists run rest,
    run <> [] /\ s = run ++ rest
    /\ Forall (fun c => cls_matches k c = true) run
    /\ cont (pos + length run)%nat rest = Some a.
Proof.
  induction s as [|c s IH]; intros pos cont a; cbn [plus_loop]; [discriminate |].
  destruct (cls_matches k c) eqn:Hc; [| discriminate].
  destruct (plus_loop k (S pos) s cont) as [a'|] eqn:Hl.
  - intros [= ->]. destruct (IH _ _ _ Hl) as (run & rest & _ & -> & Hall & Hk).
    exists (c :: run), rest. split; [discriminate |]. split; [reflexivity |].
    split; [constructor; assumption |].
    cbn [length]. rewrite Nat.add_succ_r. exact Hk.
  - intros Hk. exists [c], s. split; [discriminate |]. split; [reflexivity |].
    split; [constructor; [exact Hc | constructor] |].
    cbn [length]. rewrite Nat.add_1_r. exact Hk.
Qed.

End ReGeneral.

(** Where [re.search] finds a match, the pattern matches. *)
Lemma search_from_sound r : forall s pos m,
  search_from r pos s = Some m ->
  exists pre rest,
    s = pre ++ rest
    /\ rmatch r (pos + length pre) rest []
         (fun p _ cs => Some (mkMatch (pos + length pre) p cs)) = Some m.
Proof.
  induction s as [|x s IH]; intros pos m; cbn [search_from].
  - destruct (rmatch r pos [] [] _) as [m'|] eqn:Hm; [| discriminate].
    intros [= ->]. exists [], []. split; [reflexivity |].
    cbn [length]. rewrite Nat.add_0_r. exact Hm.
  - destruct (rmatch r pos (x :: s) [] _) as [m'|] eqn:Hm.
    + intros [= ->]. exists [], (x :: s). split; [reflexivity |].
      cbn [length]. rewrite Nat.add_0_r. exact Hm.
    + intros Hs. apply IH in Hs as (pre & rest & -> & Hr).
      exists (x :: pre), rest. split; [reflexivity |].
      cbn [length]. rewrite Nat.add_succ_r. exact Hr.
Qed.

Lemma contains_app_r sub pre s : contains sub s = true -> contains sub (pre ++ s) = true.
Proof.
  intros Hs. induction pre as [|c pre IH]; [exact Hs |].
  cbn [app contains]. rewrite IH. apply orb_true_r.
Qed.

Lemma contains_infix sub pre post : contains sub (pre ++ sub ++ post) = true.
Proof.
  apply contains_app_r. destruct sub as [|c sub]; [destruct post; reflexivity |].
  assert (Hs : startswith (c :: sub) ((c :: sub) ++ post) = true) by apply startswith_app.
  cbn [app] in *. cbn [contains]. rewrite Hs. reflexivity.
Qed.

Lemma firstn_length_app (run rest : pystr) : firstn (length run) (run ++ rest) = run.
Proof. induction run as [|c run IH]; [reflexivity |]. cbn. rewrite IH. reflexivity. Qed.

(** A match of the id pattern: the tag [[id:...]] with a non-empty run of
    the characters [a-f], [0-9] and [-] as its first group. *)
Lemma search_id_pattern text m :
  search id_pattern text = Some m ->
  exists pre post,
    text = pre ++ py "[id:" ++ group1 m ++ py "]" ++ post
    /\ group1 m <> [] /\ Forall id_char (group1 m).
Proof.
  unfold search. intros Hs.
  apply search_from_sound in Hs as (pre & rest & -> & Hm).
  unfold id_pattern in Hm. cbn [rmatch] in Hm. rewrite rmatch_lits in Hm.
  destruct (startswith (py "[id:") rest) eqn:Hstart; [| discriminate].
  apply startswith_split in Hstart.
  set (rest1 := skipn (length (py "[id:")) rest) in *.
  apply plus_loop_sound in Hm as (run & rest2 & Hne & Hrest1 & Hall & Hm).
  rewrite rmatch_lits in Hm.
  destruct (startswith (py "]") rest2) eqn:Hclose; [| discriminate].
  apply startswith_split in Hclose.
  injection Hm as <-. unfold group1. cbn [m_groups group Nat.eqb].
  match goal with
  | |- context [firstn ?n rest1] => replace n with (length run) by (cbn [length]; lia)
  end.
  rewrite Hrest1, firstn_length_app.
  exists pre, (skipn (length (py "]")) rest2).
  split; [| split; [exact Hne |]].
  - rewrite Hstart at 1. fold rest1. rewrite Hrest1. rewrite Hclose at 1. reflexivity.
  - eapply Forall_impl; [exact Hall |]. intros c Hc. cbn [cls_matches] in Hc.
    unfold id_char. 
    apply orb_true_iff in Hc as [Hc | Hc]; [| apply orb_true_iff in Hc as [Hc | Hc]].
    + apply andb_true_iff in Hc as [H1 H2]. apply N.leb_le in H1, H2. left. lia.
    + apply andb_true_iff in Hc as [H1 H2]. apply N.leb_le in H1, H2. right. left. lia.
    + apply N.eqb_eq in Hc. right. right. symmetry. exact Hc.
Qed.

(** A match of the bullet pattern: after the bullet and a space, a
    non-empty sender without a colon as its first group, then a colon, a
    space and an at sign. *)
Lemma search_bullet_pattern text m :
  search bullet_pattern text = Some m ->
  exists pre post,
    text = pre ++ [8226%N; 32%N] ++ group1 m ++ py ": @" ++ post
    /\ group1 m <> [] /\ Forall (fun c => c <> 58%N) (group1 m).
Proof.
  unfold search. intros Hs.
  apply search_from_sound in Hs as (pre & rest & -> & Hm).
  unfold bullet_pattern in Hm. cbn [rmatch] in Hm. rewrite rmatch_lits in Hm.
  destruct (startswith [8226%N; 32%N] rest) eqn:Hstart; [| discriminate].
  apply startswith_split in Hstart.
  set (rest1 := skipn (length [8226%N; 32%N]) rest) in *.
  apply plus_loop_sound in Hm as (run & rest2 & Hne & Hrest1 & Hall & Hm).
  rewrite rmatch_lits in Hm.
  destruct (startswith (py ": ") rest2) eqn:Hcolon; [| discriminate].
  apply startswith_split in Hcolon.
  set (rest3 := skipn (length (py ": ")) rest2) in *.
  clearbody rest3. destruct rest3 as [|x rest4]; [discriminate |].
  destruct (cls_matches (CChar 64) x) eqn:Hat; [| discriminate].
  cbn [cls_matches] in Hat. apply N.eqb_eq in Hat. subst x.
  apply plus_loop_sound in Hm as (run2 & rest5 & _ & _ & _ & Hm).
  apply plus_loop_sound in Hm as (run3 & rest6 & _ & _ & _ & Hm).
  apply plus_loop_sound in Hm as (run4 & rest7 & _ & _ & _ & Hm).
  injection Hm as <-. unfold group1. cbn [m_groups group Nat.eqb].
  match goal with
  | |- context [firstn ?n rest1] => replace n with (length run) by (cbn [length]; lia)
  end.
  rewrite Hrest1, firstn_length_app.
  exists pre, rest4.
  split; [| split; [exact Hne |]].
  - rewrite Hstart at 1. fold rest1. rewrite Hrest1. rewrite Hcolon at 1.
    rewrite <- ?app_assoc. reflexivity.
  - eapply Forall_impl; [exact Hall |]. intros c Hc. cbn [cls_matches] in Hc.
    apply negb_true_iff, N.eqb_neq in Hc. congruence.
Qed.

(** X2. What the parser returns from the text format (a result with neither
    structured messages nor events): the whole text as content; as id the
    non-empty run of [a-f0-9-] of an [[id:...]] tag of the text; as sender
    the non-empty, colon-free text between a bullet and [: @]. The text is
    no status line, it holds [@AGENT] somewhere, and the sender is not the
    agent itself. *)
Theorem parse_text_format (agent : pystr) (result : tool_result) i s c :
  messages result = [] ->
  events result = [] ->
  _parse_message agent result = Some (i, s, c) ->
  content_text result = Some c
  /\ contains (py "WAIT SUCCESS") c = false
  /\ contains (py "No mentions") c = false
  /\ contains (mention agent) c = true
  /\ s <> agent
  /\ i <> [] /\ Forall id_char i
  /\ contains (py "[id:" ++ i ++ py "]") c = true
  /\ s <> [] /\ Forall (fun ch => ch <> 58%N) s
  /\ contains ([8226%N; 32%N] ++ s ++ py ": @") c = true.
Proof.
  intros Hm He. unfold _parse_message. rewrite Hm, He. unfold parse_text.
  destruct (content_text result) as [text|]; [| discriminate].
  destruct (truthy text); cbn [negb]; [| discriminate].
  destruct (contains (py "WAIT SUCCESS") text) eqn:Hw; [discriminate |].
  destruct (contains (py "No mentions") text) eqn:Hn; [discriminate |].
  cbn [orb].
  destruct (search id_pattern text) as [mi|] eqn:Hid; [| discriminate].
  destruct (search bullet_pattern text) as [mb|] eqn:Hb; [| discriminate].
  destruct (contains (64%N :: agent) text) eqn:Hat; cbn [negb]; [| discriminate].
  destruct (bool_decide (group1 mb = agent)) eqn:Hself; [discriminate |].
  apply bool_decide_eq_false in Hself.
  intros [= <- <- <-].
  apply search_id_pattern in Hid as (pre & post & Htext & Hne & Hchars).
  apply search_bullet_pattern in Hb as (pre' & post' & Htext' & Hne' & Hchars').
  repeat (split; [first [reflexivity | assumption] |]).
  split.
  { rewrite Htext at 1.
    replace (pre ++ py "[id:" ++ group1 mi ++ py "]" ++ post)
      with (pre ++ (py "[id:" ++ group1 mi ++ py "]") ++ post)
      by (rewrite <- !app_assoc; reflexivity).
    apply contains_infix. }
  repeat (split; [assumption |]).
  rewrite Htext' at 1.
  replace (pre' ++ [8226%N; 32%N] ++ group1 mb ++ py ": @" ++ post')
    with (pre' ++ ([8226%N; 32%N] ++ group1 mb ++ py ": @") ++ post')
    by (rewrite <- !app_assoc; reflexivity).
  apply contains_infix.
Qed.

(** The text of scenario 1 of the specification, as the tool words it. *)
Lemma parse_text_format_witness :
  let text := py "[id:aaaa-1111] " ++ [8226%N] ++ py " bob: @lunar_craft_128 hello" in
  _parse_message lunar (mkResult [] [] (Some text)) = Some (py "aaaa-1111", py "bob", text)
  /\ contains (mention lunar) text = true
  /\ contains (py "[id:" ++ py "aaaa-1111" ++ py "]") text = true
  /\ Forall id_char (py "aaaa-1111").
Proof.
  intros text.
  assert (Hrun : _parse_message lunar (mkResult [] [] (Some text))
                 = Some (py "aaaa-1111", py "bob", text)) by (vm_compute; reflexivity).
  destruct (parse_text_format lunar (mkResult [] [] (Some text)) _ _ _ eq_refl eq_refl Hrun)
    as (_ & _ & _ & Hat & _ & _ & Hchars & Htag & _).
  split; [exact Hrun |]. split; [exact Hat |]. split; [exact Htag | exact Hchars].
Defined.

(** ** The poller: pause, bounds of the backoff, cancellation *)

Import LoopSpec.

Section PollerProperties.
Context {Store Session : Type} `{MessageStore Store} `{ClientSession Session}
        `{JsonDecoder}.
Implicit Types (w : world (Store:=Store) (Session:=Session)).

(** An iteration of the poller that finds the agent paused. *)
Lemma poll_iteration_paused w :
  is_agent_paused (agent_name (self w)) (store w) = true ->
  poll_iteration w =
  (Ok Continue,
   mkWorld (self w) (snd (check_auto_resume (agent_name (self w)) (store w)))
     (session w) (kill_switch w) (trace w ++ [EvSleep (PInt 1)])).
Proof.
  intros Hp. unfold poll_iteration, guarded, poll_try. run_m. rewrite Hp.
  destruct (check_auto_resume _ _) as [resumed s']. reflexivity.
Qed.

(** A poll that the session answers with an exception that is no
    [Exception]. *)
Lemma poll_iteration_interrupted w e c' :
  is_agent_paused (agent_name (self w)) (store w) = false ->
  call_tool (py "messages") (poll_arguments (self w)) (session w) = (Failed e, c') ->
  is_exception e = false ->
  poll_iteration w =
  (if is_cancelled e then Ok Break else Raised e,
   mkWorld (self w) (store w) c' (kill_switch w)
     (trace w ++ [EvCallTool (py "messages") (poll_arguments (self w))])).
Proof.
  intros Hp Hc He. unfold poll_iteration, guarded, poll_try. run_m.
  rewrite Hp, Hc, He. destruct (is_cancelled e); reflexivity.
Qed.

(** X3. While the agent is paused the poller calls no tool: each iteration
    checks the resume timer, sleeps one second and leaves the session,
    the backoff and the error count as they were. *)
Theorem paused_poller_makes_no_call (n : nat) : forall w,
  _running (self w) = true ->
  stays_paused (agent_name (self w)) (store w) n ->
  poll_and_store n w =
  (Ok None,
   mkWorld (self w) (after_checks (agent_name (self w)) (store w) n)
     (session w) (kill_switch w) (trace w ++ repeat (EvSleep (PInt 1)) n)).
Proof.
  induction n as [|n IH]; intros w Hrun Hpaused.
  - cbn [poll_and_store after_checks repeat]. rewrite app_nil_r.
    destruct w; reflexivity.
  - destruct Hpaused as [Hp Hrest].
    cbn [poll_and_store]. unfold mbind at 1, M_bind at 1, get_self at 1.
    rewrite Hrun. unfold mbind, M_bind. rewrite (poll_iteration_paused w Hp).
    rewrite IH; cbn [self store session kill_switch trace]; [| exact Hrun | exact Hrest].
    cbn [after_checks repeat]. rewrite <- app_assoc. reflexivity.
Qed.

Lemma after_success_in_bounds q :
  backoff_in_bounds q ->
  backoff_in_bounds (after_success q)
  /\ _poll_backoff_max (after_success q) = _poll_backoff_max q.
Proof.
  unfold backoff_in_bounds, after_success. intros [Hb He].
  destruct (0 <? _poll_consecutive_errors q); cbn; lia.
Qed.

Lemma after_error_in_bounds kind wait q :
  backoff_in_bounds q ->
  backoff_in_bounds (after_error kind wait q)
  /\ _poll_backoff_max (after_error kind wait q) = _poll_backoff_max q.
Proof.
  unfold backoff_in_bounds, after_error, double_backoff. intros [Hb He].
  destruct (is_number wait); [destruct kind |]; cbn; lia.
Qed.

(** One iteration keeps the backoff within its bounds, whatever the
    store and the session answer. *)
Lemma poll_iteration_in_bounds w r w' :
  backoff_in_bounds (self w) ->
  poll_iteration w = (r, w') ->
  backoff_in_bounds (self w')
  /\ _poll_backoff_max (self w') = _poll_backoff_max (self w)
  /\ _running (self w') = _running (self w).
Proof.
  intros Hb.
  destruct (is_agent_paused (agent_name (self w)) (store w)) eqn:Hp.
  { rewrite (poll_iteration_paused w Hp). intros [= <- <-]. cbn [self]. auto. }
  destruct (call_tool (py "messages") (poll_arguments (self w)) (session w))
    as [[res | e] c'] eqn:Hc.
  - pose proof (poll_iteration_returned w res c' Hp Hc) as Hrun. cbv zeta in Hrun.
    rewrite Hrun. clear Hrun.
    destruct (after_success_in_bounds _ Hb) as [Hb' Hmax].
    assert (Hr : _running (after_success (self w)) = _running (self w)).
    { unfold after_success. destruct (0 <? _); reflexivity. }
    destruct (_parse_message _ res) as [[[msg_id sender] content]|].
    + destruct (store_message _ _ _ _ _) as [[|] s']; intros [= <- <-]; cbn [self]; auto.
    + intros [= <- <-]. cbn [self]. auto.
  - destruct (is_exception e) eqn:He.
    + rewrite (poll_iteration_failed w e c' Hp Hc He), poll_except_run.
      cbn [self store session kill_switch trace].
      destruct (_parse_error_and_get_wait_time (self w) e) as [kind wait].
      intros [= <- <-]. cbn [self].
      destruct (after_error_in_bounds kind wait _ Hb) as [Hb' Hmax].
      split; [exact Hb' |]. split; [exact Hmax |].
      unfold after_error, double_backoff. destruct (is_number wait); [destruct kind |]; reflexivity.
    + rewrite (poll_iteration_interrupted w e c' Hp Hc He).
      intros [= <- <-]. cbn [self]. auto.
Qed.

(** X4. A poller whose backoff is between 5 seconds and the ceiling, and
    whose count of consecutive errors is 0 or above, keeps them so
    through any number of iterations and whatever the store and the
    session answer; the ceiling itself is never changed. *)
Theorem poller_keeps_backoff_in_bounds (fuel : nat) : forall w r w',
  backoff_in_bounds (self w) ->
  poll_and_store fuel w = (r, w') ->
  backoff_in_bounds (self w')
  /\ _poll_backoff_max (self w') = _poll_backoff_max (self w).
Proof.
  induction fuel as [|fuel IH]; intros w r w' Hb.
  - cbn [poll_and_store]. intros [= <- <-]. auto.
  - cbn [poll_and_store]. unfold mbind at 1, M_bind at 1, get_self at 1.
    destruct (_running (self w)); [| intros [= <- <-]; auto].
    unfold mbind, M_bind.
    destruct (poll_iteration w) as [[c | e] w1] eqn:Hit.
    + destruct (poll_iteration_in_bounds w _ w1 Hb Hit) as (Hb1 & Hmax1 & _).
      destruct c.
      * intros Hrest. destruct (IH w1 r w' Hb1 Hrest) as [Hb' Hmax'].
        split; [exact Hb' | congruence].
      * intros [= <- <-]. auto.
    + destruct (poll_iteration_in_bounds w _ w1 Hb Hit) as (Hb1 & Hmax1 & _).
      intros [= <- <-]. auto.
Qed.

(** X5. Every failed poll outside the rate-limit class, whatever the text of
    its error (a timeout, a reset, or an error the classifier does not
    know), sleeps the backoff capped at the ceiling, doubles the backoff
    up to the ceiling, counts one more consecutive error, and lets the
    loop go on. *)
Theorem failure_outside_rate_limit_backs_off w e c' :
  is_agent_paused (agent_name (self w)) (store w) = false ->
  call_tool (py "messages") (poll_arguments (self w)) (session w) = (Failed e, c') ->
  is_exception e = true ->
  is_rate_limit (exc_str e) = false ->
  let q := self w in
  let wait := Z.min (_poll_backoff q) (_poll_backoff_max q) in
  exists w',
    poll_iteration w = (Ok Continue, w')
    /\ trace w' = trace w ++ [EvCallTool (py "messages") (poll_arguments q);
                              EvSleep (PInt wait)]
    /\ _poll_backoff (self w') = Z.min (_poll_backoff q * 2) (_poll_backoff_max q)
    /\ _poll_consecutive_errors (self w') = _poll_consecutive_errors q + 1
    /\ store w' = store w.
Proof.
  intros Hp Hc He Hr q wait.
  rewrite (poll_iteration_failed w e c' Hp Hc He), poll_except_run.
  cbn [self store session kill_switch trace].
  assert (Hcls : exists kind,
             _parse_error_and_get_wait_time (self w) e = (kind, PInt wait)
             /\ kind <> rate_limit).
  { unfold _parse_error_and_get_wait_time. rewrite Hr.
    destruct (is_timeout _); [eexists; split; [reflexivity | discriminate] |].
    destruct (is_connection_error _); eexists; split; try reflexivity; discriminate. }
  destruct Hcls as (kind & -> & Hkind).
  eexists. split; [reflexivity |]. cbn [self trace store].
  split; [rewrite <- app_assoc; reflexivity |].
  unfold after_error. cbn [is_number].
  destruct kind; [contradiction | auto ..].
Qed.

(** X6. A cancellation of the poll ends the poller: the call that was under
    way is its last, nothing is slept, and the backoff, the error count
    and the store are left as they were. *)
Theorem poller_stops_on_cancellation (fuel : nat) w e c' :
  _running (self w) = true ->
  is_agent_paused (agent_name (self w)) (store w) = false ->
  call_tool (py "messages") (poll_arguments (self w)) (session w) = (Failed e, c') ->
  is_cancelled e = true ->
  poll_and_store (S fuel) w =
  (Ok (Some tt),
   mkWorld (self w) (store w) c' (kill_switch w)
     (trace w ++ [EvCallTool (py "messages") (poll_arguments (self w))])).
Proof.
  intros Hrun Hp Hc He.
  assert (Hex : is_exception e = false).
  { unfold is_cancelled in He. unfold is_exception. destruct (exc_kind_of e); try discriminate.
    reflexivity. }
  cbn [poll_and_store]. unfold mbind at 1, M_bind at 1, get_self at 1.
  rewrite Hrun. unfold mbind, M_bind.
  rewrite (poll_iteration_interrupted w e c' Hp Hc Hex), He. reflexivity.
Qed.

End PollerProperties.

(** ** The processor: kill switch, handler input, failed and cancelled handlers *)

Section ProcessorProperties.
Context {Store Session : Type} `{MessageStore Store} `{ClientSession Session}
        `{JsonDecoder}.
Implicit Types (w : world (Store:=Store) (Session:=Session)).

(** An iteration of the processor under the kill switch. *)
Lemma process_iteration_kill_switch w :
  kill_switch w = true ->
  process_iteration w =
  (Ok Continue,
   mkWorld (self w) (store w) (session w) (kill_switch w) (trace w ++ [EvSleep (PInt 5)])).
Proof.
  destruct w as [q s c k tr]. cbn [kill_switch]. intros ->.
  unfold process_iteration, process_body, guarded. run_m. reflexivity.
Qed.

(** X7. While the file [data/KILL_SWITCH] exists the processor does nothing
    but sleep five seconds per iteration: it reads nothing from the
    store, marks nothing, calls neither the handler nor a tool. *)
Theorem kill_switch_holds_processor (n : nat) : forall w,
  _running (self w) = true ->
  kill_switch w = true ->
  process_queue n w =
  (Ok None,
   mkWorld (self w) (store w) (session w) true
     (trace w ++ repeat (EvSleep (PInt 5)) n)).
Proof.
  induction n as [|n IH]; intros w Hrun Hk.
  - cbn [process_queue repeat]. rewrite app_nil_r. destruct w. cbn in Hk. subst. reflexivity.
  - cbn [process_queue]. unfold mbind at 1, M_bind at 1, get_self at 1.
    rewrite Hrun. unfold mbind, M_bind. rewrite (process_iteration_kill_switch w Hk).
    rewrite IH; cbn [self store session kill_switch trace]; [| exact Hrun | exact Hk].
    cbn [repeat]. rewrite <- app_assoc. reflexivity.
Qed.

(** X8. In every iteration that fetches a non-empty batch the handler is
    called exactly once, on the first fetched message, and its input
    carries the whole batch in fetch order, both as [queue_messages] and
    as [queue_status.pending_messages], with the backlog count read in
    this iteration. A batch of one message is handed over in single
    mode: [batch_mode] false, and neither [batch_size] nor
    [history_messages]; a larger one in batch mode, with its size. *)
Theorem handler_sees_queue_snapshot w s0 first rest :
  let q := self w in
  let agent := agent_name q in
  let backlog := get_backlog_count agent s0 in
  let o := processing_order_for backlog in
  gate w = Some s0 ->
  get_pending_messages agent 100 o s0 = first :: rest ->
  let fetched := first :: rest in
  exists r w' tr input out,
    process_iteration w = (r, w')
    /\ trace w' = trace w ++ tr
    /\ handler_calls tr = [(input, out)]
    /\ out = handler q input
    /\ h_id input = id first /\ h_sender input = sender first
    /\ h_content input = content first /\ h_timestamp input = timestamp first
    /\ queue_messages input = List.map as_dict fetched
    /\ queue_status_pending_messages input = List.map as_dict fetched
    /\ queue_status_backlog_count input = backlog
    /\ match rest with
       | [] => batch_mode input = false /\ batch_size input = None
               /\ history_messages input = None
       | _ :: _ => batch_mode input = true
                   /\ batch_size input = Some (Z.of_nat (length fetched))
       end.
Proof.
  intros q agent backlog o Hgate Hfetch fetched.
  destruct (process_iteration_batch w s0 first rest Hgate Hfetch)
    as (tail & inner & done & c' & Hend & Hrun).
  fold q agent backlog o fetched in Hend, Hrun.
  destruct (batch_ending_tail _ _ _ _ _ _ _ _ _ Hend) as (Hh & _).
  destruct (marks_processing_quiet agent fetched) as [Hq _].
  eexists _, _, _, _, _. split; [exact Hrun |]. cbn [trace].
  split; [reflexivity |].
  split.
  { rewrite !handler_calls_app, Hq. cbn [handler_calls app]. rewrite Hh. reflexivity. }
  split; [reflexivity |].
  unfold handler_input_for. subst fetched.
  destruct rest as [|second rest].
  - cbn. repeat split; reflexivity.
  - replace (1 <? Z.of_nat (length (first :: second :: rest))) with true
      by (symmetry; apply Z.ltb_lt; cbn [length]; lia).
    cbn [h_id h_sender h_content h_timestamp queue_messages queue_status_pending_messages
         queue_status_backlog_count batch_mode batch_size history_messages].
    repeat split; reflexivity.
Qed.

(** X9. When the handler fails with an [Exception], nothing is sent: the
    iteration calls no tool, marks every fetched message processed all
    the same, and the loop goes on. *)
Theorem failed_handler_sends_nothing w s0 first rest e :
  let q := self w in
  let agent := agent_name q in
  let backlog := get_backlog_count agent s0 in
  let o := processing_order_for backlog in
  gate w = Some s0 ->
  get_pending_messages agent 100 o s0 = first :: rest ->
  let fetched := first :: rest in
  handler q (handler_input_for fetched first backlog o) = HRaises e ->
  is_exception e = true ->
  exists w' tr,
    process_iteration w = (Ok Continue, w')
    /\ trace w' = trace w ++ tr ++ marks_processed agent fetched
    /\ tool_calls (tr ++ marks_processed agent fetched) = []
    /\ session w' = session w
    /\ store w' = marked mark_processed agent fetched
                    (marked mark_processing_started agent fetched s0).
Proof.
  intros q agent backlog o Hgate Hfetch fetched Hout He.
  destruct (process_iteration_batch w s0 first rest Hgate Hfetch)
    as (tail & inner & done & c' & Hend & Hrun).
  fold q agent backlog o fetched in Hend, Hrun. rewrite Hout in Hend, Hrun.
  destruct (marks_processing_quiet agent fetched) as [_ Hq].
  destruct (marks_processed_quiet agent fetched) as [_ Hq'].
  inversion Hend; subst; [| congruence].
  eexists _, ([EvGetBacklogCount agent backlog; EvGetPendingMessages agent 100 o fetched]
              ++ marks_processing agent fetched
              ++ [EvHandler (handler_input_for fetched first backlog o) (HRaises e)]).
  split; [exact Hrun |]. cbn [trace session store].
  split; [rewrite <- !app_assoc; reflexivity |].
  split; [| split; reflexivity].
  rewrite !tool_calls_app, Hq, Hq'. reflexivity.
Qed.

(** X10. A cancellation that reaches the processor while the handler runs
    ends the processor, and the fetched messages are left as they were
    marked before the handler was called: processing started, never
    processed. Nothing is sent. *)
Theorem cancelled_handler_leaves_batch_started (fuel : nat) w s0 first rest e :
  let q := self w in
  let agent := agent_name q in
  let backlog := get_backlog_count agent s0 in
  let o := processing_order_for backlog in
  _running q = true ->
  gate w = Some s0 ->
  get_pending_messages agent 100 o s0 = first :: rest ->
  let fetched := first :: rest in
  let input := handler_input_for fetched first backlog o in
  handler q input = HRaises e ->
  is_cancelled e = true ->
  exists w',
    process_queue (S fuel) w = (Ok (Some tt), w')
    /\ trace w' = trace w ++ [EvGetBacklogCount agent backlog;
                              EvGetPendingMessages agent 100 o fetched]
                          ++ marks_processing agent fetched
                          ++ [EvHandler input (HRaises e)]
    /\ session w' = session w
    /\ store w' = marked mark_processing_started agent fetched s0.
Proof.
  intros q agent backlog o Hrunning Hgate Hfetch fetched input Hout He.
  assert (Hex : is_exception e = false).
  { unfold is_cancelled in He. unfold is_exception. destruct (exc_kind_of e); try discriminate.
    reflexivity. }
  destruct (process_iteration_batch w s0 first rest Hgate Hfetch)
    as (tail & inner & done & c' & Hend & Hrun).
  fold q agent backlog o fetched input in Hend, Hrun. rewrite Hout in Hend, Hrun.
  inversion Hend; subst; [congruence |].
  cbn [process_queue]. unfold mbind at 1, M_bind at 1, get_self at 1.
  fold q. rewrite Hrunning. unfold mbind, M_bind. rewrite Hrun.
  cbn [iteration_end]. rewrite He.
  eexists. split; [reflexivity |]. cbn [trace session store]. auto.
Qed.

End ProcessorProperties.

(** ** The startup sweep: pacing *)

Section SweepProperties.
Context {Store Session : Type} `{MessageStore Store} `{ClientSession Session}
        `{JsonDecoder}.
Implicit Types (w : world (Store:=Store) (Session:=Session)).

Lemma sweep_loop_paced (fuel : nat) : forall v w,
  exists out w' tr,
    sweep_loop fuel v w = (out, w')
    /\ trace w' = trace w ++ tr
    /\ paced (self w) (store w) (session w) tr (store w') (session w')
    /\ self w' = self w
    /\ kill_switch w' = kill_switch w.
Proof.
  induction fuel as [|fuel IH]; intros v w; cbn [sweep_loop].
  { eexists _, _, []. split; [reflexivity |]. cbn [trace self]. rewrite app_nil_r.
    repeat split; constructor. }
  destruct (iteration v <? max_iterations).
  2:{ eexists _, _, []. split; [reflexivity |]. cbn [trace self]. rewrite app_nil_r.
      repeat split; constructor. }
  run_m.
  destruct ((0 <? startup_sweep_limit (self w))
            && (startup_sweep_limit (self w) <=? fetched v)).
  { eexists _, _, []. split; [reflexivity |]. cbn [trace self]. rewrite app_nil_r.
    repeat split; constructor. }
  destruct (call_tool _ _ (session w)) as [[r | e] c'] eqn:Hcall.
  2:{ eexists _, _, [_]. split; [reflexivity |]. cbn [trace self store session kill_switch].
      repeat split. apply (paced_last _ _ _ _ _ Hcall). exact I. }
  run_m.
  destruct (_parse_message (agent_name (self w)) r) as [[[msg_id sender] content] |]
    eqn:Hparse.
  2:{ eexists _, _, [_]. split; [reflexivity |]. cbn [trace self store session kill_switch].
      repeat split. apply (paced_last _ _ _ _ _ Hcall). exact Hparse. }
  run_m.
  destruct (store_message _ _ _ _ (store w)) as [success s'] eqn:Hstore.
  cbn [self store session kill_switch trace].
  match goal with |- context [sweep_loop fuel ?v2 ?w2] =>
    destruct (IH v2 w2) as (out & w' & tr & Hrun & Htr & Hpaced & Hself & Hkill)
  end.
  cbn [self store session kill_switch trace] in Htr, Hpaced, Hself, Hkill.
  rewrite Hrun.
  eexists out, w', (_ :: _ :: _ :: tr).
  split; [reflexivity |].
  split; [rewrite Htr; repeat rewrite <- app_assoc; reflexivity |].
  split; [| split; [exact Hself | exact Hkill]].
  exact (paced_round _ _ _ _ _ _ _ _ _ _ _ _ _ Hcall Hparse Hstore Hpaced).
Qed.

(** X11. The sweep paces its requests and keeps errors to itself. Whatever
    the session and the store answer, the calls of a sweep are these and
    no others: each call of the tool that brings a mention is followed by
    the store of that very mention (its id, its sender and its content,
    for the agent) and by a sleep of 0.7 seconds before the next call; a
    call that brings no mention is the last. A disabled sweep makes no
    call at all; no [Exception] leaves the sweep; and the sweep changes
    nothing of the queue manager's own state (the backoff of the poller
    included). *)
Theorem sweep_paces_its_requests (fuel : nat) w :
  exists out w' tr,
    _startup_sweep fuel w = (out, w')
    /\ trace w' = trace w ++ tr
    /\ paced (self w) (store w) (session w) tr (store w') (session w')
    /\ (startup_sweep (self w) = false -> tr = [])
    /\ self w' = self w
    /\ (forall e, out = Raised e -> is_exception e = false).
Proof.
  unfold _startup_sweep, try_except. run_m.
  destruct (startup_sweep (self w)); cbn [negb].
  - destruct (sweep_loop_paced fuel (mkSweep 0 None 0) w)
      as (out & w1 & tr & Hrun & Htr & Hpaced & Hself & _).
    rewrite Hrun. destruct out as [out | e].
    + eexists _, _, tr. split; [reflexivity |].
      split; [exact Htr |]. split; [exact Hpaced |]. split; [discriminate |].
      split; [exact Hself | discriminate].
    + destruct (is_exception e) eqn:He.
      * eexists _, _, tr. split; [reflexivity |].
        split; [exact Htr |]. split; [exact Hpaced |]. split; [discriminate |].
        split; [exact Hself | discriminate].
      * eexists _, _, tr. split; [reflexivity |].
        split; [exact Htr |]. split; [exact Hpaced |]. split; [discriminate |].
        split; [exact Hself |]. intros e' [= <-]. exact He.
  - eexists _, _, []. split; [reflexivity |]. cbn [trace self]. rewrite app_nil_r.
    split; [reflexivity |]. split; [constructor |]. split; [reflexivity |].
    split; [reflexivity | discriminate].
Qed.

End SweepProperties.

(** ** Deployment groups: the normalizers *)

Lemma lstrip_suffix s : exists pre, s = pre ++ lstrip s /\ forallb isspace pre = true.
Proof.
  induction s as [|c s (pre & Hs & Hpre)]; [exists []; auto |].
  cbn [lstrip]. destruct (isspace c) eqn:Hc.
  - exists (c :: pre). cbn [app forallb]. rewrite Hc, Hpre. rewrite Hs at 1. auto.
  - exists []. auto.
Qed.

Lemma lstrip_fixed s :
  (forall c t, s = c :: t -> isspace c = false) -> lstrip s = s.
Proof.
  destruct s as [|c s]; [reflexivity |]. intros Hc. cbn [lstrip].
  rewrite (Hc c s eq_refl). reflexivity.
Qed.

(** [strip] leaves no white space at either end. *)
Lemma strip_first s c t : strip s = c :: t -> isspace c = false.
Proof.
  unfold strip, rstrip. intros Hs.
  destruct (lstrip_suffix (rev (lstrip s))) as (pre & Hrev & _).
  apply (f_equal (@rev N)) in Hrev. rewrite rev_involutive, rev_app_distr, Hs in Hrev.
  cbn [app] in Hrev. apply (lstrip_head s c _ Hrev).
Qed.

Lemma strip_last s t c : strip s = t ++ [c] -> isspace c = false.
Proof.
  unfold strip, rstrip. intros Hs.
  apply (f_equal (@rev N)) in Hs. rewrite rev_involutive, rev_app_distr in Hs.
  cbn [rev app] in Hs. apply (lstrip_head _ c _ Hs).
Qed.

(** A text without white space at either end is its own [strip]. *)
Lemma strip_fixed s :
  (forall c t, s = c :: t -> isspace c = false) ->
  (forall t c, s = t ++ [c] -> isspace c = false) ->
  strip s = s.
Proof.
  intros Hfirst Hlast. unfold strip, rstrip. rewrite (lstrip_fixed s Hfirst).
  rewrite lstrip_fixed; [apply rev_involutive |].
  intros c t Hrev. apply (Hlast (rev t) c).
  apply (f_equal (@rev N)) in Hrev. rewrite rev_involutive in Hrev. exact Hrev.
Qed.

Lemma strip_strip s : strip (strip s) = strip s.
Proof.
  apply strip_fixed; [apply strip_first | apply strip_last].
Qed.

Section DeployProperties.
Import Deploy.

Lemma normalize_string_idem value s :
  _normalize_string value = Some s -> _normalize_string (PStr s) = Some s.
Proof.
  destruct value as [| b | z | f | raw | l | items]; cbn [_normalize_string]; try discriminate.
  destruct (truthy (strip raw)) eqn:Ht; [| discriminate].
  intros [= <-]. rewrite strip_strip, Ht. reflexivity.
Qed.

(** X12. What [_normalize_string] returns is canonical: it is the [strip] of
    the string given, it is not empty, it has no white space at either
    end, and normalizing it again gives it back. Values that are no
    strings, and strings of white space only, give [None]. *)
Theorem normalize_string_canonical (value : pyval) :
  match _normalize_string value with
  | Some s =>
      (exists raw, value = PStr raw /\ s = strip raw)
      /\ s <> []
      /\ (forall c t, s = c :: t -> isspace c = false)
      /\ (forall t c, s = t ++ [c] -> isspace c = false)
      /\ _normalize_string (PStr s) = Some s
  | None => forall raw, value = PStr raw -> blank raw = true
  end.
Proof.
  destruct value as [| b | z | f | raw | l | items]; cbn [_normalize_string]; try discriminate.
  destruct (truthy (strip raw)) eqn:Ht.
  - split; [eauto |].
    split; [intros Hnil; rewrite Hnil in Ht; discriminate |].
    split; [apply strip_first |]. split; [apply strip_last |].
    rewrite strip_strip, Ht. reflexivity.
  - intros raw' [= <-]. apply strip_nil_iff. destruct (strip raw); [reflexivity | discriminate].
Qed.

Lemma normalize_items_omap l :
  normalize_items l = omap _normalize_string l.
Proof.
  induction l as [|item l IH]; [reflexivity |].
  cbn [normalize_items omap list_omap]. rewrite <- IH.
  destruct item; cbn [_normalize_string]; try reflexivity.
  destruct (truthy (strip s)); reflexivity.
Qed.

(** X13. [_normalize_list] is [_normalize_string] on each entry: a list gives
    the normalized strings of its entries, in order, the entries that
    normalize to [None] dropped; a string gives what a list of that one
    string gives; anything else gives the empty list. Normalizing the
    result again changes nothing. *)
Theorem normalize_list_by_entries (value : pyval) :
  _normalize_list value =
    match value with
    | PList l => omap _normalize_string l
    | PStr s => omap _normalize_string [PStr s]
    | _ => []
    end
  /\ Forall (fun s => _normalize_string (PStr s) = Some s) (_normalize_list value)
  /\ _normalize_list (PList (List.map PStr (_normalize_list value)))
     = _normalize_list value.
Proof.
  assert (Hcanon : forall l, Forall (fun s => _normalize_string (PStr s) = Some s)
                               (omap _normalize_string l)).
  { induction l as [|item l IH]; [constructor |].
    cbn [omap list_omap]. pose proof (normalize_string_idem item) as Hc.
    destruct (_normalize_string item) as [s|]; [| exact IH].
    constructor; [apply Hc; reflexivity | exact IH]. }
  assert (Hidem : forall l, Forall (fun s => _normalize_string (PStr s) = Some s) l ->
                            omap _normalize_string (List.map PStr l) = l).
  { induction 1 as [|s l Hs _ IH]; [reflexivity |].
    cbn [List.map omap list_omap]. rewrite Hs. f_equal. exact IH. }
  assert (Hfirst : _normalize_list value =
    match value with
    | PList l => omap _normalize_string l
    | PStr s => omap _normalize_string [PStr s]
    | _ => []
    end).
  { destruct value; cbn [_normalize_list]; try reflexivity.
    - cbn [omap list_omap _normalize_string]. destruct (truthy (strip s)); reflexivity.
    - apply normalize_items_omap. }
  split; [exact Hfirst |].
  assert (Hall : Forall (fun s => _normalize_string (PStr s) = Some s) (_normalize_list value)).
  { rewrite Hfirst. destruct value; try constructor; apply Hcanon. }
  split; [exact Hall |].
  cbn [_normalize_list]. rewrite normalize_items_omap. apply Hidem. exact Hall.
Qed.

End DeployProperties.

(** ** Deployment groups: entries, groups and the reload *)

Section PyDictLemmas.
Context {V : Type}.
Implicit Types (d : list (pystr * V)).

Lemma lookup_setitem_eq key (v : V) d : PyDict.lookup key (PyDict.setitem key v d) = Some v.
Proof.
  induction d as [|[k x] d IH]; cbn [PyDict.setitem PyDict.lookup].
  - destruct (decide (key = key)); [reflexivity | contradiction].
  - destruct (decide (k = key)) as [Hk | Hk]; cbn [PyDict.lookup].
    + rewrite decide_True by exact Hk. reflexivity.
    + rewrite decide_False by exact Hk. exact IH.
Qed.

Lemma lookup_setitem_ne key key' (v : V) d :
  key' <> key -> PyDict.lookup key' (PyDict.setitem key v d) = PyDict.lookup key' d.
Proof.
  intros Hne. induction d as [|[k x] d IH]; cbn [PyDict.setitem PyDict.lookup].
  - rewrite decide_False by congruence. reflexivity.
  - destruct (decide (k = key)) as [Hk | Hk]; cbn [PyDict.lookup].
    + subst k. rewrite !decide_False by congruence. reflexivity.
    + destruct (decide (k = key')); [reflexivity | exact IH].
Qed.

Lemma in_setitem key (v : V) d kv :
  In kv (PyDict.setitem key v d) -> In kv d \/ kv = (key, v).
Proof.
  induction d as [|[k x] d IH]; cbn [PyDict.setitem].
  - intros [<- | []]. right. reflexivity.
  - destruct (decide (k = key)) as [-> | Hk].
    + intros [<- | Hin]; [right; reflexivity | left; right; exact Hin].
    + intros [<- | Hin]; [left; left; reflexivity |].
      destruct (IH Hin) as [Hd | Hnew]; [left; right; exact Hd | right; exact Hnew].
Qed.

Lemma lookup_in key (v : V) d : PyDict.lookup key d = Some v -> In (key, v) d.
Proof.
  induction d as [|[k x] d IH]; cbn [PyDict.lookup]; [discriminate |].
  destruct (decide (k = key)) as [-> | Hk].
  - intros [= ->]. left. reflexivity.
  - intros Hl. right. exact (IH Hl).
Qed.

End PyDictLemmas.

Section DeployEntries.
Import PyValue Deploy.

(** X14. The payload that [_get_mapping_entry] returns is the entry found
    under the key, a mapping, with the key as its [id] (whatever [id]
    the entry had) and every other item as in the entry. An empty or
    missing key gives [None], and so does a key under which the mapping
    holds no mapping. *)
Theorem mapping_entry_carries_its_key mapping key :
  match _get_mapping_entry mapping key with
  | Some result =>
      exists k entry,
        key = Some k /\ k <> []
        /\ dict_get k mapping PNone = PDict entry
        /\ PyDict.lookup (py "id") result = Some (PStr k)
        /\ (forall k', k' <> py "id" ->
                       PyDict.lookup k' result = PyDict.lookup k' entry)
  | None =>
      forall k, key = Some k -> k = [] \/ is_dict (dict_get k mapping PNone) = false
  end.
Proof.
  unfold _get_mapping_entry. destruct key as [k|]; [| discriminate].
  destruct k as [|c k]; cbn [truthy negb]; [intros ? [= <-]; left; reflexivity |].
  destruct (dict_get (c :: k) mapping PNone) eqn:Hget;
    try (intros ? [= <-]; right; rewrite Hget; reflexivity).
  exists (c :: k), items. split; [reflexivity |]. split; [discriminate |].
  split; [exact Hget |]. split; [apply lookup_setitem_eq |].
  intros k' Hk'. apply lookup_setitem_ne. exact Hk'.
Qed.

(** X15. [_resolve_mcp_servers] answers for the references that resolve to a
    mapping, in the order of the references: one payload for each, with
    the reference as its [id] and every other item as in the entry that
    the server groups hold for it or, when they hold nothing true for
    it, the servers. References that resolve to no mapping are left
    out. *)
Theorem resolved_servers_follow_references self (references : list pystr) :
  Forall2
    (fun ref result =>
       exists entry,
         server_entry self ref = PDict entry
         /\ PyDict.lookup (py "id") result = Some (PStr ref)
         /\ (forall k', k' <> py "id" ->
                        PyDict.lookup k' result = PyDict.lookup k' entry))
    (List.filter (fun ref => is_dict (server_entry self ref)) references)
    (_resolve_mcp_servers self references).
Proof.
  induction references as [|ref refs IH]; cbn [List.filter _resolve_mcp_servers];
    [constructor |].
  fold (server_entry self ref).
  destruct (server_entry self ref) eqn:Hentry; cbn [is_dict]; try exact IH.
  constructor; [| exact IH].
  exists items. split; [exact Hentry |]. split; [apply lookup_setitem_eq |].
  intros k' Hk'. apply lookup_setitem_ne. exact Hk'.
Qed.

Lemma parse_agent_id raw existing :
  match parse_agent raw existing with
  | Some agent =>
      raw_agent_id raw = Some (da_id agent) /\ da_id agent ∈ existing
  | None =>
      forall agent_id, raw_agent_id raw = Some agent_id -> agent_id ∉ existing
  end.
Proof.
  unfold parse_agent, raw_agent_id, _agent_exists.
  destruct raw as [| b | z | f | s | l | d]; try discriminate.
  - destruct (bool_decide (s ∈ existing)) eqn:Hin; cbn [negb da_id].
    + apply bool_decide_eq_true in Hin. auto.
    + apply bool_decide_eq_false in Hin. intros ? [= <-]. exact Hin.
  - destruct (PyDict.lookup (py "id") d) as [[| b | z | f | s | l | d']|]; try discriminate.
    destruct (bool_decide (s ∈ existing)) eqn:Hin; cbn [negb da_id].
    + apply bool_decide_eq_true in Hin. auto.
    + apply bool_decide_eq_false in Hin. intros ? [= <-]. exact Hin.
Qed.

Lemma parse_agents_ids raw_agents existing :
  List.map da_id (parse_agents raw_agents existing)
  = List.filter (fun agent_id => bool_decide (agent_id ∈ existing))
      (omap raw_agent_id raw_agents).
Proof.
  induction raw_agents as [|raw rest IH]; [reflexivity |].
  cbn [parse_agents omap list_omap].
  pose proof (parse_agent_id raw existing) as Hraw.
  destruct (parse_agent raw existing) as [agent|].
  - destruct Hraw as [-> Hin]. cbn [List.map List.filter].
    rewrite bool_decide_eq_true_2 by exact Hin. f_equal. exact IH.
  - destruct (raw_agent_id raw) as [agent_id|]; [| exact IH].
    cbn [List.filter]. rewrite bool_decide_eq_false_2 by (apply Hraw; reflexivity).
    exact IH.
Qed.

Context `{StrTitle}.

(** X16. A group that [_parse_group] returns carries the key of its entry as
    its id and at least one agent; its agents are the ids that the
    entries of [agents] name (strings, or mappings with a string [id])
    and that exist among the agent configurations, in the order of the
    entries; its environment is a true value ([any] when the entry has
    none). It returns [None] when no entry names an existing agent, and
    raises [ValueError] when the entry is no mapping or has no list under
    [agents]. *)
Theorem parsed_group_agents_exist self (group_id : pystr) (group_info : pyval)
    (existing_agents : list pystr) :
  match _parse_group self group_id group_info existing_agents with
  | Ok (Some group) =>
      dg_id group = group_id
      /\ agents group <> []
      /\ Forall (fun agent => da_id agent ∈ existing_agents) (agents group)
      /\ truth (environment group) = true
      /\ exists info raw_agents,
           group_info = PDict info
           /\ PyDict.lookup (py "agents") info = Some (PList raw_agents)
           /\ List.map da_id (agents group)
              = List.filter (fun agent_id => bool_decide (agent_id ∈ existing_agents))
                  (omap raw_agent_id raw_agents)
  | Ok None =>
      exists info raw_agents,
        group_info = PDict info
        /\ PyDict.lookup (py "agents") info = Some (PList raw_agents)
        /\ Forall (fun agent_id => agent_id ∉ existing_agents)
             (omap raw_agent_id raw_agents)
  | Raised e =>
      exc_class e = "ValueError"%string
      /\ forall info raw_agents,
           group_info = PDict info ->
           PyDict.lookup (py "agents") info <> Some (PList raw_agents)
  end.
Proof.
  unfold _parse_group.
  destruct group_info as [| b | z | f | s | l | info];
    try (split; [reflexivity | discriminate]).
  destruct (PyDict.lookup (py "agents") info) as [[| b | z | f | s | raw_agents | d]|] eqn:Hagents;
    try (split; [reflexivity | intros ? ? [= <-]; rewrite Hagents; discriminate]).
  pose proof (parse_agents_ids raw_agents existing_agents) as Hids.
  destruct (parse_agents raw_agents existing_agents) as [|agent rest] eqn:Hparsed.
  - exists info, raw_agents. split; [reflexivity |]. split; [exact Hagents |].
    cbn [List.map] in Hids.
    apply List.Forall_forall. intros agent_id Hin Hex.
    assert (Hf : In agent_id (List.filter (fun a => bool_decide (a ∈ existing_agents))
                                (omap raw_agent_id raw_agents))).
    { apply filter_In. split; [exact Hin | apply bool_decide_eq_true_2; exact Hex]. }
    rewrite <- Hids in Hf. exact Hf.
  - cbn [dg_id agents environment].
    split; [reflexivity |]. split; [discriminate |].
    split.
    { apply List.Forall_forall. intros a Ha.
      assert (Hin : In (da_id a) (List.map da_id (agent :: rest))) by (apply in_map; exact Ha).
      rewrite Hids in Hin. apply filter_In in Hin as [_ Hin].
      apply bool_decide_eq_true in Hin. exact Hin. }
    split.
    { unfold por. destruct (truth (dict_get _ info _)) eqn:Ht; [exact Ht | reflexivity]. }
    exists info, raw_agents. split; [reflexivity |]. split; [exact Hagents | exact Hids].
Qed.

Lemma parse_group_some self group_id group_info existing group :
  _parse_group self group_id group_info existing = Ok (Some group) ->
  dg_id group = group_id
  /\ agents group <> []
  /\ Forall (fun agent => da_id agent ∈ existing) (agents group).
Proof.
  unfold _parse_group.
  destruct group_info as [| b | z | f | s | l | info]; try discriminate.
  destruct (PyDict.lookup (py "agents") info) as [[| b | z | f | s | raw_agents | d]|];
    try discriminate.
  pose proof (parse_agents_ids raw_agents existing) as Hids.
  destruct (parse_agents raw_agents existing) as [|agent rest]; [discriminate |].
  intros [= <-]. cbn [dg_id agents].
  split; [reflexivity |]. split; [discriminate |].
  apply List.Forall_forall. intros a Ha.
  assert (Hin : In (da_id a) (List.map da_id (agent :: rest))) by (apply in_map; exact Ha).
  rewrite Hids in Hin. apply filter_In in Hin as [_ Hin].
  apply bool_decide_eq_true in Hin. exact Hin.
Qed.

Lemma load_groups_invariant (P : pystr -> DeploymentGroup -> Prop) self existing :
  (forall group_id group_info group,
      _parse_group self group_id group_info existing = Ok (Some group) ->
      P group_id group) ->
  forall groups_data acc,
    (forall kv, In kv acc -> P (fst kv) (snd kv)) ->
    forall kv, In kv (load_groups self groups_data existing acc) -> P (fst kv) (snd kv).
Proof.
  intros Hparse. induction groups_data as [|[group_id group_info] rest IH];
    intros acc Hacc; cbn [load_groups]; [exact Hacc |].
  apply IH. destruct (_parse_group self group_id group_info existing) as [[group|]|e] eqn:Hp;
    try exact Hacc.
  intros kv Hin. apply in_setitem in Hin as [Hin | ->]; [apply Hacc; exact Hin |].
  cbn [fst snd]. eapply Hparse. exact Hp.
Qed.

(** X17. After a [reload], however it ends, every group that [get_group] or
    [list_groups] gives is one of this reload (the groups held before
    are dropped): it is kept under its own id, it has at least one
    agent, and each of its agents exists among the agent
    configurations. Without a readable [deployment_groups.yaml] there
    is no group at all. *)
Theorem reloaded_groups_are_valid (files : project) (self : DeploymentLoader) :
  let self' := snd (reload files self) in
  let valid group :=
    agents group <> []
    /\ Forall (fun agent => da_id agent ∈ agent_names files) (agents group) in
  (forall group_id group,
      get_group self' group_id = Some group -> dg_id group = group_id /\ valid group)
  /\ (forall env, Forall valid (list_groups self' env))
  /\ ((forall data, deployment_groups_yaml files <> Parsed data) ->
      _groups self' = []).
Proof.
  intros self' valid.
  assert (Hall : forall kv, In kv (_groups self') -> dg_id (snd kv) = fst kv /\ valid (snd kv)).
  { subst self'. unfold reload.
    destruct (_load_yaml_section (delegation_patterns_yaml files) _); [| intros ? []].
    destruct (_load_yaml_section (collaboration_patterns_yaml files) _); [| intros ? []].
    destruct (_load_yaml_file (mcp_servers_yaml files)); [| intros ? []].
    destruct (_load_yaml_section (execution_presets_yaml files) _); [| intros ? []].
    destruct (deployment_groups_yaml files) as [| loaded | e]; [intros ? [] | |].
    2:{ destruct (is_exception e); intros ? []. }
    destruct (por loaded (PDict [])); try (intros ? []).
    destruct (dict_get (py "deployment_groups") items (PDict [])); try (intros ? []).
    cbn [snd _groups].
    apply (load_groups_invariant (fun k g => dg_id g = k /\ valid g)); [| intros ? []].
    intros group_id group_info group Hp.
    apply parse_group_some in Hp as (Hid & Hne & Hex). split; [exact Hid |].
    split; assumption. }
  split; [| split].
  - intros group_id group Hget. unfold get_group in Hget.
    apply lookup_in in Hget. apply (Hall _ Hget).
  - intros env.
    assert (Hvalues : Forall valid (PyDict.values (_groups self'))).
    { apply List.Forall_forall. intros g Hg. unfold PyDict.values in Hg.
      apply in_map_iff in Hg as (kv & <- & Hin). apply (Hall _ Hin). }
    unfold list_groups. destruct env as [e|]; [| exact Hvalues].
    destruct (truthy e && negb (bool_decide (e = py "any"))); [| exact Hvalues].
    apply List.Forall_forall. intros g Hg. apply filter_In in Hg as [Hg _].
    revert g Hg. apply List.Forall_forall. exact Hvalues.
  - intros Hno. subst self'. unfold reload.
    destruct (_load_yaml_section (delegation_patterns_yaml files) _); [| reflexivity].
    destruct (_load_yaml_section (collaboration_patterns_yaml files) _); [| reflexivity].
    destruct (_load_yaml_file (mcp_servers_yaml files)); [| reflexivity].
    destruct (_load_yaml_section (execution_presets_yaml files) _); [| reflexivity].
    destruct (deployment_groups_yaml files) as [| loaded | e]; [reflexivity | |].
    + exfalso. apply (Hno loaded). reflexivity.
    + destruct (is_exception e); reflexivity.
Qed.

End DeployEntries.

(** ** The liveness registry *)

Section PyDictUpdate.
Context {V : Type}.
Implicit Types (d extra : list (pystr * V)).

Lemma lookup_app key d extra :
  PyDict.lookup key (d ++ extra) =
  match PyDict.lookup key d with
  | Some v => Some v
  | None => PyDict.lookup key extra
  end.
Proof.
  induction d as [|[k x] d IH]; cbn [app PyDict.lookup]; [reflexivity |].
  destruct (decide (k = key)); [reflexivity | exact IH].
Qed.

(** [{**d, **extra}] holds under each key the value that [extra] gives
    it last, and otherwise the value of [d]. *)
Lemma lookup_update key extra : forall d,
  PyDict.lookup key (PyDict.update d extra) =
  match PyDict.lookup key (rev extra) with
  | Some v => Some v
  | None => PyDict.lookup key d
  end.
Proof.
  unfold PyDict.update.
  induction extra as [|[k x] extra IH]; intros d; cbn [fold_left rev]; [reflexivity |].
  rewrite IH, lookup_app. cbn [fst snd PyDict.lookup].
  destruct (PyDict.lookup key (rev extra)); [reflexivity |].
  destruct (decide (k = key)) as [-> | Hk].
  - apply lookup_setitem_eq.
  - apply lookup_setitem_ne. congruence.
Qed.

Lemma lookup_none_keys key d :
  PyDict.lookup key d = None <-> ~ In key (PyDict.keys d).
Proof.
  induction d as [|[k x] d IH]; cbn [PyDict.lookup PyDict.keys List.map In fst].
  - split; [auto | reflexivity].
  - destruct (decide (k = key)) as [-> | Hk].
    + split; [discriminate | intros Hn; exfalso; apply Hn; left; reflexivity].
    + rewrite IH. unfold PyDict.keys. split; [intros Hn [? | ?]; auto | auto].
Qed.

(** A dict holds each key once, so the last value is the only one. *)
Lemma lookup_rev key d :
  List.NoDup (PyDict.keys d) -> PyDict.lookup key (rev d) = PyDict.lookup key d.
Proof.
  induction d as [|[k x] d IH]; [reflexivity |].
  cbn [PyDict.keys List.map fst]. intros Hnd. apply List.NoDup_cons_iff in Hnd as [Hk Hnd].
  cbn [rev PyDict.lookup]. rewrite lookup_app, (IH Hnd). cbn [PyDict.lookup].
  destruct (decide (k = key)) as [-> | Hne].
  - apply lookup_none_keys in Hk. rewrite Hk. reflexivity.
  - destruct (PyDict.lookup key d); reflexivity.
Qed.

End PyDictUpdate.

(** Two ASCII literals differ. *)
Ltac py_neq := let Heq := fresh in intros Heq; vm_compute in Heq; discriminate Heq.

Section RegistryProperties.
Import Registry.

Lemma lookup_metadata_items key record :
  PyDict.lookup key (metadata_items record)
  = FVal <$> PyDict.lookup key (metadata record).
Proof.
  unfold metadata_items. induction (metadata record) as [|[k v] md IH]; [reflexivity |].
  cbn [List.map PyDict.lookup fst snd]. destruct (decide (k = key)); [reflexivity | exact IH].
Qed.

Lemma keys_metadata_items record :
  PyDict.keys (metadata_items record) = PyDict.keys (metadata record).
Proof.
  unfold metadata_items, PyDict.keys. rewrite List.map_map. reflexivity.
Qed.

(** A payload holds what [**record.metadata] puts under a key, and
    under the other keys its own fields. *)
Lemma lookup_with_metadata key base record :
  List.NoDup (PyDict.keys (metadata record)) ->
  PyDict.lookup key (PyDict.update base (metadata_items record)) =
  match PyDict.lookup key (metadata record) with
  | Some v => Some (FVal v)
  | None => PyDict.lookup key base
  end.
Proof.
  intros Hnd. rewrite lookup_update, lookup_rev by (rewrite keys_metadata_items; exact Hnd).
  rewrite lookup_metadata_items. destruct (PyDict.lookup key (metadata record)); reflexivity.
Qed.

(** X18. In the payload that the callback gets and in the items of the
    summary, an entry of the record's metadata takes precedence over the
    field of the same name: under each key the payload holds the
    metadata's value when the metadata has the key, and otherwise the
    domain, name, state, heartbeat or miss count (in the summary: the
    name, the liveness, the heartbeat or the miss count). *)
Theorem metadata_overrides_payload_fields (reg : LivenessRegistry) (nm state : pystr)
    (record : LivenessRecord) (now : Z) (key : pystr) :
  List.NoDup (PyDict.keys (metadata record)) ->
  PyDict.lookup key (state_payload reg nm state record) =
    match PyDict.lookup key (metadata record) with
    | Some v => Some (FVal v)
    | None =>
        if decide (key = py "domain") then Some (FVal (PStr (domain reg)))
        else if decide (key = py "name") then Some (FVal (PStr nm))
        else if decide (key = py "state") then Some (FVal (PStr state))
        else if decide (key = py "last_heartbeat")
             then Some (heartbeat_field (last_heartbeat record))
        else if decide (key = py "consecutive_misses")
             then Some (FVal (PInt (consecutive_misses record)))
        else None
    end
  /\ PyDict.lookup key (summary_item now record) =
    match PyDict.lookup key (metadata record) with
    | Some v => Some (FVal v)
    | None =>
        if decide (key = py "name") then Some (FVal (PStr (name record)))
        else if decide (key = py "alive") then Some (FVal (PBool (is_alive now record)))
        else if decide (key = py "last_heartbeat")
             then Some (heartbeat_field (last_heartbeat record))
        else if decide (key = py "consecutive_misses")
             then Some (FVal (PInt (consecutive_misses record)))
        else None
    end.
Proof.
  intros Hnd. unfold state_payload, summary_item.
  rewrite !lookup_with_metadata by exact Hnd.
  destruct (PyDict.lookup key (metadata record)); [split; reflexivity |].
  cbn [PyDict.lookup].
  split;
    repeat (destruct (decide (_ = key)) as [<- | ?];
            [repeat (rewrite decide_False by py_neq);
             rewrite decide_True by reflexivity; reflexivity
            | rewrite (decide_False (P := key = _)) by congruence]);
    reflexivity.
Qed.

(** What [_emit_state] leaves of the registry: the records and their
    order as they were; one more call of the callback when there is
    one. It raises only what the callback raises that is no
    [Exception]. *)
Lemma emit_state_run nm state record reg :
  let r := _emit_state nm state record reg in
  _records (snd r) = _records reg
  /\ _order (snd r) = _order reg
  /\ _state_callback (snd r) = _state_callback reg
  /\ domain (snd r) = domain reg
  /\ calls (snd r) =
     match _state_callback reg with
     | Some _ => calls reg ++ [(nm, state_payload reg nm state record)]
     | None => calls reg
     end
  /\ fst r =
     match _state_callback reg with
     | Some callback =>
         match callback nm (state_payload reg nm state record) with
         | Some e => if is_exception e then Ok tt else Raised e
         | None => Ok tt
         end
     | None => Ok tt
     end.
Proof.
  unfold _emit_state. destruct (_state_callback reg) as [callback|] eqn:Hcb;
    [| cbn; rewrite ?Hcb; repeat split; reflexivity].
  destruct (callback nm _) as [e|]; [destruct (is_exception e) |];
    cbn; rewrite ?Hcb; repeat split; reflexivity.
Qed.

Lemma omap_lookup_total {A} (m : gmap pystr A) (l : list pystr) :
  Forall (fun k => is_Some (m !! k)) l ->
  length (omap (fun k => m !! k) l) = length l
  /\ forall i k, l !! i = Some k -> omap (fun k => m !! k) l !! i = m !! k.
Proof.
  induction 1 as [|k l [r Hr] _ [IHlen IH]]; [split; [reflexivity | intros i k; discriminate] |].
  cbn [omap list_omap]. rewrite Hr. split; [cbn [length]; f_equal; exact IHlen |].
  intros [|i] k'; cbn [lookup list_lookup].
  - intros [= <-]. symmetry. exact Hr.
  - apply IH.
Qed.

Lemma records_in_order_lookup reg i nm :
  well_formed reg ->
  _order reg !! i = Some nm ->
  records_in_order reg !! i = _records reg !! nm.
Proof.
  intros [_ Hwf]. unfold records_in_order. apply omap_lookup_total.
  apply Forall_forall. intros k Hk. apply Hwf. exact Hk.
Qed.

Lemma records_in_order_length reg :
  well_formed reg -> length (records_in_order reg) = length (_order reg).
Proof.
  intros [_ Hwf]. unfold records_in_order. apply omap_lookup_total.
  apply Forall_forall. intros k Hk. apply Hwf. exact Hk.
Qed.

(** A step that replaces the record of a registered name, or none,
    keeps the registry well formed. *)
Lemma well_formed_step reg reg' nm :
  well_formed reg ->
  _order reg' = _order reg ->
  (forall nm', nm' <> nm -> _records reg' !! nm' = _records reg !! nm') ->
  (is_Some (_records reg' !! nm) <-> is_Some (_records reg !! nm)) ->
  well_formed reg'
  /\ (forall nm', is_Some (_records reg' !! nm') <-> is_Some (_records reg !! nm')).
Proof.
  intros [Hnd Hdom] Hord Hother Hsame.
  assert (Hall : forall nm', is_Some (_records reg' !! nm') <-> is_Some (_records reg !! nm')).
  { intros nm'. destruct (decide (nm' = nm)) as [-> | Hne]; [exact Hsame |].
    rewrite (Hother nm' Hne). reflexivity. }
  split; [| exact Hall]. split; [rewrite Hord; exact Hnd |].
  intros nm'. rewrite Hord, Hdom, Hall. reflexivity.
Qed.

(** X19. Beats, misses and death notices never add a name to the registry
    and never drop one: whatever the name, and whatever the callback
    does, the registry stays well formed, the same names are registered,
    and the summary keeps its order and has one item for each of them.
    For a name that was never registered the call is ignored altogether:
    the registry stays as it is and the callback is not called. *)
Theorem bookkeeping_keeps_the_names (reg : LivenessRegistry) (nm : pystr) (now : Z)
    (step : LivenessRegistry -> outcome unit * LivenessRegistry) :
  well_formed reg ->
  step = beat now nm \/ step = miss nm \/ step = mark_dead nm ->
  let reg' := snd (step reg) in
  well_formed reg'
  /\ _order reg' = _order reg
  /\ (forall nm', is_Some (_records reg' !! nm') <-> is_Some (_records reg !! nm'))
  /\ (forall clock, length (summary clock reg') = length (_order reg))
  /\ (_records reg !! nm = None -> step reg = (Ok tt, reg)).
Proof.
  intros Hwf Hstep reg'.
  assert (Hkeeps : well_formed reg' /\ _order reg' = _order reg
                   /\ (forall nm', is_Some (_records reg' !! nm')
                                   <-> is_Some (_records reg !! nm'))
                   /\ (_records reg !! nm = None -> step reg = (Ok tt, reg))).
  { subst reg'. destruct (_records reg !! nm) as [record|] eqn:Hr; cycle 1.
    { assert (Hnone : step reg = (Ok tt, reg)).
      { destruct Hstep as [-> | [-> | ->]]; unfold beat, miss, mark_dead; rewrite Hr;
          reflexivity. }
      rewrite Hnone. cbn [snd]. split; [exact Hwf |]. split; [reflexivity |].
      split; [reflexivity | intros _; reflexivity]. }
    assert (Hrun : exists record0 state records,
               step reg = _emit_state nm state record0 (set_records records (_order reg) reg)
               /\ (forall nm', nm' <> nm -> records !! nm' = _records reg !! nm')
               /\ is_Some (records !! nm)).
    { destruct Hstep as [-> | [-> | ->]]; unfold beat, miss, mark_dead; rewrite Hr.
      - eexists _, _, _. split; [reflexivity |]. unfold registry_beat. rewrite Hr.
        split; [intros nm' Hne; apply lookup_insert_ne; congruence |].
        rewrite lookup_insert_eq. eauto.
      - eexists _, _, _. split; [reflexivity |]. unfold registry_miss. rewrite Hr.
        split; [intros nm' Hne; apply lookup_insert_ne; congruence |].
        rewrite lookup_insert_eq. eauto.
      - exists record, (py "dead"), (_records reg). split.
        + destruct reg; reflexivity.
        + split; [reflexivity | rewrite Hr; eauto]. }
    destruct Hrun as (record0 & state & records & -> & Hother & Hsome).
    destruct (emit_state_run nm state record0 (set_records records (_order reg) reg))
      as (Hrecs & Hord & _).
    cbn [set_records _records _order] in Hrecs, Hord.
    destruct (well_formed_step reg
                (snd (_emit_state nm state record0 (set_records records (_order reg) reg)))
                nm Hwf Hord) as [Hwf' Hdom].
    - intros nm' Hne. rewrite Hrecs. apply Hother. exact Hne.
    - rewrite Hrecs. split; [intros _; eauto | intros _; exact Hsome].
    - split; [exact Hwf' |]. split; [exact Hord |]. split; [exact Hdom |]. discriminate. }
  destruct Hkeeps as (Hwf' & Hord & Hdom & Hnone).
  split; [exact Hwf' |]. split; [exact Hord |]. split; [exact Hdom |].
  split; [| exact Hnone].
  intros clock. unfold summary. rewrite length_imap, (records_in_order_length reg' Hwf').
  f_equal. exact Hord.
Qed.

Lemma summary_lookup clock reg i nm record :
  well_formed reg ->
  _order reg !! i = Some nm ->
  _records reg !! nm = Some record ->
  summary clock reg !! i = Some (summary_item (clock i) record).
Proof.
  intros Hwf Hi Hr. unfold summary.
  rewrite list_lookup_imap, (records_in_order_lookup reg i nm Hwf Hi), Hr. reflexivity.
Qed.

(** X20. After a heartbeat of a registered name at [now], the record of the
    name counts no miss and is alive at the moments [t] with
    [t - now <= timeout] and at no other; the summary reports it so at
    the place of the name, whatever the callback did; the other records
    and the order of the summary are as before. *)
Theorem heartbeat_keeps_alive_for_timeout (reg : LivenessRegistry) (nm : pystr)
    (record : LivenessRecord) (now : Z) :
  well_formed reg ->
  _records reg !! nm = Some record ->
  let reg' := snd (beat now nm reg) in
  exists record',
    _records reg' !! nm = Some record'
    /\ consecutive_misses record' = 0
    /\ timeout record' = timeout record
    /\ (forall t, is_alive t record' = (t - now <=? timeout record))
    /\ (forall nm', nm' <> nm -> _records reg' !! nm' = _records reg !! nm')
    /\ well_formed reg'
    /\ (forall clock i,
          _order reg !! i = Some nm ->
          summary clock reg' !! i = Some (summary_item (clock i) record')
          /\ (PyDict.lookup (py "alive") (metadata record) = None ->
              List.NoDup (PyDict.keys (metadata record)) ->
              PyDict.lookup (py "alive") (summary_item (clock i) record')
              = Some (FVal (PBool (clock i - now <=? timeout record))))).
Proof.
  intros Hwf Hr reg'. subst reg'. unfold beat. rewrite Hr.
  destruct (emit_state_run nm (py "alive") (Liveness.beat now record)
              (set_records (registry_beat now nm (_records reg)) (_order reg) reg))
    as (Hrecs & Hord & _).
  cbn [set_records _records _order] in Hrecs, Hord.
  set (reg' := snd (_emit_state _ _ _ _)) in *.
  assert (Hnew : _records reg' !! nm = Some (Liveness.beat now record)).
  { rewrite Hrecs. unfold registry_beat. rewrite Hr. apply lookup_insert_eq. }
  assert (Hother : forall nm', nm' <> nm -> _records reg' !! nm' = _records reg !! nm').
  { intros nm' Hne. rewrite Hrecs. unfold registry_beat. rewrite Hr.
    apply lookup_insert_ne. congruence. }
  assert (Hwf' : well_formed reg').
  { destruct Hwf as [Hnd Hdom]. split; [rewrite Hord; exact Hnd |].
    intros k. rewrite Hord, Hdom. destruct (decide (k = nm)) as [-> | Hne].
    - rewrite Hnew, Hr. split; eauto.
    - rewrite (Hother k Hne). reflexivity. }
  exists (Liveness.beat now record).
  split; [exact Hnew |]. split; [reflexivity |]. split; [reflexivity |].
  split; [intros t; reflexivity |]. split; [exact Hother |]. split; [exact Hwf' |].
  intros clock i Hi. split.
  - apply (summary_lookup clock reg' i nm); [exact Hwf' | rewrite Hord; exact Hi | exact Hnew].
  - intros Hno Hnd.
    unfold summary_item. rewrite lookup_with_metadata by exact Hnd.
    cbn [metadata Liveness.beat]. rewrite Hno. reflexivity.
Qed.

(** X21. The callback cannot break the bookkeeping. For a registered name and
    a callback that raises nothing but [Exception]s, a beat, a miss and a
    death notice all return normally, after exactly one call of the
    callback with the state [alive], [miss] or [dead]; the beat and the
    miss have updated the record in any case (a miss adds one to the miss
    count and keeps the heartbeat), while the death notice changes no
    record, so that the summary reports the name as it did before. *)
Theorem callback_failures_are_swallowed (reg : LivenessRegistry) (nm : pystr)
    (record : LivenessRecord) (now : Z) (callback : HeartbeatCallback) :
  _records reg !! nm = Some record ->
  _state_callback reg = Some callback ->
  (forall payload e, callback nm payload = Some e -> is_exception e = true) ->
  let after_beat := Liveness.beat now record in
  let after_miss := mark_miss record in
  (fst (beat now nm reg) = Ok tt
   /\ _records (snd (beat now nm reg)) = <[nm := after_beat]> (_records reg)
   /\ calls (snd (beat now nm reg))
      = calls reg ++ [(nm, state_payload reg nm (py "alive") after_beat)])
  /\ (fst (miss nm reg) = Ok tt
      /\ _records (snd (miss nm reg)) = <[nm := after_miss]> (_records reg)
      /\ consecutive_misses after_miss = consecutive_misses record + 1
      /\ last_heartbeat after_miss = last_heartbeat record
      /\ calls (snd (miss nm reg))
         = calls reg ++ [(nm, state_payload reg nm (py "miss") after_miss)])
  /\ (fst (mark_dead nm reg) = Ok tt
      /\ _records (snd (mark_dead nm reg)) = _records reg
      /\ (forall clock, summary clock (snd (mark_dead nm reg)) = summary clock reg)
      /\ calls (snd (mark_dead nm reg))
         = calls reg ++ [(nm, state_payload reg nm (py "dead") record)]).
Proof.
  intros Hr Hcb Hexc after_beat after_miss.
  assert (Hok : forall state rec reg1,
             _state_callback reg1 = Some callback ->
             fst (_emit_state nm state rec reg1) = Ok tt).
  { intros state rec reg1 Hcb1.
    destruct (emit_state_run nm state rec reg1) as (_ & _ & _ & _ & _ & ->).
    rewrite Hcb1. destruct (callback nm _) as [e|] eqn:Hcall; [| reflexivity].
    rewrite (Hexc _ _ Hcall). reflexivity. }
  subst after_beat after_miss.
  unfold beat, miss, mark_dead. rewrite Hr. split; [| split].
  - destruct (emit_state_run nm (py "alive") (Liveness.beat now record)
                (set_records (registry_beat now nm (_records reg)) (_order reg) reg))
      as (Hrecs & _ & _ & _ & Hcalls & _).
    split; [apply Hok; exact Hcb |].
    split; [rewrite Hrecs; cbn [set_records _records]; unfold registry_beat; rewrite Hr;
            reflexivity |].
    rewrite Hcalls. cbn [set_records _state_callback calls]. rewrite Hcb. reflexivity.
  - destruct (emit_state_run nm (py "miss") (mark_miss record)
                (set_records (registry_miss nm (_records reg)) (_order reg) reg))
      as (Hrecs & _ & _ & _ & Hcalls & _).
    split; [apply Hok; exact Hcb |].
    split; [rewrite Hrecs; cbn [set_records _records]; unfold registry_miss; rewrite Hr;
            reflexivity |].
    split; [reflexivity |]. split; [reflexivity |].
    rewrite Hcalls. cbn [set_records _state_callback calls]. rewrite Hcb. reflexivity.
  - destruct (emit_state_run nm (py "dead") record reg) as (Hrecs & Hord & _ & _ & Hcalls & _).
    split; [apply Hok; exact Hcb |]. split; [exact Hrecs |].
    split; [intros clock; unfold summary, records_in_order; rewrite Hrecs, Hord; reflexivity |].
    rewrite Hcalls, Hcb. reflexivity.
Qed.

(** X22. Registering a name gives it a fresh record: no heartbeat, so it is
    alive at no moment until its first beat, and no miss. A name that
    was registered before loses its heartbeat and its misses but keeps
    its place in the summary; a new name goes last. The other records
    are not touched. A metadata argument of [None] stands for no
    metadata. *)
Theorem register_starts_without_heartbeat (reg : LivenessRegistry) (nm : pystr) (tmo : Z)
    (md : option (list (pystr * pyval))) :
  well_formed reg ->
  let reg' := fst (register nm tmo md reg) in
  let record := snd (register nm tmo md reg) in
  well_formed reg'
  /\ _records reg' !! nm = Some record
  /\ name record = nm /\ timeout record = tmo
  /\ metadata record = match md with Some items => items | None => [] end
  /\ consecutive_misses record = 0
  /\ (forall t, is_alive t record = false)
  /\ (forall nm', nm' <> nm -> _records reg' !! nm' = _records reg !! nm')
  /\ _order reg' = (if bool_decide (is_Some (_records reg !! nm))
                    then _order reg else _order reg ++ [nm])
  /\ calls reg' = calls reg.
Proof.
  intros [Hnd Hdom] reg' record. subst reg' record.
  unfold well_formed, register, Liveness.register, set_records.
  cbn [fst snd _records _order calls name timeout metadata consecutive_misses].
  set (md' := match md with Some ((_ :: _) as items) => items | _ => [] end).
  assert (Hmd : md' = match md with Some items => items | None => [] end).
  { subst md'. destruct md as [[|kv items]|]; reflexivity. }
  assert (Horder : (if bool_decide (nm ∈ _order reg) then _order reg else _order reg ++ [nm])
                   = (if bool_decide (is_Some (_records reg !! nm))
                      then _order reg else _order reg ++ [nm])).
  { destruct (bool_decide (nm ∈ _order reg)) eqn:Hin.
    - apply bool_decide_eq_true in Hin. rewrite bool_decide_eq_true_2 by (apply Hdom; exact Hin).
      reflexivity.
    - apply bool_decide_eq_false in Hin.
      rewrite bool_decide_eq_false_2 by (rewrite <- Hdom; exact Hin). reflexivity. }
  split.
  { split.
    - destruct (bool_decide (nm ∈ _order reg)) eqn:Hin; [exact Hnd |].
      apply bool_decide_eq_false in Hin. apply NoDup_app. split; [exact Hnd |].
      split; [| apply NoDup_singleton].
      intros k Hk Hk'. apply list_elem_of_singleton in Hk'. subst k. contradiction.
    - intros k. destruct (decide (k = nm)) as [-> | Hne].
      + rewrite lookup_insert_eq. split; [eauto |]. intros _.
        destruct (bool_decide (nm ∈ _order reg)) eqn:Hin.
        * apply bool_decide_eq_true in Hin. exact Hin.
        * apply elem_of_app. right. apply list_elem_of_singleton. reflexivity.
      + rewrite lookup_insert_ne by congruence. rewrite <- Hdom.
        destruct (bool_decide (nm ∈ _order reg)); [reflexivity |].
        rewrite elem_of_app, list_elem_of_singleton. tauto. }
  split; [apply lookup_insert_eq |].
  split; [reflexivity |]. split; [reflexivity |]. split; [exact Hmd |].
  split; [reflexivity |]. split; [reflexivity |].
  split; [intros nm' Hne; apply lookup_insert_ne; congruence |].
  split; [exact Horder | reflexivity].
Qed.

End RegistryProperties.

(** ** The MCP server manager *)

(** Unfolds the operations of the monad of the manager. *)
Ltac run_mcp :=
  cbv [mbind mret MCP.M_bind MCP.M_ret MCP.get_self MCP.modify_self MCP.emit MCP.on_env
       MCP.sleep MCP.log_metric MCP.raise MCP.lift];
  cbn [MCP.self MCP.env MCP.trace].

Section ManagerProperties.
Import MCP MCPSpec.
Context {E : Type} `{Servers E} `{PyRepr}.
Implicit Types (w : world (E:=E)) (m : MCPServerManager).

Lemma set_liveness_same m : set_liveness (liveness m) m = m.
Proof. destruct m; reflexivity. Qed.

(** The registry ignores the servers it has no record of. *)
Lemma liveness_miss_unregistered server_name w :
  unregistered (self w) server_name ->
  liveness_miss server_name w = (Done tt, w).
Proof.
  intros Hun. unfold liveness_miss, on_liveness, Registry.miss. rewrite Hun.
  rewrite set_liveness_same. destruct w; reflexivity.
Qed.

Lemma liveness_beat_unregistered server_name w :
  unregistered (self w) server_name ->
  liveness_beat server_name w = (Done tt, w).
Proof.
  intros Hun. unfold liveness_beat, on_liveness, Registry.beat. rewrite Hun.
  rewrite set_liveness_same. destruct w; reflexivity.
Qed.

Lemma liveness_mark_dead_unregistered server_name w :
  unregistered (self w) server_name ->
  liveness_mark_dead server_name w = (Done tt, w).
Proof.
  intros Hun. unfold liveness_mark_dead, on_liveness, Registry.mark_dead. rewrite Hun.
  rewrite set_liveness_same. destruct w; reflexivity.
Qed.

Lemma manager_sleeps_app tr1 tr2 : sleeps (tr1 ++ tr2) = sleeps tr1 ++ sleeps tr2.
Proof.
  induction tr1 as [|ev tr1 IH]; [reflexivity |].
  destruct ev; cbn [app sleeps]; rewrite IH; reflexivity.
Qed.

Lemma manager_operations_app tr1 tr2 :
  operations (tr1 ++ tr2) = (operations tr1 + operations tr2)%nat.
Proof.
  induction tr1 as [|ev tr1 IH]; [reflexivity |].
  destruct ev; cbn [app operations]; rewrite IH; reflexivity.
Qed.

Lemma manager_connects_app tr1 tr2 :
  connects (tr1 ++ tr2) = (connects tr1 + connects tr2)%nat.
Proof.
  induction tr1 as [|ev tr1 IH]; [reflexivity |].
  destruct ev; cbn [app connects]; rewrite IH; reflexivity.
Qed.

Section Operation.
Context {R : Type} (operation : Session -> E -> result R * E).


Lemma retry_loop_unknown server_name opname : forall left delays w,
  PyDict.lookup server_name (sessions (self w)) = None ->
  PyDict.lookup server_name (server_states (self w)) = None ->
  unregistered (self w) server_name ->
  linear_delays (reconnect_backoff (self w)) left delays ->
  retry_loop operation server_name opname left w =
  (Thrown (operation_failed server_name opname (max_operation_retries (self w))),
   mkWorld (self w) (env w)
     (trace w ++ List.concat
        (List.map (fun ad => unknown_attempt server_name opname (fst ad) (snd ad))
           (List.combine left delays)))).
Proof.
  induction left as [|attempt rest IH]; intros delays w Hs Hst Hun Hd.
  - inversion Hd; subst. cbn [retry_loop combine List.map List.concat]. rewrite app_nil_r.
    unfold mbind at 1, M_bind at 1. rewrite (liveness_mark_dead_unregistered _ _ Hun).
    run_mcp. destruct w; reflexivity.
  - inversion Hd as [|? delay ? delays' Htimes Hrest]; subst.
    cbn [retry_loop combine List.map List.concat fst snd].
    assert (Hattempt : attempt_once operation server_name opname attempt w =
              (Done None,
               mkWorld (self w) (env w)
                 (trace w ++ [EvMetric (py "mcp_operation_failure")
                    [ (py "server", PStr server_name); (py "op", PStr opname);
                      (py "attempt", PInt attempt);
                      (py "error",
                       PStr (py "Unknown server '" ++ server_name ++ py "'")) ]]))).
    { unfold attempt_once, attempt_try, _ensure_session. run_mcp. rewrite Hs, Hst.
      cbn [is_TimeoutError is_Exception error sort exc is_exception exc_kind_of].
      unfold on_failure, drop_session. run_mcp.
      unfold mbind, M_bind.
      rewrite liveness_miss_unregistered by exact Hun.
      cbn [self]. rewrite Hs. reflexivity. }
    unfold mbind at 1, M_bind at 1. rewrite Hattempt. run_mcp. rewrite Htimes.
    rewrite IH with (delays := delays'); cbn [self env trace]; try assumption.
    unfold unknown_attempt at 2. rewrite <- !app_assoc. reflexivity.
Qed.

(** X23. A call for a server that the manager does not know fails as every
    other call does: not with the [ValueError] of the unknown name, but
    with the [RuntimeError] of the exhausted retries, after as many
    attempts as [max_operation_retries] allows, each of them counted as a
    failure (the metric [mcp_operation_failure] with the text of the
    [ValueError]) and followed by a sleep of [reconnect_backoff * attempt].
    Neither the servers nor the manager's own state are touched. *)
Theorem unknown_server_exhausts_retries (server_name opname : pystr) w
    (delays : list number) :
  PyDict.lookup server_name (sessions (self w)) = None ->
  PyDict.lookup server_name (server_states (self w)) = None ->
  unregistered (self w) server_name ->
  linear_delays (reconnect_backoff (self w))
    (attempts (max_operation_retries (self w))) delays ->
  exists tr,
    _execute_with_retry operation server_name opname w =
      (Thrown (operation_failed server_name opname (max_operation_retries (self w))),
       mkWorld (self w) (env w) (trace w ++ tr))
    /\ tr = List.concat
             (List.map (fun ad => unknown_attempt server_name opname (fst ad) (snd ad))
                (List.combine (attempts (max_operation_retries (self w))) delays))
    /\ sleeps tr = List.map number_value delays
    /\ operations tr = O /\ connects tr = O
    /\ length delays = Z.to_nat (max_operation_retries (self w)).
Proof.
  intros Hs Hst Hun Hd. unfold _execute_with_retry. run_mcp.
  rewrite (retry_loop_unknown server_name opname _ delays w Hs Hst Hun Hd).
  eexists. split; [reflexivity |]. split; [reflexivity |].
  assert (Hlen : length delays = Z.to_nat (max_operation_retries (self w))).
  { apply Forall2_length in Hd. rewrite <- Hd. unfold attempts.
    rewrite length_map, length_seq. reflexivity. }
  split; [| split; [| split; [| exact Hlen]]].
  - clear Hlen. revert Hd. generalize (attempts (max_operation_retries (self w))).
    intros l Hd. induction Hd as [|a d l ds _ _ IH]; [reflexivity |].
    cbn [combine List.map List.concat fst snd unknown_attempt app sleeps]. f_equal. exact IH.
  - clear Hlen. revert Hd. generalize (attempts (max_operation_retries (self w))).
    intros l Hd. induction Hd as [|a d l ds _ _ IH]; [reflexivity |].
    cbn [combine List.map List.concat fst snd unknown_attempt app operations]. exact IH.
  - clear Hlen. revert Hd. generalize (attempts (max_operation_retries (self w))).
    intros l Hd. induction Hd as [|a d l ds _ _ IH]; [reflexivity |].
    cbn [combine List.map List.concat fst snd unknown_attempt app connects]. exact IH.
Qed.

(** An attempt on a registered session whose operation times out. *)
Lemma attempt_once_timeout server_name opname attempt w s r e1 :
  PyDict.lookup server_name (sessions (self w)) = Some s ->
  unregistered (self w) server_name ->
  operation s (env w) = (Thrown r, e1) ->
  is_TimeoutError r = true ->
  attempt_once operation server_name opname attempt w =
  (Done None,
   mkWorld (self w) e1
     (trace w ++ [EvOperation opname s;
                  EvMetric (py "mcp_operation_timeout")
                    [ (py "server", PStr server_name); (py "op", PStr opname);
                      (py "attempt", PInt attempt) ]])).
Proof.
  intros Hs Hun Hop Hr.
  unfold attempt_once, attempt_try, _ensure_session. run_mcp. rewrite Hs, Hop, Hr.
  unfold on_timeout. run_mcp. unfold mbind, M_bind.
  rewrite liveness_miss_unregistered by exact Hun.
  rewrite <- app_assoc. reflexivity.
Qed.

(** An attempt on a registered session whose operation returns. *)
Lemma attempt_once_returns server_name opname attempt w s v e1 :
  PyDict.lookup server_name (sessions (self w)) = Some s ->
  unregistered (self w) server_name ->
  operation s (env w) = (Done v, e1) ->
  attempt_once operation server_name opname attempt w =
  (Done (Some v),
   mkWorld (self w) e1
     (trace w ++ EvOperation opname s ::
        if 1 <? attempt
        then [EvMetric (py "mcp_retry_success")
                [ (py "server", PStr server_name); (py "op", PStr opname);
                  (py "attempt", PInt attempt) ]]
        else [])).
Proof.
  intros Hs Hun Hop.
  unfold attempt_once, attempt_try, _ensure_session. run_mcp. rewrite Hs, Hop.
  unfold mbind, M_bind.
  rewrite liveness_beat_unregistered by exact Hun.
  destruct (1 <? attempt); run_mcp; rewrite <- ?app_assoc; reflexivity.
Qed.

(** The loop on a registered session whose operation times out a number
    of times and then, if attempts are left, returns. *)
Lemma retry_loop_timeouts server_name opname s (final : option R) :
  forall (timeouts : list (result R)) (left : list Z) (delays : list number) w e_end,
  PyDict.lookup server_name (sessions (self w)) = Some s ->
  unregistered (self w) server_name ->
  Forall (fun a => exists r, a = Thrown r /\ is_TimeoutError r = true) timeouts ->
  operation_answers operation s (env w)
    (timeouts ++ match final with Some v => [Done v] | None => [] end) e_end ->
  match final with
  | Some _ => (length timeouts < length left)%nat
  | None => length timeouts = length left
  end ->
  linear_delays (reconnect_backoff (self w)) (firstn (length timeouts) left) delays ->
  exists tr,
    retry_loop operation server_name opname left w =
      (match final with
       | Some v => Done v
       | None =>
           Thrown (operation_failed server_name opname (max_operation_retries (self w)))
       end,
       mkWorld (self w) e_end (trace w ++ tr))
    /\ sleeps tr = List.map number_value delays
    /\ operations tr = (length timeouts + match final with Some _ => 1 | None => 0 end)%nat
    /\ connects tr = O.
Proof.
  induction timeouts as [|a timeouts IH]; intros left delays w e_end Hs Hun Hall Hans Hlen Hd.
  - cbn [length firstn] in Hd. inversion Hd; subst. cbn [app] in Hans.
    destruct final as [v|].
    + destruct left as [|attempt rest]; [cbn in Hlen; lia |].
      destruct Hans as (e1 & Hop & ->). cbn [retry_loop].
      unfold mbind at 1, M_bind at 1.
      rewrite (attempt_once_returns _ _ _ _ _ _ _ Hs Hun Hop).
      eexists. split; [reflexivity |].
      destruct (1 <? attempt); cbn; auto.
    + destruct left as [|attempt rest]; [| cbn in Hlen; lia].
      cbn in Hans. subst e_end. cbn [retry_loop].
      unfold mbind at 1, M_bind at 1. rewrite (liveness_mark_dead_unregistered _ _ Hun).
      run_mcp. exists []. rewrite app_nil_r. destruct w; cbn; auto.
  - destruct left as [|attempt rest]; [destruct final; cbn in Hlen; lia |].
    cbn [length firstn] in Hd. inversion Hd as [|? delay ? delays' Htimes Hrest]; subst.
    apply List.Forall_cons_iff in Hall as [(r & -> & Hr) Hall].
    cbn [app operation_answers] in Hans. destruct Hans as (e1 & Hop & Hans).
    cbn [retry_loop]. unfold mbind at 1, M_bind at 1.
    rewrite (attempt_once_timeout _ _ _ _ _ _ _ Hs Hun Hop Hr).
    run_mcp. rewrite Htimes.
    match goal with |- context [retry_loop _ _ _ rest ?w1] =>
      destruct (IH rest delays' w1 e_end) as (tr & Hrun & Hsl & Hops & Hcon);
        cbn [self env trace]; try assumption
    end.
    { destruct final; cbn [length] in Hlen; lia. }
    rewrite Hrun. cbn [self env trace].
    eexists (_ :: _ :: _ :: tr). split; [rewrite <- !app_assoc; reflexivity |].
    cbn [sleeps operations connects List.map length]. rewrite Hsl, Hops, Hcon. auto.
Qed.

(** X24. Timeouts are retried on the session that is there. When the
    operation times out on a connected server, the session is kept and
    the next attempt uses it again, after a sleep of
    [reconnect_backoff * attempt]: the manager is left as it was and
    nothing is reconnected. If the operation returns within [max_operation_retries]
    attempts, the call returns its value. If every attempt times out,
    the call sleeps after the last one too and then raises the
    [RuntimeError] of the exhausted retries. *)
Theorem timeouts_retry_on_the_same_session (server_name opname : pystr) w (s : Session)
    (timeouts : list (result R)) (final : option R) (delays : list number) (e_end : E) :
  PyDict.lookup server_name (sessions (self w)) = Some s ->
  unregistered (self w) server_name ->
  Forall (fun a => exists r, a = Thrown r /\ is_TimeoutError r = true) timeouts ->
  operation_answers operation s (env w)
    (timeouts ++ match final with Some v => [Done v] | None => [] end) e_end ->
  match final with
  | Some _ => Z.of_nat (length timeouts) < max_operation_retries (self w)
  | None => Z.of_nat (length timeouts) = max_operation_retries (self w)
  end ->
  linear_delays (reconnect_backoff (self w))
    (firstn (length timeouts) (attempts (max_operation_retries (self w)))) delays ->
  exists tr,
    _execute_with_retry operation server_name opname w =
      (match final with
       | Some v => Done v
       | None =>
           Thrown (operation_failed server_name opname (max_operation_retries (self w)))
       end,
       mkWorld (self w) e_end (trace w ++ tr))
    /\ sleeps tr = List.map number_value delays
    /\ length delays = length timeouts
    /\ operations tr = (length timeouts + match final with Some _ => 1 | None => 0 end)%nat
    /\ connects tr = O.
Proof.
  intros Hs Hun Hall Hans Hlen Hd. unfold _execute_with_retry. run_mcp.
  assert (Hatt : length (attempts (max_operation_retries (self w)))
                 = Z.to_nat (max_operation_retries (self w))).
  { unfold attempts. rewrite length_map, length_seq. reflexivity. }
  destruct (retry_loop_timeouts server_name opname s final timeouts
              (attempts (max_operation_retries (self w))) delays w e_end)
    as (tr & Hrun & Hsl & Hops & Hcon); try assumption.
  { rewrite Hatt. destruct final; lia. }
  exists tr. split; [exact Hrun |]. split; [exact Hsl |].
  split; [| split; assumption].
  apply Forall2_length in Hd. rewrite <- Hd. rewrite length_firstn, Hatt.
  destruct final; lia.
Qed.

End Operation.

End ManagerProperties.

(** *** What every run of the manager keeps to *)

Section ManagerFrames.
Import MCP MCPSpec.
Context {E : Type} `{Servers E} `{PyRepr}.
Implicit Types (w : world (E:=E)) (m : MCPServerManager).
Local Abbreviation frame := (MCPSpec.frame (E:=E)).

Lemma calm_nil n : calm n [].
Proof. repeat split. cbn. lia. Qed.

Lemma calm_app n1 n2 tr1 tr2 : calm n1 tr1 -> calm n2 tr2 -> calm (n1 + n2) (tr1 ++ tr2).
Proof.
  intros (Hs1 & Ho1 & Hc1) (Hs2 & Ho2 & Hc2). unfold calm.
  rewrite manager_sleeps_app, manager_operations_app, manager_connects_app, Hs1, Hs2, Ho1, Ho2.
  repeat split. lia.
Qed.

Lemma calm_le n n' tr : (n <= n')%nat -> calm n tr -> calm n' tr.
Proof. intros Hle (Hs & Ho & Hc). repeat split; try assumption. lia. Qed.

Lemma busy_nil ops conns : busy ops conns [].
Proof. split; cbn; lia. Qed.

Lemma busy_app o1 c1 o2 c2 tr1 tr2 :
  busy o1 c1 tr1 -> busy o2 c2 tr2 -> busy (o1 + o2) (c1 + c2) (tr1 ++ tr2).
Proof.
  intros [Ho1 Hc1] [Ho2 Hc2]. unfold busy.
  rewrite manager_operations_app, manager_connects_app. lia.
Qed.

Lemma busy_le o c o' c' tr : (o <= o')%nat -> (c <= c')%nat -> busy o c tr -> busy o' c' tr.
Proof. intros Ho Hc [H1 H2]. split; lia. Qed.

Lemma calm_busy n tr : calm n tr -> busy 0 n tr.
Proof. intros (_ & Ho & Hc). split; lia. Qed.

Lemma frame_impl {A} (P Q : list event -> Prop) (c : M A) :
  (forall tr, P tr -> Q tr) -> frame P c -> frame Q c.
Proof.
  intros HPQ Hc w. destruct (Hc w) as (tr & Htr & HP & Hpol). exists tr. auto.
Qed.

(** Sequencing: the traces are put one after the other. *)
Lemma frame_bind {A B} (P Q PQ : list event -> Prop) (c : M A) (f : A -> M B) :
  (forall t1 t2, P t1 -> Q t2 -> PQ (t1 ++ t2)) ->
  (forall t1, P t1 -> PQ t1) ->
  frame P c -> (forall a, frame Q (f a)) -> frame PQ (mbind f c).
Proof.
  intros Happ Hone Hc Hf w. unfold mbind, M_bind.
  destruct (Hc w) as (t1 & Ht1 & HP & Hpol1).
  destruct (c w) as [[a | r] w1]; cbn [snd] in *.
  - destruct (Hf a w1) as (t2 & Ht2 & HQ & Hpol2).
    exists (t1 ++ t2). rewrite Ht2, Ht1, <- app_assoc. split; [reflexivity |].
    split; [apply Happ; assumption | congruence].
  - exists t1. split; [exact Ht1 |]. split; [apply Hone; exact HP | exact Hpol1].
Qed.

Lemma frame_calm_bind {A B} n1 n2 (c : M A) (f : A -> M B) :
  frame (calm n1) c -> (forall a, frame (calm n2) (f a)) ->
  frame (calm (n1 + n2)) (mbind f c).
Proof.
  apply frame_bind.
  - intros t1 t2. apply calm_app.
  - intros t1. apply calm_le. lia.
Qed.

Lemma frame_busy_bind {A B} o1 c1 o2 c2 (c : M A) (f : A -> M B) :
  frame (busy o1 c1) c -> (forall a, frame (busy o2 c2) (f a)) ->
  frame (busy (o1 + o2) (c1 + c2)) (mbind f c).
Proof.
  apply frame_bind.
  - intros t1 t2. apply busy_app.
  - intros t1. apply busy_le; lia.
Qed.

Lemma frame_ret {A} (P : list event -> Prop) (a : A) : P [] -> frame P (mret a).
Proof. intros HP w. exists []. cbn. rewrite app_nil_r. auto. Qed.

Lemma frame_raise {A} (P : list event -> Prop) (r : raised) : P [] -> frame P (raise (A:=A) r).
Proof. intros HP w. exists []. cbn. rewrite app_nil_r. auto. Qed.

Lemma frame_lift {A} (P : list event -> Prop) (r : result A) : P [] -> frame P (lift r).
Proof. intros HP w. exists []. cbn. rewrite app_nil_r. auto. Qed.

Lemma frame_get_self (P : list event -> Prop) : P [] -> frame P get_self.
Proof. intros HP w. exists []. cbn. rewrite app_nil_r. auto. Qed.

Lemma frame_on_env {A} (P : list event -> Prop) (f : E -> result A * E) :
  P [] -> frame P (on_env f).
Proof.
  intros HP w. exists []. unfold on_env. destruct (f (env w)). cbn. rewrite app_nil_r. auto.
Qed.

Lemma frame_modify_self (P : list event -> Prop) (f : MCPServerManager -> MCPServerManager) :
  P [] -> (forall m, policy (f m) = policy m) -> frame P (modify_self f).
Proof. intros HP Hf w. exists []. cbn. rewrite app_nil_r. auto. Qed.

Lemma frame_emit (P : list event -> Prop) (ev : event) : P [ev] -> frame P (emit ev).
Proof. intros HP w. exists [ev]. cbn. auto. Qed.

Lemma frame_log_metric (P : list event -> Prop) name fields :
  (forall ev, P [EvMetric (fst ev) (snd ev)]) -> frame P (log_metric name fields).
Proof. intros HP. apply frame_emit. apply (HP (_, _)). Qed.

Lemma frame_on_liveness (P : list event -> Prop) f : P [] -> frame P (on_liveness f).
Proof.
  intros HP w. exists []. unfold on_liveness. destruct (f (liveness (self w))) as [[|e] reg'];
    cbn; rewrite app_nil_r; auto.
Qed.

Lemma frame_liveness_beat (P : list event -> Prop) nm : P [] -> frame P (liveness_beat nm).
Proof. intros HP w. unfold liveness_beat. apply frame_on_liveness. exact HP. Qed.

Lemma frame_try_except {A} (P Q PQ : list event -> Prop) (c : M A) (h : raised -> M A) :
  (forall t1 t2, P t1 -> Q t2 -> PQ (t1 ++ t2)) ->
  (forall t1, P t1 -> PQ t1) ->
  frame P c -> (forall r, frame Q (h r)) -> frame PQ (try_except c h).
Proof.
  intros Happ Hone Hc Hh w. unfold try_except.
  destruct (Hc w) as (t1 & Ht1 & HP & Hpol1).
  destruct (c w) as [[a | r] w1]; cbn [snd] in *.
  - exists t1. split; [exact Ht1 |]. split; [apply Hone; exact HP | exact Hpol1].
  - destruct (is_Exception r).
    + destruct (Hh r w1) as (t2 & Ht2 & HQ & Hpol2).
      exists (t1 ++ t2). rewrite Ht2, Ht1, <- app_assoc. split; [reflexivity |].
      split; [apply Happ; assumption | congruence].
    + exists t1. split; [exact Ht1 |]. split; [apply Hone; exact HP | exact Hpol1].
Qed.

Lemma policy_update_state key f m : policy (update_state key f m) = policy m.
Proof. reflexivity. Qed.

Lemma calm_metric n name fields : calm n [EvMetric name fields].
Proof. repeat split. cbn. lia. Qed.

(** Steps that add nothing to the count of connections. *)
Ltac calm_step :=
  first
    [ apply frame_ret; apply calm_nil
    | apply frame_raise; apply calm_nil
    | apply frame_lift; apply calm_nil
    | apply frame_get_self; apply calm_nil
    | apply frame_on_env; apply calm_nil
    | apply frame_liveness_beat; apply calm_nil
    | apply frame_on_liveness; apply calm_nil
    | apply frame_modify_self; [apply calm_nil | reflexivity]
    | apply frame_log_metric; intros ev; apply calm_metric ].

Lemma frame_maybe_start_heartbeat server_name s server_config :
  frame (calm 0) (_maybe_start_heartbeat server_name s server_config).
Proof.
  unfold _maybe_start_heartbeat.
  apply (frame_calm_bind 0 0); [calm_step |]. intros m.
  apply (frame_calm_bind 0 0).
  - destruct (startswith _ _); [calm_step |]. destruct server_config; calm_step.
  - intros [|]; cbn [negb]; calm_step.
Qed.

Lemma frame_build_server_params server_config :
  frame (calm 0) (_build_server_params server_config).
Proof.
  unfold _build_server_params. destruct server_config; try calm_step.
  apply (frame_calm_bind 0 0); [calm_step |]. intros _. calm_step.
Qed.

(** An attempt to connect sleeps nothing, calls no operation and
    connects at most once. *)
Lemma frame_connect_single_server key state :
  frame (calm 1) (_connect_single_server key state).
Proof.
  unfold _connect_single_server.
  apply (frame_try_except (calm 1) (calm 0) (calm 1)).
  - intros t1 t2 H1 H2. apply (calm_app 1 0); assumption.
  - auto.
  - unfold connect_try.
    apply (frame_calm_bind 0 1); [calm_step |]. intros m.
    apply (frame_calm_bind 0 1); [apply frame_build_server_params |]. intros [[command args] env0].
    apply (frame_calm_bind 0 1); [destruct (exit_stack m); calm_step |]. intros _.
    apply (frame_calm_bind 1 0).
    { apply frame_emit. repeat split. cbn. lia. }
    intros _.
    apply (frame_calm_bind 0 0); [calm_step |]. intros s.
    apply (frame_calm_bind 0 0); [calm_step |]. intros _.
    apply (frame_calm_bind 0 0); [calm_step |]. intros _.
    apply (frame_calm_bind 0 0); [apply frame_maybe_start_heartbeat |]. intros _.
    apply (frame_calm_bind 0 0); [calm_step |]. intros _.
    apply (frame_calm_bind 0 0); [calm_step |]. intros tools.
    apply (frame_calm_bind 0 0); [calm_step |]. intros _.
    apply (frame_calm_bind 0 0); [calm_step |]. intros _.
    calm_step.
  - intros r.
    apply (frame_calm_bind 0 0); [calm_step |]. intros _.
    apply (frame_calm_bind 0 0); [calm_step |]. intros _.
    calm_step.
Qed.

(** No [Exception] leaves an attempt to connect. *)
Lemma connect_single_server_catches key state w r :
  fst (_connect_single_server key state w) = Thrown r -> is_Exception r = false.
Proof.
  unfold _connect_single_server, try_except.
  destruct (connect_try key state w) as [[b | r0] w1]; [discriminate |].
  destruct (is_Exception r0) eqn:Hr0; [discriminate |].
  cbn [fst]. intros [= <-]. exact Hr0.
Qed.

(** The attempts to reconnect, whatever the environment answers: before
    the [k]-th attempt the manager sleeps [reconnect_backoff * 2 ** (k - 1)];
    the attempts stop with the first that succeeds, and after the last
    one the answer is false. *)
Lemma reconnect_loop_schedule key state max_attempts : forall left delays w,
  doubling_delays (reconnect_backoff (self w)) left delays ->
  exists r w' n tr,
    reconnect_loop key state max_attempts left w = (r, w')
    /\ trace w' = trace w ++ tr
    /\ policy (self w') = policy (self w)
    /\ (n <= length left)%nat
    /\ sleeps tr = List.map number_value (firstn n delays)
    /\ operations tr = O
    /\ (connects tr <= n)%nat
    /\ match r with
       | Done true => (1 <= n)%nat
       | Done false => n = length left
       | Thrown r0 => is_Exception r0 = false
       end.
Proof.
  induction left as [|attempt rest IH]; intros delays w Hd.
  - inversion Hd; subst. cbn [reconnect_loop]. run_mcp.
    eexists _, _, O, [_]. split; [reflexivity |]. cbn. repeat split; lia.
  - inversion Hd as [|? delay ? delays' Htimes Hrest]; subst.
    cbn [reconnect_loop]. run_mcp. rewrite Htimes.
    match goal with |- context [_connect_single_server key state ?w1] =>
      set (w1' := w1);
      destruct (frame_connect_single_server key state w1') as (tr1 & Htr1 & Hcalm & Hpol1);
      pose proof (connect_single_server_catches key state w1') as Hcatch;
      destruct (_connect_single_server key state w1') as [[[|] | r0] w2]
    end; subst w1'; cbn [fst snd self trace] in *.
    + eexists _, _, 1%nat, (_ :: tr1 ++ [_]). split; [reflexivity |].
      destruct Hcalm as (Hs1 & Ho1 & Hc1). cbn [trace self].
      split; [rewrite Htr1, <- !app_assoc; reflexivity |].
      split; [exact Hpol1 |].
      cbn [length firstn List.map sleeps operations connects].
      rewrite manager_sleeps_app, manager_operations_app, manager_connects_app, Hs1, Ho1.
      cbn. repeat split; lia.
    + destruct (IH delays' w2) as (r & w' & n & tr & Hrun & Htr & Hpol & Hn & Hsl & Hops & Hcon & Hr).
      { unfold policy in Hpol1. injection Hpol1 as _ Hb. rewrite Hb. exact Hrest. }
      rewrite Hrun. eexists r, w', (S n), (_ :: tr1 ++ tr). split; [reflexivity |].
      destruct Hcalm as (Hs1 & Ho1 & Hc1).
      split; [rewrite Htr, Htr1, <- !app_assoc; reflexivity |].
      split; [rewrite Hpol, Hpol1; reflexivity |].
      cbn [length firstn List.map sleeps operations connects].
      rewrite manager_sleeps_app, manager_operations_app, manager_connects_app, Hs1, Ho1, Hsl, Hops.
      split; [lia |]. split; [reflexivity |]. split; [reflexivity |]. split; [lia |].
      destruct r as [[|] | r0]; [lia | lia | exact Hr].
    + eexists _, _, 1%nat, (_ :: tr1). split; [reflexivity |].
      destruct Hcalm as (Hs1 & Ho1 & Hc1).
      split; [rewrite Htr1, <- !app_assoc; reflexivity |].
      split; [exact Hpol1 |].
      cbn [length firstn List.map sleeps operations connects]. rewrite Hs1, Ho1.
      split; [lia |]. split; [reflexivity |]. split; [reflexivity |]. split; [lia |].
      apply Hcatch. reflexivity.
Qed.

(** X25. Reconnecting backs off exponentially, whatever the servers answer.
    [_attempt_reconnect] goes through a number [n] of rounds, at most
    [max_operation_retries]: the [k]-th round sleeps
    [reconnect_backoff * 2 ** (k - 1)] and then tries to connect, at most
    once. It answers false only after all [max_operation_retries]
    rounds, and true only after one round at least; no [Exception]
    leaves it. *)
Theorem reconnect_backs_off_exponentially (key : pystr) (state : ServerConnectionState) w
    (delays : list number) :
  doubling_delays (reconnect_backoff (self w))
    (attempts (max_operation_retries (self w))) delays ->
  exists r w' n tr,
    _attempt_reconnect key state w = (r, w')
    /\ trace w' = trace w ++ tr
    /\ (n <= Z.to_nat (max_operation_retries (self w)))%nat
    /\ sleeps tr = List.map number_value (firstn n delays)
    /\ (connects tr <= n)%nat
    /\ operations tr = O
    /\ match r with
       | Done true => (1 <= n)%nat
       | Done false => n = Z.to_nat (max_operation_retries (self w))
       | Thrown r0 => is_Exception r0 = false
       end.
Proof.
  intros Hd. unfold _attempt_reconnect. run_mcp.
  destruct (reconnect_loop_schedule key state (max_operation_retries (self w)) _ delays w Hd)
    as (r & w' & n & tr & Hrun & Htr & _ & Hn & Hsl & Hops & Hcon & Hr).
  assert (Hatt : length (attempts (max_operation_retries (self w)))
                 = Z.to_nat (max_operation_retries (self w))).
  { unfold attempts. rewrite length_map, length_seq. reflexivity. }
  rewrite Hatt in Hn, Hr.
  exists r, w', n, tr. repeat (split; [assumption |]). exact Hr.
Qed.

(** *** Bounds on the work of a call *)

Lemma busy_metric o c name fields : busy o c [EvMetric name fields].
Proof. split; cbn; lia. Qed.

Lemma busy_sleep o c d : busy o c [EvSleep d].
Proof. split; cbn; lia. Qed.

Lemma frame_sleep o c delay : frame (busy o c) (sleep delay).
Proof. apply frame_emit. apply busy_sleep. Qed.

Lemma frame_reconnect_loop key state max_attempts : forall left,
  frame (busy 0 (length left)) (reconnect_loop key state max_attempts left).
Proof.
  induction left as [|attempt rest IH]; cbn [reconnect_loop length].
  - apply (frame_busy_bind 0 0 0 0).
    + apply frame_log_metric. intros ev. apply busy_metric.
    + intros _. apply frame_ret. apply busy_nil.
  - apply (frame_busy_bind 0 0 0 (S (length rest))); [apply frame_get_self, busy_nil |].
    intros m.
    apply (frame_busy_bind 0 0 0 (S (length rest))); [apply frame_lift, busy_nil |].
    intros backoff.
    apply (frame_busy_bind 0 0 0 (S (length rest))); [apply frame_sleep |]. intros _.
    apply (frame_busy_bind 0 0 0 (S (length rest)));
      [apply frame_modify_self; [apply busy_nil | reflexivity] |]. intros _.
    apply (frame_busy_bind 0 1 0 (length rest)).
    { eapply frame_impl; [apply calm_busy | apply frame_connect_single_server]. }
    intros [|].
    + apply (frame_busy_bind 0 0 0 (length rest)).
      * apply frame_log_metric. intros ev. apply busy_metric.
      * intros _. apply frame_ret. apply busy_nil.
    + exact IH.
Qed.

Lemma length_attempts n : length (attempts n) = Z.to_nat n.
Proof. unfold attempts. rewrite length_map, length_seq. reflexivity. Qed.

Lemma ensure_session_bounded server_name w :
  exists r w' tr,
    _ensure_session server_name w = (r, w')
    /\ trace w' = trace w ++ tr
    /\ policy (self w') = policy (self w)
    /\ busy 0 (Z.to_nat (max_operation_retries (self w))) tr.
Proof.
  unfold _ensure_session. run_mcp.
  destruct (PyDict.lookup server_name (sessions (self w))) as [s|].
  { eexists _, _, []. split; [reflexivity |]. rewrite app_nil_r.
    split; [reflexivity |]. split; [reflexivity | apply busy_nil]. }
  destruct (PyDict.lookup server_name (server_states (self w))) as [state|].
  2:{ eexists _, _, []. split; [reflexivity |]. rewrite app_nil_r.
      split; [reflexivity |]. split; [reflexivity | apply busy_nil]. }
  unfold _attempt_reconnect. run_mcp.
  destruct (frame_reconnect_loop server_name state (max_operation_retries (self w))
              (attempts (max_operation_retries (self w))) w) as (tr & Htr & Hbusy & Hpol).
  rewrite length_attempts in Hbusy.
  destruct (reconnect_loop _ _ _ _ w) as [[reconnected | r] w1]; cbn [snd] in *.
  - match goal with
    | |- context [match ?x with Some s => _ | None => _ end] => destruct x
    end; eexists _, _, tr; (split; [reflexivity |]); auto.
  - eexists _, _, tr. split; [reflexivity |]. auto.
Qed.

Lemma frame_liveness_miss (P : list event -> Prop) nm : P [] -> frame P (liveness_miss nm).
Proof. intros HP. unfold liveness_miss. apply frame_on_liveness. exact HP. Qed.

Lemma frame_liveness_mark_dead (P : list event -> Prop) nm :
  P [] -> frame P (liveness_mark_dead nm).
Proof. intros HP. unfold liveness_mark_dead. apply frame_on_liveness. exact HP. Qed.

(** The registry raises nothing that is an [Exception]. *)
Lemma mark_dead_raises_no_exception nm reg e :
  fst (Registry.mark_dead nm reg) = QM.Raised e -> is_exception e = false.
Proof.
  unfold Registry.mark_dead. destruct (Registry._records reg !! nm) as [record|];
    [| discriminate].
  destruct (emit_state_run nm (py "dead") record reg) as (_ & _ & _ & _ & _ & ->).
  destruct (Registry._state_callback reg) as [callback|]; [| discriminate].
  destruct (callback nm _) as [e0|]; [| discriminate].
  destruct (is_exception e0) eqn:He0; [discriminate |]. intros [= <-]. exact He0.
Qed.

Section BoundedOperation.
Context {R : Type} (operation : Session -> E -> result R * E).

Lemma frame_drop_session server_name : frame (busy 0 0) (drop_session server_name).
Proof.
  intros w. unfold drop_session.
  destruct (PyDict.lookup server_name (sessions (self w))) as [s|].
  2:{ exists []. cbn. rewrite app_nil_r. split; [reflexivity |].
      split; [apply busy_nil | reflexivity]. }
  run_mcp. destruct (close s (env w)) as [[u | r] e1]; [| destruct (is_KeyError r)];
    exists [EvClose s]; cbn; (split; [reflexivity |]); (split; [split; cbn; lia | reflexivity]).
Qed.

Lemma frame_on_timeout server_name opname attempt :
  frame (busy 0 0) (on_timeout server_name opname attempt).
Proof.
  unfold on_timeout. apply (frame_busy_bind 0 0 0 0).
  - apply frame_log_metric. intros ev. apply busy_metric.
  - intros _. apply frame_liveness_miss, busy_nil.
Qed.

Lemma frame_on_failure server_name opname attempt r :
  frame (busy 0 0) (on_failure server_name opname attempt r).
Proof.
  unfold on_failure. apply (frame_busy_bind 0 0 0 0).
  - apply frame_log_metric. intros ev. apply busy_metric.
  - intros _. apply (frame_busy_bind 0 0 0 0); [apply frame_liveness_miss, busy_nil |].
    intros _. apply frame_drop_session.
Qed.

(** One attempt calls the operation at most once and connects at most
    [max_operation_retries] times. *)
Lemma attempt_once_bounded server_name opname attempt w :
  exists r w' tr,
    attempt_once operation server_name opname attempt w = (r, w')
    /\ trace w' = trace w ++ tr
    /\ policy (self w') = policy (self w)
    /\ busy 1 (Z.to_nat (max_operation_retries (self w))) tr.
Proof.
  unfold attempt_once, attempt_try. unfold mbind at 1, M_bind at 1.
  destruct (ensure_session_bounded server_name w) as (r1 & w1 & tr1 & Hrun1 & Htr1 & Hpol1 & Hb1).
  rewrite Hrun1.
  assert (Hhandle : forall r0 w2 tr2,
             trace w2 = trace w ++ tr2 -> policy (self w2) = policy (self w) ->
             busy 1 (Z.to_nat (max_operation_retries (self w))) tr2 ->
             exists r w' tr,
               (if is_TimeoutError r0
                then (on_timeout server_name opname attempt;; mret (@None R)) w2
                else if is_Exception r0
                     then (on_failure server_name opname attempt r0;; mret (@None R)) w2
                     else (Thrown r0, w2)) = (r, w')
               /\ trace w' = trace w ++ tr
               /\ policy (self w') = policy (self w)
               /\ busy 1 (Z.to_nat (max_operation_retries (self w))) tr).
  { intros r0 w2 tr2 Htr2 Hpol2 Hb2.
    assert (Hseq : forall c : M unit, frame (busy 0 0) c ->
               exists r w' tr,
                 (c;; mret (@None R)) w2 = (r, w')
                 /\ trace w' = trace w ++ tr
                 /\ policy (self w') = policy (self w)
                 /\ busy 1 (Z.to_nat (max_operation_retries (self w))) tr).
    { intros c Hc.
      assert (Hf : frame (busy 0 0) (c;; mret (@None R))).
      { apply (frame_busy_bind 0 0 0 0); [exact Hc |]. intros _. apply frame_ret, busy_nil. }
      destruct (Hf w2) as (tr3 & Htr3 & Hb3 & Hpol3).
      destruct ((c;; mret (@None R)) w2) as [r w']. cbn [snd] in *.
      exists r, w', (tr2 ++ tr3). split; [reflexivity |].
      split; [rewrite Htr3, Htr2, <- app_assoc; reflexivity |].
      split; [congruence |].
      eapply busy_le; [| | apply (busy_app _ _ _ _ _ _ Hb2 Hb3)]; lia. }
    destruct (is_TimeoutError r0); [apply Hseq, frame_on_timeout |].
    destruct (is_Exception r0); [apply Hseq, frame_on_failure |].
    exists (Thrown r0), w2, tr2. auto. }
  destruct r1 as [s | r0].
  - assert (Hrest : frame (busy 1 0)
             (emit (EvOperation opname s);;
              outcome ← on_env (operation s);
              liveness_beat server_name;;
              (if 1 <? attempt
               then log_metric "mcp_retry_success"
                      [("server", PStr server_name); ("op", PStr opname);
                       ("attempt", PInt attempt)]
               else mret tt);;
              mret outcome)).
    { apply (frame_busy_bind 1 0 0 0); [apply frame_emit; split; cbn; lia |]. intros _.
      apply (frame_busy_bind 0 0 0 0); [apply frame_on_env, busy_nil |]. intros outcome.
      apply (frame_busy_bind 0 0 0 0); [apply frame_liveness_beat, busy_nil |]. intros _.
      apply (frame_busy_bind 0 0 0 0).
      - destruct (1 <? attempt); [| apply frame_ret, busy_nil].
        apply frame_log_metric. intros ev. apply busy_metric.
      - intros _. apply frame_ret, busy_nil. }
    destruct (Hrest w1) as (tr2 & Htr2 & Hb2 & Hpol2).
    match goal with
    | |- context [match ?c w1 with _ => _ end] =>
        change c with (emit (EvOperation opname s);;
              outcome ← on_env (operation s);
              liveness_beat server_name;;
              (if 1 <? attempt
               then log_metric "mcp_retry_success"
                      [("server", PStr server_name); ("op", PStr opname);
                       ("attempt", PInt attempt)]
               else mret tt);;
              mret outcome);
        destruct (c w1) as [[v | r0] w2]
    end; cbn [snd] in *.
    + exists (Done (Some v)), w2, (tr1 ++ tr2). split; [reflexivity |].
      split; [rewrite Htr2, Htr1, <- app_assoc; reflexivity |].
      split; [congruence |].
      eapply busy_le; [| | apply (busy_app _ _ _ _ _ _ Hb1 Hb2)]; lia.
    + apply (Hhandle r0 w2 (tr1 ++ tr2)).
      * rewrite Htr2, Htr1, <- app_assoc. reflexivity.
      * congruence.
      * eapply busy_le; [| | apply (busy_app _ _ _ _ _ _ Hb1 Hb2)]; lia.
  - apply (Hhandle r0 w1 tr1); [exact Htr1 | exact Hpol1 |].
    eapply busy_le; [| | exact Hb1]; lia.
Qed.

Lemma retry_loop_bounded server_name opname : forall left w,
  exists r w' tr,
    retry_loop operation server_name opname left w = (r, w')
    /\ trace w' = trace w ++ tr
    /\ policy (self w') = policy (self w)
    /\ busy (length left) (length left * Z.to_nat (max_operation_retries (self w))) tr.
Proof.
  induction left as [|attempt rest IH]; intros w; cbn [retry_loop length].
  - assert (Hf : frame (busy 0 0)
              (liveness_mark_dead server_name;;
               m ← get_self;
               raise (A:=R) (operation_failed server_name opname (max_operation_retries m)))).
    { apply (frame_busy_bind 0 0 0 0); [apply frame_liveness_mark_dead, busy_nil |].
      intros _. apply (frame_busy_bind 0 0 0 0); [apply frame_get_self, busy_nil |].
      intros m. apply frame_raise, busy_nil. }
    destruct (Hf w) as (tr & Htr & Hb & Hpol).
    match goal with |- context [?c w = _] => destruct (c w) as [r w'] end.
    cbn [snd] in *. exists r, w', tr. auto.
  - unfold mbind at 1, M_bind at 1.
    destruct (attempt_once_bounded server_name opname attempt w)
      as (r1 & w1 & tr1 & Hrun1 & Htr1 & Hpol1 & Hb1).
    rewrite Hrun1.
    assert (Hk : max_operation_retries (self w1) = max_operation_retries (self w)).
    { unfold policy in Hpol1. congruence. }
    destruct r1 as [[v |] | r0].
    + exists (Done v), w1, tr1. split; [reflexivity |]. split; [exact Htr1 |].
      split; [exact Hpol1 |]. eapply busy_le; [| | exact Hb1]; lia.
    + run_mcp. destruct (times _ attempt) as [delay | r0].
      * match goal with |- context [retry_loop _ _ _ rest ?w2] =>
          destruct (IH w2) as (r & w' & tr & Hrun & Htr & Hpol & Hb)
        end.
        cbn [self trace] in *. rewrite Hrun.
        exists r, w', (tr1 ++ EvSleep (number_value delay) :: tr). split; [reflexivity |].
        split; [rewrite Htr, Htr1, <- !app_assoc; reflexivity |].
        split; [congruence |].
        rewrite Hk in Hb.
        assert (Hb2 : busy (length rest)
                        (length rest * Z.to_nat (max_operation_retries (self w)))
                        (EvSleep (number_value delay) :: tr)).
        { destruct Hb as [Ho Hc]. split; cbn [operations connects]; assumption. }
        eapply busy_le; [| | apply (busy_app _ _ _ _ _ _ Hb1 Hb2)]; lia.
      * exists (Thrown r0), w1, tr1. split; [reflexivity |]. split; [exact Htr1 |].
        split; [exact Hpol1 |]. eapply busy_le; [| | exact Hb1]; lia.
    + exists (Thrown r0), w1, tr1. split; [reflexivity |]. split; [exact Htr1 |].
      split; [exact Hpol1 |]. eapply busy_le; [| | exact Hb1]; lia.
Qed.

(** X26. The work of a call is bounded, whatever the servers answer and
    whatever state the manager is in: [_execute_with_retry] calls the
    operation at most [max_operation_retries] times and tries to connect
    at most [max_operation_retries] times per attempt, that is at most
    [max_operation_retries] squared times in all; with no retry allowed
    it calls nothing and raises at once. *)
Theorem retries_are_bounded (server_name opname : pystr) w :
  let retries := Z.to_nat (max_operation_retries (self w)) in
  exists r w' tr,
    _execute_with_retry operation server_name opname w = (r, w')
    /\ trace w' = trace w ++ tr
    /\ (operations tr <= retries)%nat
    /\ (connects tr <= retries * retries)%nat
    /\ (max_operation_retries (self w) <= 0 ->
        tr = []
        /\ exists r0,
             r = Thrown r0
             /\ (is_Exception r0 = true ->
                 r0 = operation_failed server_name opname
                        (max_operation_retries (self w)))).
Proof.
  intros retries. unfold _execute_with_retry. run_mcp.
  destruct (retry_loop_bounded server_name opname (attempts (max_operation_retries (self w))) w)
    as (r & w' & tr & Hrun & Htr & Hpol & Hb).
  rewrite length_attempts in Hb. fold retries in Hb. destruct Hb as [Ho Hc].
  exists r, w', tr. split; [exact Hrun |]. split; [exact Htr |].
  split; [exact Ho |]. split; [exact Hc |].
  intros Hmax.
  assert (Hnone : attempts (max_operation_retries (self w)) = []).
  { unfold attempts. replace (Z.to_nat (max_operation_retries (self w))) with O by lia.
    reflexivity. }
  rewrite Hnone in Hrun. cbn [retry_loop] in Hrun.
  unfold mbind, M_bind, liveness_mark_dead, on_liveness in Hrun.
  pose proof (mark_dead_raises_no_exception server_name (liveness (self w))) as Hdead.
  destruct (Registry.mark_dead server_name (liveness (self w))) as [[u | e] reg'];
    cbn in Hrun; injection Hrun as <- <-; cbn [trace] in Htr.
  - split; [apply (app_inv_head (trace w)); rewrite app_nil_r; symmetry; exact Htr |].
    eexists. split; [reflexivity |]. reflexivity.
  - split; [apply (app_inv_head (trace w)); rewrite app_nil_r; symmetry; exact Htr |].
    eexists. split; [reflexivity |]. cbn [is_Exception sort exc].
    rewrite (Hdead e eq_refl). discriminate.
Qed.

End BoundedOperation.

End ManagerFrames.

(** *** The states of the servers *)

Section PyDictOrder.
Context {V : Type}.
Implicit Types (d : list (pystr * V)).

Lemma keys_setitem_old key (v : V) d :
  In key (PyDict.keys d) -> PyDict.keys (PyDict.setitem key v d) = PyDict.keys d.
Proof.
  induction d as [|[k x] d IH]; cbn [PyDict.keys List.map fst In PyDict.setitem]; [intros [] |].
  intros Hin. destruct (decide (k = key)) as [Hk | Hk]; [reflexivity |].
  cbn [List.map fst]. f_equal. apply IH. destruct Hin; [contradiction | assumption].
Qed.

Lemma setitem_new key (v : V) d :
  ~ In key (PyDict.keys d) -> PyDict.setitem key v d = d ++ [(key, v)].
Proof.
  induction d as [|[k x] d IH]; cbn [PyDict.keys List.map fst In PyDict.setitem app];
    [reflexivity |].
  intros Hin. destruct (decide (k = key)) as [Hk | Hk]; [exfalso; auto |].
  f_equal. apply IH. auto.
Qed.

(** Items with distinct new keys are added in their order. *)
Lemma update_new extra : forall d,
  List.NoDup (PyDict.keys extra) ->
  (forall key, In key (PyDict.keys extra) -> ~ In key (PyDict.keys d)) ->
  PyDict.update d extra = d ++ extra.
Proof.
  unfold PyDict.update.
  induction extra as [|[k x] extra IH]; intros d Hnd Hnew; cbn [fold_left fst snd].
  - rewrite app_nil_r. reflexivity.
  - cbn [PyDict.keys List.map fst] in Hnd, Hnew.
    apply List.NoDup_cons_iff in Hnd as [Hk Hnd].
    rewrite setitem_new by (apply Hnew; left; reflexivity).
    rewrite IH; [rewrite <- app_assoc; reflexivity | exact Hnd |].
    intros key Hin. unfold PyDict.keys. rewrite List.map_app, List.in_app_iff.
    cbn [List.map fst In]. intros [Hd | [<- | []]].
    + apply (Hnew key); [right; exact Hin | exact Hd].
    + exact (Hk Hin).
Qed.

Lemma in_lookup key (v : V) d :
  List.NoDup (PyDict.keys d) -> In (key, v) d -> PyDict.lookup key d = Some v.
Proof.
  induction d as [|[k x] d IH]; [intros _ [] |].
  cbn [PyDict.keys List.map fst]. intros Hnd. apply List.NoDup_cons_iff in Hnd as [Hk Hnd].
  cbn [In PyDict.lookup]. intros [[= -> ->] | Hin].
  - rewrite decide_True by reflexivity. reflexivity.
  - destruct (decide (k = key)) as [-> | Hne]; [| exact (IH Hnd Hin)].
    exfalso. apply Hk. unfold PyDict.keys. apply List.in_map_iff.
    exists (key, v). split; [reflexivity | exact Hin].
Qed.

End PyDictOrder.

Section ManagerStates.
Import MCP MCPSpec.
Context {E : Type} `{Servers E} `{PyRepr}.
Implicit Types (w : world (E:=E)) (m : MCPServerManager)
               (J : list (pystr * ServerConnectionState) -> Prop).
Local Abbreviation preserves := (MCPSpec.preserves (E:=E)).
Local Abbreviation ensures := (MCPSpec.ensures (E:=E)).

Lemma preserves_bind {A B} J (c : M A) (f : A -> M B) :
  preserves J c -> (forall a, preserves J (f a)) -> preserves J (mbind f c).
Proof.
  intros Hc Hf w HJ. unfold mbind, M_bind. specialize (Hc w HJ).
  destruct (c w) as [[a | r] w1]; cbn [snd] in *; [apply Hf; exact Hc | exact Hc].
Qed.

Lemma preserves_still {A} J (c : M A) :
  (forall w, server_states (self (snd (c w))) = server_states (self w)) -> preserves J c.
Proof. intros Hc w HJ. rewrite Hc. exact HJ. Qed.

Lemma preserves_on_env {A} J (f : E -> result A * E) : preserves J (on_env f).
Proof.
  apply preserves_still. intros w. unfold on_env. destruct (f (env w)). reflexivity.
Qed.

Lemma preserves_on_liveness J f : preserves J (on_liveness f).
Proof.
  apply preserves_still. intros w. unfold on_liveness.
  destruct (f (liveness (self w))) as [[|e] reg']; reflexivity.
Qed.

Lemma preserves_update J key f : stable J -> gentle f -> preserves J (modify_self (update_state key f)).
Proof. intros HJ Hf w. cbn. apply HJ. exact Hf. Qed.

Lemma preserves_try_except {A} J (c : M A) (h : raised -> M A) :
  preserves J c -> (forall r, preserves J (h r)) -> preserves J (try_except c h).
Proof.
  intros Hc Hh w HJ. unfold try_except. specialize (Hc w HJ).
  destruct (c w) as [[a | r] w1]; cbn [snd] in *; [exact Hc |].
  destruct (is_Exception r); [apply Hh; exact Hc | exact Hc].
Qed.

(** Steps that leave the states of the servers alone. *)
Ltac still_step :=
  first
    [ apply preserves_on_env
    | apply preserves_on_liveness
    | apply preserves_still; intros ?; reflexivity ].

Lemma gentle_connected s : gentle (connected s).
Proof.
  intros state. split; [reflexivity |]. split; [reflexivity |].
  intros _. left. eexists. reflexivity.
Qed.

Lemma gentle_with_tool_count n : gentle (with_tool_count n).
Proof. intros state. repeat split. auto. Qed.

Lemma gentle_with_last_error e : gentle (with_last_error e).
Proof.
  intros state. split; [reflexivity |]. split; [reflexivity |].
  intros _. right. eexists. reflexivity.
Qed.

Lemma preserves_maybe_start_heartbeat J server_name s server_config :
  preserves J (_maybe_start_heartbeat server_name s server_config).
Proof.
  unfold _maybe_start_heartbeat.
  apply preserves_bind; [still_step |]. intros m.
  apply preserves_bind.
  - destruct (startswith _ _); [still_step |]. destruct server_config; still_step.
  - intros [|]; cbn [negb]; still_step.
Qed.

Lemma preserves_build_server_params J server_config :
  preserves J (_build_server_params server_config).
Proof.
  unfold _build_server_params. destruct server_config; try still_step.
  apply preserves_bind; [still_step |]. intros _. still_step.
Qed.

(** What follows the registration of the session in the [try] block of
    [_connect_single_server]. *)
Lemma preserves_connected_rest J key server_name server_config s :
  stable J ->
  preserves J
    (_maybe_start_heartbeat server_name s server_config;;
     liveness_beat server_name;;
     tools ← on_env (list_tools s);
     modify_self (update_state key
       (with_tool_count match tools with
                        | Some l => Z.of_nat (List.length l)
                        | None => 0
                        end));;
     log_metric "mcp_connected"
       [("server", PStr server_name);
        ("tool_count", PInt match tools with
                            | Some l => Z.of_nat (List.length l)
                            | None => 0
                            end)];;
     mret true).
Proof.
  intros HJ.
  apply preserves_bind; [apply preserves_maybe_start_heartbeat |]. intros _.
  apply preserves_bind; [unfold liveness_beat; intros w; apply preserves_on_liveness |].
  intros _.
  apply preserves_bind; [still_step |]. intros tools.
  apply preserves_bind; [apply preserves_update; [exact HJ | apply gentle_with_tool_count] |].
  intros _.
  apply preserves_bind; [still_step |]. intros _. still_step.
Qed.

Lemma preserves_connect_try J key state : stable J -> preserves J (connect_try key state).
Proof.
  intros HJ. unfold connect_try.
  apply preserves_bind; [still_step |]. intros m.
  apply preserves_bind; [apply preserves_build_server_params |]. intros [[command args] env0].
  apply preserves_bind; [destruct (exit_stack m); still_step |]. intros _.
  apply preserves_bind; [still_step |]. intros _.
  apply preserves_bind; [still_step |]. intros s.
  apply preserves_bind; [still_step |]. intros _.
  apply preserves_bind; [apply preserves_update; [exact HJ | apply gentle_connected] |].
  intros _. apply preserves_connected_rest. exact HJ.
Qed.

Lemma preserves_connect_failed J key state r :
  stable J ->
  preserves J
    (modify_self (update_state key (with_last_error (exc_str (exc r))));;
     log_metric "mcp_connection_failed"
       [("server", PStr (name state)); ("error", PStr (exc_str (exc r)))];;
     mret false).
Proof.
  intros HJ.
  apply preserves_bind; [apply preserves_update; [exact HJ | apply gentle_with_last_error] |].
  intros _. apply preserves_bind; [still_step |]. intros _. still_step.
Qed.

(** An attempt to connect changes the states by gentle changes only. *)
Lemma preserves_connect_single_server J key state :
  stable J -> preserves J (_connect_single_server key state).
Proof.
  intros HJ. unfold _connect_single_server.
  apply preserves_try_except; [apply preserves_connect_try; exact HJ |].
  intros r. apply preserves_connect_failed. exact HJ.
Qed.

Lemma ensures_bind_late {A B} J (c : M A) (f : A -> M B) :
  (forall a, ensures J (f a)) -> ensures J (mbind f c).
Proof.
  intros Hf w b w'. unfold mbind, M_bind.
  destruct (c w) as [[a | r] w1]; [apply Hf | discriminate].
Qed.

Lemma ensures_bind_early {A B} J (c : M A) (f : A -> M B) :
  ensures J c -> (forall a, preserves J (f a)) -> ensures J (mbind f c).
Proof.
  intros Hc Hf w b w'. unfold mbind, M_bind.
  destruct (c w) as [[a | r] w1] eqn:Hcw; [| discriminate].
  intros Hfa. specialize (Hf a w1 (Hc w a w1 Hcw)). rewrite Hfa in Hf. exact Hf.
Qed.

Lemma lookup_update_state key f m state :
  PyDict.lookup key (server_states (update_state key f m)) = Some state ->
  exists state0, PyDict.lookup key (server_states m) = Some state0 /\ state = f state0.
Proof.
  unfold update_state. cbn [server_states set_server_states].
  induction (server_states m) as [|[k st] ss IH]; cbn [List.map PyDict.lookup fst snd];
    [discriminate |].
  destruct (decide (k = key)) as [-> | Hk]; cbn [PyDict.lookup].
  - rewrite decide_True by reflexivity. intros [= <-]. eexists. split; reflexivity.
  - rewrite decide_False by exact Hk. exact IH.
Qed.

Lemma lookup_update_state_ne key key' f m :
  key' <> key ->
  PyDict.lookup key' (server_states (update_state key f m))
  = PyDict.lookup key' (server_states m).
Proof.
  intros Hne. unfold update_state. cbn [server_states set_server_states].
  induction (server_states m) as [|[k st] ss IH]; cbn [List.map PyDict.lookup fst snd];
    [reflexivity |].
  destruct (decide (k = key)) as [-> | Hk]; cbn [PyDict.lookup].
  - rewrite !decide_False by congruence. exact IH.
  - destruct (decide (k = key')); [reflexivity | exact IH].
Qed.

Lemma stable_settled_at key : stable (settled_at key).
Proof.
  intros key' f m Hf HJ state. destruct (decide (key = key')) as [<- | Hne].
  - intros Hl. apply lookup_update_state in Hl as (state0 & Hl0 & ->).
    apply Hf. apply HJ. exact Hl0.
  - rewrite lookup_update_state_ne by exact Hne. apply HJ.
Qed.

Lemma stable_registered x : stable (fun states => registered states = x).
Proof.
  intros key f m Hf <-. unfold update_state, registered.
  cbn [server_states set_server_states]. rewrite List.map_map.
  apply List.map_ext. intros [k st]. cbn [fst snd].
  destruct (decide (k = key)); [| reflexivity]. cbn [fst snd].
  destruct (Hf st) as (-> & -> & _). reflexivity.
Qed.

(** A state that a change has settled. *)
Lemma settled_at_update key f m :
  (forall state, settled (f state)) ->
  settled_at key (server_states (update_state key f m)).
Proof.
  intros Hf state Hl. apply lookup_update_state in Hl as (state0 & _ & ->). apply Hf.
Qed.

(** When an attempt to connect returns, the state of the server has a
    session or the text of the error. *)
Lemma connect_single_server_settles key state :
  ensures (settled_at key) (_connect_single_server key state).
Proof.
  intros w b w'. unfold _connect_single_server, try_except.
  destruct (connect_try key state w) as [[b0 | r] w1] eqn:Htry.
  - intros [= <- <-]. revert Htry. generalize b0, w1. generalize w.
    change (ensures (settled_at key) (connect_try key state)).
    unfold connect_try.
    apply ensures_bind_late. intros m.
    apply ensures_bind_late. intros [[command args] env0].
    apply ensures_bind_late. intros _.
    apply ensures_bind_late. intros _.
    apply ensures_bind_late. intros s.
    apply ensures_bind_late. intros _.
    apply ensures_bind_early.
    + intros w0 a w0' [= _ <-]. cbn [self]. apply settled_at_update.
      intros st. left. eexists. reflexivity.
    + intros _. apply preserves_connected_rest. apply stable_settled_at.
  - destruct (is_Exception r); [| discriminate].
    run_mcp. intros [= _ <-]. cbn [self]. apply settled_at_update.
    intros st. right. eexists. reflexivity.
Qed.

Lemma registered_setitem key state states :
  registered (PyDict.setitem key state states)
  = PyDict.setitem key (name state, config state) (registered states).
Proof.
  unfold registered.
  induction states as [|[k st] states IH]; cbn [PyDict.setitem List.map fst snd];
    [reflexivity |].
  destruct (decide (k = key)); cbn [List.map fst snd]; [reflexivity |].
  rewrite IH. reflexivity.
Qed.

(** The loop of [connect_all]: each server gets its state, and the
    state is settled when the loop goes on. *)
Lemma connect_each_states servers : forall w,
  exists r w',
    connect_each servers w = (r, w')
    /\ match r with
       | Done _ =>
           registered (server_states (self w'))
           = PyDict.update (registered (server_states (self w)))
               (List.map (fun kv => (fst kv, (fst kv, snd kv))) servers)
           /\ (forall key,
                 In key (PyDict.keys servers) \/ settled_at key (server_states (self w)) ->
                 settled_at key (server_states (self w')))
       | Thrown r0 => is_Exception r0 = false
       end.
Proof.
  induction servers as [|[server_name server_config] servers IH]; intros w.
  - exists (Done tt), w. split; [reflexivity |]. split; [reflexivity |].
    intros key [[] | Hkey]. exact Hkey.
  - cbn [connect_each]. run_mcp.
    match goal with |- context [_connect_single_server ?k ?st ?w1] =>
      set (w1' := w1); set (state := st) in *
    end.
    pose proof (connect_single_server_catches server_name state w1') as Hcatch.
    pose proof (connect_single_server_settles server_name state w1') as Hsettles.
    pose proof (fun J HJ => preserves_connect_single_server J server_name state HJ w1')
      as Hkeeps.
    destruct (_connect_single_server server_name state w1') as [[b | r0] w2];
      cbn [fst snd] in *.
    + destruct (IH w2) as (r & w' & Hrun & Hpost). exists r, w'.
      split; [exact Hrun |]. destruct r as [[] | r0]; [| exact Hpost].
      destruct Hpost as [Hreg Hset]. split.
      * rewrite Hreg.
        rewrite (Hkeeps _ (stable_registered _) eq_refl).
        subst w1'. cbn [self server_states set_server_states].
        rewrite registered_setitem. reflexivity.
      * intros key Hkey. apply Hset.
        destruct (decide (key = server_name)) as [-> | Hne].
        { right. exact (Hsettles b w2 eq_refl). }
        destruct Hkey as [Hin | Hkey].
        { cbn [PyDict.keys List.map fst In] in Hin.
          destruct Hin as [Heq | Hin]; [congruence | left; exact Hin]. }
        right. apply (Hkeeps _ (stable_settled_at key)).
        subst w1'. cbn [self server_states set_server_states].
        intros st. rewrite lookup_setitem_ne by exact Hne. apply Hkey.
    + eexists _, _. split; [reflexivity |]. apply Hcatch. reflexivity.
Qed.

(** X27. [connect_all] keeps a state for every server of the configuration,
    in the order of the configuration and under the name of the server,
    whether it could connect to the server or not: when it returns,
    each of these states has a session or the text of the error that
    kept it from one. Once the configuration is there, no [Exception]
    leaves [connect_all]. *)
Theorem connect_all_keeps_every_server (items servers : list (pystr * pyval)) w :
  mcp_config (self w) = PDict items ->
  dict_get (py "mcpServers") items (PDict []) = PDict servers ->
  server_states (self w) = [] ->
  List.NoDup (PyDict.keys servers) ->
  exists r w',
    connect_all w = (r, w')
    /\ match r with
       | Done _ =>
           Forall2
             (fun server entry =>
                fst entry = fst server
                /\ name (snd entry) = fst server
                /\ config (snd entry) = snd server
                /\ settled (snd entry))
             servers (server_states (self w'))
       | Thrown r0 => is_Exception r0 = false
       end.
Proof.
  intros Hconfig Hservers Hfresh Hnd.
  unfold connect_all. run_mcp. rewrite Hconfig. run_mcp. rewrite Hservers.
  cbn [server_items].
  match goal with |- context [connect_each servers ?w1] =>
    destruct (connect_each_states servers w1) as (r & w' & Hrun & Hpost)
  end.
  exists r, w'. split; [exact Hrun |]. destruct r as [[] | r0]; [| exact Hpost].
  destruct Hpost as [Hreg Hset]. cbn [self server_states set_exit_stack] in Hreg, Hset.
  rewrite Hfresh in Hreg. cbn [registered List.map] in Hreg.
  rewrite update_new in Hreg; cycle 1.
  { unfold PyDict.keys. rewrite List.map_map. exact Hnd. }
  { intros key _ []. }
  cbn [app] in Hreg.
  assert (Hkeys : PyDict.keys (server_states (self w')) = PyDict.keys servers).
  { apply (f_equal PyDict.keys) in Hreg. unfold PyDict.keys, registered in Hreg.
    rewrite !List.map_map in Hreg. exact Hreg. }
  assert (Hall : forall key state,
             In (key, state) (server_states (self w')) -> settled state).
  { intros key state Hin. apply (Hset key).
    - left. rewrite <- Hkeys. unfold PyDict.keys. apply List.in_map_iff.
      exists (key, state). split; [reflexivity | exact Hin].
    - apply in_lookup; [rewrite Hkeys; exact Hnd | exact Hin]. }
  clear Hset Hkeys Hrun. revert Hreg Hall. generalize (server_states (self w')).
  clear. induction servers as [|[k cfg] servers IH]; intros [|[k' st] states];
    cbn [registered List.map fst snd]; try discriminate; [constructor |].
  intros [= -> Hname Hcfg Hrest] Hall. constructor.
  - cbn [fst snd]. repeat split; try assumption. apply (Hall k st). left. reflexivity.
  - apply IH; [exact Hrest |]. intros key state Hin. apply (Hall key state). right. exact Hin.
Qed.

(** Each round of [list_all_tools] adds the name of its server to the
    results, or is left by an error that is no [Exception]. *)
Lemma list_each_keys names : forall results w,
  exists r w',
    list_each names results w = (r, w')
    /\ match r with
       | Done results' =>
           exists tools : list (list pyval),
             length tools = length names
             /\ results' = PyDict.update results (combine names tools)
       | Thrown r0 => is_Exception r0 = false
       end.
Proof.
  induction names as [|server_name names IH]; intros results w.
  - exists (Done results), w. split; [reflexivity |]. exists []. split; reflexivity.
  - cbn [list_each]. unfold mbind at 1, M_bind at 1, try_except.
    destruct ((tools ← _execute_with_retry _list server_name (py "list_tools");
               mret (PyDict.setitem server_name tools results)) w)
      as [[results1 | r0] w1] eqn:Hbody.
    + assert (Hone : exists tools, results1 = PyDict.setitem server_name tools results).
      { revert Hbody. unfold mbind, M_bind.
        destruct (_execute_with_retry _list server_name (py "list_tools") w) as [[tools | r1] w0];
          [| discriminate].
        intros [= <- _]. exists tools. reflexivity. }
      destruct Hone as (tools & ->).
      destruct (IH (PyDict.setitem server_name tools results) w1) as (r & w' & Hrun & Hpost).
      exists r, w'. split; [exact Hrun |]. destruct r as [results' | r1]; [| exact Hpost].
      destruct Hpost as (rest & Hlen & ->). exists (tools :: rest).
      split; [cbn [length]; congruence | reflexivity].
    + destruct (is_Exception r0) eqn:Hr0.
      * cbn [mret M_ret].
        destruct (IH (PyDict.setitem server_name [] results) w1) as (r & w' & Hrun & Hpost).
        exists r, w'. split; [exact Hrun |]. destruct r as [results' | r1]; [| exact Hpost].
        destruct Hpost as (rest & Hlen & ->). exists ([] :: rest).
        split; [cbn [length]; congruence | reflexivity].
      * eexists _, _. split; [reflexivity |]. exact Hr0.
Qed.

(** X28. [list_all_tools] answers for every server that the manager keeps a
    state for, connected or not, in the order of the states: the result
    has exactly their names as its keys, the names of the servers whose
    tools could not be listed among them. No [Exception] leaves
    [list_all_tools]. *)
Theorem list_all_tools_answers_for_every_server w :
  List.NoDup (PyDict.keys (server_states (self w))) ->
  exists r w',
    list_all_tools w = (r, w')
    /\ match r with
       | Done results => PyDict.keys results = PyDict.keys (server_states (self w))
       | Thrown r0 => is_Exception r0 = false
       end.
Proof.
  intros Hnd. unfold list_all_tools. run_mcp.
  destruct (list_each_keys (PyDict.keys (server_states (self w))) [] w)
    as (r & w' & Hrun & Hpost).
  exists r, w'. split; [exact Hrun |]. destruct r as [results | r0]; [| exact Hpost].
  destruct Hpost as (tools & Hlen & ->).
  assert (Hkeys : PyDict.keys (combine (PyDict.keys (server_states (self w))) tools)
                  = PyDict.keys (server_states (self w))).
  { unfold PyDict.keys at 1. symmetry in Hlen. revert Hlen.
    generalize (PyDict.keys (server_states (self w))). clear.
    intros names. revert tools.
    induction names as [|n names IH]; intros [|t tools]; cbn; try discriminate;
      [reflexivity |].
    intros [= Hlen]. f_equal. apply IH. exact Hlen. }
  rewrite update_new; [exact Hkeys | rewrite Hkeys; exact Hnd | intros key _ []].
Qed.

End ManagerStates.

(** X29. The name that [create_langchain_tools] gives a tool starts with the
    name of its server and an underscore, and naming is idempotent: a
    tool that is loaded again keeps the name it was given, without a
    second prefix. *)
Theorem prefixed_name_idempotent (server_name tool_name : pystr) :
  startswith (server_name ++ py "_") (MCP.prefixed_name server_name tool_name) = true
  /\ MCP.prefixed_name server_name (MCP.prefixed_name server_name tool_name)
     = MCP.prefixed_name server_name tool_name.
Proof.
  assert (Hstarts : startswith (server_name ++ py "_")
                      (MCP.prefixed_name server_name tool_name) = true).
  { unfold MCP.prefixed_name.
    destruct (startswith (server_name ++ py "_") tool_name) eqn:Hs; [exact Hs |].
    rewrite app_assoc. apply startswith_app. }
  split; [exact Hstarts |].
  unfold MCP.prefixed_name at 1. rewrite Hstarts. reflexivity.
Qed.

(** ** The further properties on concrete runs *)

(** *** The tasks *)

Section TaskExamples.
Import ListStore ScriptedSession MiniJson MoreExamples.

(** Three iterations of the poller while [lunar] is paused: three sleeps
    of one second, and the mention that the session holds is not
    fetched. *)
Lemma paused_poller_makes_no_call_witness :
  poll_and_store 3 (world_of (manager greeter) paused_store [Returned hello_result])
  = (Ok None,
     mkWorld (manager greeter) paused_store [Returned hello_result] false
       [EvSleep (PInt 1); EvSleep (PInt 1); EvSleep (PInt 1)]).
Proof.
  pose (w := world_of (manager greeter) paused_store [Returned hello_result]).
  assert (Hrun : _running (self w) = true) by reflexivity.
  assert (Hp : stays_paused (agent_name (self w)) (store w) 3)
    by (vm_compute; repeat split).
  exact (paused_poller_makes_no_call 3 w Hrun Hp).
Defined.

(** A reset, a rate limit and a mention in a row: the backoff ends
    within its bounds. *)
Lemma poller_keeps_backoff_in_bounds_witness :
  let w := world_of (manager greeter) ListStore.empty
             [Failed connection_reset; Failed rate_limited; Returned hello_result] in
  backoff_in_bounds (self (snd (poll_and_store 3 w)))
  /\ _poll_backoff_max (self (snd (poll_and_store 3 w))) = 60.
Proof.
  intros w.
  assert (Hb : backoff_in_bounds (self w)) by (vm_compute; repeat split; discriminate).
  exact (poller_keeps_backoff_in_bounds 3 w _ _ Hb (surjective_pairing _)).
Defined.

(** An error that the classifier does not know: a sleep of 5 seconds,
    and a backoff of 10. *)
Lemma failure_outside_rate_limit_backs_off_witness :
  let w := world_of (manager greeter) ListStore.empty [Failed boom] in
  exists w',
    poll_iteration w = (Ok Continue, w')
    /\ trace w' = [EvCallTool (py "messages") (poll_arguments (manager greeter));
                   EvSleep (PInt 5)]
    /\ _poll_backoff (self w') = 10
    /\ _poll_consecutive_errors (self w') = 1
    /\ store w' = ListStore.empty.
Proof.
  intros w.
  assert (Hp : is_agent_paused (agent_name (self w)) (store w) = false)
    by (vm_compute; reflexivity).
  assert (Hc : call_tool (py "messages") (poll_arguments (self w)) (session w)
               = (Failed boom, [])) by reflexivity.
  assert (Hr : is_rate_limit (exc_str boom) = false) by (vm_compute; reflexivity).
  exact (failure_outside_rate_limit_backs_off w boom [] Hp Hc eq_refl Hr).
Defined.

(** A poll that is cancelled: the poller returns, with the mention that
    was to come next left in the session. *)
Lemma poller_stops_on_cancellation_witness :
  poll_and_store 5
    (world_of (manager greeter) ListStore.empty
       [Failed cancellation; Returned hello_result])
  = (Ok (Some tt),
     mkWorld (manager greeter) ListStore.empty [Returned hello_result] false
       [EvCallTool (py "messages") (poll_arguments (manager greeter))]).
Proof.
  pose (w := world_of (manager greeter) ListStore.empty
               [Failed cancellation; Returned hello_result]).
  assert (Hp : is_agent_paused (agent_name (self w)) (store w) = false)
    by (vm_compute; reflexivity).
  assert (Hc : call_tool (py "messages") (poll_arguments (self w)) (session w)
               = (Failed cancellation, [Returned hello_result])) by reflexivity.
  exact (poller_stops_on_cancellation 4 w cancellation _ eq_refl Hp Hc eq_refl).
Defined.

(** Two iterations of the processor under the kill switch, with two
    mentions pending: two sleeps of five seconds. *)
Lemma kill_switch_holds_processor_witness :
  process_queue 2 (mkWorld (manager greeter) (seeded 2) [] true [])
  = (Ok None,
     mkWorld (manager greeter) (seeded 2) [] true [EvSleep (PInt 5); EvSleep (PInt 5)]).
Proof.
  exact (kill_switch_holds_processor 2 (mkWorld (manager greeter) (seeded 2) [] true [])
           eq_refl eq_refl).
Defined.

(** Two pending mentions: the handler is called once, in batch mode, on
    the newer one, and sees both. *)
Lemma handler_sees_queue_snapshot_witness :
  exists r w' tr input out,
    process_iteration (world_of (manager greeter) (seeded 2) []) = (r, w')
    /\ trace w' = tr
    /\ handler_calls tr = [(input, out)]
    /\ h_id input = py "m2"
    /\ queue_messages input = [as_dict (seed_message 2); as_dict (seed_message 1)]
    /\ queue_status_backlog_count input = 2
    /\ batch_mode input = true
    /\ batch_size input = Some 2.
Proof.
  pose (w := world_of (manager greeter) (seeded 2) []).
  assert (Hgate : gate w = Some (seeded 2)) by (vm_compute; reflexivity).
  assert (Hfetch : get_pending_messages lunar 100 desc (seeded 2)
                   = [seed_message 2; seed_message 1]) by (vm_compute; reflexivity).
  destruct (handler_sees_queue_snapshot w (seeded 2) (seed_message 2) [seed_message 1]
              Hgate Hfetch)
    as (r & w' & tr & input & out & Hrun & Htrace & Hcalls & _ & Hid & _ & _ & _
        & Hqueue & _ & Hbacklog & Hmode & Hsize).
  exists r, w', tr, input, out. split; [exact Hrun |]. split; [exact Htrace |].
  split; [exact Hcalls |]. split; [exact Hid |]. split; [exact Hqueue |].
  split; [exact Hbacklog |]. split; [exact Hmode | exact Hsize].
Defined.

(** Two pending mentions and a handler that fails: no tool is called and
    both mentions end processed. *)
Lemma failed_handler_sends_nothing_witness :
  exists w',
    process_iteration (world_of (manager failing) (seeded 2) []) = (Ok Continue, w')
    /\ tool_calls (trace w') = []
    /\ status_of (py "m1") (store w') = Some processed
    /\ status_of (py "m2") (store w') = Some processed.
Proof.
  pose (w := world_of (manager failing) (seeded 2) []).
  assert (Hgate : gate w = Some (seeded 2)) by (vm_compute; reflexivity).
  assert (Hfetch : get_pending_messages lunar 100 desc (seeded 2)
                   = [seed_message 2; seed_message 1]) by (vm_compute; reflexivity).
  destruct (failed_handler_sends_nothing w (seeded 2) (seed_message 2) [seed_message 1]
              (mkExc IsException "ValueError" (py "no model available"))
              Hgate Hfetch eq_refl eq_refl)
    as (w' & tr & Hrun & Htrace & Hcalls & _ & Hstore).
  exists w'. split; [exact Hrun |].
  split; [rewrite Htrace; exact Hcalls |].
  rewrite Hstore. split; vm_compute; reflexivity.
Defined.

(** Two pending mentions and a handler that is cancelled: the processor
    returns, and both mentions stay in the state [processing]. *)
Lemma cancelled_handler_leaves_batch_started_witness :
  exists w',
    process_queue 3 (world_of (manager interrupted) (seeded 2) []) = (Ok (Some tt), w')
    /\ tool_calls (trace w') = []
    /\ status_of (py "m1") (store w') = Some processing
    /\ status_of (py "m2") (store w') = Some processing.
Proof.
  pose (w := world_of (manager interrupted) (seeded 2) []).
  assert (Hgate : gate w = Some (seeded 2)) by (vm_compute; reflexivity).
  assert (Hfetch : get_pending_messages lunar 100 desc (seeded 2)
                   = [seed_message 2; seed_message 1]) by (vm_compute; reflexivity).
  destruct (cancelled_handler_leaves_batch_started 2 w (seeded 2) (seed_message 2)
              [seed_message 1] cancellation eq_refl Hgate Hfetch eq_refl eq_refl)
    as (w' & Hrun & Htrace & _ & Hstore).
  exists w'. split; [exact Hrun |].
  split; [rewrite Htrace; vm_compute; reflexivity |].
  rewrite Hstore. split; vm_compute; reflexivity.
Defined.

End TaskExamples.

(** *** The registry *)

Section RegistryExamples.
Import Registry MoreExamples.

(** The record of [ax-gcp] has a [state] of its own in its metadata:
    the callback is told that state, not [alive]. Its [region] comes
    through, and the name too. *)
Lemma metadata_overrides_payload_fields_witness :
  let payload := state_payload (watching failing_callback) ax_gcp (py "alive")
                   ax_gcp_record in
  PyDict.lookup (py "state") payload = Some (FVal (PStr (py "custom")))
  /\ PyDict.lookup (py "region") payload = Some (FVal (PStr (py "eu")))
  /\ PyDict.lookup (py "name") payload = Some (FVal (PStr ax_gcp)).
Proof.
  intros payload.
  assert (Hkeys : List.NoDup (PyDict.keys (metadata ax_gcp_record))).
  { repeat constructor; vm_compute; intuition discriminate. }
  pose proof (metadata_overrides_payload_fields (watching failing_callback) ax_gcp
                (py "alive") ax_gcp_record 0) as Hfields.
  split; [exact (proj1 (Hfields (py "state") Hkeys)) |].
  split; [exact (proj1 (Hfields (py "region") Hkeys)) |].
  exact (proj1 (Hfields (py "name") Hkeys)).
Defined.

(** The registry of a manager registers nothing: a beat for [ax-gcp]
    leaves it as it is. *)
Lemma bookkeeping_keeps_the_names_witness :
  let reg := init (py "mcp") (Some MCP.liveness_callback) in
  beat 7 ax_gcp reg = (Ok tt, reg)
  /\ _order (snd (beat 7 ax_gcp reg)) = [].
Proof.
  intros reg.
  assert (Hwf : well_formed reg).
  { split; [apply NoDup_nil_2 |]. intros nm. cbn. rewrite lookup_empty.
    split; [intros Hin; inversion Hin | intros [x Hx]; discriminate]. }
  destruct (bookkeeping_keeps_the_names reg ax_gcp 7 (beat 7 ax_gcp) Hwf
              (or_introl eq_refl))
    as (_ & Horder & _ & _ & Hnone).
  split; [apply Hnone; apply lookup_empty | exact Horder].
Defined.

(** After a beat at second 100 the record of [ax-gcp], with its timeout
    of 30 seconds, is alive at second 130 and dead a microsecond
    later. *)
Lemma heartbeat_keeps_alive_for_timeout_witness :
  let reg' := snd (beat 100000000 ax_gcp (watching failing_callback)) in
  exists record',
    _records reg' !! ax_gcp = Some record'
    /\ consecutive_misses record' = 0
    /\ is_alive 130000000 record' = true
    /\ is_alive 130000001 record' = false.
Proof.
  intros reg'.
  assert (Hrecord : _records (watching failing_callback) !! ax_gcp = Some ax_gcp_record)
    by apply lookup_insert_eq.
  assert (Hwf : well_formed (watching failing_callback)).
  { split; [apply NoDup_singleton |].
    intros nm. change (_order (watching failing_callback)) with [ax_gcp].
    change (_records (watching failing_callback))
      with (<[ax_gcp := ax_gcp_record]> (∅ : gmap pystr LivenessRecord)).
    rewrite list_elem_of_singleton. split.
    - intros ->. rewrite lookup_insert_eq. eexists. reflexivity.
    - intros [record Hrec]. destruct (decide (nm = ax_gcp)) as [-> | Hne]; [reflexivity |].
      rewrite lookup_insert_ne in Hrec by congruence. rewrite lookup_empty in Hrec.
      discriminate. }
  destruct (heartbeat_keeps_alive_for_timeout (watching failing_callback) ax_gcp
              ax_gcp_record 100000000 Hwf Hrecord)
    as (record' & Hrec & Hmiss & _ & Halive & _).
  exists record'. split; [exact Hrec |]. split; [exact Hmiss |].
  rewrite !Halive. split; reflexivity.
Defined.

(** A callback that always fails: the beat returns normally and the
    record has its heartbeat. *)
Lemma callback_failures_are_swallowed_witness :
  let reg := watching failing_callback in
  fst (beat 100000000 ax_gcp reg) = Ok tt
  /\ _records (snd (beat 100000000 ax_gcp reg))
     = <[ax_gcp := Liveness.beat 100000000 ax_gcp_record]> (_records reg)
  /\ fst (mark_dead ax_gcp reg) = Ok tt
  /\ length (calls (snd (mark_dead ax_gcp reg))) = 1%nat.
Proof.
  intros reg.
  assert (Hraises : forall payload e,
             failing_callback ax_gcp payload = Some e -> is_exception e = true).
  { intros payload e [= <-]. reflexivity. }
  assert (Hrecord : _records reg !! ax_gcp = Some ax_gcp_record)
    by apply lookup_insert_eq.
  destruct (callback_failures_are_swallowed reg ax_gcp ax_gcp_record 100000000
              failing_callback Hrecord eq_refl Hraises)
    as ((Hbeat & Hrecords & _) & _ & (Hdead & _ & _ & Hcalls)).
  split; [exact Hbeat |]. split; [exact Hrecords |]. split; [exact Hdead |].
  rewrite Hcalls. reflexivity.
Defined.

(** The first registration of [ax-gcp]: it goes last in the summary and
    is not alive. *)
Lemma register_starts_without_heartbeat_witness :
  let reg := init (py "mcp") None in
  let reg' := fst (register ax_gcp 30000000 None reg) in
  let record := snd (register ax_gcp 30000000 None reg) in
  _records reg' !! ax_gcp = Some record
  /\ metadata record = []
  /\ is_alive 0 record = false
  /\ _order reg' = [ax_gcp].
Proof.
  intros reg reg' record.
  assert (Hwf : well_formed reg).
  { split; [apply NoDup_nil_2 |]. intros nm. cbn. rewrite lookup_empty.
    split; [intros Hin; inversion Hin | intros [x Hx]; discriminate]. }
  destruct (register_starts_without_heartbeat reg ax_gcp 30000000 None Hwf)
    as (_ & Hrec & _ & _ & Hmd & _ & Halive & _ & Horder & _).
  split; [exact Hrec |]. split; [exact Hmd |]. split; [exact (Halive 0) |].
  exact Horder.
Defined.

End RegistryExamples.

(** *** The manager *)

Section ManagerExamples.
Import MCP MCPSpec ScriptedServers MoreExamples.

(** A call of a tool of a server that the manager never heard of, with
    the defaults of the policy: three failed attempts, sleeps of 2, 4
    and 6 seconds, and the [RuntimeError]. *)
Lemma unknown_server_exhausts_retries_witness :
  exists tr,
    MCP.call_tool (py "filesystem") (py "read") (PDict [])
      (MCP.mkWorld fresh_manager ([] : ScriptedServers.t) [])
    = (Thrown (operation_failed (py "filesystem") (py "call_tool:read") 3),
       MCP.mkWorld fresh_manager [] tr)
    /\ sleeps tr = [PFloat 2; PFloat 4; PFloat 6]
    /\ operations tr = O.
Proof.
  pose (w := MCP.mkWorld fresh_manager ([] : ScriptedServers.t) []).
  assert (Hdelays : linear_delays (reconnect_backoff (MCP.self w))
                      (attempts (max_operation_retries (MCP.self w)))
                      [NFloat 2; NFloat 4; NFloat 6]).
  { unfold linear_delays. change (attempts _) with [1; 2; 3].
    repeat constructor; vm_compute; reflexivity. }
  destruct (unknown_server_exhausts_retries
              (fun s => MCP.session_call_tool s (py "read") (PDict []))
              (py "filesystem") (py "call_tool:read") w _
              eq_refl eq_refl (lookup_empty _) Hdelays)
    as (tr & Hrun & _ & Hsleeps & Hops & _).
  exists tr. split; [exact Hrun |]. split; [exact Hsleeps | exact Hops].
Defined.

(** A tool of [ax-gcp] that times out once and then answers: the call
    returns the answer after one sleep of 2 seconds, and has called the
    tool twice on the session that was there. *)
Lemma timeouts_retry_on_the_same_session_witness :
  exists tr,
    MCP.call_tool ax_gcp (py "messages") (PDict [])
      (MCP.mkWorld connected_manager [Thrown timed_out; Done (PStr (py "ok"))] [])
    = (Done (PStr (py "ok")), MCP.mkWorld connected_manager [] tr)
    /\ sleeps tr = [PFloat 2]
    /\ operations tr = 2%nat
    /\ connects tr = O.
Proof.
  pose (w := MCP.mkWorld connected_manager
               ([Thrown timed_out; Done (PStr (py "ok"))] : ScriptedServers.t) []).
  assert (Hdelays : linear_delays (reconnect_backoff (MCP.self w))
                      (firstn 1 (attempts (max_operation_retries (MCP.self w))))
                      [NFloat 2]).
  { unfold linear_delays. change (firstn _ _) with [1].
    repeat constructor; vm_compute; reflexivity. }
  assert (Htimeouts : Forall (fun a : result pyval =>
                                exists r, a = Thrown r /\ is_TimeoutError r = true)
                        [Thrown timed_out]).
  { repeat constructor. exists timed_out. split; reflexivity. }
  assert (Hanswers : operation_answers
                       (fun s => MCP.session_call_tool s (py "messages") (PDict []))
                       1%nat (MCP.env w)
                       ([Thrown timed_out] ++ [Done (PStr (py "ok"))]) []).
  { cbn. eexists. split; [reflexivity |]. eexists. split; reflexivity. }
  assert (Hfew : Z.of_nat (length [@Thrown pyval timed_out])
                 < max_operation_retries (MCP.self w)) by (vm_compute; reflexivity).
  destruct (timeouts_retry_on_the_same_session
              (fun s => MCP.session_call_tool s (py "messages") (PDict []))
              ax_gcp (py "call_tool:messages") w 1%nat [Thrown timed_out]
              (Some (PStr (py "ok"))) [NFloat 2] []
              eq_refl (lookup_empty _) Htimeouts Hanswers Hfew Hdelays)
    as (tr & Hrun & Hsleeps & _ & Hops & Hconns).
  exists tr. split; [exact Hrun |]. split; [exact Hsleeps |].
  split; [exact Hops | exact Hconns].
Defined.

(** Reconnecting to [ax-gcp] while it refuses every connection, with
    the defaults of the policy: sleeps of 2, 4 and 8 seconds, at most
    three attempts to connect, and the answer false. *)
Lemma reconnect_backs_off_exponentially_witness :
  exists w' tr,
    _attempt_reconnect ax_gcp (new_state ax_gcp (PDict []))
      (MCP.mkWorld disconnected_manager ([] : ScriptedServers.t) [])
    = (Done false, w')
    /\ MCP.trace w' = tr
    /\ sleeps tr = [PFloat 2; PFloat 4; PFloat 8]
    /\ (connects tr <= 3)%nat.
Proof.
  pose (w := MCP.mkWorld disconnected_manager ([] : ScriptedServers.t) []).
  assert (Hdelays : doubling_delays (reconnect_backoff (MCP.self w))
                      (attempts (max_operation_retries (MCP.self w)))
                      [NFloat 2; NFloat 4; NFloat 8]).
  { unfold doubling_delays. change (attempts _) with [1; 2; 3].
    repeat constructor; vm_compute; reflexivity. }
  destruct (reconnect_backs_off_exponentially ax_gcp (new_state ax_gcp (PDict [])) w _
              Hdelays)
    as (r & w' & n & tr & Hrun & Htrace & _ & Hsleeps & Hconns & _ & Hn).
  assert (Hr : fst (_attempt_reconnect ax_gcp (new_state ax_gcp (PDict [])) w)
               = Done false) by (vm_compute; reflexivity).
  rewrite Hrun in Hr. cbn [fst] in Hr. subst r. subst n.
  exists w', tr. split; [exact Hrun |]. split; [exact Htrace |].
  split; [exact Hsleeps | exact Hconns].
Defined.

(** Two servers that refuse every connection: [connect_all] returns,
    and both have their state, with the error. *)
Lemma connect_all_keeps_every_server_witness :
  exists w',
    connect_all (MCP.mkWorld configured_manager ([] : ScriptedServers.t) [])
    = (Done tt, w')
    /\ Forall2
         (fun server entry =>
            fst entry = fst server
            /\ MCP.name (snd entry) = fst server
            /\ MCP.config (snd entry) = snd server
            /\ settled (snd entry))
         two_servers (server_states (MCP.self w')).
Proof.
  pose (w := MCP.mkWorld configured_manager ([] : ScriptedServers.t) []).
  assert (Hnd : List.NoDup (PyDict.keys two_servers)).
  { repeat constructor; vm_compute; intuition discriminate. }
  destruct (connect_all_keeps_every_server _ two_servers w eq_refl eq_refl eq_refl Hnd)
    as (r & w' & Hrun & Hstates).
  assert (Hr : fst (connect_all w) = Done tt) by (vm_compute; reflexivity).
  rewrite Hrun in Hr. cbn [fst] in Hr. subst r.
  exists w'. split; [exact Hrun | exact Hstates].
Defined.

(** A server that refuses every connection: its tools cannot be listed,
    and it is in the result all the same. *)
Lemma list_all_tools_answers_for_every_server_witness :
  exists results w',
    list_all_tools (MCP.mkWorld disconnected_manager ([] : ScriptedServers.t) [])
    = (Done results, w')
    /\ PyDict.keys results = [ax_gcp].
Proof.
  pose (w := MCP.mkWorld disconnected_manager ([] : ScriptedServers.t) []).
  assert (Hnd : List.NoDup (PyDict.keys (server_states (MCP.self w)))).
  { repeat constructor. intros []. }
  destruct (list_all_tools_answers_for_every_server w Hnd) as (r & w' & Hrun & Hkeys).
  assert (Hr : exists results, fst (list_all_tools w) = Done results).
  { eexists. vm_compute. reflexivity. }
  destruct Hr as (results & Hr). rewrite Hrun in Hr. cbn [fst] in Hr. subst r.
  exists results, w'. split; [exact Hrun | exact Hkeys].
Defined.

End ManagerExamples.
